(* ===== verification/_CoqProject ===== *)
-Q . S2P
Prelude.v
Seq.v
Rtp.v
RtcpCodec.v
RtcpReports.v
Sdes.v
RtcpNack.v
RtcpApp.v
Rtcp.v
Ring.v
Reorder.v
ReorderSpec.v
ReorderProps.v
Retransmit.v
NackSched.v
Bonding.v
Rtt.v
Float64.v
Float64Props.v
RtcpState.v
Guard.v
Channel.v
Config.v
Net.v
MainProfile.v
Sender.v
SenderProps.v
NackServe.v
Receiver.v
ReceiverProps.v
ReceiverRun.v
Socket.v
SocketProps.v
System.v
Rounds.v
Threads.v
ThreadsProps.v
ThreadsOrder.v
ThreadsLive.v
Balance.v
EndToEnd.v
Examples.v
ExamplesProps.v
TestsPacket.v
TestsProtocol.v
