(* ===== verification/Prelude.v ===== *)
(** * bilbycast-rist: a verification development

    The repository implements the RIST Simple Profile (VSF TR-06-1): media in RTP over UDP,
    with loss recovery by NACKs over RTCP.  The crate rist-protocol (src/rist-protocol/src)
    holds the packet formats and the protocol state without I/O; rist-transport
    (src/rist-transport/src) runs a sender and a receiver task around it.

    ** How the parts interact

    The sender task numbers the application's payloads, wraps them in RTP, keeps a copy in
    the retransmit buffer and sends them.  The receiver task admits datagrams by source,
    inserts them into the reorder buffer and tells the NACK scheduler about each sequence
    number; a delivery thread drains the reorder buffer in order once packets have been held
    for the buffer time.  A fast timer of the receiver asks the scheduler which numbers are
    due, packs them into a NACK and sends it behind a receiver report; the sender looks the
    numbers up in its retransmit buffer, under a budget per datagram, and resends them with
    the retransmit flag.  Both sides exchange reports (SR, RR, SDES) and RTT echoes; the
    RTT estimate sets the delay of NACK retries.  A bonding merger deduplicates the packets
    of several receivers.  The application creates a socket as a sender or as a receiver
    (socket.rs, listener.rs); the socket binds the port pair (channel.rs), spawns the task and
    talks to it through a bounded channel and shared counters (stats.rs).  The receive task and
    the delivery thread share the reorder buffer under a mutex with a condition variable.

    ** Files, and the code they model

    - [Prelude] (this file): machine integers, bit fields, byte buffers, the outcome monad
      [exec], time; the errors of error.rs.
    - [Seq]: packet/seq.rs, serial numbers.
    - [Rtp]: packet/rtp.rs and rtp_ext.rs.
    - [RtcpCodec]: the common header of packet/rtcp.rs, and the class [RtcpCodec] with its
      laws [RtcpCodecLaws]: what the compound parser expects of a sub-packet type.
    - [RtcpReports] (rtcp_sr.rs, rtcp_rr.rs), [Sdes] (rtcp_sdes.rs), [RtcpNack]
      (rtcp_nack.rs), [RtcpApp] (rtcp_app.rs): the sub-packet types, each an instance.
    - [Rtcp]: RtcpCompound of packet/rtcp.rs, proved against the class.
    - [Ring]: the addressing [seq & (capacity - 1)] the three rings share.
    - [Reorder]: protocol/reorder.rs.  [ReorderSpec] specifies the buffer as a queue of
      cells, with the invariant [wf] and the abstraction [abs]; [ReorderProps] has the
      theorems.
    - [Retransmit]: RetransmitBuffer of protocol/nack_tracker.rs, and the class
      [RetransmitStore] with the laws the sender relies on.
    - [NackSched]: NackScheduler of protocol/nack_tracker.rs; [tracked] reads its ring as a
      map from numbers to (due time, NACKs sent).
    - [Bonding]: protocol/bonding.rs, specified by the set of emitted indices.
    - [Rtt]: protocol/rtt.rs.
    - [Float64]: the f64 operations of the receiver statistics, on the binary64
      specification of the Standard Library.  [Float64Props]: their rounding error on the
      quotients the loss fraction is computed from.
    - [RtcpState]: protocol/rtcp_state.rs.
    - [Guard]: guard.rs (admission and the retransmit budget), [rtcp_addr_for] of channel.rs,
      the counters of stats.rs and their updates.
    - [Channel]: channel.rs, both sockets created over the calls of the operating system (the
      record [udp_os], which passes a state on; its documented behaviour is [udp_laws]).
    - [Config]: the two config.rs.  [MainProfile]: the declarations of gre/, crypto/,
      protocol/tunnel.rs, null_delete.rs, stats.rs and of the transport's dtls_channel.rs,
      tunnel_task.rs, bonding_task.rs, stats_poller.rs.
    - [Sender] and [SenderProps]: sender.rs, one definition per arm of the task's loop,
      over any [RetransmitStore].  [NackServe]: the loop that serves a NACK, against a
      reference in list operations.
    - [Receiver] and [ReceiverProps]: receiver.rs, one definition per arm, and the turn of
      the delivery thread.  [ReceiverRun]: the arms and the drains as one step function, and
      its runs.
    - [Socket] and [SocketProps]: socket.rs, listener.rs, the snapshot of stats.rs, and the
      spawning functions of sender.rs and receiver.rs, over any channel of the class [Mpsc].
    - [System]: sender and receiver together.  [Rounds]: recovery over several NACK rounds.
    - [Threads]: the receive task and the delivery thread of receiver.rs as a small-step
      semantics: a program counter per thread, one step per observable action, and the
      environment (clock, cancellation, bursts, spurious wake-ups).  [ThreadsProps]: mutual
      exclusion, wake-ups and shutdown; [ThreadsOrder]: the interleavings refine sequential
      runs; [ThreadsLive]: progress.
    - [Balance]: where every packet and every missing number goes, and what the receiver's
      statistics say of it.
    - [EndToEnd]: the sender task, a network as a bag of datagrams, and the receiver's threads,
      as one step relation with ghost indices.
    - [Net]: [SocketAddr::from_str] of the standard library.  [Examples] and [ExamplesProps]:
      the four programs of rist-transport/examples, arguments, set-up and loop body each,
      and the two interop programs with everything between them.
    - [TestsPacket] and [TestsProtocol]: every [#[test]] function of the two crates, as an
      executable definition.

    ** Conventions

    A Rust integer is a [Z] in the range of its type; casts and the overflow of the release
    profile are written out ([as_u16], [wrapping_add16], ...).  Slices and [Buf] reads out of
    range are [Panic], errors are [Err].  [Instant]s and [Duration]s are nanoseconds.  What
    the environment decides is an argument: every clock reading, random draw, received
    datagram, the outcome of each send and whether the delivery channel has room.  The
    operating system's socket calls are the record [udp_os]; a datagram longer than the buffer
    it is read into is cut ([recv_into]: 2048 bytes in both tasks); tokio's channel is the class
    [Mpsc] with its documented behaviour as laws, and [list_chan] an instance; what an [Arc]
    shares between a socket and its task is in the store [shared].  A ring is a
    list of [capacity] slots; reads through [ring_get] are in range under the invariants.
    [ReceiverRun] takes each critical section on the shared reorder buffer as one event;
    [Threads] models the locking itself and [threads_deliver_in_order] relates its
    interleavings to sequential runs.

    Loops are structural, except where noted: [drain_loop] has fuel 65537, enough from every
    state ([drain_ready_terminates]); [lossy_fuel], [build_bitmask_loop] and
    [build_range_loop] take the length of their input, of which each turn consumes at least
    one element; [compound_loop] recurses on the number of sub-packets still allowed (64),
    which is the loop's own bound.  The theorems on the reorder buffer take capacities up to
    16384 (the code uses 8192), for which a whole window stays below half of the sequence
    space.

    ** What the theorems show

    - End to end: [loss_recovery_end_to_end] follows a lost packet from the receiver's NACK
      pump (at most 501 pending numbers, beyond which a request may not fit the sender's buffer)
      to the sender's retransmission, back into the gap and to the application.
      [system_lossy_fifo]: whatever the network loses, repeats, delays or reorders within the
      window (less than 8192 ahead of the newest packet inserted, at most 32768 behind), the
      receiving application gets a subsequence of what was sent, each payload cut to 2036
      bytes; [interop_chain_lossy_fifo] extends this to the example programs on both ends,
      with the bounded channels.  [nack_rounds_persist]: a missing number is asked for in every
      round up to the retry limit, and a request of at most 501 numbers that gets through to
      the sender it names is answered.
    - Reorder buffer: [insert] refines the queue on every branch but the jump of
      [jump_after_drain_loses_packet], [drain_ready] without exception; over every run without
      that jump delivery is in order, without repetition, and of packets that arrived; the
      loop terminates; the deadline is exact while something is buffered.
    - Threads: every interleaving without that jump delivers as a sequential run does, and a
      due packet is handed over within a bounded number of steps; the mutex excludes, no data
      wake-up is lost, and shutdown completes unless it hits the window of
      [shutdown_wakeup_lost].
    - Retransmission: the sender's ring is a sliding window over streams of any length; gap
      detection and the NACK scan are exact on the map of tracked numbers; retries are bounded
      over every run; serving a NACK equals its reference.
    - Wire formats: RTP headers, RTP packets and RTCP compounds round-trip; no datagram can
      panic a parser; a compound yields one packet per frame and is bounded; range NACKs are
      capped; builders pack exactly the numbers they are given.
    - Tasks: media on the wire is authentic in every run of the sender, the work a control
      datagram can cause is bounded, the control peer is held down; bursts carry only
      their own source; delivery turns are sound; no run of the receiver panics, and what it
      sends decodes and, with a configured sender, goes to that host only.
    - Sockets: what the application sends is numbered and transmitted in order; a socket used
      in the other role reports it; binding is exact, and leaves nothing behind when it fails.
    - Statistics and clocks: the receiver's counters balance (again without that jump); loss
      accounting of reports, with the exact loss fraction; RTT estimation over every run of
      requests and responses, the clock mapping of sender reports, exactly-once bonding.
    - Departures of the code from its documentation or purpose are theorems too:
      [jump_after_drain_loses_packet], [drained_buffer_deadline_is_now],
      [shutdown_wakeup_lost], [oversized_nack_is_lost], [rtp_displaces_live_control_peer],
      [nack_pending_overcounts], [jitter_clock_saturates], [seq_lt_is_reversed], and parts of
      [channel_bind_exact], [rtt_exchange] and [statistics_balance].
    - As a validation of the model, [unit_tests_pass] evaluates every unit test of the
      repository on it.

    ** Not modelled

    The scheduling of tokio's tasks and logging; the [Debug] and [Display] texts; the module
    declarations of the lib.rs and mod.rs files; the pacing and the output text of the
    examples; the integration tests (rist-transport/tests), whose outcome depends on real
    sockets and timers, and whose assertions on order and admission hold of every run by
    [system_lossy_fifo], [nack_work_bounded], [serve_nack_equiv], [sender_peer_hold_down] and
    [rtp_burst_exact].  In [EndToEnd] the receiver stays with one source.  A snapshot of the
    counters is taken load by load, but the tasks' own updates are modelled in program order
    only.

    ** Plan

    Next: theorems for the findings that have none (header extensions in [parse_rtp], late
    packets in the jitter estimate); the receiver's control side (NACKs, reports, echoes) inside
    the composition of [EndToEnd]; the scenarios of the integration tests as executable
    runs. *)

From stdpp Require Export base tactics numbers list option strings.
From Stdlib Require Export ZArith Lia.

#[export] Set Default Proof Using "Type".

Declare Scope rist_scope.
Delimit Scope rist_scope with rist.
#[global] Open Scope Z_scope.

(** ** Machine integers

    A Rust integer is a [Z] in the range of its type.  Casts and the
    [wrapping_*] operations write the reduction out. *)

Definition is_u8 (z : Z) : Prop := 0 <= z < 256.
Definition is_u16 (z : Z) : Prop := 0 <= z < 65536.
Definition is_u32 (z : Z) : Prop := 0 <= z < 4294967296.
Definition is_u64 (z : Z) : Prop := 0 <= z < 18446744073709551616.
Definition is_i32 (z : Z) : Prop := -2147483648 <= z < 2147483648.

Definition as_u8 (z : Z) : Z := z mod 256.
Definition as_u16 (z : Z) : Z := z mod 65536.
Definition as_u32 (z : Z) : Z := z mod 4294967296.
Definition as_u64 (z : Z) : Z := z mod 18446744073709551616.
(** [z as i16]: the representative of [z] modulo 2^16 in [-2^15, 2^15). *)
Definition as_i16 (z : Z) : Z := (z + 32768) mod 65536 - 32768.
Definition as_i32 (z : Z) : Z := (z + 2147483648) mod 4294967296 - 2147483648.

Definition wrapping_add16 (a b : Z) : Z := as_u16 (a + b).
Definition wrapping_sub16 (a b : Z) : Z := as_u16 (a - b).

Definition u8_max : Z := 255.
Definition u16_max : Z := 65535.
Definition u32_max : Z := 4294967295.
Definition u64_max : Z := 18446744073709551615.

Infix "+16" := wrapping_add16 (at level 50, left associativity) : rist_scope.
Infix "-16" := wrapping_sub16 (at level 50, left associativity) : rist_scope.

(** [b as u8] for a [bool]. *)
Definition bool_as_u8 (b : bool) : Z := if b then 1 else 0.

(** [usize::next_power_of_two] (0 and 1 give 1). *)
Definition next_power_of_two (n : Z) : Z := 2 ^ Z.log2_up n.

Create HintDb rist.
Create Rewrite HintDb bits.
Create Rewrite HintDb rist_rw.

(** Linear arithmetic after the integer wrappers are unfolded and every
    [mod]/[div] is replaced by its defining equation. *)
Ltac unfold_int :=
  unfold wrapping_add16, wrapping_sub16, is_u8, is_u16, is_u32, is_u64, is_i32,
    as_u8, as_u16, as_u32, as_u64, as_i16, as_i32,
    u8_max, u16_max, u32_max, u64_max in *.
Ltac ulia := intros; unfold_int; Z.to_euclidean_division_equations; lia.

(** Case analysis on every boolean comparison of integers in sight. *)
Ltac case_cmp :=
  repeat match goal with
  | |- context [Z.ltb ?a ?b] => destruct (Z.ltb_spec a b)
  | |- context [Z.leb ?a ?b] => destruct (Z.leb_spec a b)
  | |- context [Z.eqb ?a ?b] => destruct (Z.eqb_spec a b)
  | H : context [Z.ltb ?a ?b] |- _ => destruct (Z.ltb_spec a b)
  | H : context [Z.leb ?a ?b] |- _ => destruct (Z.leb_spec a b)
  | H : context [Z.eqb ?a ?b] |- _ => destruct (Z.eqb_spec a b)
  end; cbn [negb andb orb] in *.

Lemma as_u8_range z : is_u8 (as_u8 z).
Proof. ulia. Qed.
Lemma as_u16_range z : is_u16 (as_u16 z).
Proof. ulia. Qed.
Lemma as_u32_range z : is_u32 (as_u32 z).
Proof. ulia. Qed.
Lemma as_u64_range z : is_u64 (as_u64 z).
Proof. ulia. Qed.
Lemma as_u16_id z : is_u16 z → as_u16 z = z.
Proof. ulia. Qed.
Lemma as_u32_id z : is_u32 z → as_u32 z = z.
Proof. ulia. Qed.
Lemma as_i16_range z : -32768 <= as_i16 z < 32768.
Proof. ulia. Qed.
Lemma wrapping_add16_range a b : is_u16 (wrapping_add16 a b).
Proof. ulia. Qed.
Lemma wrapping_sub16_range a b : is_u16 (wrapping_sub16 a b).
Proof. ulia. Qed.

#[export] Hint Resolve as_u8_range as_u16_range as_u32_range as_u64_range
  wrapping_add16_range wrapping_sub16_range : rist.

(** ** Bit fields

    The masks and shifts of the packet code, as division and remainder. *)

Lemma land_1 z : Z.land z 1 = z mod 2.
Proof. apply (Z.land_ones z 1). lia. Qed.
Lemma land_3 z : Z.land z 3 = z mod 4.
Proof. apply (Z.land_ones z 2). lia. Qed.
Lemma land_15 z : Z.land z 15 = z mod 16.
Proof. apply (Z.land_ones z 4). lia. Qed.
Lemma land_31 z : Z.land z 31 = z mod 32.
Proof. apply (Z.land_ones z 5). lia. Qed.
Lemma land_127 z : Z.land z 127 = z mod 128.
Proof. apply (Z.land_ones z 7). lia. Qed.
Lemma land_65535 z : Z.land z 65535 = z mod 65536.
Proof. apply (Z.land_ones z 16). lia. Qed.
Lemma land_16777215 z : Z.land z 16777215 = z mod 16777216.
Proof. apply (Z.land_ones z 24). lia. Qed.

Lemma shiftr_div z k : 0 <= k → Z.shiftr z k = z / 2 ^ k.
Proof. apply Z.shiftr_div_pow2. Qed.
Lemma shiftl_mul z k : 0 <= k → Z.shiftl z k = z * 2 ^ k.
Proof. apply Z.shiftl_mul_pow2. Qed.

#[export] Hint Rewrite land_1 land_3 land_15 land_31 land_127 land_65535
  land_16777215 : bits.
#[export] Hint Rewrite shiftr_div shiftl_mul using lia : bits.

(** Disjoint fields: [or] of a multiple of [2^k] and a smaller value is their sum. *)
Lemma lor_add_high a b k :
  0 <= k → 0 <= b < 2 ^ k → Z.lor (a * 2 ^ k) b = a * 2 ^ k + b.
Proof.
  intros Hk Hb. symmetry. apply Z.add_nocarry_lor.
  rewrite <- Z.shiftl_mul_pow2 by lia.
  apply Z.bits_inj'. intros n Hn.
  rewrite Z.land_spec, Z.bits_0, Z.shiftl_spec by lia.
  destruct (Z.ltb_spec n k).
  - by rewrite (Z.testbit_neg_r a) by lia.
  - rewrite <- (Z.mod_small b (2 ^ k)), Z.mod_pow2_bits_high by lia. apply andb_false_r.
Qed.

(** The same with the multiple given as a number: [Z.lor x y = x + y]. *)
Lemma lor_add x y k :
  0 <= k → x mod 2 ^ k = 0 → 0 <= y < 2 ^ k → Z.lor x y = x + y.
Proof.
  intros Hk Hx Hy. rewrite (Z.div_mod x (2 ^ k)) by lia.
  rewrite Hx, Z.add_0_r, Z.mul_comm. by apply lor_add_high.
Qed.

Lemma log2_bound z k : 0 < k → 0 <= z < 2 ^ k → Z.log2 z < k.
Proof.
  intros. destruct (Z.eq_dec z 0) as [->|]; [cbn; lia|]. apply Z.log2_lt_pow2; lia.
Qed.

Lemma lor_u32 a b : is_u32 a → is_u32 b → is_u32 (Z.lor a b).
Proof.
  unfold is_u32. change 4294967296 with (2 ^ 32). intros. split; [apply Z.lor_nonneg; lia|].
  apply (Z.log2_lt_cancel _ (2 ^ 32)). rewrite Z.log2_lor by lia. change (Z.log2 (2 ^ 32)) with 32.
  apply Z.max_lub_lt; apply log2_bound; lia.
Qed.

(** ** Lists *)

(** ** Errors and panics

    [exec A] is the outcome of a Rust computation returning [Result<A, RistError>]:
    a value, an error value, or a panic (slice index or [Buf] read out of
    range). *)

Inductive RistError : Type :=
  | PacketTooShort (expected actual : Z)
  | InvalidRtpVersion (v : Z)
  | InvalidRtcpType (t : Z)
  | InvalidRtcpLength (header_len actual : Z)
  | InvalidNackFormat (fmt : Z)
  | InvalidPort (port : Z)
  | BufferOverflow
  | TunnelError (msg : string)
  | CryptoError (msg : string)
  | Other (msg : string).

#[export] Instance RistError_eq_dec : EqDecision RistError.
Proof. solve_decision. Defined.

Inductive exec (A : Type) : Type :=
  | Ok (a : A)
  | Err (e : RistError)
  | Panic.
Arguments Ok {A} a.
Arguments Err {A} e.
Arguments Panic {A}.

#[export] Instance exec_ret : MRet exec := @Ok.
#[export] Instance exec_bind : MBind exec := λ A B f m,
  match m with Ok a => f a | Err e => Err e | Panic => Panic end.
#[export] Instance exec_fmap : FMap exec := λ A B f m,
  match m with Ok a => Ok (f a) | Err e => Err e | Panic => Panic end.

(** [Result::unwrap_or_else]: an error becomes a value, a panic stays a panic. *)
Definition unwrap_or_else {A} (m : exec A) (f : RistError → A) : exec A :=
  match m with Ok a => Ok a | Err e => Ok (f e) | Panic => Panic end.

Definition no_panic {A} (m : exec A) : Prop := m ≠ Panic.

Lemma no_panic_bind {A B} (m : exec A) (f : A → exec B) :
  no_panic m → (∀ a, m = Ok a → no_panic (f a)) → no_panic (m ≫= f).
Proof. unfold no_panic. destruct m; naive_solver. Qed.

(** ** Byte buffers

    [&[u8]] and [Bytes] are lists of bytes; the [Buf] readers panic when the
    buffer is too short, the [BufMut] writers append in network order. *)

Abbreviation bytes := (list Z).
Definition bytes_ok (b : bytes) : Prop := Forall is_u8 b.

Definition blen (b : bytes) : Z := Z.of_nat (length b).

(** What [recv_from] leaves in a buffer of [size] bytes: a longer datagram is cut. *)
Definition recv_into (size : Z) (datagram : bytes) : bytes := take (Z.to_nat size) datagram.
#[global] Arguments recv_into : simpl never.
#[global] Strategy 1000 [recv_into].

Definition get_u8 (r : bytes) : exec (Z * bytes) :=
  match r with
  | b0 :: r' => Ok (b0, r')
  | _ => Panic
  end.
Definition get_u16 (r : bytes) : exec (Z * bytes) :=
  match r with
  | b0 :: b1 :: r' => Ok (b0 * 256 + b1, r')
  | _ => Panic
  end.
Definition get_u32 (r : bytes) : exec (Z * bytes) :=
  match r with
  | b0 :: b1 :: b2 :: b3 :: r' => Ok (((b0 * 256 + b1) * 256 + b2) * 256 + b3, r')
  | _ => Panic
  end.

Definition put_u8 (z : Z) : bytes := [z].
Definition put_u16 (z : Z) : bytes := [z / 256; z mod 256].
Definition put_u32 (z : Z) : bytes :=
  [z / 16777216; z / 65536 mod 256; z / 256 mod 256; z mod 256].

(** [&buf[a..]]: panics past the end. *)
Definition slice_from (b : bytes) (a : Z) : exec bytes :=
  if blen b <? a then Panic else Ok (drop (Z.to_nat a) b).
(** [&buf[a..e]]. *)
Definition slice (b : bytes) (a e : Z) : exec bytes :=
  if (e <? a) || (blen b <? e) then Panic
  else Ok (take (Z.to_nat (e - a)) (drop (Z.to_nat a) b)).
(** [buf[i]]. *)
Definition index (b : bytes) (i : Z) : exec Z :=
  match b !! Z.to_nat i with Some x => Ok x | None => Panic end.

Lemma get_put_u8 z r : get_u8 (put_u8 z ++ r) = Ok (z, r).
Proof. done. Qed.
Lemma get_put_u16 z r : is_u16 z → get_u16 (put_u16 z ++ r) = Ok (z, r).
Proof. intros Hz. cbn. do 2 f_equal. ulia. Qed.
Lemma get_put_u32 z r : is_u32 z → get_u32 (put_u32 z ++ r) = Ok (z, r).
Proof. intros Hz. cbn. do 2 f_equal. ulia. Qed.

Lemma put_u8_ok z : is_u8 z → bytes_ok (put_u8 z).
Proof. intros. repeat constructor; ulia. Qed.
Lemma put_u16_ok z : is_u16 z → bytes_ok (put_u16 z).
Proof. intros. repeat constructor; ulia. Qed.
Lemma put_u32_ok z : is_u32 z → bytes_ok (put_u32 z).
Proof. intros. repeat constructor; ulia. Qed.
Lemma bytes_ok_app a b : bytes_ok (a ++ b) ↔ bytes_ok a ∧ bytes_ok b.
Proof. apply Forall_app. Qed.

Lemma blen_app a b : blen (a ++ b) = blen a + blen b.
Proof. unfold blen. rewrite length_app. lia. Qed.
Lemma blen_nonneg b : 0 <= blen b.
Proof. unfold blen. lia. Qed.

#[export] Hint Resolve put_u8_ok put_u16_ok put_u32_ok : rist.
#[export] Hint Rewrite blen_app : rist_rw.

(** A reader on a long enough buffer succeeds, and what it consumed is what the
    matching writer would have produced. *)
Lemma get_u8_spec r :
  1 <= blen r →
  ∃ z r', get_u8 r = Ok (z, r') ∧ blen r' = blen r - 1 ∧
    (bytes_ok r → is_u8 z ∧ bytes_ok r' ∧ r = put_u8 z ++ r').
Proof.
  unfold blen. destruct r as [|b0 r]; cbn [length]; [lia|]. intros _.
  exists b0, r. split; [done|]. split; [lia|].
  intros H. apply Forall_cons in H as [??]. done.
Qed.

Lemma get_u16_spec r :
  2 <= blen r →
  ∃ z r', get_u16 r = Ok (z, r') ∧ blen r' = blen r - 2 ∧
    (bytes_ok r → is_u16 z ∧ bytes_ok r' ∧ r = put_u16 z ++ r').
Proof.
  unfold blen. destruct r as [|b0 [|b1 r]]; cbn [length]; [lia..|]. intros _.
  eexists _, r. split; [done|]. split; [lia|].
  intros (H0 & (H1 & H2)%Forall_cons)%Forall_cons.
  split; [ulia|]. split; [done|]. unfold put_u16; cbn. repeat f_equal; ulia.
Qed.

Lemma get_u32_spec r :
  4 <= blen r →
  ∃ z r', get_u32 r = Ok (z, r') ∧ blen r' = blen r - 4 ∧
    (bytes_ok r → is_u32 z ∧ bytes_ok r' ∧ r = put_u32 z ++ r').
Proof.
  unfold blen. destruct r as [|b0 [|b1 [|b2 [|b3 r]]]]; cbn [length]; [lia..|]. intros _.
  eexists _, r. split; [done|]. split; [lia|].
  intros (H0 & (H1 & (H2 & (H3 & H4)%Forall_cons)%Forall_cons)%Forall_cons)%Forall_cons.
  split; [ulia|]. split; [done|]. unfold put_u32; cbn. repeat f_equal; ulia.
Qed.

Lemma get_u8_short r : blen r < 1 → get_u8 r = Panic.
Proof. unfold blen. destruct r; cbn [length]; [done|lia]. Qed.

Lemma slice_from_ok b a :
  0 <= a <= blen b → slice_from b a = Ok (drop (Z.to_nat a) b).
Proof. intros. unfold slice_from. case_cmp; [lia|done]. Qed.

Lemma slice_ok b a e :
  0 <= a <= e → e <= blen b →
  slice b a e = Ok (take (Z.to_nat (e - a)) (drop (Z.to_nat a) b)).
Proof. intros. unfold slice. case_cmp; [lia..|done]. Qed.

Lemma blen_drop n b : blen (drop n b) = Z.max 0 (blen b - Z.of_nat n).
Proof. unfold blen. rewrite length_drop. lia. Qed.
Lemma blen_take n b : blen (take n b) = Z.min (Z.of_nat n) (blen b).
Proof. unfold blen. rewrite length_take. lia. Qed.
Lemma bytes_ok_drop n b : bytes_ok b → bytes_ok (drop n b).
Proof. apply Forall_drop. Qed.
Lemma recv_into_ok size d : bytes_ok d → bytes_ok (recv_into size d).
Proof. apply Forall_take. Qed.
Lemma recv_into_short size d : blen d <= size → recv_into size d = d.
Proof. intros H. unfold recv_into, blen in *. apply take_ge. lia. Qed.
Lemma bytes_ok_take n b : bytes_ok b → bytes_ok (take n b).
Proof. apply Forall_take. Qed.

Lemma drop_blen_app pre b : drop (Z.to_nat (blen pre)) (pre ++ b) = b.
Proof. unfold blen. rewrite Nat2Z.id. apply drop_app_length. Qed.
Lemma take_blen_app pre b : take (Z.to_nat (blen pre)) (pre ++ b) = pre.
Proof. unfold blen. rewrite Nat2Z.id. apply take_app_length. Qed.

#[export] Hint Rewrite blen_drop blen_take : rist_rw.
#[export] Hint Resolve bytes_ok_drop bytes_ok_take : rist.

(** One reader call of the goal, replaced by its value and the rest of the buffer. *)
Ltac read_step :=
  match goal with
  | |- context [get_u8 ?r] =>
      let z := fresh "z" in let r' := fresh "r" in let E := fresh "E" in
      let L := fresh "L" in let W := fresh "W" in
      destruct (get_u8_spec r) as (z & r' & E & L & W); [lia|]; rewrite E; clear E; cbn [mbind exec_bind]
  | |- context [get_u16 ?r] =>
      let z := fresh "z" in let r' := fresh "r" in let E := fresh "E" in
      let L := fresh "L" in let W := fresh "W" in
      destruct (get_u16_spec r) as (z & r' & E & L & W); [lia|]; rewrite E; clear E; cbn [mbind exec_bind]
  | |- context [get_u32 ?r] =>
      let z := fresh "z" in let r' := fresh "r" in let E := fresh "E" in
      let L := fresh "L" in let W := fresh "W" in
      destruct (get_u32_spec r) as (z & r' & E & L & W); [lia|]; rewrite E; clear E; cbn [mbind exec_bind]
  end.

(** The same on a buffer of bytes: the value read is in range and the rest are bytes. *)
Ltac read_step_ok :=
  read_step;
  match goal with
  | W : bytes_ok ?b → _, H : bytes_ok ?b |- _ => destruct (W H) as (? & ? & _); clear W
  end.

(** ** Single bits: [x & (1 << k) != 0] is the k-th bit of [x]. *)

Lemma land_pow2 z k :
  0 <= k → Z.land z (2 ^ k) = if Z.testbit z k then 2 ^ k else 0.
Proof.
  intros Hk. apply Z.bits_inj'. intros n Hn.
  rewrite Z.land_spec, Z.pow2_bits_eqb by lia.
  destruct (Z.eqb_spec k n) as [<-|Hne].
  - destruct (Z.testbit z k); cbn.
    + by rewrite Z.pow2_bits_true by lia.
    + by rewrite Z.bits_0.
  - rewrite andb_false_r. destruct (Z.testbit z k).
    + by rewrite Z.pow2_bits_false by lia.
    + by rewrite Z.bits_0.
Qed.

Lemma bit_test z k :
  0 <= k → negb (Z.land z (2 ^ k) =? 0) = Z.testbit z k.
Proof.
  intros Hk. rewrite land_pow2 by done. pose proof (Z.pow_pos_nonneg 2 k).
  destruct (Z.testbit z k); case_cmp; done || lia.
Qed.

Lemma testbit_div z k : 0 <= k → Z.testbit z k = ((z / 2 ^ k) mod 2 =? 1).
Proof.
  intros. rewrite Z.testbit_eqb by done. done.
Qed.

(** ** Time

    [Instant]s are readings of the monotonic clock in nanoseconds, [Duration]s are
    non-negative nanosecond counts.  [Instant::duration_since] saturates to zero, like
    [saturating_duration_since]. *)

Definition saturating_duration_since (now earlier : Z) : Z := Z.max 0 (now - earlier).
Definition duration_since (now earlier : Z) : Z := Z.max 0 (now - earlier).
Definition from_millis (ms : Z) : Z := ms * 1000000.
Definition from_secs (s : Z) : Z := s * 1000000000.
Definition as_micros (d : Z) : Z := d / 1000.
