(* ===== verification/Seq.v ===== *)
(** * 16-bit RTP sequence numbers (rist-protocol/src/packet/seq.rs)

    [SeqNo] is a [u16] compared by the signed 16-bit distance between two
    numbers; [cmp] is the [Ord] instance of the type. *)

From S2P Require Import Prelude.

Record SeqNo := mkSeqNo { seq_val : Z }.

#[export] Instance SeqNo_eq_dec : EqDecision SeqNo.
Proof. solve_decision. Defined.

Definition seq_ok (s : SeqNo) : Prop := is_u16 (seq_val s).

Definition diff (self other : SeqNo) : Z :=
  as_i16 (wrapping_sub16 (seq_val other) (seq_val self)).

Definition precedes (self other : SeqNo) : bool := 0 <? diff self other.

Definition next (self : SeqNo) : SeqNo := mkSeqNo (wrapping_add16 (seq_val self) 1).

Definition seq_add (self : SeqNo) (n : Z) : SeqNo :=
  mkSeqNo (wrapping_add16 (seq_val self) n).

Definition seq_cmp (self other : SeqNo) : comparison := diff self other ?= 0.

(** The derived comparison operators of [PartialOrd], through [partial_cmp]. *)
Definition seq_partial_cmp (self other : SeqNo) : option comparison :=
  Some (seq_cmp self other).
Definition seq_lt (self other : SeqNo) : bool :=
  match seq_partial_cmp self other with Some Lt => true | _ => false end.

(** ** Distance *)

Lemma diff_range a b : -32768 <= diff a b <= 32767.
Proof. unfold diff. ulia. Qed.

(** The distance is the representative of [b - a] modulo 2^16. *)
Lemma diff_mod a b : (seq_val a + diff a b) mod 65536 = seq_val b mod 65536.
Proof. unfold diff. ulia. Qed.

Lemma diff_eq_iff a b d :
  seq_ok a → seq_ok b → -32768 <= d <= 32767 →
  diff a b = d ↔ b = mkSeqNo (as_u16 (seq_val a + d)).
Proof.
  destruct a as [a], b as [b]; unfold seq_ok, diff; cbn; intros.
  split; [intros <-; f_equal | intros [= ->]]; ulia.
Qed.

Lemma diff_opp a b : diff a b ≠ -32768 → diff b a = - diff a b.
Proof. unfold diff. ulia. Qed.

(** Half-space order: over valid sequence numbers [precedes] is irreflexive
    and asymmetric, it holds of [a] and [a + n] exactly when the wrapped offset [n]
    is in 1..32767, and two distinct numbers are comparable unless they are exactly
    half the space (32768) apart. *)
Theorem precedes_half_space (a b : SeqNo) :
  seq_ok a → seq_ok b →
  precedes a a = false ∧
  (precedes a b = true → precedes b a = false) ∧
  (∀ n, is_u16 n → precedes a (seq_add a n) = true ↔ 1 <= n <= 32767) ∧
  (a ≠ b → precedes a b = false → precedes b a = false →
   b = seq_add a 32768).
Proof.
  destruct a as [a], b as [b]; unfold seq_ok, precedes, diff, seq_add; cbn.
  intros Ha Hb. split_and!.
  - apply Z.ltb_ge. ulia.
  - rewrite Z.ltb_lt, Z.ltb_ge. ulia.
  - intros n Hn. rewrite Z.ltb_lt. split; ulia.
  - rewrite !Z.ltb_ge. intros Hne ??. f_equal.
    assert (a ≠ b) by congruence. ulia.
Qed.

Lemma precedes_half_space_witness :
  (precedes (mkSeqNo 65535) (mkSeqNo 0) = true → precedes (mkSeqNo 0) (mkSeqNo 65535) = false)
  ∧ precedes (mkSeqNo 65535) (mkSeqNo 0) = true.
Proof.
  split; [|reflexivity].
  apply (precedes_half_space (mkSeqNo 65535) (mkSeqNo 0)); unfold seq_ok; cbn; ulia.
Defined.

(** (C39) The [Ord] instance is the reverse of [precedes]: [a < b] as Rust evaluates
    it holds exactly when [b] precedes [a], or when [a] and [b] are exactly half the
    space apart, in which case both [a < b] and [b < a] hold.  The type's documentation
    promises [65535 < 0]; the instance answers [false]. *)
Theorem seq_lt_is_reversed (a b : SeqNo) :
  seq_ok a → seq_ok b →
  (seq_lt a b = true ↔ precedes b a = true ∨ b = seq_add a 32768) ∧
  (b = seq_add a 32768 → seq_lt a b = true ∧ seq_lt b a = true).
Proof.
  destruct a as [a], b as [b]; unfold seq_ok, seq_lt, seq_partial_cmp, seq_cmp, precedes,
    diff, seq_add; cbn.
  intros Ha Hb.
  set (d1 := as_i16 _). set (d2 := as_i16 (wrapping_sub16 a b)).
  assert (Hd : (d1 = -32768 ∧ d2 = -32768) ∨ (d2 = - d1 ∧ d1 ≠ -32768)) by (subst d1 d2; ulia).
  assert (Hh : mkSeqNo b = mkSeqNo (wrapping_add16 a 32768) ↔ d1 = -32768).
  { split; [intros [= ->] | intros; f_equal]; subst d1; ulia. }
  rewrite Hh, Z.ltb_lt. split_and!; [split|..].
  - destruct (Z.compare_spec d1 0); intros ?; try done. lia.
  - destruct (Z.compare_spec d1 0); intros ?; try done; lia.
  - intros. destruct (Z.compare_spec d1 0), (Z.compare_spec d2 0); try done; lia.
Qed.

Lemma seq_lt_is_reversed_witness :
  seq_lt (mkSeqNo 65535) (mkSeqNo 0) = false ∧ seq_lt (mkSeqNo 0) (mkSeqNo 65535) = true.
Proof.
  split; [reflexivity|].
  apply (proj1 (seq_lt_is_reversed (mkSeqNo 0) (mkSeqNo 65535)
    ltac:(unfold seq_ok; cbn; ulia) ltac:(unfold seq_ok; cbn; ulia))).
  left. reflexivity.
Defined.
