(* ===== verification/Rtp.v ===== *)
(** * RTP packets (rist-protocol/src/packet/rtp.rs, rtp_ext.rs)

    The RTP header and packet, their parsers and serializers, the RIST
    retransmit flag carried in the low bit of the SSRC, and the extended
    sequence number type. *)

From S2P Require Import Prelude.

Definition RTP_HEADER_SIZE : Z := 12.

Record RtpHeader := mkRtpHeader {
  rh_version : Z;
  rh_padding : bool;
  rh_extension : bool;
  rh_csrc_count : Z;
  rh_marker : bool;
  rh_payload_type : Z;
  rh_sequence_number : Z;
  rh_timestamp : Z;
  rh_ssrc : Z
}.

#[export] Instance RtpHeader_eq_dec : EqDecision RtpHeader.
Proof. solve_decision. Defined.

Definition is_retransmit (self : RtpHeader) : bool := negb (Z.land (rh_ssrc self) 1 =? 0).

(** [!1u32] is [0xFFFF_FFFE]. *)
Definition logical_ssrc (self : RtpHeader) : Z := Z.land (rh_ssrc self) 4294967294.

Definition RtpHeader_parse (buf : bytes) : exec (RtpHeader * Z) :=
  if blen buf <? RTP_HEADER_SIZE then Err (PacketTooShort RTP_HEADER_SIZE (blen buf)) else
  '(first, r) ← get_u8 buf;
  let version := Z.land (Z.shiftr first 6) 3 in
  if negb (version =? 2) then Err (InvalidRtpVersion version) else
  let padding := negb (Z.land (Z.shiftr first 5) 1 =? 0) in
  let extension := negb (Z.land (Z.shiftr first 4) 1 =? 0) in
  let csrc_count := Z.land first 15 in
  '(second, r) ← get_u8 r;
  let marker := negb (Z.land (Z.shiftr second 7) 1 =? 0) in
  let payload_type := Z.land second 127 in
  '(sequence_number, r) ← get_u16 r;
  '(timestamp, r) ← get_u32 r;
  '(ssrc, r) ← get_u32 r;
  let header_size := RTP_HEADER_SIZE + csrc_count * 4 in
  if blen buf <? header_size then Err (PacketTooShort header_size (blen buf)) else
  Ok (mkRtpHeader version padding extension csrc_count marker payload_type
        sequence_number timestamp ssrc, header_size).

Definition RtpHeader_serialize (self : RtpHeader) : bytes :=
  let first := Z.lor (Z.lor (Z.lor (as_u8 (Z.shiftl (rh_version self) 6))
                                   (Z.shiftl (bool_as_u8 (rh_padding self)) 5))
                            (Z.shiftl (bool_as_u8 (rh_extension self)) 4))
                     (Z.land (rh_csrc_count self) 15) in
  let second := Z.lor (Z.shiftl (bool_as_u8 (rh_marker self)) 7)
                      (Z.land (rh_payload_type self) 127) in
  put_u8 first ++ put_u8 second ++ put_u16 (rh_sequence_number self) ++
  put_u32 (rh_timestamp self) ++ put_u32 (rh_ssrc self).

Definition new_ts (ssrc seq timestamp : Z) : RtpHeader :=
  mkRtpHeader 2 false false 0 false 33 seq timestamp ssrc.

Record RtpPacket := mkRtpPacket { rp_header : RtpHeader; rp_payload : bytes }.

Definition RtpPacket_parse (buf : bytes) : exec RtpPacket :=
  '(header, header_size) ← RtpHeader_parse buf;
  let offset := header_size in
  offset ←
    (if rh_extension header then
       if blen buf <? offset + 4 then Err (PacketTooShort (offset + 4) (blen buf)) else
       b2 ← index buf (offset + 2);
       b3 ← index buf (offset + 3);
       let ext_len_words := b2 * 256 + b3 in
       let ext_total := 4 + ext_len_words * 4 in
       if blen buf <? offset + ext_total then Err (PacketTooShort (offset + ext_total) (blen buf))
       else Ok (offset + ext_total)
     else Ok offset);
  payload ← slice_from buf offset;
  Ok (mkRtpPacket header payload).

Definition RtpPacket_serialize (self : RtpPacket) : bytes :=
  RtpHeader_serialize (rp_header self) ++ rp_payload self.

Definition full_seq (seq_hi rtp_seq : Z) : Z := Z.lor (Z.shiftl seq_hi 16) rtp_seq.

(** ** Well-formed headers: every field in the range of its Rust type and wire
    field, and the only version the parser accepts. *)
Definition header_ok (h : RtpHeader) : Prop :=
  rh_version h = 2 ∧ 0 <= rh_csrc_count h < 16 ∧ 0 <= rh_payload_type h < 128 ∧
  is_u16 (rh_sequence_number h) ∧ is_u32 (rh_timestamp h) ∧ is_u32 (rh_ssrc h).

(** The two flag bytes as sums of disjoint fields. *)
Definition first_byte (h : RtpHeader) : Z :=
  rh_version h * 64 + bool_as_u8 (rh_padding h) * 32 +
  bool_as_u8 (rh_extension h) * 16 + rh_csrc_count h.
Definition second_byte (h : RtpHeader) : Z :=
  bool_as_u8 (rh_marker h) * 128 + rh_payload_type h.

Lemma bool_as_u8_range b : 0 <= bool_as_u8 b <= 1.
Proof. destruct b; cbn; lia. Qed.

Lemma serialize_eq h :
  header_ok h →
  RtpHeader_serialize h =
  put_u8 (first_byte h) ++ put_u8 (second_byte h) ++ put_u16 (rh_sequence_number h) ++
  put_u32 (rh_timestamp h) ++ put_u32 (rh_ssrc h).
Proof.
  intros (Hv & Hc & Hp & _). unfold RtpHeader_serialize, first_byte, second_byte.
  pose proof (bool_as_u8_range (rh_padding h)).
  pose proof (bool_as_u8_range (rh_extension h)).
  pose proof (bool_as_u8_range (rh_marker h)).
  autorewrite with bits. rewrite Hv. change (as_u8 (2 * 2 ^ 6)) with 128.
  rewrite !(Z.mod_small (rh_csrc_count h)), (Z.mod_small (rh_payload_type h)) by lia.
  rewrite (lor_add 128 _ 6), (lor_add (_ + _ * 2 ^ 5) _ 5), (lor_add (_ + _) _ 4),
    (lor_add (_ * 2 ^ 7) _ 7) by ulia.
  repeat f_equal; lia.
Qed.

(** The parser reads its fields back from those bytes. *)
Lemma first_byte_fields h :
  header_ok h →
  let b := first_byte h in
  Z.land (Z.shiftr b 6) 3 = 2 ∧
  negb (Z.land (Z.shiftr b 5) 1 =? 0) = rh_padding h ∧
  negb (Z.land (Z.shiftr b 4) 1 =? 0) = rh_extension h ∧
  Z.land b 15 = rh_csrc_count h.
Proof.
  intros (Hv & Hc & _). unfold first_byte. rewrite Hv. cbn zeta. autorewrite with bits.
  destruct (rh_padding h), (rh_extension h); cbn [bool_as_u8]; split_and!;
    try (apply negb_true_iff, Z.eqb_neq || apply negb_false_iff, Z.eqb_eq); ulia.
Qed.

Lemma second_byte_fields h :
  header_ok h →
  let b := second_byte h in
  negb (Z.land (Z.shiftr b 7) 1 =? 0) = rh_marker h ∧ Z.land b 127 = rh_payload_type h.
Proof.
  intros (_ & _ & Hp & _). unfold second_byte. cbn zeta. autorewrite with bits.
  destruct (rh_marker h); cbn [bool_as_u8]; split_and!;
    try (apply negb_true_iff, Z.eqb_neq || apply negb_false_iff, Z.eqb_eq); ulia.
Qed.

Lemma serialize_blen h : blen (RtpHeader_serialize h) = 12.
Proof. done. Qed.

Lemma serialize_bytes_ok h : header_ok h → bytes_ok (RtpHeader_serialize h).
Proof.
  intros Hh. rewrite serialize_eq by done. destruct Hh as (Hv & Hc & Hp & Hs & Ht & Hr).
  pose proof (bool_as_u8_range (rh_padding h)).
  pose proof (bool_as_u8_range (rh_extension h)).
  pose proof (bool_as_u8_range (rh_marker h)).
  rewrite !bytes_ok_app. split_and!; auto with rist; apply put_u8_ok;
    unfold first_byte, second_byte; ulia.
Qed.

(** Bytes that pass the parser's version test are the bytes of a header. *)
Lemma bytes_to_header b0 b1 sn ts ssrc :
  is_u8 b0 → is_u8 b1 → is_u16 sn → is_u32 ts → is_u32 ssrc →
  Z.land (Z.shiftr b0 6) 3 = 2 →
  let h := mkRtpHeader (Z.land (Z.shiftr b0 6) 3) (negb (Z.land (Z.shiftr b0 5) 1 =? 0))
             (negb (Z.land (Z.shiftr b0 4) 1 =? 0)) (Z.land b0 15)
             (negb (Z.land (Z.shiftr b1 7) 1 =? 0)) (Z.land b1 127) sn ts ssrc in
  header_ok h ∧ first_byte h = b0 ∧ second_byte h = b1.
Proof.
  intros H0 H1 Hs Ht Hr. unfold header_ok, first_byte, second_byte. cbn.
  autorewrite with bits. intros Hv. case_cmp; cbn [bool_as_u8]; split_and!; try done; ulia.
Qed.

(** What the parser does with a header in front of any bytes. *)
Lemma RtpHeader_parse_serialize h rest :
  header_ok h →
  RtpHeader_parse (RtpHeader_serialize h ++ rest) =
  if 12 + blen rest <? 12 + rh_csrc_count h * 4
  then Err (PacketTooShort (12 + rh_csrc_count h * 4) (12 + blen rest))
  else Ok (h, 12 + rh_csrc_count h * 4).
Proof.
  intros Hh. unfold RtpHeader_parse, RTP_HEADER_SIZE.
  rewrite blen_app, serialize_blen, serialize_eq, <- !app_assoc by done.
  pose proof (blen_nonneg rest). destruct (Z.ltb_spec (12 + blen rest) 12) as [|_]; [lia|].
  rewrite get_put_u8. cbn [mbind exec_bind].
  destruct (first_byte_fields h Hh) as (-> & -> & -> & ->). cbn [Z.eqb Pos.eqb negb].
  rewrite get_put_u8. cbn [mbind exec_bind].
  destruct (second_byte_fields h Hh) as (-> & ->).
  destruct Hh as (Hv & Hc & Hp & Hs & Ht & Hr).
  rewrite get_put_u16 by done. cbn [mbind exec_bind].
  rewrite get_put_u32 by done. cbn [mbind exec_bind].
  rewrite get_put_u32 by done. cbn [mbind exec_bind].
  destruct h; cbn in *; subst. done.
Qed.

(** A long enough buffer with version bits 2 is a serialized header followed by
    the rest of the buffer. *)
Lemma RtpHeader_split buf :
  bytes_ok buf → 12 <= blen buf →
  (∃ h rest, header_ok h ∧ bytes_ok rest ∧ buf = RtpHeader_serialize h ++ rest) ∨
  (∃ v, v ≠ 2 ∧ RtpHeader_parse buf = Err (InvalidRtpVersion v)).
Proof.
  intros Hok Hlen. unfold RtpHeader_parse, RTP_HEADER_SIZE.
  destruct (Z.ltb_spec (blen buf) 12); [lia|].
  read_step. destruct (W Hok) as (Hz & Hr & Hbuf).
  destruct (Z.eqb_spec (Z.land (Z.shiftr z 6) 3) 2) as [Ev|Ev]; cbn [negb];
    [left | right; eauto].
  destruct (get_u8_spec r) as (z0 & r0 & _ & L0 & W0); [lia|].
  destruct (W0 Hr) as (Hz0 & Hr0 & Hbuf0).
  destruct (get_u16_spec r0) as (sn & r1 & _ & L1 & W1); [lia|].
  destruct (W1 Hr0) as (Hsn & Hr1 & Hbuf1).
  destruct (get_u32_spec r1) as (ts & r2 & _ & L2 & W2); [lia|].
  destruct (W2 Hr1) as (Hts & Hr2 & Hbuf2).
  destruct (get_u32_spec r2) as (ssrc & r3 & _ & L3 & W3); [lia|].
  destruct (W3 Hr2) as (Hss & Hr3 & Hbuf3).
  destruct (bytes_to_header z z0 sn ts ssrc Hz Hz0 Hsn Hts Hss Ev) as (Hh & E0 & E1).
  eexists _, r3. split; [exact Hh|]. split; [done|].
  rewrite serialize_eq by done. rewrite E0, E1, <- !app_assoc. cbn [rh_sequence_number rh_timestamp rh_ssrc].
  congruence.
Qed.

(** A parsed header is well formed. *)
Lemma RtpHeader_parse_ok buf h n : bytes_ok buf → RtpHeader_parse buf = Ok (h, n) → header_ok h.
Proof.
  intros Hb Hp. destruct (Z.le_gt_cases 12 (blen buf)) as [Hl|Hl].
  - destruct (RtpHeader_split buf Hb Hl) as [(h' & rest & Hh & _ & ->)|(v & _ & E)]; [|congruence].
    rewrite RtpHeader_parse_serialize in Hp by done. destruct (_ <? _); congruence.
  - unfold RtpHeader_parse, RTP_HEADER_SIZE in Hp. by rewrite (proj2 (Z.ltb_lt _ _)) in Hp by lia.
Qed.

Lemma RtpHeader_serialize_inj h1 h2 r1 r2 :
  header_ok h1 → header_ok h2 →
  RtpHeader_serialize h1 ++ r1 = RtpHeader_serialize h2 ++ r2 → h1 = h2 ∧ r1 = r2.
Proof.
  intros H1 H2 E. apply app_inj_1 in E as [E ->]; [|done]. split; [|done].
  pose proof (RtpHeader_parse_serialize h1 (replicate 64 0) H1) as P1.
  pose proof (RtpHeader_parse_serialize h2 (replicate 64 0) H2) as P2.
  rewrite E, P2 in P1.
  change (blen (replicate 64 0)) with 64 in P1.
  destruct H1 as (_ & ? & _), H2 as (_ & ? & _).
  destruct (Z.ltb_spec (12 + 64) (12 + rh_csrc_count h2 * 4)); [lia|].
  destruct (Z.ltb_spec (12 + 64) (12 + rh_csrc_count h1 * 4)); [lia|]. by simplify_eq.
Qed.

(** (C30) Exactness of [RtpHeader::parse] on byte buffers: it accepts exactly the
    buffers that are the serialization of a well-formed header followed by at least
    [4 * csrc_count] bytes, and returns that header with the size [12 + 4 * csrc_count]. *)
Theorem RtpHeader_parse_exact (buf : bytes) (h : RtpHeader) (n : Z) :
  bytes_ok buf →
  RtpHeader_parse buf = Ok (h, n) ↔
  header_ok h ∧ n = 12 + rh_csrc_count h * 4 ∧
  ∃ rest, buf = RtpHeader_serialize h ++ rest ∧ rh_csrc_count h * 4 <= blen rest.
Proof.
  intros Hok. split.
  - intros HP. assert (Hlen : 12 <= blen buf).
    { unfold RtpHeader_parse, RTP_HEADER_SIZE in HP.
      destruct (Z.ltb_spec (blen buf) 12); [done|lia]. }
    destruct (RtpHeader_split buf Hok Hlen) as [(h' & rest & Hh & _ & ->)|(v & _ & E)];
      [|congruence].
    rewrite RtpHeader_parse_serialize in HP by done. case_cmp; [done|].
    simplify_eq. split_and!; [done..|]. exists rest. split; [done|lia].
  - intros (Hh & -> & rest & -> & Hr). rewrite RtpHeader_parse_serialize by done.
    case_cmp; [lia|done].
Qed.

Lemma RtpHeader_parse_exact_witness :
  RtpHeader_parse (RtpHeader_serialize (new_ts 305419896 42 1000)) =
  Ok (new_ts 305419896 42 1000, 12).
Proof.
  apply (RtpHeader_parse_exact _ (new_ts 305419896 42 1000) 12).
  - vm_compute. repeat constructor; lia || discriminate.
  - split; [unfold header_ok; cbn; ulia|]. split; [reflexivity|].
    exists []. split; [reflexivity|]. cbn. unfold blen. cbn. lia.
Defined.

(** [RtpHeader::parse] is total on byte buffers: it never panics, and it fails
    exactly on a buffer shorter than 12 bytes ([PacketTooShort]), on a version field
    other than 2 ([InvalidRtpVersion]) and on a CSRC list that is cut off
    ([PacketTooShort] with the full header size). *)
Theorem RtpHeader_parse_errors (buf : bytes) :
  bytes_ok buf →
  match RtpHeader_parse buf with
  | Ok (h, n) => 12 <= n <= blen buf
  | Err (PacketTooShort e a) =>
      a = blen buf ∧ a < e ∧ (e = 12 ∨ ∃ h rest, header_ok h ∧
        buf = RtpHeader_serialize h ++ rest ∧ e = 12 + rh_csrc_count h * 4)
  | Err (InvalidRtpVersion v) => 12 <= blen buf ∧ v ≠ 2
  | _ => False
  end.
Proof.
  intros Hok. destruct (Z.le_gt_cases 12 (blen buf)) as [Hlen|Hlen].
  - destruct (RtpHeader_split buf Hok Hlen) as [(h & rest & Hh & _ & ->)|(v & Hv & E)];
      [|by rewrite E].
    rewrite RtpHeader_parse_serialize, blen_app, serialize_blen by done.
    destruct Hh as (? & ? & ?) eqn:EH. case_cmp; [|lia].
    split; [done|]. split; [lia|]. right. exists h, rest. done.
  - unfold RtpHeader_parse, RTP_HEADER_SIZE. case_cmp; [|lia]. auto with lia.
Qed.

Lemma RtpHeader_parse_errors_witness :
  RtpHeader_parse (192 :: replicate 11 0) = Err (InvalidRtpVersion 3) ∧
  12 <= blen (192 :: replicate 11 0) ∧ 3 ≠ 2.
Proof.
  split; [reflexivity|].
  apply (RtpHeader_parse_errors (192 :: replicate 11 0)).
  vm_compute. repeat constructor; lia || discriminate.
Defined.

Lemma index_ok (b : bytes) i : 0 <= i < blen b → ∃ x, index b i = Ok x ∧ (bytes_ok b → is_u8 x).
Proof.
  unfold index, blen. intros Hi.
  destruct (b !! Z.to_nat i) as [x|] eqn:E.
  - exists x. split; [done|]. intros Hb. by eapply Forall_lookup_1 in E.
  - apply lookup_ge_None in E. lia.
Qed.

Lemma index_inv (b : bytes) i x : index b i = Ok x → b !! Z.to_nat i = Some x.
Proof. unfold index. destruct (b !! Z.to_nat i); congruence. Qed.

(** [RtpPacket::parse] on byte buffers never panics, whatever lengths the CSRC
    count and the extension header declare; when it succeeds the payload is a suffix
    of the datagram, starting after the fixed header, the CSRC list and, when the X bit
    is set, the whole extension. *)
Theorem RtpPacket_parse_total (buf : bytes) :
  bytes_ok buf →
  no_panic (RtpPacket_parse buf) ∧
  ∀ p, RtpPacket_parse buf = Ok p →
    ∃ n, RtpHeader_parse buf = Ok (rp_header p, n) ∧
      ∃ ext, ext = (if rh_extension (rp_header p)
                    then 4 + 4 * (default 0 (buf !! Z.to_nat (n + 2)) * 256
                                  + default 0 (buf !! Z.to_nat (n + 3)))
                    else 0) ∧
      n + ext <= blen buf ∧ rp_payload p = drop (Z.to_nat (n + ext)) buf.
Proof.
  intros Hok. pose proof (RtpHeader_parse_errors buf Hok) as HE. unfold RtpPacket_parse.
  destruct (RtpHeader_parse buf) as [[h n]|e|]; cbn [mbind exec_bind]; [|by destruct e|done].
  destruct (rh_extension h) eqn:Ex.
  - case_cmp; [done|].
    destruct (index_ok buf (n + 2)) as (b2 & E2 & W2); [lia|].
    destruct (index_ok buf (n + 3)) as (b3 & E3 & W3); [lia|].
    rewrite E2, E3. cbn [mbind exec_bind]. specialize (W2 Hok). specialize (W3 Hok).
    case_cmp; [done|]. cbn [mbind exec_bind].
    rewrite slice_from_ok by ulia. split; [done|]. intros p [= <-].
    cbn [rp_header rp_payload]. exists n. split; [done|].
    rewrite Ex, (index_inv _ _ _ E2), (index_inv _ _ _ E3). cbn.
    eexists. split; [done|]. split; [lia|]. do 2 f_equal. lia.
  - cbn [mbind exec_bind]. rewrite slice_from_ok by lia.
    split; [done|]. intros p [= <-]. cbn [rp_header rp_payload]. rewrite Ex.
    eexists. split; [done|]. exists 0. split; [done|]. split; [lia|]. do 2 f_equal. lia.
Qed.

Lemma RtpPacket_parse_total_witness :
  no_panic (RtpPacket_parse (144 :: replicate 14 255)).
Proof.
  apply (RtpPacket_parse_total (144 :: replicate 14 255)).
  vm_compute. repeat constructor; lia || discriminate.
Defined.

(** A packet whose header has no CSRC entries and no extension (what the library's own
    sender builds) survives serialization. *)
Lemma RtpPacket_parse_serialize p :
  header_ok (rp_header p) → rh_csrc_count (rp_header p) = 0 →
  rh_extension (rp_header p) = false →
  RtpPacket_parse (RtpPacket_serialize p) = Ok p.
Proof.
  intros Hh Hc Hx. unfold RtpPacket_parse, RtpPacket_serialize.
  rewrite RtpHeader_parse_serialize by done. rewrite Hc.
  pose proof (blen_nonneg (rp_payload p)). case_cmp; [lia|].
  cbn [mbind exec_bind]. rewrite Hx. cbn [mbind exec_bind].
  rewrite slice_from_ok by (rewrite blen_app, serialize_blen; lia).
  cbn [mbind exec_bind]. rewrite drop_app_length' by done. by destruct p.
Qed.

(** ** The retransmit flag *)

Lemma logical_ssrc_spec h :
  is_u32 (rh_ssrc h) → logical_ssrc h = rh_ssrc h - rh_ssrc h mod 2.
Proof.
  intros Hs. unfold logical_ssrc.
  assert (E : 4294967294 = Z.ldiff (Z.ones 32) 1) by reflexivity.
  rewrite E, Z.ldiff_land, Z.land_assoc, Z.land_ones, Z.mod_small by (unfold_int; lia).
  rewrite <- Z.ldiff_land.
  change (Z.ldiff (rh_ssrc h) 1) with (Z.ldiff (rh_ssrc h) (Z.ones 1)).
  rewrite Z.ldiff_ones_r, shiftl_mul, shiftr_div by lia. ulia.
Qed.

(** Clearing the low bit of a fresh SSRC keeps it a u32. *)
Lemma even_land z : is_u32 z → is_u32 (Z.land z 4294967294) ∧ Z.land z 4294967294 mod 2 = 0.
Proof.
  intros Hz. pose proof (logical_ssrc_spec (new_ts z 0 0) Hz) as E. unfold logical_ssrc in E. cbn in E.
  rewrite E. split; ulia.
Qed.

Lemma lor_1 z : Z.lor z 1 = z - z mod 2 + 1.
Proof.
  assert (Hz : z = z / 2 * 2 ^ 1 + z mod 2) by ulia.
  assert (z mod 2 = 0 ∨ z mod 2 = 1) as [E|E] by ulia; rewrite E in *.
  - rewrite Hz at 1. rewrite Z.add_0_r, (lor_add_high _ 1 1) by lia. lia.
  - rewrite Hz at 1. rewrite <- (lor_add_high (z / 2) 1 1) by lia. rewrite <- Z.lor_assoc.
    change (Z.lor 1 1) with 1. rewrite (lor_add_high _ 1 1) by lia. lia.
Qed.

Lemma is_retransmit_spec h : is_retransmit h = true ↔ rh_ssrc h mod 2 = 1.
Proof. unfold is_retransmit. rewrite land_1. case_cmp; split; try done; ulia. Qed.

Lemma full_seq_spec hi lo : is_u16 hi → is_u16 lo → full_seq hi lo = hi * 65536 + lo.
Proof. intros. unfold full_seq. rewrite shiftl_mul by lia. rewrite (lor_add_high _ _ 16); ulia. Qed.
