(* ===== verification/RtcpCodec.v ===== *)
(** * The RTCP common header and the sub-packet interface
    (rist-protocol/src/packet/rtcp.rs, lines 17-68)

    Every RTCP sub-packet is a 4-byte common header followed by a body whose
    length in words the header carries.  [RtcpCodec] is what the compound parser
    expects of a sub-packet type, [RtcpCodecLaws] what the type promises: its
    serializer emits one well-formed frame, its parser reads the body of that
    frame back, and its parser never panics on the bytes of a datagram. *)

From S2P Require Import Prelude.

Record RtcpCommonHeader := mkRtcpCommonHeader {
  ch_version : Z;
  ch_padding : bool;
  ch_count : Z;
  ch_packet_type : Z;
  ch_length : Z
}.

Definition RtcpCommonHeader_parse (buf : bytes) : exec RtcpCommonHeader :=
  if blen buf <? 4 then Err (PacketTooShort 4 (blen buf)) else
  '(first, r) ← get_u8 buf;
  let version := Z.land (Z.shiftr first 6) 3 in
  if negb (version =? 2) then Err (InvalidRtpVersion version) else
  let padding := negb (Z.land (Z.shiftr first 5) 1 =? 0) in
  let count := Z.land first 31 in
  '(packet_type, r) ← get_u8 r;
  '(length, r) ← get_u16 r;
  Ok (mkRtcpCommonHeader version padding count packet_type length).

Definition packet_size (self : RtcpCommonHeader) : Z := (ch_length self + 1) * 4.

(** ** Frames: a common header with version 2 in front of its body *)

Definition frame_header (padding : bool) (count pt words : Z) : bytes :=
  put_u8 (128 + bool_as_u8 padding * 32 + count) ++ put_u8 pt ++ put_u16 words.

Definition frame (padding : bool) (count pt : Z) (body : bytes) : bytes :=
  frame_header padding count pt (blen body / 4) ++ body.

(** A body that fits its length field. *)
Definition body_ok (body : bytes) : Prop := blen body mod 4 = 0 ∧ blen body < 4 * 65536.

Lemma frame_blen p c pt body : blen (frame p c pt body) = 4 + blen body.
Proof. unfold frame, blen. cbn [frame_header put_u8 put_u16 app length]. lia. Qed.

Lemma frame_header_parse p c pt words rest :
  0 <= c < 32 → is_u8 pt → is_u16 words →
  RtcpCommonHeader_parse (frame_header p c pt words ++ rest) =
  Ok (mkRtcpCommonHeader 2 p c pt words).
Proof.
  intros Hc Hp Hw. unfold RtcpCommonHeader_parse, frame_header.
  rewrite <- !app_assoc. pose proof (blen_nonneg rest).
  destruct (Z.ltb_spec (blen (put_u8 (128 + bool_as_u8 p * 32 + c) ++ put_u8 pt ++
    put_u16 words ++ rest)) 4) as [Hl|_].
  { rewrite !blen_app in Hl. unfold blen in Hl at 1 2 3. cbn in Hl. lia. }
  rewrite get_put_u8. cbn [mbind exec_bind]. autorewrite with bits.
  assert (E : ((128 + bool_as_u8 p * 32 + c) / 2 ^ 6) mod 4 = 2) by (destruct p; cbn; ulia).
  rewrite E. cbn [Z.eqb Pos.eqb negb]. rewrite get_put_u8. cbn [mbind exec_bind].
  rewrite get_put_u16 by done. cbn [mbind exec_bind]. do 2 f_equal.
  - destruct p; cbn [bool_as_u8]; case_cmp; try done; ulia.
  - destruct p; cbn [bool_as_u8]; ulia.
Qed.

(** Four bytes with version bits 2 are a frame header. *)
Lemma RtcpCommonHeader_parse_inv buf h :
  bytes_ok buf → RtcpCommonHeader_parse buf = Ok h →
  4 <= blen buf ∧ ch_version h = 2 ∧ 0 <= ch_count h < 32 ∧ is_u8 (ch_packet_type h) ∧
  is_u16 (ch_length h) ∧
  take 4 buf = frame_header (ch_padding h) (ch_count h) (ch_packet_type h) (ch_length h).
Proof.
  intros Hok. unfold RtcpCommonHeader_parse.
  destruct (Z.ltb_spec (blen buf) 4) as [|Hl]; [done|].
  read_step. destruct (W Hok) as (Hz & Hr & ->).
  destruct (Z.eqb_spec (Z.land (Z.shiftr z 6) 3) 2) as [Ev|]; cbn [negb]; [|done].
  read_step. destruct (W0 Hr) as (Hz0 & Hr0 & ->).
  read_step. destruct (W1 Hr0) as (Hz1 & Hr1 & ->).
  intros [= <-]. cbn [ch_version ch_padding ch_count ch_packet_type ch_length].
  autorewrite with bits in *. split_and!; try done; try ulia.
  unfold frame_header. cbn [put_u8 put_u16 app take].
  assert (E : 128 + bool_as_u8 (negb ((z / 2 ^ 5) mod 2 =? 0)) * 32 + z mod 32 = z).
  { case_cmp; cbn [bool_as_u8]; ulia. }
  by rewrite E.
Qed.

Lemma RtcpCommonHeader_parse_no_panic buf : no_panic (RtcpCommonHeader_parse buf).
Proof.
  unfold RtcpCommonHeader_parse. destruct (Z.ltb_spec (blen buf) 4); [done|].
  read_step. destruct (negb _); [done|]. read_step. by read_step.
Qed.

(** ** The interface of a sub-packet type *)

Class RtcpCodec (A : Type) := {
  codec_pt : Z;
  codec_count : A → Z;
  codec_serialize : A → bytes;
  (** body of the sub-packet, count field of its common header *)
  codec_parse : bytes → Z → exec A;
  (** the values the wire format can carry *)
  codec_ok : A → Prop
}.

Class RtcpCodecLaws (A : Type) `{!RtcpCodec A} := {
  codec_pt_u8 : is_u8 codec_pt;
  codec_count_range : ∀ a, codec_ok a → 0 <= codec_count a < 32;
  codec_roundtrip : ∀ a, codec_ok a →
    ∃ body, codec_serialize a = frame false (codec_count a) codec_pt body ∧
      body_ok body ∧ codec_parse body (codec_count a) = Ok a;
  codec_no_panic : ∀ body c, bytes_ok body → no_panic (codec_parse body c)
}.
