(* ===== verification/RtcpReports.v ===== *)
(** * RTCP Sender and Receiver Reports
    (rist-protocol/src/packet/rtcp_sr.rs, rtcp_rr.rs) *)

From S2P Require Import Prelude RtcpCodec.

Definition RTCP_PT_SR : Z := 200.
Definition RTCP_PT_RR : Z := 201.

(** ** Sender Report *)

Record SenderReport := mkSenderReport {
  sr_ssrc : Z;
  sr_ntp_msw : Z;
  sr_ntp_lsw : Z;
  sr_rtp_timestamp : Z;
  sr_sender_packet_count : Z;
  sr_sender_octet_count : Z
}.

Definition SenderReport_parse (buf : bytes) : exec SenderReport :=
  if blen buf <? 24 then Err (PacketTooShort 24 (blen buf)) else
  '(ssrc, r) ← get_u32 buf;
  '(ntp_msw, r) ← get_u32 r;
  '(ntp_lsw, r) ← get_u32 r;
  '(rtp_timestamp, r) ← get_u32 r;
  '(sender_packet_count, r) ← get_u32 r;
  '(sender_octet_count, r) ← get_u32 r;
  Ok (mkSenderReport ssrc ntp_msw ntp_lsw rtp_timestamp sender_packet_count sender_octet_count).

Definition SenderReport_serialize (self : SenderReport) : bytes :=
  put_u8 128 ++ put_u8 RTCP_PT_SR ++ put_u16 6 ++
  put_u32 (sr_ssrc self) ++ put_u32 (sr_ntp_msw self) ++ put_u32 (sr_ntp_lsw self) ++
  put_u32 (sr_rtp_timestamp self) ++ put_u32 (sr_sender_packet_count self) ++
  put_u32 (sr_sender_octet_count self).

Definition compact_ntp (self : SenderReport) : Z :=
  Z.lor (as_u32 (Z.shiftl (Z.land (sr_ntp_msw self) 65535) 16))
        (Z.land (Z.shiftr (sr_ntp_lsw self) 16) 65535).

Definition sr_ok (s : SenderReport) : Prop :=
  is_u32 (sr_ssrc s) ∧ is_u32 (sr_ntp_msw s) ∧ is_u32 (sr_ntp_lsw s) ∧
  is_u32 (sr_rtp_timestamp s) ∧ is_u32 (sr_sender_packet_count s) ∧
  is_u32 (sr_sender_octet_count s).

Lemma SenderReport_no_panic buf : no_panic (SenderReport_parse buf).
Proof. unfold SenderReport_parse. case_cmp; [done|]. by repeat read_step. Qed.

Lemma SenderReport_parse_range buf s : bytes_ok buf → SenderReport_parse buf = Ok s → sr_ok s.
Proof.
  intros Hb. unfold SenderReport_parse. destruct (Z.ltb_spec (blen buf) 24); [done|].
  do 6 read_step_ok.
  intros [= <-]. unfold sr_ok. cbn. by split_and!.
Qed.

(** The compact form is the middle 32 bits of the 64-bit NTP timestamp. *)
Lemma compact_ntp_middle s :
  sr_ok s →
  compact_ntp s = ((sr_ntp_msw s * 4294967296 + sr_ntp_lsw s) / 65536) mod 4294967296.
Proof.
  intros (_ & Hm & Hl & _). unfold compact_ntp. autorewrite with bits.
  unfold as_u32. rewrite (lor_add _ _ 16); ulia.
Qed.

#[export] Instance SenderReport_codec : RtcpCodec SenderReport := {
  codec_pt := RTCP_PT_SR;
  codec_count _ := 0;
  codec_serialize := SenderReport_serialize;
  codec_parse body _ := SenderReport_parse body;
  codec_ok := sr_ok
}.

#[export] Instance SenderReport_laws : RtcpCodecLaws SenderReport.
Proof.
  split; cbn.
  - unfold RTCP_PT_SR. ulia.
  - lia.
  - intros a (H1 & H2 & H3 & H4 & H5 & H6).
    exists (put_u32 (sr_ssrc a) ++ put_u32 (sr_ntp_msw a) ++ put_u32 (sr_ntp_lsw a) ++
      put_u32 (sr_rtp_timestamp a) ++ put_u32 (sr_sender_packet_count a) ++
      put_u32 (sr_sender_octet_count a)).
    split; [done|]. split; [done|]. unfold SenderReport_parse.
    match goal with |- context [blen ?b <? 24] => change (blen b <? 24) with false end.
    cbn match.
    do 5 (rewrite get_put_u32 by done; cbn [mbind exec_bind]).
    rewrite <- (app_nil_r (put_u32 (sr_sender_octet_count a))), get_put_u32 by done.
    cbn. by destruct a.
  - intros. apply SenderReport_no_panic.
Qed.

(** ** Receiver Report *)

Record ReportBlock := mkReportBlock {
  rb_ssrc : Z;
  rb_fraction_lost : Z;
  rb_cumulative_lost : Z;
  rb_extended_highest_seq : Z;
  rb_jitter : Z;
  rb_last_sr : Z;
  rb_delay_since_last_sr : Z
}.

Definition ReportBlock_SIZE : Z := 24.

Definition ReportBlock_parse (buf : bytes) : exec ReportBlock :=
  if blen buf <? ReportBlock_SIZE then Err (PacketTooShort ReportBlock_SIZE (blen buf)) else
  '(ssrc, r) ← get_u32 buf;
  '(lost_word, r) ← get_u32 r;
  let fraction_lost := as_u8 (Z.shiftr lost_word 24) in
  let cumulative_raw := as_i32 (Z.land lost_word 16777215) in
  let cumulative_lost :=
    if negb (Z.land cumulative_raw 8388608 =? 0)
    then Z.lor cumulative_raw (Z.lnot 16777215) else cumulative_raw in
  '(extended_highest_seq, r) ← get_u32 r;
  '(jitter, r) ← get_u32 r;
  '(last_sr, r) ← get_u32 r;
  '(delay_since_last_sr, r) ← get_u32 r;
  Ok (mkReportBlock ssrc fraction_lost cumulative_lost extended_highest_seq jitter
        last_sr delay_since_last_sr).

Definition ReportBlock_serialize (self : ReportBlock) : bytes :=
  put_u32 (rb_ssrc self) ++
  put_u32 (Z.lor (Z.shiftl (rb_fraction_lost self) 24)
                 (Z.land (as_u32 (rb_cumulative_lost self)) 16777215)) ++
  put_u32 (rb_extended_highest_seq self) ++ put_u32 (rb_jitter self) ++
  put_u32 (rb_last_sr self) ++ put_u32 (rb_delay_since_last_sr self).

Record ReceiverReport := mkReceiverReport {
  rr_ssrc : Z;
  rr_reports : list ReportBlock
}.

(** The [for _ in 0..rc] loop from [offset]. *)
Fixpoint parse_reports (buf : bytes) (rc : nat) (offset : Z) : exec (list ReportBlock) :=
  match rc with
  | O => Ok []
  | S rc' =>
      s ← slice_from buf offset;
      block ← ReportBlock_parse s;
      rest ← parse_reports buf rc' (offset + ReportBlock_SIZE);
      Ok (block :: rest)
  end.

Definition ReceiverReport_parse (buf : bytes) (rc : Z) : exec ReceiverReport :=
  if blen buf <? 4 then Err (PacketTooShort 4 (blen buf)) else
  '(ssrc, r) ← get_u32 buf;
  reports ← parse_reports buf (Z.to_nat rc) 4;
  Ok (mkReceiverReport ssrc reports).

Definition ReceiverReport_serialize (self : ReceiverReport) : bytes :=
  let rc := as_u8 (Z.of_nat (length (rr_reports self))) in
  let length := 1 + rc * 6 in
  put_u8 (Z.lor 128 (Z.land rc 31)) ++ put_u8 RTCP_PT_RR ++ put_u16 length ++
  put_u32 (rr_ssrc self) ++ concat (map ReportBlock_serialize (rr_reports self)).

Definition ReceiverReport_empty (ssrc : Z) : ReceiverReport := mkReceiverReport ssrc [].

Definition rb_ok (b : ReportBlock) : Prop :=
  is_u32 (rb_ssrc b) ∧ is_u8 (rb_fraction_lost b) ∧
  -8388608 <= rb_cumulative_lost b <= 8388607 ∧
  is_u32 (rb_extended_highest_seq b) ∧ is_u32 (rb_jitter b) ∧
  is_u32 (rb_last_sr b) ∧ is_u32 (rb_delay_since_last_sr b).

Definition rr_ok (r : ReceiverReport) : Prop :=
  is_u32 (rr_ssrc r) ∧ Forall rb_ok (rr_reports r) ∧ (length (rr_reports r) <= 31)%nat.

(** The 24-bit loss counter is two's complement on the wire. *)
Lemma sign_extend_24 w :
  is_u32 w →
  let raw := as_i32 (Z.land w 16777215) in
  (if negb (Z.land raw 8388608 =? 0) then Z.lor raw (Z.lnot 16777215) else raw) =
  (w + 8388608) mod 16777216 - 8388608.
Proof.
  intros Hw. autorewrite with bits. cbn zeta.
  assert (E : as_i32 (w mod 16777216) = w mod 16777216) by ulia. rewrite E. clear E.
  change 8388608 with (2 ^ 23) at 1. rewrite bit_test, testbit_div by lia.
  destruct (Z.eqb_spec ((w mod 16777216 / 2 ^ 23) mod 2) 1).
  - change (Z.lnot 16777215) with (-1 * 2 ^ 24).
    rewrite Z.lor_comm, lor_add_high by (try lia; apply Z.mod_pos_bound; lia). ulia.
  - ulia.
Qed.

Lemma lost_word_spec b :
  rb_ok b →
  let w := Z.lor (Z.shiftl (rb_fraction_lost b) 24)
                 (Z.land (as_u32 (rb_cumulative_lost b)) 16777215) in
  is_u32 w ∧ as_u8 (Z.shiftr w 24) = rb_fraction_lost b ∧
  (w + 8388608) mod 16777216 - 8388608 = rb_cumulative_lost b.
Proof.
  intros (_ & Hf & Hc & _). cbn zeta. autorewrite with bits.
  rewrite lor_add_high by (try lia; apply Z.mod_pos_bound; lia). split_and!; ulia.
Qed.

Lemma ReportBlock_parse_serialize b rest :
  rb_ok b → ReportBlock_parse (ReportBlock_serialize b ++ rest) = Ok b.
Proof.
  intros Hb. destruct (lost_word_spec b Hb) as (Hw & Ef & Ec).
  destruct Hb as (H1 & H2 & H3 & H4 & H5 & H6 & H7).
  unfold ReportBlock_parse, ReportBlock_serialize, ReportBlock_SIZE.
  rewrite blen_app. pose proof (blen_nonneg rest).
  match goal with |- context [if ?c <? 24 then _ else _] => destruct (Z.ltb_spec c 24) as [Hl|_] end.
  { unfold blen in Hl at 1. cbn in Hl. lia. }
  rewrite <- !app_assoc.
  do 2 (rewrite get_put_u32 by done; cbn [mbind exec_bind]).
  rewrite sign_extend_24, Ef, Ec by done.
  do 4 (rewrite get_put_u32 by done; cbn [mbind exec_bind]). by destruct b.
Qed.

Lemma ReportBlock_serialize_length b : length (ReportBlock_serialize b) = 24%nat.
Proof. done. Qed.

Lemma ReportBlock_no_panic buf : no_panic (ReportBlock_parse buf).
Proof. unfold ReportBlock_parse, ReportBlock_SIZE. case_cmp; [done|]. by repeat read_step. Qed.

Lemma parse_reports_serialize pre bs rest :
  Forall rb_ok bs →
  parse_reports (pre ++ concat (map ReportBlock_serialize bs) ++ rest) (length bs) (blen pre) = Ok bs.
Proof.
  revert pre. induction bs as [|b bs IH]; intros pre; [done|].
  intros [Hb Hbs]%Forall_cons. cbn [parse_reports length map concat].
  rewrite slice_from_ok by (rewrite blen_app; pose proof (blen_nonneg pre);
    pose proof (blen_nonneg ((ReportBlock_serialize b ++ concat (map ReportBlock_serialize bs)) ++ rest)); lia).
  cbn [mbind exec_bind]. rewrite drop_blen_app, <- app_assoc.
  rewrite ReportBlock_parse_serialize by done. cbn [mbind exec_bind].
  specialize (IH (pre ++ ReportBlock_serialize b) Hbs).
  rewrite blen_app, <- app_assoc in IH.
  change (blen (ReportBlock_serialize b)) with ReportBlock_SIZE in IH. by rewrite IH.
Qed.

Lemma parse_reports_no_panic buf rc offset :
  0 <= offset <= blen buf → no_panic (parse_reports buf rc offset).
Proof.
  revert offset. induction rc as [|rc IH]; intros offset Ho; [done|]. cbn [parse_reports].
  rewrite slice_from_ok by done. cbn [mbind exec_bind].
  pose proof (ReportBlock_no_panic (drop (Z.to_nat offset) buf)) as HP.
  destruct (ReportBlock_parse _) as [b|e|] eqn:E; [|done..]. cbn [mbind exec_bind].
  apply no_panic_bind; [|done]. apply IH.
  unfold ReportBlock_parse, ReportBlock_SIZE in *. rewrite blen_drop in E.
  destruct (Z.ltb_spec (Z.max 0 (blen buf - Z.of_nat (Z.to_nat offset))) 24); [done|lia].
Qed.

#[export] Instance ReceiverReport_codec : RtcpCodec ReceiverReport := {
  codec_pt := RTCP_PT_RR;
  codec_count r := Z.of_nat (length (rr_reports r));
  codec_serialize := ReceiverReport_serialize;
  codec_parse := ReceiverReport_parse;
  codec_ok := rr_ok
}.

Lemma concat_reports_blen bs :
  blen (concat (map ReportBlock_serialize bs)) = 24 * Z.of_nat (length bs).
Proof.
  induction bs as [|b bs IH]; [done|]. cbn [map concat length]. rewrite blen_app, IH.
  change (blen (ReportBlock_serialize b)) with 24. lia.
Qed.

#[export] Instance ReceiverReport_laws : RtcpCodecLaws ReceiverReport.
Proof.
  split; cbn [codec_pt codec_count codec_serialize codec_parse codec_ok ReceiverReport_codec].
  - unfold RTCP_PT_RR. ulia.
  - intros r (_ & _ & ?). lia.
  - intros r (Hs & Hb & Hl). set (n := Z.of_nat (length (rr_reports r))).
    assert (Hn : 0 <= n <= 31) by (unfold n; lia).
    exists (put_u32 (rr_ssrc r) ++ concat (map ReportBlock_serialize (rr_reports r))).
    split_and!.
    + unfold ReceiverReport_serialize, frame, frame_header.
      fold n. rewrite blen_app, concat_reports_blen. fold n.
      change (blen (put_u32 (rr_ssrc r))) with 4.
      autorewrite with bits. rewrite <- !app_assoc.
      rewrite (lor_add 128 _ 5) by ulia. cbn [bool_as_u8].
      repeat f_equal; ulia.
    + unfold body_ok. rewrite blen_app, concat_reports_blen. fold n.
      change (blen (put_u32 (rr_ssrc r))) with 4. ulia.
    + unfold ReceiverReport_parse. rewrite blen_app, concat_reports_blen. fold n.
      change (blen (put_u32 (rr_ssrc r))) with 4. case_cmp; [lia|].
      rewrite get_put_u32 by done. cbn [mbind exec_bind].
      pose proof (parse_reports_serialize (put_u32 (rr_ssrc r)) (rr_reports r) [] Hb) as HP.
      rewrite app_nil_r in HP. unfold n. rewrite Nat2Z.id. change 4 with (blen (put_u32 (rr_ssrc r))).
      rewrite HP. by destruct r.
  - intros body c Hb. unfold ReceiverReport_parse. case_cmp; [done|].
    read_step. apply no_panic_bind; [|done]. apply parse_reports_no_panic. lia.
Qed.
