(* ===== verification/Sdes.v ===== *)
(** * RTCP Source Description (rist-protocol/src/packet/rtcp_sdes.rs)

    The CNAME is a Rust [String]: a byte sequence that is valid UTF-8.  The parser
    goes through [String::from_utf8_lossy], modelled here after the standard
    library's chunk iterator: every maximal ill-formed prefix of a character becomes
    one U+FFFD. *)

From stdpp Require Import pretty.
From S2P Require Import Prelude RtcpCodec.

(** ** UTF-8 *)

Definition utf8_char_width (b : Z) : Z :=
  if b <? 128 then 1
  else if b <? 194 then 0
  else if b <? 224 then 2
  else if b <? 240 then 3
  else if b <? 245 then 4
  else 0.

Definition is_cont (b : Z) : bool := Z.land b 192 =? 128.
Definition in_range (lo hi b : Z) : bool := (lo <=? b) && (b <=? hi).

(** Allowed second byte of a three- and of a four-byte sequence. *)
Definition second3 (b0 b1 : Z) : bool :=
  if b0 =? 224 then in_range 160 191 b1
  else if b0 =? 237 then in_range 128 159 b1
  else in_range 128 191 b1.
Definition second4 (b0 b1 : Z) : bool :=
  if b0 =? 240 then in_range 144 191 b1
  else if b0 =? 244 then in_range 128 143 b1
  else in_range 128 191 b1.

(** One step of the chunk iterator at the head of a non-empty buffer: is there a
    well-formed character, and how many bytes were scanned.  Reads past the end
    give 0, as [safe_get] does. *)
Definition char_scan (b0 : Z) (r : bytes) : bool * nat :=
  let c1 := nth 0 r 0 in let c2 := nth 1 r 0 in let c3 := nth 2 r 0 in
  let w := utf8_char_width b0 in
  if w =? 1 then (true, 1%nat)
  else if w =? 2 then if is_cont c1 then (true, 2%nat) else (false, 1%nat)
  else if w =? 3 then
    if second3 b0 c1 then if is_cont c2 then (true, 3%nat) else (false, 2%nat)
    else (false, 1%nat)
  else if w =? 4 then
    if second4 b0 c1 then
      if is_cont c2 then if is_cont c3 then (true, 4%nat) else (false, 3%nat)
      else (false, 2%nat)
    else (false, 1%nat)
  else (false, 1%nat).

Definition REPLACEMENT : bytes := [239; 191; 189].

Fixpoint lossy_fuel (fuel : nat) (b : bytes) : bytes :=
  match fuel, b with
  | S fuel', b0 :: r =>
      let '(ok, n) := char_scan b0 r in
      (if ok then take n b else REPLACEMENT) ++ lossy_fuel fuel' (drop n b)
  | _, _ => []
  end.
(** Every step consumes at least one byte, so the length is enough fuel. *)
Definition from_utf8_lossy (b : bytes) : bytes := lossy_fuel (length b) b.

Fixpoint valid_fuel (fuel : nat) (b : bytes) : bool :=
  match fuel, b with
  | S fuel', b0 :: r => let '(ok, n) := char_scan b0 r in ok && valid_fuel fuel' (drop n b)
  | O, _ :: _ => false
  | _, [] => true
  end.
Definition utf8_valid (b : bytes) : bool := valid_fuel (length b) b.

Lemma is_cont_0 : is_cont 0 = false.
Proof. done. Qed.

Lemma second3_0 b0 : second3 b0 0 = false.
Proof. unfold second3. by repeat destruct (_ =? _). Qed.
Lemma second4_0 b0 : second4 b0 0 = false.
Proof. unfold second4. by repeat destruct (_ =? _). Qed.

(** A byte past the end of the buffer reads as 0, which no test accepts. *)
Ltac refute_zero :=
  repeat match goal with
  | H : is_cont 0 = true |- _ => by rewrite is_cont_0 in H
  | H : second3 _ 0 = true |- _ => by rewrite second3_0 in H
  | H : second4 _ 0 = true |- _ => by rewrite second4_0 in H
  end.

Lemma char_scan_bounds b0 r ok n :
  char_scan b0 r = (ok, n) → (1 <= n <= S (length r))%nat.
Proof.
  unfold char_scan.
  destruct r as [|c1 [|c2 [|c3 r]]]; cbn [nth length];
    repeat match goal with |- context [if ?c then _ else _] => destruct c eqn:? end;
    intros [= <- <-]; cbn [length]; try lia; exfalso; refute_zero.
Qed.

Lemma lossy_fuel_valid fuel b : valid_fuel fuel b = true → lossy_fuel fuel b = b.
Proof.
  revert b. induction fuel as [|fuel IH]; intros [|b0 r]; cbn [valid_fuel lossy_fuel]; try done.
  destruct (char_scan b0 r) as [ok n] eqn:E. intros [-> H]%andb_prop.
  rewrite IH by done. apply take_drop.
Qed.

Lemma from_utf8_lossy_id b : utf8_valid b = true → from_utf8_lossy b = b.
Proof. apply lossy_fuel_valid. Qed.

Lemma valid_fuel_mono fuel fuel' b :
  (fuel <= fuel')%nat → valid_fuel fuel b = true → valid_fuel fuel' b = true.
Proof.
  revert fuel' b. induction fuel as [|fuel IH]; intros [|fuel'] [|b0 r] Hle; cbn [valid_fuel]; try done; try lia.
  destruct (char_scan b0 r) as [ok n]. intros [-> H]%andb_prop. cbn. apply IH; [lia|done].
Qed.

(** Whether a character is well formed depends only on its own bytes. *)
Lemma char_scan_app b0 r s n :
  char_scan b0 r = (true, n) → char_scan b0 (take (n - 1) r ++ s) = (true, n).
Proof.
  intros E. unfold char_scan in E.
  destruct r as [|c1 [|c2 [|c3 r]]]; cbn [nth] in E;
    repeat match type of E with context [if ?c then _ else _] => destruct c eqn:? end;
    (discriminate E || injection E as <-); cbn [take Nat.sub app]; unfold char_scan; cbn [nth];
    repeat match goal with
    | H : ?c = true |- context [if ?c then _ else _] => rewrite H
    | H : ?c = false |- context [if ?c then _ else _] => rewrite H
    end; try done; exfalso; refute_zero.
Qed.

Lemma valid_cons_char b0 r n fuel s :
  char_scan b0 r = (true, n) → valid_fuel fuel s = true →
  valid_fuel (S fuel) (take n (b0 :: r) ++ s) = true.
Proof.
  intros E Hs. pose proof (char_scan_bounds _ _ _ _ E) as Hn.
  destruct n as [|n]; [lia|]. cbn [take app valid_fuel].
  pose proof (char_scan_app b0 r s (S n) E) as E'.
  replace (S n - 1)%nat with n in E' by lia. rewrite E'. cbn [andb].
  change (b0 :: take n r ++ s) with ((b0 :: take n r) ++ s).
  rewrite drop_app_length' by (cbn; rewrite length_take; lia). done.
Qed.

(** Decoding always yields a valid string. *)
Lemma lossy_fuel_is_valid fuel b : valid_fuel fuel (lossy_fuel fuel b) = true.
Proof.
  revert b. induction fuel as [|fuel IH]; intros [|b0 r]; cbn [lossy_fuel]; try done.
  destruct (char_scan b0 r) as [[] n] eqn:E.
  - by apply valid_cons_char.
  - apply (valid_cons_char 239 [191; 189] 3); [done|]. apply IH.
Qed.

(** ** The SDES packet *)

Definition RTCP_PT_SDES : Z := 202.
Definition SDES_CNAME : Z := 1.

Record Sdes := mkSdes { sd_ssrc : Z; sd_cname : bytes }.

Definition Sdes_parse (buf : bytes) : exec Sdes :=
  if blen buf <? 6 then Err (PacketTooShort 6 (blen buf)) else
  b0 ← index buf 0; b1 ← index buf 1; b2 ← index buf 2; b3 ← index buf 3;
  let ssrc := ((b0 * 256 + b1) * 256 + b2) * 256 + b3 in
  item_type ← index buf 4;
  if negb (item_type =? SDES_CNAME)
  then Err (Other ("expected SDES CNAME (type 1), got type " +:+ pretty item_type)) else
  name_len ← index buf 5;
  if blen buf <? 6 + name_len then Err (PacketTooShort (6 + name_len) (blen buf)) else
  name ← slice buf 6 (6 + name_len);
  Ok (mkSdes ssrc (from_utf8_lossy name)).

(** The padding computed in two steps, as in the source. *)
Definition sdes_padding (chunk_len : Z) : Z :=
  let padding_needed := (4 - chunk_len mod 4) mod 4 in
  if padding_needed =? 0 then 4 else padding_needed.

Definition Sdes_serialize (self : Sdes) : bytes :=
  let name_len := blen (sd_cname self) in
  let chunk_len := 4 + 2 + name_len in
  let padding_needed := sdes_padding chunk_len in
  let total_chunk_len := chunk_len + padding_needed in
  let length_words := (4 + total_chunk_len) / 4 - 1 in
  put_u8 129 ++ put_u8 RTCP_PT_SDES ++ put_u16 (as_u16 length_words) ++
  put_u32 (sd_ssrc self) ++ put_u8 SDES_CNAME ++ put_u8 (as_u8 name_len) ++
  sd_cname self ++ replicate (Z.to_nat padding_needed) 0.

(** [String]s are valid UTF-8; [sdes_ok] adds that the CNAME fits its length byte. *)
Definition sdes_str_ok (s : Sdes) : Prop :=
  is_u32 (sd_ssrc s) ∧ bytes_ok (sd_cname s) ∧ utf8_valid (sd_cname s) = true.
Definition sdes_ok (s : Sdes) : Prop := sdes_str_ok s ∧ blen (sd_cname s) <= 255.

Definition sdes_body (s : Sdes) : bytes :=
  put_u32 (sd_ssrc s) ++ put_u8 SDES_CNAME ++ put_u8 (as_u8 (blen (sd_cname s))) ++
  sd_cname s ++ replicate (Z.to_nat (sdes_padding (6 + blen (sd_cname s)))) 0.

Lemma sdes_padding_spec n :
  0 <= n → 1 <= sdes_padding n <= 4 ∧ (n + sdes_padding n) mod 4 = 0.
Proof. intros. unfold sdes_padding. case_cmp; ulia. Qed.

Lemma sdes_body_blen s :
  blen (sdes_body s) = 6 + blen (sd_cname s) + sdes_padding (6 + blen (sd_cname s)).
Proof.
  unfold sdes_body. rewrite !blen_app. pose proof (blen_nonneg (sd_cname s)).
  destruct (sdes_padding_spec (6 + blen (sd_cname s))); [lia|].
  assert (E : blen (replicate (Z.to_nat (sdes_padding (6 + blen (sd_cname s)))) 0) =
    sdes_padding (6 + blen (sd_cname s))).
  { unfold blen at 1. rewrite length_replicate. lia. }
  rewrite E. change (blen (put_u32 (sd_ssrc s))) with 4. unfold put_u8.
  change (blen [_]) with 1. change (blen [SDES_CNAME]) with 1. lia.
Qed.

Lemma sdes_frame s :
  blen (sd_cname s) < 262000 → Sdes_serialize s = frame false 1 RTCP_PT_SDES (sdes_body s).
Proof.
  intros Hn. unfold Sdes_serialize, frame, frame_header.
  pose proof (blen_nonneg (sd_cname s)).
  rewrite sdes_body_blen. change (4 + 2) with 6.
  destruct (sdes_padding_spec (6 + blen (sd_cname s))) as [Hp Hm]; [lia|].
  rewrite <- !app_assoc. unfold sdes_body.
  change (put_u8 129) with (put_u8 (128 + bool_as_u8 false * 32 + 1)).
  do 2 f_equal. f_equal. f_equal. ulia.
Qed.

Lemma sdes_body_ok s : blen (sd_cname s) < 262000 → body_ok (sdes_body s).
Proof.
  intros. unfold body_ok. rewrite sdes_body_blen. pose proof (blen_nonneg (sd_cname s)).
  destruct (sdes_padding_spec (6 + blen (sd_cname s))); [lia|]. split; [ulia|lia].
Qed.

Lemma Sdes_parse_body s :
  is_u32 (sd_ssrc s) →
  Sdes_parse (sdes_body s) =
  Ok (mkSdes (sd_ssrc s)
        (from_utf8_lossy (take (Z.to_nat (blen (sd_cname s) mod 256)) (sd_cname s)))).
Proof.
  intros Hs. set (n := blen (sd_cname s)). assert (Hn : 0 <= n) by apply blen_nonneg.
  assert (Hm : 0 <= n mod 256 <= n) by ulia.
  unfold Sdes_parse. rewrite sdes_body_blen. fold n.
  destruct (sdes_padding_spec (6 + n)) as [Hp _]; [lia|].
  destruct (Z.ltb_spec (6 + n + sdes_padding (6 + n)) 6); [lia|].
  change (index (sdes_body s) 0) with (Ok (sd_ssrc s / 16777216)).
  change (index (sdes_body s) 1) with (Ok (sd_ssrc s / 65536 mod 256)).
  change (index (sdes_body s) 2) with (Ok (sd_ssrc s / 256 mod 256)).
  change (index (sdes_body s) 3) with (Ok (sd_ssrc s mod 256)).
  change (index (sdes_body s) 4) with (Ok SDES_CNAME).
  change (index (sdes_body s) 5) with (Ok (n mod 256)).
  cbn [mbind exec_bind]. change (negb (SDES_CNAME =? SDES_CNAME)) with false. cbn match.
  destruct (Z.ltb_spec (6 + n + sdes_padding (6 + n)) (6 + n mod 256)); [lia|].
  rewrite slice_ok by (rewrite ?sdes_body_blen; fold n; lia).
  cbn [mbind exec_bind]. do 2 f_equal; [ulia|].
  f_equal. unfold sdes_body. cbn [put_u32 put_u8 app].
  change (Z.to_nat 6) with 6%nat. cbn [drop].
  rewrite drop_0, take_app_le; [f_equal; lia|]. unfold n, blen in *. lia.
Qed.

(** (C29) What a peer reads back from a serialized SDES: the SSRC, and the CNAME cut to
    [len mod 256] bytes (the length byte is [name_len as u8]) and decoded again, so a
    CNAME of at most 255 bytes comes back unchanged.  The
    packet is always a well-formed frame, padded to a word boundary with one to four
    zero bytes. *)
Theorem Sdes_parse_serialize (s : Sdes) :
  sdes_str_ok s → blen (sd_cname s) < 262000 →
  Sdes_serialize s = frame false 1 RTCP_PT_SDES (sdes_body s) ∧ body_ok (sdes_body s) ∧
  Sdes_parse (sdes_body s) =
  Ok (mkSdes (sd_ssrc s)
        (from_utf8_lossy (take (Z.to_nat (blen (sd_cname s) mod 256)) (sd_cname s)))) ∧
  (blen (sd_cname s) <= 255 → Sdes_parse (sdes_body s) = Ok s).
Proof.
  intros (Hs & Hb & Hv) Hl. split; [by apply sdes_frame|]. split; [by apply sdes_body_ok|].
  rewrite Sdes_parse_body by done. split; [done|].
  pose proof (blen_nonneg (sd_cname s)).
  intros. rewrite Z.mod_small, take_ge, from_utf8_lossy_id by (done || unfold blen in *; lia).
  by destruct s.
Qed.

Lemma Sdes_parse_serialize_witness :
  let s := mkSdes 1 (replicate 256 97) in
  Sdes_parse (sdes_body s) = Ok (mkSdes 1 []).
Proof.
  intros s. destruct (Sdes_parse_serialize s) as (_ & _ & -> & _); [|unfold blen; cbn; lia|].
  - split_and!; [cbn; ulia| |reflexivity].
    apply Forall_replicate. ulia.
  - reflexivity.
Defined.

#[export] Instance Sdes_codec : RtcpCodec Sdes := {
  codec_pt := RTCP_PT_SDES;
  codec_count _ := 1;
  codec_serialize := Sdes_serialize;
  codec_parse body _ := Sdes_parse body;
  codec_ok := sdes_ok
}.

Lemma Sdes_no_panic buf : bytes_ok buf → no_panic (Sdes_parse buf).
Proof.
  intros Hok. unfold Sdes_parse. case_cmp; [done|].
  assert (Hi : ∀ i, 0 <= i < 6 → ∃ x, index buf i = Ok x ∧ is_u8 x).
  { intros i Hi. unfold index. destruct (buf !! Z.to_nat i) as [x|] eqn:E.
    - exists x. split; [done|]. by eapply Forall_lookup_1 in E.
    - apply lookup_ge_None in E. unfold blen in *. lia. }
  destruct (Hi 0) as (? & -> & _); [lia|]. cbn [mbind exec_bind].
  destruct (Hi 1) as (? & -> & _); [lia|]. cbn [mbind exec_bind].
  destruct (Hi 2) as (? & -> & _); [lia|]. cbn [mbind exec_bind].
  destruct (Hi 3) as (? & -> & _); [lia|]. cbn [mbind exec_bind].
  destruct (Hi 4) as (? & -> & _); [lia|]. cbn [mbind exec_bind].
  destruct (negb _); [done|].
  destruct (Hi 5) as (n & -> & Hn); [lia|]. cbn [mbind exec_bind].
  case_cmp; [done|]. by rewrite slice_ok by ulia.
Qed.

#[export] Instance Sdes_laws : RtcpCodecLaws Sdes.
Proof.
  split; cbn [codec_pt codec_count codec_serialize codec_parse codec_ok Sdes_codec].
  - unfold RTCP_PT_SDES. ulia.
  - lia.
  - intros s [Hs Hl]. exists (sdes_body s).
    split; [apply sdes_frame; lia|]. split; [apply sdes_body_ok; lia|].
    rewrite Sdes_parse_body by apply Hs.
    pose proof (blen_nonneg (sd_cname s)). rewrite Z.mod_small by lia.
    rewrite take_ge by (unfold blen; lia). rewrite from_utf8_lossy_id by apply Hs.
    by destruct s.
  - intros. by apply Sdes_no_panic.
Qed.
