(* ===== verification/RtcpNack.v ===== *)
(** * RTCP NACK packets (rist-protocol/src/packet/rtcp_nack.rs)

    Bitmask and range NACK entries, the RTPFB packet that carries them, and the
    builder that packs a list of lost sequence numbers into entries. *)

From stdpp Require Import sorting.
From S2P Require Import Prelude RtcpCodec.

Definition RTCP_PT_RTPFB : Z := 205.
Definition NACK_FMT_GENERIC : Z := 1.
Definition NACK_FMT_RANGE : Z := 15.

Record BitmaskNack := mkBitmaskNack { bn_pid : Z; bn_blp : Z }.
Record RangeNack := mkRangeNack { rn_start : Z; rn_extra : Z }.

Definition BitmaskNack_lost_seqs (self : BitmaskNack) : list Z :=
  bn_pid self ::
  omap (λ i, if negb (Z.land (bn_blp self) (Z.shiftl 1 i) =? 0)
             then Some (wrapping_add16 (bn_pid self) (i + 1)) else None) (seqZ 0 16).

Definition RangeNack_lost_seqs (self : RangeNack) : list Z :=
  let count := rn_extra self + 1 in
  map (λ i, wrapping_add16 (rn_start self) (as_u16 i)) (seqZ 0 count).

Inductive NackEntries : Type :=
  | Bitmask (v : list BitmaskNack)
  | Range (v : list RangeNack).

Record NackPacket := mkNackPacket {
  nk_sender_ssrc : Z;
  nk_media_ssrc : Z;
  nk_entries : NackEntries
}.

(** The two [for _ in 0..num_entries] loops read pairs of [u16]. *)
Fixpoint read_pairs {A} (mk : Z → Z → A) (n : nat) (r : bytes) : exec (list A) :=
  match n with
  | O => Ok []
  | S n' =>
      '(x, r) ← get_u16 r;
      '(y, r) ← get_u16 r;
      rest ← read_pairs mk n' r;
      Ok (mk x y :: rest)
  end.

Definition NackPacket_parse (buf : bytes) (fmt payload_len : Z) : exec NackPacket :=
  if blen buf <? 8 then Err (PacketTooShort 8 (blen buf)) else
  '(sender_ssrc, r) ← get_u32 buf;
  '(media_ssrc, r) ← get_u32 r;
  let fci_len := Z.max 0 (payload_len - 8) in
  let num_entries := Z.to_nat (fci_len / 4) in
  entries ←
    (if fmt =? NACK_FMT_GENERIC then
       nacks ← read_pairs mkBitmaskNack num_entries r; Ok (Bitmask nacks)
     else if fmt =? NACK_FMT_RANGE then
       nacks ← read_pairs mkRangeNack num_entries r; Ok (Range nacks)
     else Err (InvalidNackFormat fmt));
  Ok (mkNackPacket sender_ssrc media_ssrc entries).

Definition put_bitmask (n : BitmaskNack) : bytes := put_u16 (bn_pid n) ++ put_u16 (bn_blp n).
Definition put_range (n : RangeNack) : bytes := put_u16 (rn_start n) ++ put_u16 (rn_extra n).

Definition entries_fmt (e : NackEntries) : Z :=
  match e with Bitmask _ => NACK_FMT_GENERIC | Range _ => NACK_FMT_RANGE end.
Definition entries_count (e : NackEntries) : Z :=
  match e with Bitmask v => Z.of_nat (length v) | Range v => Z.of_nat (length v) end.

Definition NackPacket_serialize (self : NackPacket) : bytes :=
  let fmt := entries_fmt (nk_entries self) in
  let entry_count := entries_count (nk_entries self) in
  let length_words := 2 + entry_count in
  put_u8 (Z.lor 128 (Z.land fmt 31)) ++ put_u8 RTCP_PT_RTPFB ++
  put_u16 (as_u16 length_words) ++
  put_u32 (nk_sender_ssrc self) ++ put_u32 (nk_media_ssrc self) ++
  match nk_entries self with
  | Bitmask nacks => concat (map put_bitmask nacks)
  | Range nacks => concat (map put_range nacks)
  end.

(** ** The builder *)

Record NackListBuilder := mkNackListBuilder { nb_sender_ssrc : Z; nb_media_ssrc : Z }.

(** Inner loop of [build_bitmask]: extend the mask while the next number is one of
    the 16 after [pid]; returns the mask and the numbers not consumed. *)
Fixpoint bitmask_run (pid blp : Z) (l : list Z) : Z * list Z :=
  match l with
  | s :: l' =>
      let d := wrapping_sub16 s pid in
      if (1 <=? d) && (d <=? 16)
      then bitmask_run pid (Z.lor blp (Z.shiftl 1 (d - 1))) l'
      else (blp, l)
  | [] => (blp, [])
  end.

Fixpoint build_bitmask_loop (fuel : nat) (l : list Z) : list BitmaskNack :=
  match fuel, l with
  | S fuel', pid :: l' =>
      let '(blp, rest) := bitmask_run pid 0 l' in
      mkBitmaskNack pid blp :: build_bitmask_loop fuel' rest
  | _, _ => []
  end.

(** Every iteration consumes a number, so the length of the list is enough fuel. *)
Definition build_bitmask (self : NackListBuilder) (lost_seqs : list Z) : NackPacket :=
  mkNackPacket (nb_sender_ssrc self) (nb_media_ssrc self)
    (Bitmask (build_bitmask_loop (length lost_seqs) lost_seqs)).

(** Inner loop of [build_range]; [extra + 1] is [u16] arithmetic. *)
Fixpoint range_run (start extra : Z) (l : list Z) : Z * list Z :=
  match l with
  | s :: l' =>
      if s =? wrapping_add16 start (as_u16 (extra + 1))
      then range_run start (as_u16 (extra + 1)) l'
      else (extra, l)
  | [] => (extra, [])
  end.

Fixpoint build_range_loop (fuel : nat) (l : list Z) : list RangeNack :=
  match fuel, l with
  | S fuel', start :: l' =>
      let '(extra, rest) := range_run start 0 l' in
      mkRangeNack start extra :: build_range_loop fuel' rest
  | _, _ => []
  end.

Definition build_range (self : NackListBuilder) (lost_seqs : list Z) : NackPacket :=
  mkNackPacket (nb_sender_ssrc self) (nb_media_ssrc self)
    (Range (build_range_loop (length lost_seqs) lost_seqs)).

(** The sequence numbers a NACK packet asks for, in the order the sender walks them. *)
Definition requested_seqs (e : NackEntries) : list Z :=
  match e with
  | Bitmask v => concat (map BitmaskNack_lost_seqs v)
  | Range v => concat (map RangeNack_lost_seqs v)
  end.

(** ** Parsing and serialization *)

Definition nack_ok (n : NackPacket) : Prop :=
  is_u32 (nk_sender_ssrc n) ∧ is_u32 (nk_media_ssrc n) ∧
  match nk_entries n with
  | Bitmask v => Forall (λ e, is_u16 (bn_pid e) ∧ is_u16 (bn_blp e)) v
  | Range v => Forall (λ e, is_u16 (rn_start e) ∧ is_u16 (rn_extra e)) v
  end ∧ entries_count (nk_entries n) <= 65533.

Section pairs.
Context {A : Type} (mk : Z → Z → A) (p1 p2 : A → Z).
Context (mk_eta : ∀ a, mk (p1 a) (p2 a) = a).
Let put (a : A) : bytes := put_u16 (p1 a) ++ put_u16 (p2 a).

Lemma read_pairs_put v rest :
  Forall (λ a, is_u16 (p1 a) ∧ is_u16 (p2 a)) v →
  read_pairs mk (length v) (concat (map put v) ++ rest) = Ok v.
Proof using mk_eta.
  induction v as [|a v IH]; [done|]. intros [[H1 H2] Hv]%Forall_cons.
  cbn [length read_pairs map concat]. unfold put at 1. rewrite <- !app_assoc.
  do 2 (rewrite get_put_u16 by done; cbn [mbind exec_bind]).
  rewrite IH by done. cbn. by rewrite mk_eta.
Qed.

Lemma read_pairs_ok n r :
  4 * Z.of_nat n <= blen r → ∃ v, read_pairs mk n r = Ok v ∧ length v = n.
Proof.
  revert r. induction n as [|n IH]; intros r Hr; [by eexists|]. cbn [read_pairs].
  do 2 read_step. destruct (IH r1) as (v & -> & <-); [lia|]. cbn. by eexists.
Qed.

Lemma pairs_blen v : blen (concat (map put v)) = 4 * Z.of_nat (length v).
Proof.
  induction v as [|a v IH]; [done|]. cbn [map concat length]. rewrite blen_app, IH.
  change (blen (put a)) with 4. lia.
Qed.
End pairs.

#[export] Instance NackPacket_codec : RtcpCodec NackPacket := {
  codec_pt := RTCP_PT_RTPFB;
  codec_count n := entries_fmt (nk_entries n);
  codec_serialize := NackPacket_serialize;
  codec_parse body fmt := NackPacket_parse body fmt (blen body);
  codec_ok := nack_ok
}.

Definition nack_body (n : NackPacket) : bytes :=
  put_u32 (nk_sender_ssrc n) ++ put_u32 (nk_media_ssrc n) ++
  match nk_entries n with
  | Bitmask nacks => concat (map put_bitmask nacks)
  | Range nacks => concat (map put_range nacks)
  end.

Lemma nack_body_blen n : blen (nack_body n) = 8 + 4 * entries_count (nk_entries n).
Proof.
  unfold nack_body. rewrite !blen_app.
  change (blen (put_u32 (nk_sender_ssrc n))) with 4.
  change (blen (put_u32 (nk_media_ssrc n))) with 4.
  destruct (nk_entries n) as [v|v]; cbn [entries_count].
  - rewrite (pairs_blen bn_pid bn_blp). lia.
  - rewrite (pairs_blen rn_start rn_extra). lia.
Qed.

Lemma NackPacket_parse_body n :
  nack_ok n →
  NackPacket_parse (nack_body n) (entries_fmt (nk_entries n)) (blen (nack_body n)) = Ok n.
Proof.
  intros (H1 & H2 & H3 & H4). rewrite nack_body_blen. unfold NackPacket_parse.
  rewrite nack_body_blen. set (k := entries_count (nk_entries n)) in *.
  assert (Hk : 0 <= k) by (subst k; destruct (nk_entries n); cbn; lia).
  destruct (Z.ltb_spec (8 + 4 * k) 8); [lia|]. unfold nack_body.
  do 2 (rewrite get_put_u32 by done; cbn [mbind exec_bind]).
  replace (Z.to_nat (Z.max 0 (8 + 4 * k - 8) / 4)) with (Z.to_nat k) by (f_equal; ulia).
  subst k. destruct n as [ss ms [v|v]]; cbn [nk_entries entries_fmt entries_count] in *;
    rewrite Nat2Z.id.
  - change (NACK_FMT_GENERIC =? NACK_FMT_GENERIC) with true. cbn match.
    rewrite <- (app_nil_r (concat (map put_bitmask v))).
    rewrite (read_pairs_put mkBitmaskNack bn_pid bn_blp) by (done || by intros []).
    done.
  - change (NACK_FMT_RANGE =? NACK_FMT_GENERIC) with false.
    change (NACK_FMT_RANGE =? NACK_FMT_RANGE) with true. cbn match.
    rewrite <- (app_nil_r (concat (map put_range v))).
    rewrite (read_pairs_put mkRangeNack rn_start rn_extra) by (done || by intros []).
    done.
Qed.

Lemma NackPacket_no_panic body fmt : no_panic (NackPacket_parse body fmt (blen body)).
Proof.
  unfold NackPacket_parse. destruct (Z.ltb_spec (blen body) 8); [done|]. do 2 read_step.
  set (k := Z.to_nat (Z.max 0 (blen body - 8) / 4)).
  assert (Hk : 4 * Z.of_nat k <= blen r0) by (subst k; ulia).
  destruct (read_pairs_ok mkBitmaskNack k r0 Hk) as (v & -> & _).
  destruct (read_pairs_ok mkRangeNack k r0 Hk) as (w & -> & _).
  by case_cmp.
Qed.

#[export] Instance NackPacket_laws : RtcpCodecLaws NackPacket.
Proof.
  split; cbn [codec_pt codec_count codec_serialize codec_parse codec_ok NackPacket_codec].
  - unfold RTCP_PT_RTPFB. ulia.
  - intros [? ? []] _; cbn; unfold NACK_FMT_GENERIC, NACK_FMT_RANGE; lia.
  - intros n Hn. exists (nack_body n). split_and!.
    + unfold NackPacket_serialize, frame, frame_header. rewrite nack_body_blen.
      destruct Hn as (_ & _ & _ & Hn).
      assert (0 <= entries_count (nk_entries n)) by (destruct (nk_entries n); cbn; lia).
      rewrite <- !app_assoc. fold (nack_body n). f_equal.
      { by destruct (nk_entries n). }
      do 2 f_equal. f_equal. ulia.
    + destruct Hn as (_ & _ & _ & Hn). unfold body_ok. rewrite nack_body_blen.
      assert (0 <= entries_count (nk_entries n)) by (destruct (nk_entries n); cbn; lia).
      split; [ulia|lia].
    + by apply NackPacket_parse_body.
  - intros. apply NackPacket_no_panic.
Qed.

(** ** What the builder's packets ask for *)

Definition seqs_ok (l : list Z) : Prop := Forall is_u16 l.

Lemma range_run_spec start l : ∀ extra extra' rest,
  0 <= extra → extra + Z.of_nat (length l) <= 65535 →
  range_run start extra l = (extra', rest) →
  extra <= extra' <= extra + Z.of_nat (length l) ∧
  map (λ i, wrapping_add16 start (as_u16 i)) (seqZ (extra + 1) (extra' - extra)) ++ rest = l.
Proof.
  induction l as [|s l IH]; cbn [range_run length]; intros extra extra' rest He Hl.
  - intros [= <- <-]. rewrite seqZ_nil by lia. cbn. split; [lia|done].
  - assert (E : as_u16 (extra + 1) = extra + 1) by ulia. rewrite E.
    destruct (Z.eqb_spec s (wrapping_add16 start (extra + 1))) as [Es|_].
    + intros HR. apply IH in HR as [HR HE]; [|lia..]. split; [lia|].
      rewrite seqZ_cons by lia. cbn [map app]. rewrite E, <- Es. f_equal.
      rewrite <- HE. repeat f_equal; lia.
    + intros [= <- <-]. rewrite seqZ_nil by lia. cbn. split; [lia|done].
Qed.

Lemma build_range_loop_seqs fuel : ∀ l,
  (length l <= fuel)%nat → Z.of_nat (length l) <= 65536 → seqs_ok l →
  concat (map RangeNack_lost_seqs (build_range_loop fuel l)) = l.
Proof.
  induction fuel as [|fuel IH]; intros [|start l]; cbn [build_range_loop length]; try done; try lia.
  intros Hf Hl [Hs Hok]%Forall_cons.
  destruct (range_run start 0 l) as [extra rest] eqn:E.
  apply range_run_spec in E as [He El]; [|lia..].
  cbn [map concat]. rewrite IH.
  - unfold RangeNack_lost_seqs. cbn [rn_start rn_extra]. rewrite seqZ_cons by lia.
    cbn [map app]. f_equal; [ulia|]. rewrite <- El.
    repeat f_equal; lia.
  - rewrite <- El, length_app in Hf. lia.
  - rewrite <- El, length_app in Hl. lia.
  - rewrite <- El in Hok. by apply Forall_app in Hok as [_ ?].
Qed.

Lemma BitmaskNack_lost_elem pid blp s :
  s ∈ BitmaskNack_lost_seqs (mkBitmaskNack pid blp) ↔
  s = pid ∨ ∃ i, 0 <= i < 16 ∧ Z.testbit blp i = true ∧ s = wrapping_add16 pid (i + 1).
Proof.
  unfold BitmaskNack_lost_seqs. cbn [bn_pid bn_blp].
  rewrite elem_of_cons, list_elem_of_omap. apply or_iff_compat_l. split.
  - intros (i & Hi%elem_of_seqZ & E). exists i. split; [lia|].
    rewrite shiftl_mul, Z.mul_1_l, bit_test in E by lia.
    destruct (Z.testbit blp i); by simplify_eq.
  - intros (i & Hi & Hb & ->). exists i. split; [apply elem_of_seqZ; lia|].
    rewrite shiftl_mul, Z.mul_1_l, bit_test by lia. by rewrite Hb.
Qed.

Lemma bitmask_run_spec pid l : ∀ blp blp' rest,
  is_u16 pid → is_u16 blp → seqs_ok l →
  bitmask_run pid blp l = (blp', rest) →
  ∃ run, l = run ++ rest ∧ is_u16 blp' ∧
    Forall (λ s, 1 <= wrapping_sub16 s pid <= 16) run ∧
    ∀ i, 0 <= i < 16 →
      Z.testbit blp' i = true ↔ Z.testbit blp i = true ∨ wrapping_add16 pid (i + 1) ∈ run.
Proof.
  induction l as [|s l IH]; cbn [bitmask_run]; intros blp blp' rest Hp Hb.
  - intros _ [= <- <-]. exists []. split_and!; try done. intros. rewrite elem_of_nil. tauto.
  - intros [Hs Hl]%Forall_cons.
    destruct (Z.leb_spec 1 (wrapping_sub16 s pid)) as [H1|H1];
      [destruct (Z.leb_spec (wrapping_sub16 s pid) 16) as [H2|H2]|]; cbn [andb].
    2,3: intros [= <- <-]; exists []; split_and!; try done; intros; rewrite elem_of_nil; tauto.
    set (d := wrapping_sub16 s pid) in *. intros HR.
    assert (Hs' : s = wrapping_add16 pid (d - 1 + 1)) by (subst d; ulia).
    apply IH in HR as (run & -> & Hb' & Hrun & Hbits); [|done|..|done].
    + exists (s :: run). split; [done|]. split; [done|]. split; [by constructor|].
      intros i Hi. rewrite Hbits, Z.lor_spec, Z.shiftl_1_l, Z.pow2_bits_eqb by lia.
      rewrite orb_true_iff, Z.eqb_eq, elem_of_cons.
      assert (wrapping_add16 pid (i + 1) = s ↔ d - 1 = i) by (rewrite Hs'; split; [|intros <-]; ulia).
      intuition congruence.
    + rewrite Z.shiftl_1_l. split.
      * apply Z.lor_nonneg. split; [ulia|]. apply Z.pow_nonneg. lia.
      * apply (Z.log2_lt_cancel _ (2 ^ 16)). rewrite Z.log2_lor by (unfold_int; try lia; apply Z.pow_nonneg; lia).
        rewrite !Z.log2_pow2 by lia.
        assert (Z.log2 blp < 16) by (destruct (Z.eq_dec blp 0) as [->|]; [done|];
          apply Z.log2_lt_pow2; unfold_int; lia). lia.
Qed.

(** One entry of the builder asks for its first number and the run it absorbed. *)
Lemma bitmask_entry_elem pid l blp rest :
  is_u16 pid → seqs_ok l → bitmask_run pid 0 l = (blp, rest) →
  ∃ run, l = run ++ rest ∧ is_u16 blp ∧
    ∀ s, s ∈ BitmaskNack_lost_seqs (mkBitmaskNack pid blp) ↔ s ∈ pid :: run.
Proof.
  intros Hp Hl HR. apply bitmask_run_spec in HR as (run & -> & Hb & Hrun & Hbits); try done.
  exists run. split_and!; [done..|]. intros s. rewrite BitmaskNack_lost_elem, elem_of_cons.
  apply or_iff_compat_l. split.
  - intros (i & Hi & Hbit & ->). apply Hbits in Hbit as [Hbit|]; [|done|done].
    by rewrite Z.bits_0 in Hbit.
  - intros Hs. pose proof (proj1 (Forall_forall _ _) Hrun s Hs) as Hd. cbn in Hd.
    assert (Hs16 : is_u16 s) by (apply Forall_app in Hl as [Hl _]; by eapply Forall_forall in Hl).
    exists (wrapping_sub16 s pid - 1). split; [lia|].
    assert (E : s = wrapping_add16 pid (wrapping_sub16 s pid - 1 + 1)) by ulia.
    split; [|done]. apply Hbits; [lia|]. right. by rewrite <- E.
Qed.

Lemma build_bitmask_loop_elem fuel : ∀ l,
  (length l <= fuel)%nat → seqs_ok l →
  ∀ s, s ∈ concat (map BitmaskNack_lost_seqs (build_bitmask_loop fuel l)) ↔ s ∈ l.
Proof.
  induction fuel as [|fuel IH]; intros [|pid l]; cbn [build_bitmask_loop length]; try done; try lia.
  intros Hf [Hp Hl]%Forall_cons s.
  destruct (bitmask_run pid 0 l) as [blp rest] eqn:E.
  apply bitmask_entry_elem in E as (run & -> & _ & HE); [|done..].
  rewrite length_app in Hf. apply Forall_app in Hl as [_ Hl].
  cbn [map concat]. rewrite elem_of_app, HE, IH by (done || lia).
  rewrite !elem_of_cons, elem_of_app. tauto.
Qed.

(** (C17) Packing loses nothing and invents nothing: for any list of sequence numbers
    the bitmask NACK asks for exactly its members, and for a list of at most 65536
    numbers the range NACK asks for exactly that list, in order. *)
Theorem nack_builder_exact (b : NackListBuilder) (lost : list Z) :
  seqs_ok lost →
  (∀ s, s ∈ requested_seqs (nk_entries (build_bitmask b lost)) ↔ s ∈ lost) ∧
  (Z.of_nat (length lost) <= 65536 →
   requested_seqs (nk_entries (build_range b lost)) = lost).
Proof.
  intros Hl. split.
  - intros s. by apply build_bitmask_loop_elem.
  - intros. by apply build_range_loop_seqs.
Qed.

Lemma nack_builder_exact_witness :
  requested_seqs (nk_entries (build_range (mkNackListBuilder 1 2) [65534; 65535; 0; 200])) =
  [65534; 65535; 0; 200] ∧
  (0 ∈ requested_seqs (nk_entries (build_bitmask (mkNackListBuilder 1 2) [65534; 65535; 0; 200]))
   ↔ 0 ∈ [65534; 65535; 0; 200]).
Proof.
  assert (H : seqs_ok [65534; 65535; 0; 200]) by (repeat constructor; unfold_int; lia).
  destruct (nack_builder_exact (mkNackListBuilder 1 2) _ H) as [H1 H2].
  split; [apply H2; cbn; lia | apply H1].
Defined.

Lemma build_bitmask_loop_ok fuel : ∀ l,
  seqs_ok l →
  Forall (λ e, is_u16 (bn_pid e) ∧ is_u16 (bn_blp e)) (build_bitmask_loop fuel l) ∧
  (length (build_bitmask_loop fuel l) <= length l)%nat.
Proof.
  induction fuel as [|fuel IH]; intros [|pid l]; cbn [build_bitmask_loop length]; try (split; [done|lia]).
  intros [Hp Hl]%Forall_cons.
  destruct (bitmask_run pid 0 l) as [blp rest] eqn:E.
  apply bitmask_entry_elem in E as (run & -> & Hb & _); [|done..].
  apply Forall_app in Hl as [_ Hl]. destruct (IH rest Hl) as [H1 H2].
  rewrite length_app. split; [by constructor|cbn; lia].
Qed.

Lemma build_bitmask_ok b l :
  is_u32 (nb_sender_ssrc b) → is_u32 (nb_media_ssrc b) → seqs_ok l →
  Z.of_nat (length l) <= 65533 → nack_ok (build_bitmask b l).
Proof.
  intros H1 H2 Hl Hn. destruct (build_bitmask_loop_ok (length l) l Hl).
  unfold nack_ok; cbn. split_and!; try done. lia.
Qed.

(** ** The packed NACK asks for each number at most once *)

Lemma NoDup_omap_inj {A B} (f : A → option B) l :
  (∀ x1 x2 y, x1 ∈ l → x2 ∈ l → f x1 = Some y → f x2 = Some y → x1 = x2) →
  NoDup l → NoDup (omap f l).
Proof.
  intros Hf. induction 1 as [|x l Hx Hl IH]; cbn; [by apply NoDup_nil|].
  assert (Hl' : NoDup (omap f l)).
  { apply IH. intros x1 x2 y H1 H2. apply Hf; by apply elem_of_cons; right. }
  destruct (f x) as [y|] eqn:E; [|done]. apply NoDup_cons. split; [|done].
  intros (x' & Hx' & E')%list_elem_of_omap. apply Hx.
  assert (x = x') as ->; [|done]. apply (Hf x x' y); [by apply elem_of_cons; left|by apply elem_of_cons; right|done..].
Qed.

Lemma BitmaskNack_lost_NoDup pid blp : is_u16 pid → NoDup (BitmaskNack_lost_seqs (mkBitmaskNack pid blp)).
Proof.
  intros Hp. unfold BitmaskNack_lost_seqs. cbn [bn_pid bn_blp]. apply NoDup_cons. split.
  - intros (i & Hi%elem_of_seqZ & E)%list_elem_of_omap. destruct (negb _); [|done]. injection E as E.
    clear -E Hp Hi. ulia.
  - apply NoDup_omap_inj; [|apply NoDup_seqZ]. intros i j y Hi%elem_of_seqZ Hj%elem_of_seqZ.
    destruct (negb _); [|done]. intros [= E]. destruct (negb _); [|done]. intros [= E'].
    clear -E E' Hi Hj. ulia.
Qed.

Lemma build_bitmask_loop_length fuel : ∀ l,
  seqs_ok l →
  (length (concat (map BitmaskNack_lost_seqs (build_bitmask_loop fuel l))) <= length l)%nat.
Proof.
  induction fuel as [|fuel IH]; intros [|pid l]; cbn [build_bitmask_loop length map concat]; try lia.
  intros [Hp Hl]%Forall_cons. destruct (bitmask_run pid 0 l) as [blp rest] eqn:E.
  apply bitmask_entry_elem in E as (run & -> & _ & HE); [|done..].
  apply Forall_app in Hl as [_ Hl]. cbn [map concat]. rewrite !length_app. specialize (IH rest Hl).
  assert (length (BitmaskNack_lost_seqs (mkBitmaskNack pid blp)) <= length (pid :: run))%nat; [|cbn in *; lia].
  apply submseteq_length, NoDup_submseteq; [by apply BitmaskNack_lost_NoDup|]. intros s. apply HE.
Qed.
