(* ===== verification/RtcpApp.v ===== *)
(** * RTCP APP "RIST" packets (rist-protocol/src/packet/rtcp_app.rs)

    RTT echo request and response and librist's range NACK, told apart by the
    subtype in the count field of the common header. *)

From S2P Require Import Prelude RtcpCodec.

Definition RTCP_PT_APP : Z := 204.
Definition RIST_APP_RANGE_NACK : Z := 0.
Definition RTT_ECHO_REQUEST : Z := 2.
Definition RTT_ECHO_RESPONSE : Z := 3.
(** [*b"RIST"] *)
Definition RIST_APP_NAME : bytes := [82; 73; 83; 84].
Definition MAX_RANGE_NACK_ENTRIES : Z := 512.

Record RttEchoRequest := mkRttEchoRequest {
  eq_ssrc : Z;
  eq_timestamp_msw : Z;
  eq_timestamp_lsw : Z
}.

Record RttEchoResponse := mkRttEchoResponse {
  er_ssrc : Z;
  er_timestamp_msw : Z;
  er_timestamp_lsw : Z;
  er_processing_delay_us : Z
}.

Record AppRangeNack := mkAppRangeNack {
  an_media_ssrc : Z;
  an_entries : list (Z * Z)
}.

Inductive RistApp : Type :=
  | AppRttEchoRequest (req : RttEchoRequest)
  | AppRttEchoResponse (resp : RttEchoResponse)
  | AppRange (nack : AppRangeNack)
  | AppUnknown (subtype : Z) (data : bytes).

(** [while r.remaining() >= 4 && entries.len() < MAX_RANGE_NACK_ENTRIES]: [room] counts
    the entries that may still be pushed. *)
Fixpoint read_ranges (room : nat) (r : bytes) : exec (list (Z * Z)) :=
  match room with
  | O => Ok []
  | S room' =>
      if blen r <? 4 then Ok [] else
      '(start, r) ← get_u16 r;
      '(extra, r) ← get_u16 r;
      rest ← read_ranges room' r;
      Ok ((start, extra) :: rest)
  end.

Definition RistApp_parse (buf : bytes) (subtype : Z) : exec RistApp :=
  if blen buf <? 8 then Err (PacketTooShort 8 (blen buf)) else
  '(ssrc, r) ← get_u32 buf;
  name ← slice r 0 4;
  r ← slice_from r 4;
  if negb (bool_decide (name = RIST_APP_NAME)) then Ok (AppUnknown subtype buf) else
  if subtype =? RIST_APP_RANGE_NACK then
    entries ← read_ranges (Z.to_nat MAX_RANGE_NACK_ENTRIES) r;
    Ok (AppRange (mkAppRangeNack ssrc entries))
  else if subtype =? RTT_ECHO_REQUEST then
    if blen r <? 8 then Err (PacketTooShort 16 (blen buf)) else
    '(timestamp_msw, r) ← get_u32 r;
    '(timestamp_lsw, r) ← get_u32 r;
    Ok (AppRttEchoRequest (mkRttEchoRequest ssrc timestamp_msw timestamp_lsw))
  else if subtype =? RTT_ECHO_RESPONSE then
    if blen r <? 12 then Err (PacketTooShort 20 (blen buf)) else
    '(timestamp_msw, r) ← get_u32 r;
    '(timestamp_lsw, r) ← get_u32 r;
    '(processing_delay_us, r) ← get_u32 r;
    Ok (AppRttEchoResponse (mkRttEchoResponse ssrc timestamp_msw timestamp_lsw processing_delay_us))
  else Ok (AppUnknown subtype buf).

Definition put_entry (e : Z * Z) : bytes := put_u16 (fst e) ++ put_u16 (snd e).

Definition RistApp_serialize (self : RistApp) : bytes :=
  match self with
  | AppRttEchoRequest req =>
      put_u8 (Z.lor 128 RTT_ECHO_REQUEST) ++ put_u8 RTCP_PT_APP ++ put_u16 4 ++
      put_u32 (eq_ssrc req) ++ RIST_APP_NAME ++
      put_u32 (eq_timestamp_msw req) ++ put_u32 (eq_timestamp_lsw req)
  | AppRttEchoResponse resp =>
      put_u8 (Z.lor 128 RTT_ECHO_RESPONSE) ++ put_u8 RTCP_PT_APP ++ put_u16 5 ++
      put_u32 (er_ssrc resp) ++ RIST_APP_NAME ++
      put_u32 (er_timestamp_msw resp) ++ put_u32 (er_timestamp_lsw resp) ++
      put_u32 (er_processing_delay_us resp)
  | AppRange nack =>
      let total := 12 + 4 * Z.of_nat (length (an_entries nack)) in
      let length_words := total / 4 - 1 in
      put_u8 (Z.lor 128 RIST_APP_RANGE_NACK) ++ put_u8 RTCP_PT_APP ++
      put_u16 (as_u16 length_words) ++
      put_u32 (an_media_ssrc nack) ++ RIST_APP_NAME ++ concat (map put_entry (an_entries nack))
  | AppUnknown subtype data =>
      let total := 4 + blen data in
      let length_words := Z.max 0 (total / 4 - 1) in
      put_u8 (Z.lor 128 (Z.land subtype 31)) ++ put_u8 RTCP_PT_APP ++
      put_u16 (as_u16 length_words) ++ data
  end.

(** The values a peer reads back: at most 512 ranges, and an unknown sub-packet whose
    body is whole words and really is unknown (foreign name or unassigned subtype). *)
Definition app_ok (a : RistApp) : Prop :=
  match a with
  | AppRttEchoRequest q =>
      is_u32 (eq_ssrc q) ∧ is_u32 (eq_timestamp_msw q) ∧ is_u32 (eq_timestamp_lsw q)
  | AppRttEchoResponse p =>
      is_u32 (er_ssrc p) ∧ is_u32 (er_timestamp_msw p) ∧ is_u32 (er_timestamp_lsw p) ∧
      is_u32 (er_processing_delay_us p)
  | AppRange n =>
      is_u32 (an_media_ssrc n) ∧ Forall (λ e, is_u16 (fst e) ∧ is_u16 (snd e)) (an_entries n) ∧
      Z.of_nat (length (an_entries n)) <= MAX_RANGE_NACK_ENTRIES
  | AppUnknown st data =>
      0 <= st < 32 ∧ bytes_ok data ∧ 8 <= blen data ∧ body_ok data ∧
      (take 4 (drop 4 data) ≠ RIST_APP_NAME ∨
       st ∉ [RIST_APP_RANGE_NACK; RTT_ECHO_REQUEST; RTT_ECHO_RESPONSE])
  end.

Definition app_subtype (a : RistApp) : Z :=
  match a with
  | AppRttEchoRequest _ => RTT_ECHO_REQUEST
  | AppRttEchoResponse _ => RTT_ECHO_RESPONSE
  | AppRange _ => RIST_APP_RANGE_NACK
  | AppUnknown st _ => st
  end.

Definition app_body (a : RistApp) : bytes :=
  match a with
  | AppRttEchoRequest q =>
      put_u32 (eq_ssrc q) ++ RIST_APP_NAME ++
      put_u32 (eq_timestamp_msw q) ++ put_u32 (eq_timestamp_lsw q)
  | AppRttEchoResponse p =>
      put_u32 (er_ssrc p) ++ RIST_APP_NAME ++ put_u32 (er_timestamp_msw p) ++
      put_u32 (er_timestamp_lsw p) ++ put_u32 (er_processing_delay_us p)
  | AppRange n =>
      put_u32 (an_media_ssrc n) ++ RIST_APP_NAME ++ concat (map put_entry (an_entries n))
  | AppUnknown _ data => data
  end.

Lemma entries_blen v : blen (concat (map put_entry v)) = 4 * Z.of_nat (length v).
Proof.
  induction v as [|a v IH]; [done|]. cbn [map concat length]. rewrite blen_app, IH.
  change (blen (put_entry a)) with 4. lia.
Qed.

Lemma read_ranges_put room v :
  (length v <= room)%nat → Forall (λ e, is_u16 (fst e) ∧ is_u16 (snd e)) v →
  read_ranges room (concat (map put_entry v)) = Ok v.
Proof.
  revert v. induction room as [|room IH]; intros [|[x y] v]; cbn [length]; try done; try lia.
  intros Hl [[Hx Hy] Hv]%Forall_cons. cbn [read_ranges map concat].
  rewrite blen_app. change (blen (put_entry (x, y))) with 4.
  pose proof (blen_nonneg (concat (map put_entry v))). case_cmp; [lia|].
  unfold put_entry at 1. rewrite <- app_assoc. cbn [fst snd] in *.
  do 2 (rewrite get_put_u16 by done; cbn [mbind exec_bind]).
  rewrite IH by (done || lia). done.
Qed.

(** However much a peer sends, at most [room] ranges are kept, each from its own
    four bytes. *)
Lemma read_ranges_ok room r :
  ∃ v, read_ranges room r = Ok v ∧ Z.of_nat (length v) = Z.min (Z.of_nat room) (blen r / 4).
Proof.
  revert r. induction room as [|room IH]; intros r; cbn [read_ranges].
  - exists []. split; [done|]. pose proof (blen_nonneg r). cbn. ulia.
  - pose proof (blen_nonneg r). destruct (Z.ltb_spec (blen r) 4).
    { exists []. split; [done|]. cbn. ulia. }
    do 2 read_step. destruct (IH r1) as (v & -> & Hv). cbn [mbind exec_bind].
    eexists. split; [done|]. cbn [length]. ulia.
Qed.

(** The parser past a "RIST" envelope. *)
Definition parse_rist_body (ssrc : Z) (r buf : bytes) (subtype : Z) : exec RistApp :=
  if subtype =? RIST_APP_RANGE_NACK then
    entries ← read_ranges (Z.to_nat MAX_RANGE_NACK_ENTRIES) r;
    Ok (AppRange (mkAppRangeNack ssrc entries))
  else if subtype =? RTT_ECHO_REQUEST then
    if blen r <? 8 then Err (PacketTooShort 16 (blen buf)) else
    '(msw, r) ← get_u32 r; '(lsw, r) ← get_u32 r;
    Ok (AppRttEchoRequest (mkRttEchoRequest ssrc msw lsw))
  else if subtype =? RTT_ECHO_RESPONSE then
    if blen r <? 12 then Err (PacketTooShort 20 (blen buf)) else
    '(msw, r) ← get_u32 r; '(lsw, r) ← get_u32 r; '(d, r) ← get_u32 r;
    Ok (AppRttEchoResponse (mkRttEchoResponse ssrc msw lsw d))
  else Ok (AppUnknown subtype buf).

(** Every buffer of at least eight bytes is an SSRC, a name and the rest. *)
Lemma RistApp_parse_split ssrc name r st :
  is_u32 ssrc → blen name = 4 →
  let buf := put_u32 ssrc ++ name ++ r in
  RistApp_parse buf st =
  if negb (bool_decide (name = RIST_APP_NAME)) then Ok (AppUnknown st buf)
  else parse_rist_body ssrc r buf st.
Proof.
  intros Hs Hn buf. unfold RistApp_parse. pose proof (blen_nonneg r).
  assert (Hb : blen buf = 8 + blen r).
  { unfold buf. rewrite !blen_app, Hn. change (blen (put_u32 ssrc)) with 4. lia. }
  destruct (Z.ltb_spec (blen buf) 8); [lia|].
  change (get_u32 buf) with (get_u32 (put_u32 ssrc ++ name ++ r)).
  rewrite get_put_u32 by done. cbn [mbind exec_bind].
  rewrite slice_ok by (rewrite ?blen_app; lia). cbn [mbind exec_bind].
  rewrite slice_from_ok by (rewrite ?blen_app; lia). cbn [mbind exec_bind].
  rewrite drop_0, <- Hn, Z.sub_0_r, take_blen_app, drop_blen_app. done.
Qed.

Lemma RistApp_buf_split buf :
  bytes_ok buf → 8 <= blen buf →
  ∃ ssrc name r, is_u32 ssrc ∧ blen name = 4 ∧ bytes_ok r ∧ buf = put_u32 ssrc ++ name ++ r.
Proof.
  intros Hok Hl. destruct (get_u32_spec buf) as (z & r & _ & L & W); [lia|].
  destruct (W Hok) as (Hz & Hr & ->).
  exists z, (take 4 r), (drop 4 r). split_and!; [done| |auto with rist|by rewrite take_drop].
  rewrite blen_take. lia.
Qed.

Lemma RistApp_no_panic buf st : bytes_ok buf → no_panic (RistApp_parse buf st).
Proof.
  intros Hok. destruct (Z.le_gt_cases 8 (blen buf)) as [Hl|Hl].
  - destruct (RistApp_buf_split buf Hok Hl) as (ssrc & name & r & Hs & Hn & _ & ->).
    rewrite RistApp_parse_split by done. destruct (negb _); [done|]. unfold parse_rist_body.
    destruct (read_ranges_ok (Z.to_nat MAX_RANGE_NACK_ENTRIES) r) as (v & -> & _).
    case_cmp; try done; by repeat read_step.
  - unfold RistApp_parse. destruct (Z.ltb_spec (blen buf) 8); [done|lia].
Qed.

(** A parsed echo request carries the fields of its type. *)
Lemma RistApp_request_range buf st q :
  bytes_ok buf → RistApp_parse buf st = Ok (AppRttEchoRequest q) → app_ok (AppRttEchoRequest q).
Proof.
  intros Hok. destruct (Z.le_gt_cases 8 (blen buf)) as [Hl|Hl].
  2:{ unfold RistApp_parse. by rewrite (proj2 (Z.ltb_lt _ _)) by lia. }
  destruct (RistApp_buf_split buf Hok Hl) as (ssrc & name & r & Hs & Hn & Hr & ->).
  rewrite RistApp_parse_split by done. destruct (negb _); [done|]. unfold parse_rist_body.
  destruct (read_ranges_ok (Z.to_nat MAX_RANGE_NACK_ENTRIES) r) as (v & -> & _).
  destruct (_ =? _); [done|]. destruct (_ =? _).
  - destruct (Z.ltb_spec (blen r) 8); [done|].
    do 2 read_step_ok.
    intros [= <-]. by split_and!.
  - destruct (_ =? _); [|done]. destruct (Z.ltb_spec (blen r) 12); [done|]. by do 3 read_step.
Qed.

#[export] Instance RistApp_codec : RtcpCodec RistApp := {
  codec_pt := RTCP_PT_APP;
  codec_count := app_subtype;
  codec_serialize := RistApp_serialize;
  codec_parse := RistApp_parse;
  codec_ok := app_ok
}.

Lemma app_body_parse a : app_ok a → RistApp_parse (app_body a) (app_subtype a) = Ok a.
Proof.
  destruct a as [q|p|n|st data]; cbn [app_ok app_body app_subtype].
  - intros (H1 & H2 & H3). rewrite RistApp_parse_split by done.
    rewrite bool_decide_true by done. cbn [negb]. unfold parse_rist_body. cbn [Z.eqb Pos.eqb RTT_ECHO_REQUEST].
    change (2 =? RIST_APP_RANGE_NACK) with false. cbn match.
    match goal with |- context [blen ?b <? 8] => change (blen b <? 8) with false end. cbn match.
    rewrite <- (app_nil_r (put_u32 (eq_timestamp_lsw q))).
    do 2 (rewrite get_put_u32 by done; cbn [mbind exec_bind]). by destruct q.
  - intros (H1 & H2 & H3 & H4). rewrite RistApp_parse_split by done.
    rewrite bool_decide_true by done. cbn [negb]. unfold parse_rist_body.
    change (RTT_ECHO_RESPONSE =? RIST_APP_RANGE_NACK) with false.
    change (RTT_ECHO_RESPONSE =? RTT_ECHO_REQUEST) with false.
    change (RTT_ECHO_RESPONSE =? RTT_ECHO_RESPONSE) with true. cbn match.
    match goal with |- context [blen ?b <? 12] => change (blen b <? 12) with false end. cbn match.
    rewrite <- (app_nil_r (put_u32 (er_processing_delay_us p))).
    do 3 (rewrite get_put_u32 by done; cbn [mbind exec_bind]). by destruct p.
  - intros (H1 & H2 & H3). rewrite RistApp_parse_split by done.
    rewrite bool_decide_true by done. cbn [negb]. unfold parse_rist_body.
    change (RIST_APP_RANGE_NACK =? RIST_APP_RANGE_NACK) with true. cbn match.
    rewrite read_ranges_put by (done || lia). by destruct n.
  - intros (H1 & Hok & H2 & _ & H3).
    destruct (RistApp_buf_split data Hok H2) as (ssrc & name & r & Hs & Hn & _ & ->).
    rewrite RistApp_parse_split by done. case_bool_decide as EN; cbn [negb]; [|done].
    destruct H3 as [H3|H3].
    { exfalso. apply H3. rewrite EN. done. }
    unfold parse_rist_body. rewrite !not_elem_of_cons in H3. destruct H3 as (? & ? & ? & _).
    by rewrite !(proj2 (Z.eqb_neq _ _)) by done.
Qed.

Lemma app_frame a : app_ok a → RistApp_serialize a = frame false (app_subtype a) RTCP_PT_APP (app_body a) ∧ body_ok (app_body a).
Proof.
  destruct a as [q|p|n|st data]; cbn [app_ok RistApp_serialize app_body app_subtype]; intros Ha.
  - done.
  - done.
  - destruct Ha as (_ & _ & Hl). unfold MAX_RANGE_NACK_ENTRIES in Hl.
    assert (E : blen (put_u32 (an_media_ssrc n) ++ RIST_APP_NAME ++ concat (map put_entry (an_entries n)))
      = 8 + 4 * Z.of_nat (length (an_entries n))).
    { rewrite !blen_app, entries_blen. change (blen (put_u32 (an_media_ssrc n))) with 4.
      change (blen RIST_APP_NAME) with 4. lia. }
    unfold frame, frame_header, body_ok. rewrite E. split; [|split; [ulia|lia]].
    rewrite <- !app_assoc. change (put_u8 (Z.lor 128 RIST_APP_RANGE_NACK)) with
      (put_u8 (128 + bool_as_u8 false * 32 + RIST_APP_RANGE_NACK)).
    do 2 f_equal. f_equal. f_equal. ulia.
  - destruct Ha as (H1 & _ & H2 & Hb & _). split; [|done]. destruct Hb as [Hm Hl].
    unfold frame, frame_header. rewrite <- !app_assoc. f_equal.
    { f_equal. rewrite land_31, Z.mod_small, (lor_add 128 _ 5) by (done || lia). cbn. lia. }
    do 2 f_equal. f_equal. ulia.
Qed.

#[export] Instance RistApp_laws : RtcpCodecLaws RistApp.
Proof.
  split; cbn [codec_pt codec_count codec_serialize codec_parse codec_ok RistApp_codec].
  - unfold RTCP_PT_APP. ulia.
  - intros [| | |st data]; cbn; unfold RTT_ECHO_REQUEST, RTT_ECHO_RESPONSE, RIST_APP_RANGE_NACK; lia.
  - intros a Ha. exists (app_body a). destruct (app_frame a Ha).
    split_and!; [done..|]. by apply app_body_parse.
  - intros. by apply RistApp_no_panic.
Qed.

(** The range NACK cap: whatever a peer sends under the "RIST" name with subtype 0,
    parsing succeeds and keeps the first [min 512 (remaining / 4)] ranges; a body that
    fits a 2048-byte datagram is never truncated. *)
Theorem range_nack_capped (ssrc : Z) (r : bytes) :
  is_u32 ssrc →
  ∃ entries, RistApp_parse (put_u32 ssrc ++ RIST_APP_NAME ++ r) RIST_APP_RANGE_NACK =
    Ok (AppRange (mkAppRangeNack ssrc entries)) ∧
  Z.of_nat (length entries) = Z.min MAX_RANGE_NACK_ENTRIES (blen r / 4) ∧
  (4 + 8 + blen r <= 2048 → Z.of_nat (length entries) = blen r / 4).
Proof.
  intros Hs. rewrite RistApp_parse_split by done. rewrite bool_decide_true by done. cbn [negb].
  unfold parse_rist_body. change (RIST_APP_RANGE_NACK =? RIST_APP_RANGE_NACK) with true. cbn match.
  destruct (read_ranges_ok (Z.to_nat MAX_RANGE_NACK_ENTRIES) r) as (v & -> & Hv).
  exists v. unfold MAX_RANGE_NACK_ENTRIES in *. split; [done|]. split; [lia|]. ulia.
Qed.

Lemma range_nack_capped_witness :
  ∃ entries, RistApp_parse (put_u32 7 ++ RIST_APP_NAME ++ replicate (4 * 762) 255) RIST_APP_RANGE_NACK =
    Ok (AppRange (mkAppRangeNack 7 entries)) ∧ length entries = 512%nat.
Proof.
  destruct (range_nack_capped 7 (replicate (4 * 762) 255)) as (v & -> & Hl & _); [ulia|].
  exists v. split; [reflexivity|].
  change (blen (replicate (4 * 762) 255)) with 3048 in Hl. unfold MAX_RANGE_NACK_ENTRIES in Hl.
  change (Z.min 512 (3048 / 4)) with 512 in Hl. lia.
Defined.
