(* ===== verification/Rtcp.v ===== *)
(** * RTCP compound packets (rist-protocol/src/packet/rtcp.rs)

    The compound parser walks frame after frame, hands each body to the parser of
    its packet type and demotes a body that does not parse to [Unknown]. *)

From S2P Require Import Prelude RtcpCodec RtcpReports Sdes RtcpNack RtcpApp.

Inductive RtcpPacket : Type :=
  | PktSenderReport (sr : SenderReport)
  | PktReceiverReport (rr : ReceiverReport)
  | PktSdes (sdes : Sdes)
  | PktNack (nack : NackPacket)
  | PktApp (app : RistApp)
  | PktUnknown (packet_type : Z) (data : bytes).

Definition MAX_RTCP_SUB_PACKETS : Z := 64.

(** The [match header.packet_type] of the loop body. *)
Definition parse_sub_packet (packet_type count : Z) (payload : bytes) : exec RtcpPacket :=
  let unknown := λ _ : RistError, PktUnknown packet_type payload in
  if packet_type =? RTCP_PT_SR then
    unwrap_or_else (PktSenderReport <$> SenderReport_parse payload) unknown
  else if packet_type =? RTCP_PT_RR then
    unwrap_or_else (PktReceiverReport <$> ReceiverReport_parse payload count) unknown
  else if packet_type =? RTCP_PT_SDES then
    unwrap_or_else (PktSdes <$> Sdes_parse payload) unknown
  else if packet_type =? RTCP_PT_RTPFB then
    unwrap_or_else (PktNack <$> NackPacket_parse payload count (blen payload)) unknown
  else if packet_type =? RTCP_PT_APP then
    unwrap_or_else (PktApp <$> RistApp_parse payload count) unknown
  else Ok (PktUnknown packet_type payload).

(** The [while] loop.  [room] is [MAX_RTCP_SUB_PACKETS - packets.len()], which
    decreases in every iteration. *)
Fixpoint compound_loop (buf : bytes) (room : nat) (offset : Z) : exec (list RtcpPacket) :=
  match room with
  | O => Ok []
  | S room' =>
      if offset + 4 <=? blen buf then
        rest ← slice_from buf offset;
        header ← RtcpCommonHeader_parse rest;
        let pkt_size := packet_size header in
        if blen buf <? offset + pkt_size then Ok [] else
        payload ← slice buf (offset + 4) (offset + pkt_size);
        pkt ← parse_sub_packet (ch_packet_type header) (ch_count header) payload;
        pkts ← compound_loop buf room' (offset + pkt_size);
        Ok (pkt :: pkts)
      else Ok []
  end.

Definition RtcpCompound_parse (buf : bytes) : exec (list RtcpPacket) :=
  compound_loop buf (Z.to_nat MAX_RTCP_SUB_PACKETS) 0.

Definition serialize_sub_packet (p : RtcpPacket) : bytes :=
  match p with
  | PktSenderReport sr => SenderReport_serialize sr
  | PktReceiverReport rr => ReceiverReport_serialize rr
  | PktSdes sdes => Sdes_serialize sdes
  | PktNack nack => NackPacket_serialize nack
  | PktApp app => RistApp_serialize app
  | PktUnknown _ _ => []
  end.

Definition RtcpCompound_serialize (packets : list RtcpPacket) : bytes :=
  concat (map serialize_sub_packet packets).

(** ** Frames *)

Record frame_desc := mkFrame {
  fr_padding : bool; fr_count : Z; fr_pt : Z; fr_body : bytes
}.
Definition frame_bytes (f : frame_desc) : bytes :=
  frame (fr_padding f) (fr_count f) (fr_pt f) (fr_body f).
(** What the parser turns a frame into. *)
Definition decode_frame (f : frame_desc) : exec RtcpPacket :=
  parse_sub_packet (fr_pt f) (fr_count f) (fr_body f).
Definition frame_desc_ok (f : frame_desc) : Prop :=
  0 <= fr_count f < 32 ∧ is_u8 (fr_pt f) ∧ body_ok (fr_body f).

Lemma no_panic_unwrap {A B} (m : exec A) (g : A → B) (h : RistError → B) :
  no_panic m → ∃ b, unwrap_or_else (g <$> m) h = Ok b.
Proof. destruct m; cbn; eauto. done. Qed.

Lemma parse_sub_packet_ok pt c payload :
  bytes_ok payload → ∃ p, parse_sub_packet pt c payload = Ok p.
Proof.
  intros Hb. unfold parse_sub_packet.
  repeat match goal with |- context [if ?c then _ else _] => destruct c end;
    try (apply no_panic_unwrap); eauto using SenderReport_no_panic.
  - by apply (@codec_no_panic _ ReceiverReport_codec _ payload c).
  - by apply Sdes_no_panic.
  - by apply NackPacket_no_panic.
  - by apply RistApp_no_panic.
Qed.

(** One iteration on a frame. *)
Lemma compound_loop_frame pre f rest room :
  frame_desc_ok f →
  compound_loop (pre ++ frame_bytes f ++ rest) (S room) (blen pre) =
  p ← decode_frame f;
  ps ← compound_loop (pre ++ frame_bytes f ++ rest) room (blen (pre ++ frame_bytes f));
  Ok (p :: ps).
Proof.
  intros (Hc & Hp & [Hm Hl]). cbn [compound_loop].
  pose proof (blen_nonneg pre). pose proof (blen_nonneg rest).
  pose proof (blen_nonneg (fr_body f)).
  assert (Ef : blen (frame_bytes f) = 4 + blen (fr_body f)) by apply frame_blen.
  assert (Eall : blen (pre ++ frame_bytes f ++ rest) = blen pre + (4 + blen (fr_body f)) + blen rest).
  { rewrite !blen_app, Ef. lia. }
  destruct (Z.leb_spec (blen pre + 4) (blen (pre ++ frame_bytes f ++ rest))); [|lia].
  rewrite slice_from_ok, drop_blen_app by lia. cbn [mbind exec_bind].
  assert (Eh : RtcpCommonHeader_parse (frame_bytes f ++ rest) =
    Ok (mkRtcpCommonHeader 2 (fr_padding f) (fr_count f) (fr_pt f) (blen (fr_body f) / 4))).
  { unfold frame_bytes, frame. rewrite <- app_assoc. apply frame_header_parse; done || ulia. }
  rewrite Eh. cbn [mbind exec_bind ch_packet_type ch_count].
  unfold packet_size. cbn [ch_length].
  assert (Es : (blen (fr_body f) / 4 + 1) * 4 = 4 + blen (fr_body f)) by ulia. rewrite Es.
  destruct (Z.ltb_spec (blen (pre ++ frame_bytes f ++ rest)) (blen pre + (4 + blen (fr_body f)))); [lia|].
  rewrite slice_ok by lia.
  assert (Ebody : take (Z.to_nat (blen pre + (4 + blen (fr_body f)) - (blen pre + 4)))
    (drop (Z.to_nat (blen pre + 4)) (pre ++ frame_bytes f ++ rest)) = fr_body f).
  { replace (blen pre + (4 + blen (fr_body f)) - (blen pre + 4)) with (blen (fr_body f)) by lia.
    unfold frame_bytes, frame. rewrite <- app_assoc, (app_assoc pre).
    replace (blen pre + 4) with (blen (pre ++ frame_header (fr_padding f) (fr_count f) (fr_pt f) (blen (fr_body f) / 4)))
      by (rewrite blen_app; done).
    by rewrite drop_blen_app, take_blen_app. }
  rewrite Ebody. cbn [mbind exec_bind]. unfold decode_frame.
  rewrite blen_app, Ef. done.
Qed.

Lemma compound_loop_frames fs ps : ∀ pre tail room,
  Forall frame_desc_ok fs → Forall2 (λ f p, decode_frame f = Ok p) fs ps →
  (length fs <= room)%nat →
  compound_loop (pre ++ concat (map frame_bytes fs) ++ tail) room (blen pre) =
  qs ← compound_loop (pre ++ concat (map frame_bytes fs) ++ tail) (room - length fs)
         (blen (pre ++ concat (map frame_bytes fs)));
  Ok (ps ++ qs).
Proof.
  revert ps. induction fs as [|f fs IH]; intros ps pre tail room.
  - intros _ ->%Forall2_nil_inv_l _. cbn [map concat length].
    rewrite app_nil_r, Nat.sub_0_r. by destruct (compound_loop _ _ _).
  - intros [Hf Hfs]%Forall_cons (p & ps' & Ep & Hps & ->)%Forall2_cons_inv_l Hl.
    cbn [length] in Hl. destruct room as [|room]; [lia|].
    cbn [map concat length Nat.sub]. rewrite <- !app_assoc, compound_loop_frame by done.
    rewrite (app_assoc pre (frame_bytes f)), Ep. cbn [mbind exec_bind].
    rewrite (IH ps') by (done || lia). rewrite <- !app_assoc.
    by destruct (compound_loop _ _ _).
Qed.

(** The loop stops on fewer than four remaining bytes. *)
Lemma compound_loop_short buf room offset :
  blen buf < offset + 4 → compound_loop buf room offset = Ok [].
Proof. destruct room; cbn [compound_loop]; [done|]. intros. case_cmp; [lia|done]. Qed.

(** A frame cut off by the end of the buffer ends the walk, whatever it was. *)
Lemma compound_loop_truncated pre f n room :
  frame_desc_ok f → Z.of_nat n < blen (frame_bytes f) →
  compound_loop (pre ++ take n (frame_bytes f)) room (blen pre) = Ok [].
Proof.
  intros (Hc & Hp & [Hm Hl]) Hn. pose proof (blen_nonneg (fr_body f)).
  rewrite (frame_blen _ _ _ (fr_body f) : blen (frame_bytes f) = _) in Hn.
  assert (Ea : blen (pre ++ take n (frame_bytes f)) = blen pre + Z.of_nat n).
  { rewrite blen_app, blen_take. unfold frame_bytes. rewrite frame_blen. lia. }
  destruct (decide (n < 4)%nat); [apply compound_loop_short; lia|].
  destruct room as [|room]; [done|]. cbn [compound_loop]. rewrite Ea.
  destruct (Z.leb_spec (blen pre + 4) (blen pre + Z.of_nat n)); [|lia].
  pose proof (blen_nonneg pre). rewrite slice_from_ok, drop_blen_app by lia. cbn [mbind exec_bind].
  assert (Eh : RtcpCommonHeader_parse (take n (frame_bytes f)) =
    Ok (mkRtcpCommonHeader 2 (fr_padding f) (fr_count f) (fr_pt f) (blen (fr_body f) / 4))).
  { unfold frame_bytes, frame. rewrite take_app_ge by (cbn; lia).
    apply frame_header_parse; done || ulia. }
  rewrite Eh. cbn [mbind exec_bind].
  unfold packet_size. cbn [ch_length]. case_cmp; [done|]. ulia.
Qed.

Lemma compound_loop_total buf room : ∀ offset,
  bytes_ok buf → 0 <= offset →
  match compound_loop buf room offset with
  | Ok ps => (length ps <= room)%nat
  | Err (InvalidRtpVersion v) => v ≠ 2
  | _ => False
  end.
Proof.
  induction room as [|room IH]; intros offset Hok Ho; cbn [compound_loop]; [cbn; lia|].
  destruct (Z.leb_spec (offset + 4) (blen buf)) as [Hl|]; [|cbn; lia].
  rewrite slice_from_ok by lia. cbn [mbind exec_bind].
  set (r := drop (Z.to_nat offset) buf).
  assert (Hr : bytes_ok r) by (subst r; auto with rist).
  assert (Hrl : 4 <= blen r) by (subst r; rewrite blen_drop; lia).
  destruct (RtcpCommonHeader_parse r) as [h|e|] eqn:E; cbn [mbind exec_bind].
  - apply RtcpCommonHeader_parse_inv in E as (_ & _ & Hc & Hp & Hlen & _); [|done].
    unfold packet_size. case_cmp; [cbn; lia|]. rewrite slice_ok by ulia. cbn [mbind exec_bind].
    edestruct parse_sub_packet_ok as [p ->]; [by auto with rist|]. cbn [mbind exec_bind].
    specialize (IH (offset + (ch_length h + 1) * 4) Hok ltac:(ulia)).
    destruct (compound_loop buf room _) as [ps|[]|]; cbn; try done. lia.
  - unfold RtcpCommonHeader_parse in E. destruct (Z.ltb_spec (blen r) 4); [lia|]. revert E.
    read_step. destruct (Z.eqb_spec (Z.land (Z.shiftr z 6) 3) 2); cbn [negb].
    + by do 2 read_step.
    + intros [= <-]. done.
  - by apply RtcpCommonHeader_parse_no_panic in E.
Qed.

(** (C28) A datagram of any bytes cannot panic the compound parser or make it produce
    more than 64 sub-packets, and the only error it reports is a sub-packet header
    whose version is not 2. *)
Theorem RtcpCompound_parse_total (buf : bytes) :
  bytes_ok buf →
  match RtcpCompound_parse buf with
  | Ok ps => Z.of_nat (length ps) <= MAX_RTCP_SUB_PACKETS
  | Err (InvalidRtpVersion v) => v ≠ 2
  | _ => False
  end.
Proof.
  intros Hok. pose proof (compound_loop_total buf (Z.to_nat MAX_RTCP_SUB_PACKETS) 0 Hok) as H.
  unfold RtcpCompound_parse. specialize (H ltac:(done)).
  destruct (compound_loop _ _ _) as [ps|[]|]; try done. unfold MAX_RTCP_SUB_PACKETS in *. lia.
Qed.

Lemma RtcpCompound_parse_total_witness :
  RtcpCompound_parse (concat (replicate 128 [128; 204; 0; 3; 0; 0; 0; 0; 82; 73; 83; 84; 0; 0; 255; 255])) ≠ Panic.
Proof.
  intros E. assert (H : bytes_ok (concat (replicate 128 [128; 204; 0; 3; 0; 0; 0; 0; 82; 73; 83; 84; 0; 0; 255; 255]))).
  { apply Forall_concat, Forall_replicate. repeat constructor; ulia. }
  apply RtcpCompound_parse_total in H. rewrite E in H. exact H.
Defined.

(** Leniency: on up to 64 well-framed sub-packets followed by fewer than four stray
    bytes, the parser returns one packet per frame, each determined by its own frame
    alone; a body its parser rejects becomes [Unknown] and disturbs nothing else. *)
Theorem compound_parse_frames (fs : list frame_desc) (tail : bytes) :
  Forall (λ f, frame_desc_ok f ∧ bytes_ok (fr_body f)) fs →
  Z.of_nat (length fs) <= MAX_RTCP_SUB_PACKETS → blen tail < 4 →
  ∃ ps, RtcpCompound_parse (concat (map frame_bytes fs) ++ tail) = Ok ps ∧
    Forall2 (λ f p, decode_frame f = Ok p) fs ps.
Proof.
  intros Hfs Hl Ht.
  assert (∃ ps, Forall2 (λ f p, decode_frame f = Ok p) fs ps) as [ps Hps].
  { apply Forall_exists_Forall2_l. eapply Forall_impl; [exact Hfs|]. intros f [_ Hb].
    by apply parse_sub_packet_ok. }
  exists ps. split; [|done]. unfold RtcpCompound_parse.
  assert (Hok : Forall frame_desc_ok fs) by (eapply Forall_impl; [exact Hfs|]; by intros f [? _]).
  pose proof (compound_loop_frames fs ps [] tail (Z.to_nat MAX_RTCP_SUB_PACKETS) Hok Hps) as E.
  specialize (E ltac:(lia)). cbn [app] in E. change (blen []) with 0 in E. rewrite E.
  rewrite compound_loop_short by (rewrite blen_app; lia). cbn. by rewrite app_nil_r.
Qed.

(** An unparsable SR body and a foreign packet type in front of a NACK. *)
Lemma compound_parse_frames_witness :
  let fs := [mkFrame false 0 200 [1; 2; 3; 4]; mkFrame false 9 77 [];
             mkFrame false 1 205 [0; 0; 0; 1; 0; 0; 0; 2; 0; 7; 0; 0]] in
  ∃ ps, RtcpCompound_parse (concat (map frame_bytes fs) ++ [255]) = Ok ps ∧
    ps = [PktUnknown 200 [1; 2; 3; 4]; PktUnknown 77 [];
          PktNack (mkNackPacket 1 2 (Bitmask [mkBitmaskNack 7 0]))].
Proof.
  intros fs. destruct (compound_parse_frames fs [255]) as (ps & -> & HP).
  - repeat constructor; unfold blen; cbn; unfold_int; lia.
  - cbn. unfold MAX_RTCP_SUB_PACKETS. lia.
  - unfold blen. cbn. lia.
  - exists ps. split; [reflexivity|]. subst fs.
    apply Forall2_cons_inv_l in HP as (p1 & ps1 & E1 & HP & ->).
    apply Forall2_cons_inv_l in HP as (p2 & ps2 & E2 & HP & ->).
    apply Forall2_cons_inv_l in HP as (p3 & ps3 & E3 & HP & ->).
    apply Forall2_nil_inv_l in HP as ->.
    vm_compute in E1, E2, E3. by simplify_eq.
Defined.

Lemma compound_parse_no_panic buf : bytes_ok buf → RtcpCompound_parse buf ≠ Panic.
Proof.
  intros Hok E. pose proof (compound_loop_total buf (Z.to_nat MAX_RTCP_SUB_PACKETS) 0 Hok ltac:(lia)) as H.
  unfold RtcpCompound_parse in E. by rewrite E in H.
Qed.

Lemma compound_parse_length buf ps :
  RtcpCompound_parse buf = Ok ps → Z.of_nat (length ps) <= MAX_RTCP_SUB_PACKETS.
Proof.
  unfold RtcpCompound_parse. intros H.
  cut (length ps <= Z.to_nat MAX_RTCP_SUB_PACKETS)%nat; [unfold MAX_RTCP_SUB_PACKETS; lia|].
  revert H. generalize (Z.to_nat MAX_RTCP_SUB_PACKETS) as room. generalize 0 as off. intros off room.
  revert off ps. induction room as [|room IH]; intros off ps; cbn [compound_loop]; [by intros [= <-]|].
  destruct (_ <=? _); [|intros [= <-]; cbn; lia].
  destruct (slice_from buf off); try done. cbn [mbind exec_bind].
  destruct (RtcpCommonHeader_parse _) as [h| |]; try done. cbn [mbind exec_bind].
  destruct (_ <? _); [intros [= <-]; cbn; lia|].
  destruct (slice buf _ _); try done. cbn [mbind exec_bind].
  destruct (parse_sub_packet _ _ _); try done. cbn [mbind exec_bind].
  destruct (compound_loop buf room _) as [l| |] eqn:E; try done. cbn [mbind exec_bind].
  intros [= <-]. cbn. apply IH in E. lia.
Qed.

(** The fields of parsed sender reports and echo requests are in range. *)
Definition parsed_range (p : RtcpPacket) : Prop :=
  match p with
  | PktSenderReport sr => sr_ok sr
  | PktApp (AppRttEchoRequest q) => app_ok (AppRttEchoRequest q)
  | _ => True
  end.

Lemma parse_sub_packet_range pt c payload p :
  bytes_ok payload → parse_sub_packet pt c payload = Ok p → parsed_range p.
Proof.
  intros Hb. unfold parse_sub_packet.
  destruct (pt =? RTCP_PT_SR).
  { destruct (SenderReport_parse payload) eqn:E; cbn; intros [= <-]; [|done]. by eapply SenderReport_parse_range. }
  destruct (pt =? RTCP_PT_RR); [by destruct (ReceiverReport_parse _ _); cbn; intros [= <-]|].
  destruct (pt =? RTCP_PT_SDES); [by destruct (Sdes_parse _); cbn; intros [= <-]|].
  destruct (pt =? RTCP_PT_RTPFB); [by destruct (NackPacket_parse _ _ _); cbn; intros [= <-]|].
  destruct (pt =? RTCP_PT_APP); [|by intros [= <-]].
  destruct (RistApp_parse payload c) as [a|e|] eqn:E; cbn; intros [= <-]; [|done].
  destruct a; try done. by eapply RistApp_request_range.
Qed.

Lemma compound_loop_range buf room : ∀ offset ps,
  bytes_ok buf → compound_loop buf room offset = Ok ps → Forall parsed_range ps.
Proof.
  induction room as [|room IH]; intros offset ps Hb; cbn [compound_loop]; [intros [= <-]; constructor|].
  destruct (_ <=? _); [|intros [= <-]; constructor].
  destruct (slice_from _ _); cbn [mbind exec_bind]; [|done..].
  destruct (RtcpCommonHeader_parse _) as [h|e|]; cbn [mbind exec_bind]; [|done..].
  destruct (_ <? _); [intros [= <-]; constructor|]. unfold slice.
  destruct (_ || _); cbn [mbind exec_bind]; [done|].
  destruct (parse_sub_packet _ _ _) as [p|e|] eqn:Ep; cbn [mbind exec_bind]; [|done..].
  destruct (compound_loop buf room _) as [qs|e|] eqn:Eq; cbn [mbind exec_bind]; [|done..].
  intros [= <-]. constructor; [|by eapply IH].
  eapply parse_sub_packet_range; [|exact Ep]. auto with rist.
Qed.

(** ** Round trip *)

Definition pkt_ok (p : RtcpPacket) : Prop :=
  match p with
  | PktSenderReport sr => codec_ok sr
  | PktReceiverReport rr => codec_ok rr
  | PktSdes s => codec_ok s
  | PktNack n => codec_ok n
  | PktApp a => codec_ok a
  | PktUnknown _ _ => False
  end.

(** Every type that meets the interface contributes a frame that decodes to itself. *)
Lemma codec_frame {A} `{!RtcpCodec A} `{!RtcpCodecLaws A} (a : A) (inj : A → RtcpPacket) :
  codec_ok a →
  (∀ body, parse_sub_packet codec_pt (codec_count a) body =
     unwrap_or_else (inj <$> codec_parse body (codec_count a)) (λ _, PktUnknown codec_pt body)) →
  ∃ f, frame_desc_ok f ∧ codec_serialize a = frame_bytes f ∧ decode_frame f = Ok (inj a).
Proof.
  intros Ha Hd. destruct (codec_roundtrip a Ha) as (body & Es & Hb & Ep).
  exists (mkFrame false (codec_count a) codec_pt body). split_and!; cbn.
  - split; [by apply codec_count_range|]. split; [apply codec_pt_u8|done].
  - done.
  - unfold decode_frame. cbn. by rewrite Hd, Ep.
Qed.

Lemma pkt_frame p :
  pkt_ok p →
  ∃ f, frame_desc_ok f ∧ serialize_sub_packet p = frame_bytes f ∧ decode_frame f = Ok p.
Proof.
  destruct p; cbn [pkt_ok serialize_sub_packet]; intros Hp; [..|done].
  - exact (codec_frame sr PktSenderReport Hp (λ _, eq_refl)).
  - exact (codec_frame rr PktReceiverReport Hp (λ _, eq_refl)).
  - exact (codec_frame sdes PktSdes Hp (λ _, eq_refl)).
  - exact (codec_frame nack PktNack Hp (λ _, eq_refl)).
  - exact (codec_frame app PktApp Hp (λ _, eq_refl)).
Qed.

(** Serialized sub-packets in front of a short tail parse back. *)
Lemma compound_roundtrip ps :
  Forall pkt_ok ps → Z.of_nat (length ps) <= MAX_RTCP_SUB_PACKETS →
  RtcpCompound_parse (RtcpCompound_serialize ps) = Ok ps.
Proof.
  intros Hps Hl.
  assert (∃ fs, Forall2 (λ p f, frame_desc_ok f ∧ serialize_sub_packet p = frame_bytes f ∧
    decode_frame f = Ok p) ps fs) as [fs Hfs].
  { apply Forall_exists_Forall2_l. eapply Forall_impl; [exact Hps|]. apply pkt_frame. }
  assert (Es : RtcpCompound_serialize ps = concat (map frame_bytes fs)).
  { unfold RtcpCompound_serialize. f_equal. clear -Hfs.
    induction Hfs as [|p f ps fs (_ & E & _) _ IH]; cbn; [done|]. by rewrite E, IH. }
  assert (Hok : Forall frame_desc_ok fs).
  { eapply Forall2_Forall_r; [exact Hfs|]. apply Forall_true. intros p f (? & _). done. }
  assert (Hd : Forall2 (λ f p, decode_frame f = Ok p) fs ps).
  { apply Forall2_flip. eapply Forall2_impl; [exact Hfs|]. by intros p f (_ & _ & ?). }
  unfold RtcpCompound_parse. rewrite Es.
  pose proof (compound_loop_frames fs ps [] [] (Z.to_nat MAX_RTCP_SUB_PACKETS) Hok Hd) as E.
  apply Forall2_length in Hd. specialize (E ltac:(lia)).
  cbn [app] in E. rewrite !app_nil_r in E. change (blen []) with 0 in E. rewrite E.
  rewrite compound_loop_short by lia. cbn. by rewrite app_nil_r.
Qed.

(** (C14) Round trip of RTCP compounds: every list of at most 64 well-formed sub-packets
    (SR, RR, SDES, NACK, APP in any order) is read back unchanged from its serialization. *)
Theorem RtcpCompound_roundtrip (ps : list RtcpPacket) :
  Forall pkt_ok ps → Z.of_nat (length ps) <= MAX_RTCP_SUB_PACKETS →
  RtcpCompound_parse (RtcpCompound_serialize ps) = Ok ps.
Proof. apply compound_roundtrip. Qed.

Definition example_compound : list RtcpPacket :=
  [PktReceiverReport (mkReceiverReport 572662306
     [mkReportBlock 286331153 10 (-5) 1000 100 0 0]);
   PktSdes (mkSdes 572662306 [49; 48; 46; 48; 46; 48; 46; 50]);
   PktNack (mkNackPacket 572662306 286331153 (Bitmask [mkBitmaskNack 990 5]))].

Lemma RtcpCompound_roundtrip_witness :
  RtcpCompound_parse (RtcpCompound_serialize example_compound) = Ok example_compound.
Proof.
  apply RtcpCompound_roundtrip; [|cbn; unfold MAX_RTCP_SUB_PACKETS; lia].
  repeat constructor; cbn; unfold blen; cbn; try (unfold_int; lia); lia.
Defined.
