(* ===== verification/Ring.v ===== *)
(** * Ring buffers indexed by sequence number

    The addressing shared by the retransmit buffer, the NACK scheduler and the
    reorder buffer: a vector of [capacity] slots, [capacity] a power of two, where
    sequence number [seq] lives at index [seq & (capacity - 1)]. *)

From S2P Require Import Prelude.

(** [(seq as usize) & mask] *)
Definition ring_idx (mask seq : Z) : nat := Z.to_nat (Z.land seq mask).

(** A power of two that divides the sequence space. *)
Definition cap_ok (cap : Z) : Prop := ∃ k, 0 <= k <= 16 ∧ cap = 2 ^ k.

Lemma cap_ok_range cap : cap_ok cap → 1 <= cap <= 65536.
Proof.
  intros (k & Hk & ->).
  pose proof (Z.pow_le_mono_r 2 0 k). pose proof (Z.pow_le_mono_r 2 k 16). lia.
Qed.

Lemma cap_ok_divide cap : cap_ok cap → (cap | 65536).
Proof.
  intros (k & Hk & ->). exists (2 ^ (16 - k)). rewrite <- Z.pow_add_r by lia.
  by replace (16 - k + k) with 16 by lia.
Qed.

Lemma next_power_of_two_ok n : 0 <= n <= 65536 → cap_ok (next_power_of_two n).
Proof.
  intros Hn. exists (Z.log2_up n). split; [|done].
  pose proof (Z.log2_up_nonneg n). split; [done|].
  change 16 with (Z.log2_up 65536). apply Z.log2_up_le_mono. lia.
Qed.

Lemma next_power_of_two_ge n : 0 <= n → n <= next_power_of_two n.
Proof.
  intros Hn. unfold next_power_of_two. destruct (Z.le_gt_cases n 1).
  - rewrite Z.log2_up_eqn0 by done. lia.
  - pose proof (Z.log2_up_spec n). lia.
Qed.

Lemma ring_idx_mod cap s : cap_ok cap → ring_idx (cap - 1) s = Z.to_nat (s mod cap).
Proof.
  intros (k & Hk & ->). unfold ring_idx. f_equal.
  rewrite <- (Z.land_ones s k) by lia. by rewrite Z.ones_equiv.
Qed.

Lemma mod_mod_65536 cap z : cap_ok cap → (z mod 65536) mod cap = z mod cap.
Proof. intros Hc. apply Z.mod_mod_divide. by apply cap_ok_divide. Qed.

(** Offset [i] from [b]: the index of [b + i]. *)
Definition off_idx (cap b i : Z) : nat := Z.to_nat ((b + i) mod cap).

Lemma ring_idx_off cap b i :
  cap_ok cap → ring_idx (cap - 1) (wrapping_add16 b i) = off_idx cap b i.
Proof.
  intros Hc. rewrite ring_idx_mod by done. unfold off_idx, wrapping_add16, as_u16.
  by rewrite mod_mod_65536.
Qed.

Lemma ring_idx_base cap b : cap_ok cap → ring_idx (cap - 1) b = off_idx cap b 0.
Proof. intros Hc. rewrite ring_idx_mod by done. unfold off_idx. by rewrite Z.add_0_r. Qed.

Lemma off_idx_shift cap b a i :
  cap_ok cap → off_idx cap (wrapping_add16 b a) i = off_idx cap b (a + i).
Proof.
  intros Hc. unfold off_idx, wrapping_add16, as_u16. f_equal.
  rewrite Zplus_mod, mod_mod_65536, <- Zplus_mod by done. f_equal. lia.
Qed.

Lemma off_idx_wrap cap b i : off_idx cap b (i + cap) = off_idx cap b i.
Proof.
  unfold off_idx. f_equal. replace (b + (i + cap)) with (b + i + 1 * cap) by lia.
  apply Z_mod_plus_full.
Qed.

Lemma off_idx_lt cap b i : cap_ok cap → (off_idx cap b i < Z.to_nat cap)%nat.
Proof.
  intros Hc. pose proof (cap_ok_range _ Hc). unfold off_idx.
  pose proof (Z.mod_pos_bound (b + i) cap ltac:(lia)). lia.
Qed.

Lemma mod_eq_divide cap a b : 0 < cap → a mod cap = b mod cap → (cap | a - b).
Proof.
  intros Hc E. apply Z.mod_divide; [lia|]. by rewrite Zminus_mod, E, Z.sub_diag.
Qed.

Lemma off_idx_inj cap b i j :
  cap_ok cap → 0 <= i < cap → 0 <= j < cap → off_idx cap b i = off_idx cap b j → i = j.
Proof.
  intros Hc Hi Hj. pose proof (cap_ok_range _ Hc). unfold off_idx. intros E.
  pose proof (Z.mod_pos_bound (b + i) cap ltac:(lia)).
  pose proof (Z.mod_pos_bound (b + j) cap ltac:(lia)).
  assert (E' : (b + i) mod cap = (b + j) mod cap) by lia.
  apply mod_eq_divide in E' as [q Hq]; [|lia].
  assert (q = 0) by (destruct (Z.lt_trichotomy q 0) as [?|[?|?]]; nia). lia.
Qed.

(** Every index of the ring is an offset. *)
Lemma off_idx_surj cap b n :
  cap_ok cap → (n < Z.to_nat cap)%nat → ∃ i, 0 <= i < cap ∧ off_idx cap b i = n.
Proof.
  intros Hc Hn. pose proof (cap_ok_range _ Hc).
  exists ((Z.of_nat n - b) mod cap). split; [apply Z.mod_pos_bound; lia|].
  unfold off_idx. rewrite Zplus_mod_idemp_r.
  replace (b + (Z.of_nat n - b)) with (Z.of_nat n) by lia.
  rewrite Z.mod_small by lia. lia.
Qed.

(** Two sequence numbers share a slot exactly when they differ by a multiple of the
    capacity. *)
Lemma ring_idx_eq cap a b :
  cap_ok cap → ring_idx (cap - 1) a = ring_idx (cap - 1) b ↔ (cap | a - b).
Proof.
  intros Hc. pose proof (cap_ok_range _ Hc). rewrite !ring_idx_mod by done.
  pose proof (Z.mod_pos_bound a cap ltac:(lia)). pose proof (Z.mod_pos_bound b cap ltac:(lia)).
  split; [intros E; apply mod_eq_divide; lia|].
  intros [q Hq]. f_equal. replace a with (b + q * cap) by lia. apply Z_mod_plus_full.
Qed.

Section slots.
Context {A : Type} (d : A).

(** [slots[i]]; the index is always in range, see [off_idx_lt]. *)
Definition ring_get (slots : list A) (i : nat) : A := default d (slots !! i).
Definition off_get (cap : Z) (slots : list A) (b i : Z) : A := ring_get slots (off_idx cap b i).

Lemma off_get_insert cap (slots : list A) b i j v :
  cap_ok cap → length slots = Z.to_nat cap → 0 <= i < cap → 0 <= j < cap →
  off_get cap (<[off_idx cap b i := v]> slots) b j =
  if decide (i = j) then v else off_get cap slots b j.
Proof.
  intros Hc Hl Hi Hj. unfold off_get, ring_get. case_decide as E.
  - subst. rewrite list_lookup_insert_eq; [done|]. rewrite Hl. by apply off_idx_lt.
  - rewrite list_lookup_insert_ne; [done|]. intros E'. by apply off_idx_inj in E'.
Qed.

Lemma off_get_shift cap (slots : list A) b a i :
  cap_ok cap → off_get cap slots (wrapping_add16 b a) i = off_get cap slots b (a + i).
Proof. intros. unfold off_get. by rewrite off_idx_shift. Qed.

Lemma off_get_wrap cap (slots : list A) b i :
  off_get cap slots b (i + cap) = off_get cap slots b i.
Proof. unfold off_get. by rewrite off_idx_wrap. Qed.

Lemma ring_get_all (slots : list A) :
  map (ring_get slots) (seq 0 (length slots)) = slots.
Proof.
  apply list_eq. intros i. rewrite list_lookup_fmap. unfold ring_get.
  destruct (decide (i < length slots)%nat) as [Hi|Hi].
  - rewrite lookup_seq_lt by done. cbn. by apply lookup_lt_is_Some_2 in Hi as [x ->].
  - rewrite lookup_seq_ge, lookup_ge_None_2 by lia. done.
Qed.

(** Reading the ring offset by offset visits every slot once. *)
Lemma off_get_all cap (slots : list A) b :
  cap_ok cap → length slots = Z.to_nat cap →
  map (off_get cap slots b) (seqZ 0 cap) ≡ₚ slots.
Proof.
  intros Hc Hl. pose proof (cap_ok_range _ Hc). rewrite <- (ring_get_all slots) at 2.
  rewrite <- (map_map (off_idx cap b) (ring_get slots)). apply Permutation_map.
  apply NoDup_Permutation; [|apply NoDup_seq|].
  - apply NoDup_fmap_2_strong; [|apply NoDup_seqZ].
    intros x y Hx%elem_of_seqZ Hy%elem_of_seqZ. by apply off_idx_inj; try lia.
  - intros n. rewrite elem_of_seq, Hl. split.
    + intros (i & -> & Hi)%list_elem_of_fmap. pose proof (off_idx_lt cap b i Hc). lia.
    + intros Hn. destruct (off_idx_surj cap b n) as (i & Hi & <-); [done|lia|].
      apply list_elem_of_fmap. exists i. split; [done|]. apply elem_of_seqZ. lia.
Qed.
End slots.
