(* ===== verification/Reorder.v ===== *)
(** * The receiver's reorder buffer (rist-protocol/src/protocol/reorder.rs)

    A ring of slots indexed by [seq & (capacity - 1)].  The file translates
    [insert], [drain_ready] and [next_drain_time]; [ReorderSpec] specifies the buffer
    as a queue and relates the two, [ReorderProps] holds the properties. *)

From S2P Require Import Prelude Ring.

Inductive SlotState : Type :=
  | SEmpty
  | SGap (first_noticed : Z)
  | SFilled (data : bytes) (arrival : Z).

Record Slot := mkSlot { sl_seq : Z; sl_state : SlotState }.

Record InsertOutcome := mkInsertOutcome {
  io_stale : bool;
  io_duplicate : bool;
  io_recovered : bool;
  io_new_gaps : Z;
  io_overflow_flushed : Z
}.
Definition InsertOutcome_default : InsertOutcome := mkInsertOutcome false false false 0 0.

Inductive DrainItem : Type :=
  | Delivered (data : bytes) (seq arrival : Z)
  | Lost.

Record ReorderBuffer := mkReorderBuffer {
  ro_slots : list Slot;
  ro_capacity : Z;
  ro_mask : Z;
  ro_buffer_time : Z;
  ro_base_seq : option Z;
  ro_highest_seq : option Z
}.

Definition DEFAULT_CAPACITY : Z := 8192.
Definition empty_slot : Slot := mkSlot 0 SEmpty.

Definition with_capacity (buffer_time capacity : Z) : ReorderBuffer :=
  let capacity := Z.max (next_power_of_two capacity) 64 in
  mkReorderBuffer (replicate (Z.to_nat capacity) empty_slot) capacity (capacity - 1)
    buffer_time None None.
Definition ReorderBuffer_new (buffer_time : Z) : ReorderBuffer :=
  with_capacity buffer_time DEFAULT_CAPACITY.

(** [self.slots[i]].  The ring always has [capacity] slots (invariant [ring_ok]), so
    the index is in range. *)
Definition slot_at (slots : list Slot) (i : nat) : Slot := ring_get empty_slot slots i.

Definition is_filled (s : Slot) : bool := match sl_state s with SFilled _ _ => true | _ => false end.
Definition is_empty (s : Slot) : bool := match sl_state s with SEmpty => true | _ => false end.

Definition set_ring (self : ReorderBuffer) (slots : list Slot) (base highest : option Z) : ReorderBuffer :=
  mkReorderBuffer slots (ro_capacity self) (ro_mask self) (ro_buffer_time self) base highest.

(** [for i in 0..advance]: drop the oldest sequence numbers, counting the packets. *)
Fixpoint flush_oldest (mask base i : Z) (n : nat) (slots : list Slot) (flushed : Z) : list Slot * Z :=
  match n with
  | O => (slots, flushed)
  | S n' =>
      let s := wrapping_add16 base i in
      let sidx := ring_idx mask s in
      let slot := slot_at slots sidx in
      let flushed := if (sl_seq slot =? s) && is_filled slot then flushed + 1 else flushed in
      flush_oldest mask base (i + 1) n' (<[sidx := empty_slot]> slots) flushed
  end.

(** [for i in 1..=diff]: flag the sequence numbers between [highest] and [seq] as gaps. *)
Fixpoint mark_gaps (mask highest seq now i : Z) (n : nat) (slots : list Slot) (new_gaps : Z)
    : list Slot * Z :=
  match n with
  | O => (slots, new_gaps)
  | S n' =>
      let gap_seq := wrapping_add16 highest i in
      if gap_seq =? seq then mark_gaps mask highest seq now (i + 1) n' slots new_gaps else
      let gidx := ring_idx mask gap_seq in
      let slot := slot_at slots gidx in
      if is_empty slot || negb (sl_seq slot =? gap_seq) then
        mark_gaps mask highest seq now (i + 1) n'
          (<[gidx := mkSlot gap_seq (SGap now)]> slots) (new_gaps + 1)
      else mark_gaps mask highest seq now (i + 1) n' slots new_gaps
  end.

(** The part of [insert] after the overflow handling. *)
Definition insert_tail (self : ReorderBuffer) (highest seq : Z) (data : bytes) (now flushed : Z)
    : ReorderBuffer * InsertOutcome :=
  let slots := ro_slots self in
  let idx := ring_idx (ro_mask self) seq in
  let slot := slot_at slots idx in
  if (sl_seq slot =? seq) && is_filled slot then
    (self, mkInsertOutcome false true false 0 flushed)
  else
    let recovered :=
      (sl_seq slot =? seq) && match sl_state slot with SGap _ => true | _ => false end in
    let slots := <[idx := mkSlot seq (SFilled data now)]> slots in
    let diff := as_i16 (wrapping_sub16 seq highest) in
    if 0 <? diff then
      let '(slots, new_gaps) := mark_gaps (ro_mask self) highest seq now 1 (Z.to_nat diff) slots 0 in
      (set_ring self slots (ro_base_seq self) (Some seq),
       mkInsertOutcome false false recovered new_gaps flushed)
    else (set_ring self slots (ro_base_seq self) (ro_highest_seq self),
          mkInsertOutcome false false recovered 0 flushed).

Definition insert (self : ReorderBuffer) (seq : Z) (data : bytes) (now : Z)
    : ReorderBuffer * InsertOutcome :=
  match ro_base_seq self, ro_highest_seq self with
  | Some base, Some highest =>
      let from_base := as_i16 (wrapping_sub16 seq base) in
      if from_base <? 0 then (self, mkInsertOutcome true false false 0 0) else
      let ahead_capacity := as_u16 (as_u16 (ro_capacity self) - 1) in
      if ahead_capacity <? as_u16 from_base then
        let advance := as_u16 (as_u16 from_base - ahead_capacity) in
        let new_base := wrapping_add16 base advance in
        let highest_offset := wrapping_sub16 highest base in
        if (ro_capacity self <=? advance) || (highest_offset <? advance) then
          let flushed := Z.of_nat (length (List.filter is_filled (ro_slots self))) in
          let slots := map (λ _, empty_slot) (ro_slots self) in
          (set_ring self (<[ring_idx (ro_mask self) seq := mkSlot seq (SFilled data now)]> slots)
             (Some seq) (Some seq),
           mkInsertOutcome false false false 0 flushed)
        else
          let '(slots, flushed) :=
            flush_oldest (ro_mask self) base 0 (Z.to_nat advance) (ro_slots self) 0 in
          insert_tail (set_ring self slots (Some new_base) (ro_highest_seq self))
            highest seq data now flushed
      else insert_tail self highest seq data now 0
  | _, _ =>
      (set_ring self (<[ring_idx (ro_mask self) seq := mkSlot seq (SFilled data now)]> (ro_slots self))
         (Some seq) (Some seq),
       InsertOutcome_default)
  end.

(** The [loop] of [drain_ready]; [None] when the fuel runs out. *)
Fixpoint drain_loop (fuel : nat) (self : ReorderBuffer) (now : Z) (out : list DrainItem)
    : option (ReorderBuffer * list DrainItem) :=
  match fuel with
  | O => None
  | S fuel' =>
      match ro_base_seq self, ro_highest_seq self with
      | None, _ => Some (self, out)
      | Some _, None => Some (self, out)
      | Some base, Some h =>
          if 0 <? as_i16 (wrapping_sub16 base h) then Some (self, out) else
          let idx := ring_idx (ro_mask self) base in
          let slot := slot_at (ro_slots self) idx in
          let pop slot' item :=
            drain_loop fuel'
              (set_ring self (<[idx := slot']> (ro_slots self))
                 (Some (wrapping_add16 base 1)) (ro_highest_seq self)) now (out ++ [item]) in
          if negb (sl_seq slot =? base) then pop empty_slot Lost else
          match sl_state slot with
          | SFilled data arrival =>
              if ro_buffer_time self <=? saturating_duration_since now arrival
              then pop (mkSlot (sl_seq slot) SEmpty) (Delivered data base arrival)
              else Some (self, out)
          | SGap first_noticed =>
              if ro_buffer_time self <=? saturating_duration_since now first_noticed
              then pop (mkSlot (sl_seq slot) SEmpty) Lost
              else Some (self, out)
          | SEmpty => Some (self, out)
          end
      end
  end.

(** 65537 iterations are enough from any state ([drain_ready_terminates]). *)
Definition drain_fuel : nat := Z.to_nat 65537.
Definition drain_ready (self : ReorderBuffer) (now : Z) (out : list DrainItem)
    : option (ReorderBuffer * list DrainItem) :=
  drain_loop drain_fuel self now out.

(** [clock] is the reading of [Instant::now()]. *)
Definition next_drain_time (self : ReorderBuffer) (clock : Z) : option Z :=
  base ← ro_base_seq self;
  let slot := slot_at (ro_slots self) (ring_idx (ro_mask self) base) in
  if negb (sl_seq slot =? base) then Some clock else
  match sl_state slot with
  | SFilled _ arrival => Some (arrival + ro_buffer_time self)
  | SGap first_noticed => Some (first_noticed + ro_buffer_time self)
  | SEmpty => None
  end.

