(* ===== verification/ReorderSpec.v ===== *)
(** * The reorder buffer as a queue

    The specification of the buffer is a base sequence number and the list of cells
    from it up to the highest number seen: packets and gaps.  [insert] places a packet
    at its offset, opening gaps when it is past the end and dropping the oldest cells
    when it does not fit; [drain_ready] pops the leading cells that have been held for
    [buffer_time].  The theorems of this file show that the ring of [Reorder] is that
    queue, and state where it is not. *)

From S2P Require Import Prelude Ring Reorder.

(** ** Specification *)

Record queue := mkQueue { q_base : Z; q_cells : list SlotState }.

Definition filled_cell (c : SlotState) : bool := match c with SFilled _ _ => true | _ => false end.
Definition count_filled (cs : list SlotState) : Z := Z.of_nat (length (List.filter filled_cell cs)).

Definition q_place (base : Z) (cells : list SlotState) (off : Z) (data : bytes) (now flushed : Z)
    : queue * InsertOutcome :=
  match cells !! Z.to_nat off with
  | Some (SFilled _ _) => (mkQueue base cells, mkInsertOutcome false true false 0 flushed)
  | Some (SGap _) =>
      (mkQueue base (<[Z.to_nat off := SFilled data now]> cells),
       mkInsertOutcome false false true 0 flushed)
  | Some SEmpty =>
      (mkQueue base (<[Z.to_nat off := SFilled data now]> cells),
       mkInsertOutcome false false false 0 flushed)
  | None =>
      let gaps := off - Z.of_nat (length cells) in
      (mkQueue base (cells ++ replicate (Z.to_nat gaps) (SGap now) ++ [SFilled data now]),
       mkInsertOutcome false false false gaps flushed)
  end.

Definition q_insert (cap : Z) (q : option queue) (seq : Z) (data : bytes) (now : Z)
    : queue * InsertOutcome :=
  match q with
  | None => (mkQueue seq [SFilled data now], InsertOutcome_default)
  | Some (mkQueue base cells) =>
      let off := as_i16 (wrapping_sub16 seq base) in
      if off <? 0 then (mkQueue base cells, mkInsertOutcome true false false 0 0)
      else if off <? cap then q_place base cells off data now 0
      else
        let adv := off - (cap - 1) in
        if Z.of_nat (length cells) <=? adv then
          (mkQueue seq [SFilled data now],
           mkInsertOutcome false false false 0 (count_filled cells))
        else
          q_place (wrapping_add16 base adv) (drop (Z.to_nat adv) cells) (cap - 1) data now
            (count_filled (take (Z.to_nat adv) cells))
  end.

(** A cell leaves the queue once it has been held for [bt]. *)
Definition cell_ready (bt now : Z) (c : SlotState) : bool :=
  match c with
  | SFilled _ t | SGap t => bt <=? saturating_duration_since now t
  | SEmpty => false
  end.

Definition cell_item (seq : Z) (c : SlotState) : DrainItem :=
  match c with SFilled d t => Delivered d seq t | _ => Lost end.

Fixpoint q_drain (bt now base : Z) (cells : list SlotState) : list DrainItem * queue :=
  match cells with
  | c :: cs =>
      if cell_ready bt now c then
        let '(items, q) := q_drain bt now (wrapping_add16 base 1) cs in
        (cell_item base c :: items, q)
      else ([], mkQueue base cells)
  | [] => ([], mkQueue base [])
  end.

(** ** The invariant and the abstraction *)

Record ring_ok (b : ReorderBuffer) : Prop := {
  ring_cap : cap_ok (ro_capacity b);
  ring_cap_range : 64 <= ro_capacity b <= 16384;
  ring_mask : ro_mask b = ro_capacity b - 1;
  ring_length : length (ro_slots b) = Z.to_nat (ro_capacity b)
}.

Abbreviation oget := (off_get empty_slot).

(** Number of sequence numbers from [base] to [highest]; 0 once everything is drained. *)
Definition win_len (base highest : Z) : Z := as_i16 (wrapping_sub16 highest base) + 1.

(** The window holds its own sequence numbers as packets or gaps; every other slot is
    empty. *)
Record win_ok (cap : Z) (slots : list Slot) (base highest : Z) : Prop := {
  win_base : is_u16 base;
  win_highest : is_u16 highest;
  win_range : 0 <= win_len base highest <= cap;
  win_in : ∀ i, 0 <= i < win_len base highest →
    sl_seq (oget cap slots base i) = wrapping_add16 base i ∧
    sl_state (oget cap slots base i) ≠ SEmpty;
  win_out : ∀ i, win_len base highest <= i < cap → sl_state (oget cap slots base i) = SEmpty
}.

Definition wf (b : ReorderBuffer) : Prop :=
  ring_ok b ∧
  match ro_base_seq b, ro_highest_seq b with
  | Some base, Some highest => win_ok (ro_capacity b) (ro_slots b) base highest
  | None, None => ∀ i, 0 <= i < ro_capacity b → ∀ base, sl_state (oget (ro_capacity b) (ro_slots b) base i) = SEmpty
  | _, _ => False
  end.

Definition win_cells (cap : Z) (slots : list Slot) (base len : Z) : list SlotState :=
  map (λ i, sl_state (oget cap slots base i)) (seqZ 0 len).

Definition abs (b : ReorderBuffer) : option queue :=
  match ro_base_seq b, ro_highest_seq b with
  | Some base, Some highest =>
      Some (mkQueue base (win_cells (ro_capacity b) (ro_slots b) base (win_len base highest)))
  | _, _ => None
  end.

(** ** Window arithmetic *)

Lemma win_cells_length cap slots base len :
  length (win_cells cap slots base len) = Z.to_nat len.
Proof. unfold win_cells. by rewrite length_map, length_seqZ. Qed.

Lemma win_cells_lookup cap slots base len i :
  0 <= i < len →
  win_cells cap slots base len !! Z.to_nat i = Some (sl_state (oget cap slots base i)).
Proof.
  intros Hi. unfold win_cells. rewrite list_lookup_fmap, lookup_seqZ_lt by lia. cbn.
  repeat f_equal. lia.
Qed.

Lemma win_cells_ext cap slots slots' base base' len :
  (∀ i, 0 <= i < len → sl_state (oget cap slots base i) = sl_state (oget cap slots' base' i)) →
  win_cells cap slots base len = win_cells cap slots' base' len.
Proof.
  intros H. unfold win_cells. apply map_ext_in. intros i Hi%list_elem_of_In%elem_of_seqZ.
  apply H. lia.
Qed.

Lemma win_cells_app cap slots base l1 l2 :
  0 <= l1 → 0 <= l2 →
  win_cells cap slots base (l1 + l2) =
  win_cells cap slots base l1 ++ map (λ i, sl_state (oget cap slots base i)) (seqZ l1 l2).
Proof. intros. unfold win_cells. rewrite seqZ_app by done. by rewrite map_app. Qed.

Lemma win_len_highest base highest :
  is_u16 highest → highest = wrapping_add16 base (win_len base highest - 1).
Proof. unfold win_len. ulia. Qed.

Lemma win_len_eq base len :
  0 <= len <= 32768 → win_len base (wrapping_add16 base (len - 1)) = len.
Proof. unfold win_len. ulia. Qed.

(** Moving the base past [a] cells. *)
Lemma win_len_advance base highest a :
  0 <= a <= win_len base highest → win_len base highest <= 32768 →
  win_len (wrapping_add16 base a) highest = win_len base highest - a.
Proof. unfold win_len. ulia. Qed.

Lemma seq_offset seq base :
  is_u16 seq → seq = wrapping_add16 base (as_i16 (wrapping_sub16 seq base)).
Proof. ulia. Qed.

(** ** The two loops of [insert] *)

Lemma mark_gaps_spec cap h seq now b n : ∀ i o slots g,
  cap_ok cap → length slots = Z.to_nat cap → 0 <= o → o + Z.of_nat n <= cap →
  as_u16 (h + i) = as_u16 (b + o) →
  (∀ k, o <= k < o + Z.of_nat n → wrapping_add16 b k ≠ seq) →
  (∀ k, o <= k < o + Z.of_nat n → sl_state (oget cap slots b k) = SEmpty) →
  ∃ slots', mark_gaps (cap - 1) h seq now i n slots g = (slots', g + Z.of_nat n) ∧
    length slots' = length slots ∧
    ∀ k, 0 <= k < cap → oget cap slots' b k =
      if decide (o <= k < o + Z.of_nat n) then mkSlot (wrapping_add16 b k) (SGap now)
      else oget cap slots b k.
Proof.
  induction n as [|n IH]; intros i o slots g Hc Hl Ho Hn Hhi Hseq Hemp.
  - exists slots. cbn. split; [do 2 f_equal; lia|]. split; [done|].
    intros k Hk. rewrite decide_False by lia. done.
  - cbn [mark_gaps].
    assert (Egs : wrapping_add16 h i = wrapping_add16 b o) by done.
    rewrite Egs, (proj2 (Z.eqb_neq _ _)) by (apply Hseq; lia).
    rewrite ring_idx_off by done.
    change (slot_at slots (off_idx cap b o)) with (oget cap slots b o).
    unfold is_empty. rewrite Hemp by lia. cbn [orb].
    edestruct (IH (i + 1) (o + 1) (<[off_idx cap b o := mkSlot (wrapping_add16 b o) (SGap now)]> slots)
      (g + 1)) as (slots' & -> & Hl' & Hget); try done; try lia.
    + by rewrite length_insert.
    + unfold_int. rewrite !Z.add_assoc, Zplus_mod, Hhi, <- Zplus_mod. done.
    + intros k Hk. apply Hseq. lia.
    + intros k Hk. rewrite off_get_insert, decide_False by (done || lia). apply Hemp. lia.
    + exists slots'. split; [f_equal; lia|]. split; [by rewrite Hl', length_insert|].
      intros k Hk. rewrite Hget by done. rewrite off_get_insert by (done || lia).
      repeat case_decide; subst; done || lia.
Qed.

(** The last iteration meets [seq] itself and skips it. *)
Lemma mark_gaps_last mask h seq now n : ∀ i slots g,
  wrapping_add16 h (i + Z.of_nat n) = seq →
  mark_gaps mask h seq now i (S n) slots g = mark_gaps mask h seq now i n slots g.
Proof.
  induction n as [|n IH]; intros i slots g Hs.
  - cbn [mark_gaps]. rewrite Z.add_0_r in Hs. by rewrite (proj2 (Z.eqb_eq _ _)).
  - assert (Hs' : wrapping_add16 h (i + 1 + Z.of_nat n) = seq) by (rewrite <- Hs; f_equal; lia).
    cbn [mark_gaps] in *. destruct (_ =? seq); [by apply IH|].
    destruct (_ || _); by apply IH.
Qed.

Lemma flush_oldest_spec cap b n : ∀ i slots f,
  cap_ok cap → length slots = Z.to_nat cap → 0 <= i → i + Z.of_nat n <= cap →
  (∀ k, i <= k < i + Z.of_nat n → sl_seq (oget cap slots b k) = wrapping_add16 b k) →
  ∃ slots', flush_oldest (cap - 1) b i n slots f =
      (slots', f + count_filled (map (λ k, sl_state (oget cap slots b k)) (seqZ i (Z.of_nat n)))) ∧
    length slots' = length slots ∧
    ∀ k, 0 <= k < cap → oget cap slots' b k =
      if decide (i <= k < i + Z.of_nat n) then empty_slot else oget cap slots b k.
Proof.
  induction n as [|n IH]; intros i slots f Hc Hl Hi Hn Hseq.
  - exists slots. cbn [flush_oldest]. rewrite seqZ_nil by lia. split; [f_equal; unfold count_filled; cbn; lia|].
    split; [done|]. intros k Hk. by rewrite decide_False by lia.
  - cbn [flush_oldest]. rewrite ring_idx_off by done.
    change (slot_at slots (off_idx cap b i)) with (oget cap slots b i).
    rewrite Hseq, Z.eqb_refl by lia. cbn [andb].
    edestruct (IH (i + 1) (<[off_idx cap b i := empty_slot]> slots)) as (slots' & -> & Hl' & Hget);
      try done; try lia.
    + by rewrite length_insert.
    + intros k Hk. rewrite off_get_insert, decide_False by (done || lia). apply Hseq. lia.
    + exists slots'. split; [|split].
      * f_equal. rewrite (seqZ_cons i) by lia. replace (Z.succ i) with (i + 1) by lia.
        replace (Z.pred (Z.of_nat (S n))) with (Z.of_nat n) by lia. cbn [map].
        assert (E : map (λ k, sl_state (oget cap (<[off_idx cap b i:=empty_slot]> slots) b k)) (seqZ (i + 1) (Z.of_nat n))
          = map (λ k, sl_state (oget cap slots b k)) (seqZ (i + 1) (Z.of_nat n))).
        { apply map_ext_in. intros k Hk%list_elem_of_In%elem_of_seqZ.
          by rewrite off_get_insert, decide_False by (done || lia). }
        rewrite E. unfold count_filled, is_filled. cbn [List.filter]. unfold filled_cell at 2.
        destruct (sl_state (oget cap slots b i)); cbn [length]; lia.
      * by rewrite Hl', length_insert.
      * intros k Hk. rewrite Hget by done. rewrite off_get_insert by (done || lia).
        repeat case_decide; subst; done || lia.
Qed.

(** ** Placing a packet inside the ring *)

Lemma win_cells_insert cap slots b len i v :
  cap_ok cap → length slots = Z.to_nat cap → 0 <= i < len → len <= cap →
  win_cells cap (<[off_idx cap b i := v]> slots) b len =
  <[Z.to_nat i := sl_state v]> (win_cells cap slots b len).
Proof.
  intros Hc Hl Hi Hlen. apply list_eq. intros n.
  destruct (decide (n < Z.to_nat len)%nat) as [Hn|Hn].
  - rewrite <- (Nat2Z.id n). rewrite win_cells_lookup by lia.
    rewrite off_get_insert by (done || lia). case_decide as E.
    + rewrite <- E, list_lookup_insert_eq; [done|]. rewrite win_cells_length. lia.
    + rewrite list_lookup_insert_ne by lia. by rewrite win_cells_lookup by lia.
  - rewrite !lookup_ge_None_2; [done|..]; rewrite ?length_insert, win_cells_length; lia.
Qed.

Lemma win_ok_insert cap slots b h i v :
  cap_ok cap → length slots = Z.to_nat cap → win_ok cap slots b h → 0 <= i < win_len b h →
  sl_seq v = wrapping_add16 b i → sl_state v ≠ SEmpty →
  win_ok cap (<[off_idx cap b i := v]> slots) b h.
Proof.
  intros Hc Hl [Hb Hh Hr Hin Hout] Hi Hs Hne. split; [done..| |].
  - intros k Hk. rewrite off_get_insert by (done || lia). case_decide; [by subst|by apply Hin].
  - intros k Hk. rewrite off_get_insert, decide_False by (done || lia). by apply Hout.
Qed.

(** The ring after a packet has been placed past the end of the window. *)
Lemma win_extend cap slots slots' b h seq data now :
  win_ok cap slots b h → cap <= 16384 → is_u16 seq →
  let off := as_i16 (wrapping_sub16 seq b) in
  win_len b h <= off < cap →
  (∀ k, 0 <= k < cap → oget cap slots' b k =
     if decide (win_len b h <= k < off) then mkSlot (wrapping_add16 b k) (SGap now)
     else if decide (off = k) then mkSlot seq (SFilled data now) else oget cap slots b k) →
  win_ok cap slots' b seq ∧
  win_cells cap slots' b (win_len b seq) =
    win_cells cap slots b (win_len b h) ++
    replicate (Z.to_nat (off - win_len b h)) (SGap now) ++ [SFilled data now].
Proof.
  intros [Hb Hh Hr Hin Hout] Hcap Hseq off Hoff Hget.
  assert (Elen : win_len b seq = off + 1) by done.
  assert (Es : seq = wrapping_add16 b off) by by apply seq_offset.
  clearbody off. split.
  - split; [done..|rewrite Elen; lia| |]; rewrite Elen; intros k Hk; rewrite Hget by lia.
    + repeat case_decide; try (subst; done); [].
      apply Hin. lia.
    + repeat case_decide; try lia. apply Hout. lia.
  - rewrite Elen. apply list_eq. intros n. rewrite <- (Nat2Z.id n).
    set (i := Z.of_nat n). assert (Hi0 : 0 <= i) by lia. clearbody i.
    destruct (decide (i < win_len b h)).
    { rewrite lookup_app_l by (rewrite win_cells_length; lia).
      rewrite !win_cells_lookup by lia. rewrite Hget by lia.
      by rewrite !decide_False by lia. }
    rewrite lookup_app_r, win_cells_length by (rewrite win_cells_length; lia).
    destruct (decide (i < off)).
    { rewrite lookup_app_l by (rewrite length_replicate; lia).
      rewrite lookup_replicate_2 by lia. rewrite win_cells_lookup by lia.
      rewrite Hget by lia. by rewrite decide_True by lia. }
    rewrite lookup_app_r, length_replicate by (rewrite length_replicate; lia).
    destruct (decide (i = off)) as [->|].
    { replace (_ - _ - _)%nat with 0%nat by lia. rewrite win_cells_lookup by lia.
      rewrite Hget, decide_False, decide_True by lia. done. }
    rewrite !lookup_ge_None_2; [done|cbn; lia|rewrite win_cells_length; lia].
Qed.

Lemma insert_tail_place b base highest seq data now fl :
  ring_ok b → ro_base_seq b = Some base → ro_highest_seq b = Some highest →
  win_ok (ro_capacity b) (ro_slots b) base highest → is_u16 seq →
  let off := as_i16 (wrapping_sub16 seq base) in
  0 <= off < ro_capacity b →
  let q := q_place base (win_cells (ro_capacity b) (ro_slots b) base (win_len base highest))
             off data now fl in
  let r := insert_tail b highest seq data now fl in
  wf r.1 ∧ abs r.1 = Some q.1 ∧ r.2 = q.2.
Proof.
  intros [Hc Hcr Hm Hl] Eb Eh Hw Hseq off Hoff. pose proof Hw as [Hb Hh Hr Hin Hout].
  assert (Es : seq = wrapping_add16 base off) by by apply seq_offset.
  assert (Ei : ring_idx (ro_capacity b - 1) seq = off_idx (ro_capacity b) base off)
    by (rewrite Es at 1; by apply ring_idx_off).
  unfold insert_tail. rewrite Hm, Ei.
  change (slot_at (ro_slots b) (off_idx (ro_capacity b) base off))
    with (oget (ro_capacity b) (ro_slots b) base off).
  assert (Ed : as_i16 (wrapping_sub16 seq highest) = off - win_len base highest + 1)
    by (subst off; unfold win_len in *; ulia).
  rewrite Ed. unfold q_place, is_filled.
  destruct (decide (off < win_len base highest)) as [Hlt|Hge].
  - rewrite win_cells_lookup by lia. destruct (Hin off) as [Hs Hne]; [lia|].
    rewrite Hs, <- Es, Z.eqb_refl. cbn [andb].
    destruct (sl_state (oget (ro_capacity b) (ro_slots b) base off)) as [|t|d t] eqn:Est; [done| |].
    + case_cmp; [lia|]. cbn [fst snd]. unfold wf, abs, set_ring; cbn. rewrite Eb, Eh.
      split_and!; [split; cbn; [done..|by rewrite length_insert]
        | apply win_ok_insert; done || lia | | done].
      rewrite win_cells_insert by (done || lia). done.
    + cbn [fst snd]. unfold wf, abs. rewrite Eb, Eh. split_and!; done || by split.
  - rewrite lookup_ge_None_2 by (rewrite win_cells_length; lia).
    rewrite Hout by lia. rewrite !andb_false_r.
    rewrite (proj2 (Z.ltb_lt _ _)) by lia.
    replace (Z.to_nat (off - win_len base highest + 1))
      with (S (Z.to_nat (off - win_len base highest))) by lia.
    rewrite mark_gaps_last by (rewrite Es; unfold win_len in *; subst off; ulia).
    edestruct (mark_gaps_spec (ro_capacity b) highest seq now base
      (Z.to_nat (off - win_len base highest)) 1 (win_len base highest)
      (<[off_idx (ro_capacity b) base off := mkSlot seq (SFilled data now)]> (ro_slots b)) 0)
      as (slots' & -> & Hl' & Hget); try done; try lia.
    + by rewrite length_insert.
    + unfold win_len in *; ulia.
    + intros k Hk. rewrite Es. ulia.
    + intros k Hk. rewrite off_get_insert, decide_False by (done || lia). apply Hout. lia.
    + rewrite length_insert in Hl'.
      destruct (win_extend (ro_capacity b) (ro_slots b) slots' base highest seq data now)
        as [Hw' Hcells]; [done|lia|done|fold off; lia|fold off; intros k Hk|].
      { rewrite Hget, off_get_insert by (done || lia). repeat case_decide; done || lia. }
      fold off in Hcells. cbn [fst snd]. unfold wf, abs, set_ring; cbn. rewrite Eb, Hcells.
      rewrite win_cells_length. split_and!; [split; cbn; [done..|by rewrite Hl'] | done | | ];
        repeat f_equal; lia.
Qed.

(** ** Clearing the ring *)

Lemma count_filled_map l :
  Z.of_nat (length (List.filter is_filled l)) = count_filled (map sl_state l).
Proof.
  unfold count_filled. induction l as [|[s st] l IH]; [done|].
  cbn. unfold is_filled at 1; cbn. destruct st; cbn; lia.
Qed.

Lemma count_filled_perm l l' : l ≡ₚ l' → count_filled l = count_filled l'.
Proof.
  unfold count_filled. induction 1; cbn; [done|destruct (filled_cell x); cbn; lia| |lia].
  by destruct (filled_cell x), (filled_cell y).
Qed.

Lemma count_filled_app l l' : count_filled (l ++ l') = count_filled l + count_filled l'.
Proof. unfold count_filled. rewrite List.filter_app, length_app. lia. Qed.

Lemma count_filled_empty l : (∀ c, c ∈ l → c = SEmpty) → count_filled l = 0.
Proof.
  unfold count_filled. induction l as [|c l IH]; intros H; [done|]. cbn.
  rewrite (H c) by apply elem_of_cons, or_introl, eq_refl. apply IH.
  intros. by apply H, elem_of_cons, or_intror.
Qed.

(** Every packet in the ring is a packet of the window. *)
Lemma ring_count cap slots b h :
  cap_ok cap → length slots = Z.to_nat cap → win_ok cap slots b h →
  Z.of_nat (length (List.filter is_filled slots)) =
  count_filled (win_cells cap slots b (win_len b h)).
Proof.
  intros Hc Hl [_ _ Hr _ Hout]. rewrite count_filled_map.
  rewrite <- (count_filled_perm (map sl_state (map (oget cap slots b) (seqZ 0 cap))))
    by (by apply Permutation_map, off_get_all).
  rewrite map_map.
  assert (E : seqZ 0 cap = seqZ 0 (win_len b h) ++ seqZ (win_len b h) (cap - win_len b h)).
  { rewrite <- (seqZ_app 0) by lia. f_equal. lia. }
  rewrite E, map_app, count_filled_app. fold (win_cells cap slots b (win_len b h)).
  rewrite (count_filled_empty (map _ (seqZ _ (cap - _)))); [lia|].
  intros c (i & -> & Hi%elem_of_seqZ)%list_elem_of_fmap. apply Hout. lia.
Qed.

Lemma off_get_empty cap (slots : list Slot) b i :
  oget cap (map (λ _, empty_slot) slots) b i = empty_slot.
Proof.
  unfold off_get, ring_get. rewrite list_lookup_fmap.
  by destruct (slots !! _).
Qed.

(** A ring that holds nothing but the packet just placed. *)
Lemma win_single b slots seq data now :
  ring_ok b → is_u16 seq → length slots = Z.to_nat (ro_capacity b) →
  (∀ i, 0 <= i < ro_capacity b → sl_state (oget (ro_capacity b) slots seq i) = SEmpty) →
  let b' := set_ring b (<[ring_idx (ro_mask b) seq := mkSlot seq (SFilled data now)]> slots)
              (Some seq) (Some seq) in
  wf b' ∧ abs b' = Some (mkQueue seq [SFilled data now]).
Proof.
  intros [Hc Hcr Hm Hl] Hs Hls Hemp. cbn zeta. unfold wf, abs, set_ring; cbn.
  assert (El : win_len seq seq = 1) by (unfold win_len; ulia).
  rewrite Hm, ring_idx_base, El by done. split; [split|].
  - split; cbn; [done..|by rewrite length_insert].
  - split; rewrite ?El; [done..|lia| |].
    + intros i Hi. rewrite off_get_insert, decide_True by (done || lia). cbn.
      split; [|done]. assert (i = 0) as -> by lia. ulia.
    + intros i Hi. rewrite off_get_insert, decide_False by (done || lia). apply Hemp. lia.
  - do 2 f_equal. unfold win_cells. change (seqZ 0 1) with [0]. cbn [map].
    by rewrite off_get_insert, decide_True by (done || lia).
Qed.

(** ** Dropping the oldest cells *)

Lemma win_advance cap slots slots' b h a :
  cap_ok cap → cap <= 32768 → win_ok cap slots b h → 0 <= a <= win_len b h →
  (∀ k, 0 <= k < a → sl_state (oget cap slots' b k) = SEmpty) →
  (∀ k, a <= k < cap → oget cap slots' b k = oget cap slots b k) →
  win_ok cap slots' (wrapping_add16 b a) h ∧
  win_len (wrapping_add16 b a) h = win_len b h - a ∧
  win_cells cap slots' (wrapping_add16 b a) (win_len (wrapping_add16 b a) h) =
    drop (Z.to_nat a) (win_cells cap slots b (win_len b h)).
Proof.
  intros Hc Hcap [Hb Hh Hr Hin Hout] Ha Hlo Hhi.
  assert (El : win_len (wrapping_add16 b a) h = win_len b h - a) by (apply win_len_advance; lia).
  assert (Hadd : ∀ i, wrapping_add16 (wrapping_add16 b a) i = wrapping_add16 b (a + i)) by ulia.
  split_and!; [split|done|]; rewrite ?El; [auto with rist|done|lia| | |].
  - intros i Hi. rewrite off_get_shift, Hhi, Hadd by (done || lia). apply Hin. lia.
  - intros i Hi. rewrite off_get_shift by done. destruct (decide (a + i < cap)).
    + rewrite Hhi by lia. apply Hout. lia.
    + replace (a + i) with (a + i - cap + cap) by lia. rewrite off_get_wrap. apply Hlo. lia.
  - apply list_eq. intros n. rewrite lookup_drop.
    destruct (decide (Z.of_nat n < win_len b h - a)).
    + replace (Z.to_nat a + n)%nat with (Z.to_nat (a + Z.of_nat n)) by lia.
      rewrite win_cells_lookup by lia. rewrite <- (Nat2Z.id n) at 1.
      rewrite win_cells_lookup, off_get_shift, Hhi by (done || lia). done.
    + rewrite !lookup_ge_None_2; [done|rewrite win_cells_length; lia..].
Qed.

(** The condition under which the code takes the minimal flush although the window is
    empty: everything has been drained and the next packet is at least a ring, but less
    than two rings, ahead. *)
Definition jump_after_drain (b : ReorderBuffer) (seq : Z) : bool :=
  match ro_base_seq b, ro_highest_seq b with
  | Some base, Some highest =>
      let off := as_i16 (wrapping_sub16 seq base) in
      (win_len base highest =? 0) && (ro_capacity b <=? off) && (off <? 2 * ro_capacity b - 1)
  | _, _ => false
  end.

Definition insert_ok (b : ReorderBuffer) (q : option queue) (seq : Z) (data : bytes) (now : Z) : Prop :=
  let q' := q_insert (ro_capacity b) q seq data now in
  let r := insert b seq data now in
  wf r.1 ∧ abs r.1 = Some q'.1 ∧ r.2 = q'.2.

(** [insert] on a packet past the end of the ring, with the 16-bit casts resolved. *)
Lemma insert_overflow_unfold b base highest seq data now :
  ring_ok b → ro_base_seq b = Some base → ro_highest_seq b = Some highest →
  ro_capacity b <= as_i16 (wrapping_sub16 seq base) →
  let adv := as_i16 (wrapping_sub16 seq base) - (ro_capacity b - 1) in
  insert b seq data now =
  if (ro_capacity b <=? adv) || (wrapping_sub16 highest base <? adv) then
    (set_ring b (<[ring_idx (ro_mask b) seq := mkSlot seq (SFilled data now)]>
                   (map (λ _, empty_slot) (ro_slots b))) (Some seq) (Some seq),
     mkInsertOutcome false false false 0 (Z.of_nat (length (List.filter is_filled (ro_slots b)))))
  else
    let '(slots, flushed) := flush_oldest (ro_mask b) base 0 (Z.to_nat adv) (ro_slots b) 0 in
    insert_tail (set_ring b slots (Some (wrapping_add16 base adv)) (Some highest)) highest seq data now flushed.
Proof.
  intros [Hc Hcr Hm Hl] Eb Eh Hoff adv. unfold insert. rewrite Eb, Eh. cbn zeta.
  pose proof (as_i16_range (wrapping_sub16 seq base)) as Hoffr. subst adv.
  set (off := as_i16 (wrapping_sub16 seq base)) in *. clearbody off.
  rewrite (proj2 (Z.ltb_ge off 0)) by lia.
  assert (Ea : as_u16 (as_u16 (ro_capacity b) - 1) = ro_capacity b - 1) by ulia.
  assert (Eo : as_u16 off = off) by ulia.
  assert (Ead : as_u16 (off - (ro_capacity b - 1)) = off - (ro_capacity b - 1)) by ulia.
  by rewrite Ea, Eo, (proj2 (Z.ltb_lt (ro_capacity b - 1) off)), Ead by lia.
Qed.

Lemma insert_overflow b base highest seq data now :
  ring_ok b → ro_base_seq b = Some base → ro_highest_seq b = Some highest →
  win_ok (ro_capacity b) (ro_slots b) base highest → is_u16 seq →
  ro_capacity b <= as_i16 (wrapping_sub16 seq base) →
  jump_after_drain b seq = false → insert_ok b (abs b) seq data now.
Proof.
  intros Hring Eb Eh Hw Hseq Hoff Hj. pose proof Hring as [Hc Hcr Hm Hl].
  pose proof Hw as [Hb Hh Hr Hin Hout].
  unfold insert_ok. rewrite (insert_overflow_unfold b base highest) by done.
  unfold jump_after_drain, abs in *. rewrite Eb, Eh in *. cbn zeta in *.
  unfold q_insert. rewrite win_cells_length.
  pose proof (as_i16_range (wrapping_sub16 seq base)) as Hoffr.
  set (off := as_i16 (wrapping_sub16 seq base)) in *.
  rewrite (proj2 (Z.ltb_ge off 0)), (proj2 (Z.ltb_ge off _)) by lia.
  set (adv := off - (ro_capacity b - 1)) in *.
  assert (Eho : wrapping_sub16 highest base =
    if decide (win_len base highest = 0) then 65535 else win_len base highest - 1)
    by (case_decide; unfold win_len in *; ulia).
  rewrite Z2Nat.id by lia.
  destruct (decide (win_len base highest <= adv)) as [Hreset|Hkeep].
  - rewrite (proj2 (Z.leb_le (win_len base highest) adv)) by done.
    replace ((ro_capacity b <=? adv) || (wrapping_sub16 highest base <? adv)) with true
      by (rewrite Eho; repeat case_decide; case_cmp; first [done | lia]).
    destruct (win_single b (map (λ _, empty_slot) (ro_slots b)) seq data now) as [Hwf Habs];
      [done..|by rewrite length_map| |].
    { intros i _. by rewrite off_get_empty. }
    cbn [fst snd]. split_and!; [done|done|]. f_equal. by apply ring_count.
  - rewrite (proj2 (Z.leb_gt (win_len base highest) adv)) by lia.
    replace ((ro_capacity b <=? adv) || (wrapping_sub16 highest base <? adv)) with false
      by (rewrite Eho; repeat case_decide; case_cmp; first [done | lia]).
    destruct (flush_oldest_spec (ro_capacity b) base (Z.to_nat adv) 0 (ro_slots b) 0)
      as (slots' & Efl & Hl' & Hget); [done|done|lia|lia|intros; apply Hin; lia|].
    rewrite Z2Nat.id in Hget, Efl by lia. rewrite Hm, Efl.
    destruct (win_advance (ro_capacity b) (ro_slots b) slots' base highest adv)
      as (Hw' & El' & Hcells); [done|lia|done|lia| | |].
    { intros k Hk. by rewrite Hget, decide_True by lia. }
    { intros k Hk. by rewrite Hget, decide_False by lia. }
    assert (Eoff' : as_i16 (wrapping_sub16 seq (wrapping_add16 base adv)) = ro_capacity b - 1)
      by (subst adv off; ulia).
    pose proof (insert_tail_place
      (set_ring b slots' (Some (wrapping_add16 base adv)) (Some highest))
      (wrapping_add16 base adv) highest seq data now
      (count_filled (map (λ k, sl_state (oget (ro_capacity b) (ro_slots b) base k)) (seqZ 0 adv)))) as Hp.
    cbn in Hp. rewrite Eoff', Hcells in Hp.
    replace (take (Z.to_nat adv) (win_cells _ _ _ _)) with
      (map (λ k, sl_state (oget (ro_capacity b) (ro_slots b) base k)) (seqZ 0 adv)).
    + apply Hp; [split; cbn; [done..|by rewrite Hl']|done..|lia].
    + replace (win_len base highest) with (adv + (win_len base highest - adv)) by lia.
      rewrite win_cells_app, take_app_le, take_ge by (rewrite ?win_cells_length; lia). done.
Qed.

Lemma insert_refines b seq data now :
  wf b → is_u16 seq → jump_after_drain b seq = false → insert_ok b (abs b) seq data now.
Proof.
  intros [Hring Hw] Hseq Hj. pose proof Hring as [Hc Hcr Hm Hl].
  destruct (ro_base_seq b) as [base|] eqn:Eb, (ro_highest_seq b) as [highest|] eqn:Eh; try done.
  - destruct (decide (ro_capacity b <= as_i16 (wrapping_sub16 seq base))) as [Hov|Hin].
    { by apply (insert_overflow b base highest). }
    unfold insert_ok, insert, abs. rewrite Eb, Eh. cbn zeta. unfold q_insert.
    destruct (Z.ltb_spec (as_i16 (wrapping_sub16 seq base)) 0).
    + cbn. unfold wf. rewrite Eb, Eh. done.
    + rewrite (proj2 (Z.ltb_lt (as_i16 (wrapping_sub16 seq base)) _)) by lia.
      replace (_ <? as_u16 (as_i16 _)) with false
        by (symmetry; apply Z.ltb_ge; clear -Hin H Hcr; ulia).
      apply insert_tail_place; done || lia.
  - unfold insert_ok, insert, abs. rewrite Eb. cbn.
    destruct (win_single b (ro_slots b) seq data now) as [??]; [done..|intros; by apply Hw|done].
Qed.

(** ** Draining *)

Lemma win_cells_cons cap slots b len :
  0 < len → ∃ cs, win_cells cap slots b len = sl_state (oget cap slots b 0) :: cs.
Proof.
  intros Hl. unfold win_cells. rewrite seqZ_cons by done. cbn. eauto.
Qed.

(** One turn of the loop on a non-empty window: the head cell leaves or nothing does. *)
Lemma drain_step b base h now :
  wf b → ro_base_seq b = Some base → ro_highest_seq b = Some h → 0 < win_len base h →
  ∃ c cs, abs b = Some (mkQueue base (c :: cs)) ∧
    if cell_ready (ro_buffer_time b) now c then
      ∃ b', wf b' ∧ abs b' = Some (mkQueue (wrapping_add16 base 1) cs) ∧
        ro_buffer_time b' = ro_buffer_time b ∧ ro_capacity b' = ro_capacity b ∧
        ∀ fuel out, drain_loop (S fuel) b now out = drain_loop fuel b' now (out ++ [cell_item base c])
    else ∀ fuel out, drain_loop (S fuel) b now out = Some (b, out).
Proof.
  intros [Hring Hw] Eb Eh Hlen. pose proof Hring as [Hc Hcr Hm Hl].
  rewrite Eb, Eh in Hw. pose proof Hw as [Hb Hh Hr Hin Hout].
  destruct (win_cells_cons (ro_capacity b) (ro_slots b) base (win_len base h)) as [cs Hcs]; [done|].
  eexists _, cs. unfold abs at 1. rewrite Eb, Eh, Hcs. split; [done|].
  assert (Hgo : (0 <? as_i16 (wrapping_sub16 base h)) = false)
    by (apply Z.ltb_ge; unfold win_len in *; ulia).
  destruct (Hin 0) as [Hs Hne]; [lia|].
  replace (wrapping_add16 base 0) with base in Hs by (clear -Hb; ulia).
  set (pop := set_ring b (<[off_idx (ro_capacity b) base 0 :=
      mkSlot (sl_seq (oget (ro_capacity b) (ro_slots b) base 0)) SEmpty]> (ro_slots b))
      (Some (wrapping_add16 base 1)) (ro_highest_seq b)).
  assert (Hpop : wf pop ∧ abs pop = Some (mkQueue (wrapping_add16 base 1) cs)).
  { unfold wf, abs, pop; cbn. rewrite Eh.
    edestruct (win_advance (ro_capacity b) (ro_slots b) (<[off_idx (ro_capacity b) base 0 :=
      mkSlot (sl_seq (oget (ro_capacity b) (ro_slots b) base 0)) SEmpty]> (ro_slots b)) base h 1)
      as (Hw' & El' & Hcells'); [done|lia|done|lia| | |].
    - intros k Hk. by rewrite off_get_insert, decide_True by (done || lia).
    - intros k Hk. by rewrite off_get_insert, decide_False by (done || lia).
    - rewrite Hcells', Hcs. split; [split; [split; cbn; [done..|by rewrite length_insert]|]|]; done. }
  assert (Est : ∀ fuel out, drain_loop (S fuel) b now out =
    if cell_ready (ro_buffer_time b) now (sl_state (oget (ro_capacity b) (ro_slots b) base 0))
    then drain_loop fuel pop now
           (out ++ [cell_item base (sl_state (oget (ro_capacity b) (ro_slots b) base 0))])
    else Some (b, out)).
  { intros fuel out. cbn [drain_loop]. rewrite Eb, Eh, Hgo, Hm, ring_idx_base by done.
    change (slot_at (ro_slots b) (off_idx (ro_capacity b) base 0))
      with (oget (ro_capacity b) (ro_slots b) base 0).
    unfold pop. rewrite Eh, Hs, Z.eqb_refl. cbn [negb].
    unfold cell_ready, cell_item. destruct (sl_state _); [done|..]; done. }
  destruct (cell_ready _ _ _); [|done].
  destruct Hpop. by exists pop.
Qed.

Lemma drain_loop_refines n : ∀ fuel b base cells now out,
  wf b → abs b = Some (mkQueue base cells) → length cells = n → (n < fuel)%nat →
  ∃ b', drain_loop fuel b now out =
      Some (b', out ++ (q_drain (ro_buffer_time b) now base cells).1) ∧
    wf b' ∧ abs b' = Some (q_drain (ro_buffer_time b) now base cells).2 ∧
    ro_buffer_time b' = ro_buffer_time b ∧ ro_capacity b' = ro_capacity b.
Proof.
  induction n as [|n IH]; intros [|fuel] b base cells now out Hwf Habs Hn Hfuel; try lia.
  - destruct cells; [|done]. exists b. cbn [q_drain fst snd]. rewrite app_nil_r.
    split_and!; try done. cbn [drain_loop]. unfold abs in Habs.
    destruct Hwf as [Hring Hw].
    destruct (ro_base_seq b) as [base'|], (ro_highest_seq b) as [h|]; try done.
    injection Habs as -> Hc. apply (f_equal length) in Hc. rewrite win_cells_length in Hc.
    destruct Hw as [Hb Hh Hr _ _], Hring as [_ Hcr _ _].
    replace (0 <? _) with true; [done|]. symmetry. apply Z.ltb_lt.
    cbn in Hc. unfold win_len in *. ulia.
  - pose proof Habs as Habs'. unfold abs in Habs'.
    destruct (ro_base_seq b) as [base'|] eqn:Eb, (ro_highest_seq b) as [h|] eqn:Eh; try done.
    injection Habs' as -> Hc. apply (f_equal length) in Hc. rewrite win_cells_length, Hn in Hc.
    destruct (drain_step b base h now) as (c & cs & Habs' & Hstep); [done..|lia|].
    rewrite Habs' in Habs. injection Habs as <-. cbn in Hn. cbn [q_drain].
    destruct (cell_ready _ _ _).
    + destruct Hstep as (b' & Hwf' & Ha' & Et & Ec & ->).
      edestruct (IH fuel b' (wrapping_add16 base 1) cs now) as (b'' & -> & H1 & H2 & H3 & H4);
        [done..|lia|lia|].
      exists b''. rewrite Et in *. rewrite <- app_assoc. cbn [app].
      destruct (q_drain (ro_buffer_time b) now (wrapping_add16 base 1) cs); cbn in *.
      split_and!; congruence.
    + exists b. rewrite Hstep, app_nil_r. done.
Qed.

(** [q_drain] pops the longest prefix of ready cells. *)
Lemma q_drain_prefix bt now cells : ∀ base, is_u16 base → ∃ n,
  (n <= length cells)%nat ∧
  q_drain bt now base cells =
    (imap (λ i c, cell_item (wrapping_add16 base (Z.of_nat i)) c) (take n cells),
     mkQueue (wrapping_add16 base (Z.of_nat n)) (drop n cells)) ∧
  Forall (λ c, cell_ready bt now c = true) (take n cells) ∧
  (∀ c, cells !! n = Some c → cell_ready bt now c = false).
Proof.
  induction cells as [|c cs IH]; intros base Hb; cbn [q_drain].
  - exists 0%nat. split_and!; [done| |done..]. cbn. do 2 f_equal. ulia.
  - assert (E0 : wrapping_add16 base 0 = base) by (clear -Hb; ulia).
    destruct (cell_ready bt now c) eqn:Er.
    + destruct (IH (wrapping_add16 base 1)) as (n & Hn & -> & Hall & Hnext); [auto with rist|].
      exists (S n). cbn [take drop length]. split_and!; [lia| |by constructor|done].
      rewrite imap_cons. change (Z.of_nat 0) with 0. rewrite E0. f_equal; [f_equal|f_equal; ulia].
      apply imap_ext. intros i x _. cbn [compose]. f_equal. ulia.
    + exists 0%nat. split_and!; [cbn; lia| |by constructor|].
      * change (Z.of_nat 0) with 0. by rewrite E0.
      * intros c' [= <-]. done.
Qed.
