(* ===== verification/ReorderProps.v ===== *)
(** * Properties of the reorder buffer

    The claims about reorder.rs: the ring implements the queue of [ReorderSpec], the
    drain loop terminates from any state, every run from a fresh buffer delivers in
    order and only what was inserted, and the two places where the code departs from
    its documentation. *)

From stdpp Require Import relations.
From Stdlib Require Import Sorted.
From S2P Require Import Prelude Ring Reorder ReorderSpec.

(** ** The refinement *)

Lemma with_capacity_wf bt cap :
  0 <= cap <= 16384 →
  wf (with_capacity bt cap) ∧ abs (with_capacity bt cap) = None ∧
  cap <= ro_capacity (with_capacity bt cap).
Proof.
  intros Hcap. assert (Hok : cap_ok (Z.max (next_power_of_two cap) 64)).
  { destruct (Z.max_spec (next_power_of_two cap) 64) as [[_ ->]|[_ ->]].
    - by exists 6.
    - apply next_power_of_two_ok. lia. }
  assert (Hle : next_power_of_two cap <= 16384).
  { change 16384 with (2 ^ 14). apply Z.pow_le_mono_r; [lia|].
    change 14 with (Z.log2_up 16384). apply Z.log2_up_le_mono. lia. }
  pose proof (next_power_of_two_ge cap ltac:(lia)).
  split_and!; [split|done|cbn; lia].
  - split; cbn; [done|lia|done|by rewrite length_replicate].
  - cbn. intros i Hi base. unfold off_get, ring_get.
    destruct (replicate _ _ !! _) eqn:E; [|done].
    apply lookup_replicate in E as [-> _]. done.
Qed.

(** (C5) Refinement of [insert], on every branch but one: on every well-formed buffer, an
    arriving packet has exactly the effect and the reported outcome of the queue
    specification (stale before the base, duplicate on a held packet, recovery of a gap,
    extension with one gap per skipped number, flush of the oldest cells when the ring is too
    short), the buffer stays well formed, and a new buffer is well formed and empty.  The
    one excluded branch is the jump of one to two rings after everything was drained
    ([jump_after_drain]), on which the code violates the specification, see
    [jump_after_drain_loses_packet]. *)
Theorem reorder_insert_refines (b : ReorderBuffer) (seq : Z) (data : bytes) (now bt cap : Z) :
  wf b → is_u16 seq → jump_after_drain b seq = false → 0 <= cap <= 16384 →
  (let r := insert b seq data now in
   let q := q_insert (ro_capacity b) (abs b) seq data now in
   wf r.1 ∧ abs r.1 = Some q.1 ∧ r.2 = q.2) ∧
  wf (with_capacity bt cap) ∧ abs (with_capacity bt cap) = None.
Proof.
  intros. split; [by apply insert_refines|]. by destruct (with_capacity_wf bt cap) as (?&?&?).
Qed.

Lemma reorder_insert_refines_witness :
  let b := with_capacity 1000 64 in
  let b1 := (insert b 65534 [1] 10).1 in
  abs b1 = Some (mkQueue 65534 [SFilled [1] 10]) ∧
  abs (insert b1 1 [2] 20).1 =
    Some (mkQueue 65534 [SFilled [1] 10; SGap 20; SGap 20; SFilled [2] 20]) ∧
  io_new_gaps (insert b1 1 [2] 20).2 = 2.
Proof.
  cbn zeta.
  assert (Hb : wf (with_capacity 1000 64)) by by apply with_capacity_wf.
  destruct (reorder_insert_refines (with_capacity 1000 64) 65534 [1] 10 1000 64 Hb
    ltac:(ulia) eq_refl ltac:(lia)) as [(Hw & Ha & Ho) _].
  destruct (reorder_insert_refines (insert (with_capacity 1000 64) 65534 [1] 10).1 1 [2] 20 1000 64 Hw
    ltac:(ulia) ltac:(vm_compute; reflexivity) ltac:(lia)) as [(Hw1 & Ha1 & Ho1) _].
  split; [|split].
  - rewrite Ha. reflexivity.
  - rewrite Ha1, Ha. vm_compute. reflexivity.
  - rewrite Ho1, Ha. vm_compute. reflexivity.
Defined.

(** The buffer at work: [n] cells leave, in sequence. *)
Lemma drain_fuel_S : ∃ f, drain_fuel = S f.
Proof. exists (Z.to_nat 65536). unfold drain_fuel. lia. Qed.

Lemma drain_ready_prefix b base cells now out :
  wf b → abs b = Some (mkQueue base cells) →
  ∃ b' n,
    drain_ready b now out =
      Some (b', out ++ imap (λ i c, cell_item (wrapping_add16 base (Z.of_nat i)) c) (take n cells)) ∧
    (n <= length cells)%nat ∧ wf b' ∧
    abs b' = Some (mkQueue (wrapping_add16 base (Z.of_nat n)) (drop n cells)) ∧
    Forall (λ c, cell_ready (ro_buffer_time b) now c = true) (take n cells) ∧
    (∀ c, cells !! n = Some c → cell_ready (ro_buffer_time b) now c = false).
Proof.
  intros Hwf Habs. pose proof Hwf as [[_ Hcr _ _] Hw]. pose proof Habs as Ha. unfold abs in Ha.
  destruct (ro_base_seq b) as [base'|], (ro_highest_seq b) as [h|]; try done.
  injection Ha as -> Hc. destruct Hw as [Hb _ Hr _ _].
  destruct (q_drain_prefix (ro_buffer_time b) now cells base Hb) as (n & Hn & E & Hall & Hnext).
  destruct (drain_loop_refines (length cells) drain_fuel b base cells now out)
    as (b' & Hd & Hwf' & Ha' & _); [done..| |].
  { rewrite <- Hc, win_cells_length. unfold drain_fuel. lia. }
  exists b', n. rewrite E in Hd, Ha'. by split_and!.
Qed.

(** (C6) Refinement of [drain_ready]: on a well-formed buffer the loop returns, having
    appended one item per cell of the longest prefix of the queue whose cells have all
    been held for [buffer_time] (the packet with its own sequence number, or [Lost] for
    a gap); the cells behind it are kept, and the first kept one is not due yet. *)
Theorem reorder_drain_refines (b : ReorderBuffer) (base : Z) (cells : list SlotState)
    (now : Z) (out : list DrainItem) :
  wf b → abs b = Some (mkQueue base cells) →
  ∃ b' n,
    drain_ready b now out =
      Some (b', out ++ imap (λ i c, cell_item (wrapping_add16 base (Z.of_nat i)) c) (take n cells)) ∧
    (n <= length cells)%nat ∧ wf b' ∧
    abs b' = Some (mkQueue (wrapping_add16 base (Z.of_nat n)) (drop n cells)) ∧
    Forall (λ c, cell_ready (ro_buffer_time b) now c = true) (take n cells) ∧
    (∀ c, cells !! n = Some c → cell_ready (ro_buffer_time b) now c = false).
Proof. apply drain_ready_prefix. Qed.

(** Two packets around a gap, held for 1000. *)
Definition demo_buffer : ReorderBuffer :=
  (insert (insert (with_capacity 1000 64) 65535 [1] 10).1 1 [2] 20).1.
Lemma demo_buffer_wf :
  wf demo_buffer ∧ abs demo_buffer = Some (mkQueue 65535 [SFilled [1] 10; SGap 20; SFilled [2] 20]).
Proof.
  unfold demo_buffer.
  destruct (insert_refines (with_capacity 1000 64) 65535 [1] 10) as (Hw & Ha & _);
    [by apply with_capacity_wf|ulia|done|].
  destruct (insert_refines (insert (with_capacity 1000 64) 65535 [1] 10).1 1 [2] 20)
    as (Hw1 & Ha1 & _); [done|ulia|by vm_compute|].
  split; [done|]. rewrite Ha1, Ha. by vm_compute.
Qed.

Lemma reorder_drain_refines_witness :
  ∃ b' n, drain_ready demo_buffer 1015 [] =
      Some (b', [] ++ imap (λ i c, cell_item (wrapping_add16 65535 (Z.of_nat i)) c)
        (take n [SFilled [1] 10; SGap 20; SFilled [2] 20])) ∧
    (n <= 3)%nat.
Proof.
  destruct (reorder_drain_refines demo_buffer 65535 [SFilled [1] 10; SGap 20; SFilled [2] 20] 1015 []
    (proj1 demo_buffer_wf) (proj2 demo_buffer_wf)) as (b' & n & H & Hn & _).
  exists b', n. split; [exact H|exact Hn].
Defined.

(** ** Constant fields, and the life of a gap *)

(** The hold time and the capacity never change. *)
Definition same_shape (b b' : ReorderBuffer) : Prop :=
  ro_buffer_time b' = ro_buffer_time b ∧ ro_capacity b' = ro_capacity b.

Lemma insert_shape b seq data now : same_shape b (insert b seq data now).1.
Proof.
  unfold same_shape, insert. destruct (ro_base_seq b), (ro_highest_seq b); try done.
  destruct (_ <? 0); [done|]. unfold insert_tail.
  destruct (_ <? as_u16 _); [destruct (_ || _); [done|destruct (flush_oldest _ _ _ _ _ _)]|];
    (destruct (_ && _); [done|]); (destruct (0 <? _); [|done]); by destruct (mark_gaps _ _ _ _ _ _ _ _).
Qed.

Lemma drain_shape fuel now : ∀ b out b' out',
  drain_loop fuel b now out = Some (b', out') → same_shape b b'.
Proof.
  induction fuel as [|fuel IH]; intros b out b' out'; cbn [drain_loop]; [done|].
  destruct (ro_base_seq b) as [base|], (ro_highest_seq b) as [h|]; try by intros [= <- _].
  destruct (0 <? _); [by intros [= <- _]|].
  destruct (sl_seq _ =? base); cbn [negb]; [|by intros ?%IH].
  destruct (sl_state _); [by intros [= <- _]|..];
    (destruct (_ <=? _); [by intros ?%IH|by intros [= <- _]]).
Qed.

Lemma wf_abs_range b base cells :
  wf b → abs b = Some (mkQueue base cells) →
  is_u16 base ∧ Z.of_nat (length cells) <= ro_capacity b ∧ 64 <= ro_capacity b <= 16384.
Proof.
  intros [[_ Hcr _ _] Hw]. unfold abs. destruct (ro_base_seq b), (ro_highest_seq b); try done.
  intros [= -> <-]. destruct Hw. rewrite win_cells_length. split_and!; [done|lia..].
Qed.

Lemma window_not_drained b base c cells seq :
  abs b = Some (mkQueue base (c :: cells)) → jump_after_drain b seq = false.
Proof.
  unfold abs, jump_after_drain. destruct (ro_base_seq b), (ro_highest_seq b); try done.
  intros [= -> Hc]. apply (f_equal length) in Hc. rewrite win_cells_length in Hc. cbn in Hc.
  by rewrite (proj2 (Z.eqb_neq _ 0)) by lia.
Qed.

(** A packet for an open gap is a recovery and takes the gap's place. *)
Lemma insert_fills_gap b base cells i t0 data now :
  wf b → abs b = Some (mkQueue base cells) → cells !! i = Some (SGap t0) →
  let q := wrapping_add16 base (Z.of_nat i) in
  let r := insert b q data now in
  wf r.1 ∧ abs r.1 = Some (mkQueue base (<[i := SFilled data now]> cells)) ∧
  r.2 = mkInsertOutcome false false true 0 0.
Proof.
  intros Hwf Ha Hi. cbn zeta. set (q := wrapping_add16 base (Z.of_nat i)).
  pose proof (wf_abs_range b base cells Hwf Ha) as (Hb & Hl & Hcr).
  pose proof (lookup_lt_Some _ _ _ Hi) as Hlt.
  assert (Eq : as_i16 (wrapping_sub16 q base) = Z.of_nat i) by (subst q; clear -Hb Hl Hcr Hlt; ulia).
  assert (Hj : jump_after_drain b q = false) by (destruct cells; [done|by eapply window_not_drained]).
  destruct (insert_refines b q data now Hwf ltac:(subst q; auto with rist) Hj) as (Hw & Haq & Ho).
  split; [done|]. rewrite Haq, Ho, Ha. unfold q_insert. rewrite Eq.
  rewrite (proj2 (Z.ltb_ge _ 0)), (proj2 (Z.ltb_lt _ _)) by lia.
  unfold q_place. by rewrite Nat2Z.id, Hi.
Qed.

(** Once every cell up to [i] is due, cell [i] is among the drained items. *)
Lemma drain_reaches b base cells i c now :
  wf b → abs b = Some (mkQueue base cells) → cells !! i = Some c →
  (∀ j c', (j <= i)%nat → cells !! j = Some c' → cell_ready (ro_buffer_time b) now c' = true) →
  ∃ b' items, drain_ready b now [] = Some (b', items) ∧
    cell_item (wrapping_add16 base (Z.of_nat i)) c ∈ items.
Proof.
  intros Hwf Ha Hi Hr. destruct (drain_ready_prefix b base cells now [] Hwf Ha) as (b' & n & E & Hn & _ & _ & _ & Hx).
  eexists _, _. split; [exact E|]. cbn [app].
  destruct (decide (i < n)%nat) as [Hlt|Hge].
  - apply list_elem_of_lookup. exists i. rewrite list_lookup_imap, lookup_take_lt, Hi by done. done.
  - exfalso. destruct (lookup_lt_is_Some_2 cells n) as [c' Hc']; [apply lookup_lt_Some in Hi; lia|].
    specialize (Hx c' Hc'). rewrite (Hr n c') in Hx; [done|lia|done].
Qed.

(** ** Termination *)

Lemma drain_loop_total n : ∀ fuel b now out,
  (∀ base h, ro_base_seq b = Some base → ro_highest_seq b = Some h →
     as_i16 (wrapping_sub16 base h) <= 0 → - as_i16 (wrapping_sub16 base h) < Z.of_nat n) →
  (n < fuel)%nat → is_Some (drain_loop fuel b now out).
Proof.
  induction n as [|n IH]; intros [|fuel] b now out Hm Hf; try lia; cbn [drain_loop];
    destruct (ro_base_seq b) as [base|] eqn:Eb, (ro_highest_seq b) as [h|] eqn:Eh; try by eexists.
  - specialize (Hm _ _ eq_refl eq_refl). destruct (Z.ltb_spec 0 (as_i16 (wrapping_sub16 base h))); [by eexists|lia].
  - destruct (Z.ltb_spec 0 (as_i16 (wrapping_sub16 base h))); [by eexists|].
    assert (Hgo : ∀ slots out', is_Some (drain_loop fuel
      (set_ring b slots (Some (wrapping_add16 base 1)) (Some h)) now out')).
    { intros slots out'. apply IH; [|lia]. cbn. intros ? ? [= <-] [= <-].
      specialize (Hm _ _ eq_refl eq_refl). clear -Hm H. ulia. }
    destruct (_ =? base); cbn [negb]; [|apply Hgo].
    destruct (sl_state _); [by eexists|..]; destruct (_ <=? _); first [apply Hgo | by eexists].
Qed.

Lemma drain_ready_returns (b : ReorderBuffer) (now : Z) (out : list DrainItem) :
  is_Some (drain_ready b now out).
Proof.
  apply (drain_loop_total (Z.to_nat 32769)); [|unfold drain_fuel; lia].
  intros base h _ _ _. pose proof (as_i16_range (wrapping_sub16 base h)). lia.
Qed.

(** (C27) The drain loop terminates from every buffer state, well formed or not: the
    65537 turns of fuel are never exhausted, because each turn that continues moves the
    base one step towards the highest sequence number seen. *)
Theorem drain_ready_terminates (b : ReorderBuffer) (now : Z) (out : list DrainItem) :
  is_Some (drain_ready b now out).
Proof. apply drain_ready_returns. Qed.

(** ** Runs of the buffer

    A run interleaves arrivals and drains.  Ghost state unwraps the sequence numbers:
    [t_base] is the index of the base in an unbounded numbering, an arriving packet gets
    the index at its signed distance from the base, [t_log] records every arrival with
    its index and [t_out] every drained item with the index of its cell. *)

Record trace := mkTrace {
  t_buf : ReorderBuffer;
  t_base : Z;
  t_log : list (Z * bytes * Z);
  t_out : list (Z * DrainItem)
}.

Definition arrival_index (b : ReorderBuffer) (B seq : Z) : Z :=
  match ro_base_seq b with Some base => B + as_i16 (wrapping_sub16 seq base) | None => seq end.
Definition moved_base (b b' : ReorderBuffer) (B seq : Z) : Z :=
  match ro_base_seq b, ro_base_seq b' with
  | Some base, Some base' => B + wrapping_sub16 base' base
  | _, _ => seq
  end.

Inductive trace_step : trace → trace → Prop :=
  | step_insert b B log out seq data now :
      is_u16 seq → jump_after_drain b seq = false →
      trace_step (mkTrace b B log out)
        (mkTrace (insert b seq data now).1 (moved_base b (insert b seq data now).1 B seq)
           ((arrival_index b B seq, data, now) :: log) out)
  | step_drain b B log out now b' items :
      drain_ready b now [] = Some (b', items) →
      trace_step (mkTrace b B log out)
        (mkTrace b' (B + Z.of_nat (length items)) log
           (out ++ imap (λ i it, (B + Z.of_nat i, it)) items)).

Definition trace_init (bt cap : Z) : trace := mkTrace (with_capacity bt cap) 0 [] [].

Record trace_ok (st : trace) : Prop := {
  tr_wf : wf (t_buf st);
  tr_fresh : ro_base_seq (t_buf st) = None → t_out st = [];
  tr_base : ∀ base, ro_base_seq (t_buf st) = Some base → base = as_u16 (t_base st);
  tr_cells : ∀ q i d t, abs (t_buf st) = Some q → q_cells q !! i = Some (SFilled d t) →
    (t_base st + Z.of_nat i, d, t) ∈ t_log st;
  tr_sorted : StronglySorted Z.lt (map fst (t_out st));
  tr_below : ∀ n, n ∈ map fst (t_out st) → n < t_base st;
  tr_auth : ∀ n d s t, (n, Delivered d s t) ∈ t_out st → s = as_u16 n ∧ (n, d, t) ∈ t_log st
}.

(** Where the filled cells of the queue after an insertion come from. *)
Lemma q_place_cells base cells off data now fl i d t :
  0 <= off → q_cells (q_place base cells off data now fl).1 !! i = Some (SFilled d t) →
  cells !! i = Some (SFilled d t) ∨ (Z.of_nat i = off ∧ d = data ∧ t = now).
Proof.
  intros Ho. unfold q_place.
  destruct (cells !! Z.to_nat off) as [[|t'|d' t']|] eqn:E; cbn; [| |by left|].
  1,2: rewrite list_lookup_insert_Some; intros [(<- & [= <- <-] & _)|[_ ?]]; [right; split_and!; done || lia|by left].
  apply lookup_ge_None in E. rewrite lookup_app_Some. intros [?|[Hi Hl]]; [by left|right].
  apply lookup_app_Some in Hl as [Hl|[Hr Hl]].
  - apply lookup_replicate in Hl as [? _]. done.
  - rewrite length_replicate in *. destruct (i - length cells - _)%nat eqn:Ei; [|done].
    cbn in Hl. simplify_eq. split_and!; [lia|done..].
Qed.

Lemma q_place_base base cells off data now fl :
  q_base (q_place base cells off data now fl).1 = base.
Proof. unfold q_place. by repeat case_match. Qed.

Lemma q_insert_cells cap base cells seq data now :
  64 <= cap <= 16384 → is_u16 base → is_u16 seq → Z.of_nat (length cells) <= cap →
  let q := (q_insert cap (Some (mkQueue base cells)) seq data now).1 in
  let a := wrapping_sub16 (q_base q) base in
  q_base q = wrapping_add16 base a ∧
  ∀ i d t, q_cells q !! i = Some (SFilled d t) →
    cells !! (Z.to_nat a + i)%nat = Some (SFilled d t) ∨
    (a + Z.of_nat i = as_i16 (wrapping_sub16 seq base) ∧ d = data ∧ t = now).
Proof.
  intros Hcap Hb Hs Hlen. unfold q_insert.
  assert (Hbb : wrapping_sub16 base base = 0) by ulia.
  assert (Hb0 : base = wrapping_add16 base 0) by (clear -Hb; ulia).
  assert (Hsb : seq = wrapping_add16 base (wrapping_sub16 seq base)) by (clear -Hs; ulia).
  assert (Hsi : 0 <= as_i16 (wrapping_sub16 seq base) →
    wrapping_sub16 seq base = as_i16 (wrapping_sub16 seq base)) by ulia.
  set (off := as_i16 (wrapping_sub16 seq base)) in *.
  assert (Hoff : off < 32768) by (subst off; ulia).
  destruct (Z.ltb_spec off 0).
  { cbn. rewrite Hbb. split; [done|]. intros. by left. }
  destruct (Z.ltb_spec off cap).
  { cbn zeta. rewrite q_place_base, Hbb. split; [done|]. intros i d t Hi.
    apply q_place_cells in Hi; [|done]. done. }
  cbn zeta. destruct (Z.leb_spec (Z.of_nat (length cells)) (off - (cap - 1))).
  { cbn. split; [done|]. intros i d t Hi. right. destruct i; [|done]. cbn in Hi.
    simplify_eq. split_and!; [|done..]. rewrite Hsi by done. lia. }
  rewrite q_place_base. set (adv := off - (cap - 1)) in *.
  assert (Hadv : 0 <= adv < 32768) by lia.
  assert (Ea : wrapping_sub16 (wrapping_add16 base adv) base = adv) by (clear -Hadv; clearbody adv; ulia).
  rewrite Ea. split; [done|]. intros i d t Hi. apply q_place_cells in Hi; [|lia].
  rewrite lookup_drop in Hi. destruct Hi as [?|(? & -> & ->)]; [by left|right].
  split_and!; [lia|done..].
Qed.

Lemma wf_abs b : wf b →
  match abs b with
  | Some q => ro_base_seq b = Some (q_base q) ∧ is_u16 (q_base q) ∧
              Z.of_nat (length (q_cells q)) <= ro_capacity b
  | None => ro_base_seq b = None
  end.
Proof.
  intros [[_ _ _ _] Hw]. unfold abs.
  destruct (ro_base_seq b), (ro_highest_seq b); try done.
  cbn. destruct Hw. rewrite win_cells_length. split_and!; [done..|lia].
Qed.

Lemma trace_insert_ok b B log out seq data now :
  trace_ok (mkTrace b B log out) → is_u16 seq → jump_after_drain b seq = false →
  trace_ok (mkTrace (insert b seq data now).1 (moved_base b (insert b seq data now).1 B seq)
    ((arrival_index b B seq, data, now) :: log) out).
Proof.
  intros [Hwf Hfr Hba Hce Hso Hbe Hau] Hs Hj; cbn in *.
  destruct (insert_refines b seq data now Hwf Hs Hj) as (Hwf' & Ha' & _).
  pose proof (wf_abs b Hwf) as Hq. pose proof (wf_abs _ Hwf') as Hq'. rewrite Ha' in Hq'.
  destruct Hq' as (Eb' & Hbu' & _).
  assert (Hauth : ∀ n d s t, (n, Delivered d s t) ∈ out →
    s = as_u16 n ∧ (n, d, t) ∈ (arrival_index b B seq, data, now) :: log).
  { intros n d s t Hi. destruct (Hau n d s t Hi). split; [done|]. by apply elem_of_cons; right. }
  unfold arrival_index, moved_base in *. rewrite Eb'.
  destruct (abs b) as [[base cells]|] eqn:Ea.
  - destruct Hq as (Eb & Hbu & Hlen). cbn [q_base q_cells] in *. rewrite Eb in *.
    pose proof (Hba base eq_refl) as HB. destruct Hwf as [[_ Hcr _ _] _].
    destruct (q_insert_cells (ro_capacity b) base cells seq data now Hcr Hbu Hs Hlen) as [Hnb Hcells].
    set (q := (q_insert (ro_capacity b) (Some (mkQueue base cells)) seq data now).1) in *.
    pose proof (wrapping_sub16_range (q_base q) base) as Hr.
    set (a := wrapping_sub16 (q_base q) base) in *.
    split; cbn [t_buf t_base t_log t_out]; try done.
    + by rewrite Eb'.
    + intros base'. rewrite Eb'. intros [= <-]. rewrite Hnb, HB. clear. ulia.
    + intros q' i d t. rewrite Ha'. intros [= <-] Hi.
      apply Hcells in Hi as [Hi|(Hi & -> & ->)]; apply elem_of_cons.
      * right. replace (B + a + Z.of_nat i) with (B + Z.of_nat (Z.to_nat a + i)) by (clearbody a; ulia).
        by apply (Hce _ _ _ _ eq_refl).
      * left. do 2 f_equal. lia.
    + intros n Hn. apply Hbe in Hn. clearbody a. ulia.
  - cbn in Ha', Eb'. rewrite Hq in *. split; cbn; try done.
    + by rewrite Eb'.
    + intros base'. rewrite Eb'. intros [= <-]. by rewrite as_u16_id.
    + intros q' i d t. rewrite Ha'. intros [= <-] Hi. apply elem_of_cons. left.
      destruct i; [|done]. cbn in Hi. simplify_eq. do 2 f_equal. lia.
    + rewrite Hfr by done. cbn. intros n Hn. by apply not_elem_of_nil in Hn.
Qed.

Lemma StronglySorted_app_lt (l l' : list Z) :
  StronglySorted Z.lt l → StronglySorted Z.lt l' → (∀ x y, x ∈ l → y ∈ l' → x < y) →
  StronglySorted Z.lt (l ++ l').
Proof.
  induction 1 as [|x l Hl IH Hx]; intros Hl' Hlt; [done|]. cbn. constructor.
  - apply IH; [done|]. intros. apply Hlt; [by apply elem_of_cons; right|done].
  - apply Forall_app. split; [done|]. apply Forall_forall. intros y Hy.
    apply Hlt; [by apply elem_of_cons; left|done].
Qed.

Lemma imap_index_sorted {A} (l : list A) : ∀ B,
  StronglySorted Z.lt (map fst (imap (λ i it, (B + Z.of_nat i, it)) l)) ∧
  ∀ n, n ∈ map fst (imap (λ i it, (B + Z.of_nat i, it)) l) → B <= n < B + Z.of_nat (length l).
Proof.
  induction l as [|x l IH]; intros B; cbn [length].
  - split; [constructor|]. intros n Hn. by apply not_elem_of_nil in Hn.
  - rewrite imap_cons. cbn [map fst].
    replace (imap ((λ i it, (B + Z.of_nat i, it)) ∘ S) l)
      with (imap (λ i it, (B + 1 + Z.of_nat i, it)) l)
      by (apply imap_ext; intros; cbn [compose]; f_equal; lia).
    destruct (IH (B + 1)) as [Hs Hb]. split.
    + constructor; [done|]. apply Forall_forall. intros n Hn. apply Hb in Hn. lia.
    + intros n [->|Hn]%elem_of_cons; [lia|]. apply Hb in Hn. lia.
Qed.

Lemma trace_drain_ok b B log out now b' items :
  trace_ok (mkTrace b B log out) → drain_ready b now [] = Some (b', items) →
  trace_ok (mkTrace b' (B + Z.of_nat (length items)) log
    (out ++ imap (λ i it, (B + Z.of_nat i, it)) items)).
Proof.
  intros [Hwf Hfr Hba Hce Hso Hbe Hau] Hd; cbn in *.
  pose proof (wf_abs b Hwf) as Hq. destruct (abs b) as [[base cells]|] eqn:Ea; cbn [q_base q_cells] in *.
  - destruct Hq as (Eb & Hbu & _). specialize (Hba _ Eb).
    destruct (drain_ready_prefix b base cells now [] Hwf Ea)
      as (b'' & n & Hd' & Hn & Hwf' & Ha' & _ & _).
    rewrite Hd in Hd'. cbn [app] in Hd'. injection Hd' as <- Hit.
    assert (Hlen : length items = n) by (rewrite Hit, length_imap, length_take; lia).
    pose proof (wf_abs b' Hwf') as Hq'. rewrite Ha' in Hq'. destruct Hq' as (Eb' & _ & _).
    destruct (imap_index_sorted items B) as [Hs Hr].
    split; cbn [t_buf t_base t_log t_out]; try done.
    + by rewrite Eb'.
    + intros base'. rewrite Eb'. intros [= <-]. cbn [q_base]. rewrite Hba, Hlen. clear. ulia.
    + intros q i d t. rewrite Ha'. intros [= <-] Hi. cbn [q_cells] in Hi.
      rewrite lookup_drop in Hi. apply (Hce _ _ _ _ eq_refl) in Hi.
      by replace (B + Z.of_nat (length items) + Z.of_nat i) with (B + Z.of_nat (n + i)) by lia.
    + rewrite map_app. apply StronglySorted_app_lt; [done..|].
      intros x y Hx%Hbe Hy%Hr. lia.
    + rewrite map_app. intros m [Hm%Hbe|Hm%Hr]%elem_of_app; lia.
    + intros m d s t [Hi|Hi]%elem_of_app; [by apply Hau|].
      apply list_elem_of_lookup in Hi as [i Hi].
      rewrite Hit in Hi. rewrite !list_lookup_imap in Hi.
      destruct (take n cells !! i) as [c|] eqn:Ec; [|done]. cbn in Hi. simplify_eq.
      apply lookup_take_Some in Ec as [Ec _].
      destruct c; simplify_eq/=. split; [clear; ulia|].
      by apply (Hce _ _ _ _ eq_refl) in Ec.
  - assert (Hb' : b' = b ∧ items = []).
    { revert Hd. unfold drain_ready. destruct drain_fuel_S as [f ->]. cbn [drain_loop]. rewrite Hq. by intros [= <- <-]. }
    destruct Hb' as [-> ->]. cbn. rewrite app_nil_r, Z.add_0_r. split; cbn; try done. by rewrite Ea.
Qed.

Lemma trace_reachable bt cap st :
  0 <= cap <= 16384 → rtc trace_step (trace_init bt cap) st → trace_ok st.
Proof.
  intros Hcap. destruct (with_capacity_wf bt cap Hcap) as (Hwf & Ha & _).
  assert (H0 : trace_ok (trace_init bt cap)).
  { split; cbn [trace_init t_buf t_base t_log t_out]; try done; [constructor| |].
    - intros n Hn. by apply not_elem_of_nil in Hn.
    - intros ? ? ? ? Hn. by apply not_elem_of_nil in Hn. }
  intros Hst. revert H0. induction Hst as [|x y z Hxy _ IH]; [done|]. intros Hx. apply IH.
  destruct Hxy; [by apply trace_insert_ok | by eapply trace_drain_ok].
Qed.

(** Ordered, authentic delivery over every run without the jump of [jump_after_drain]: from a
    fresh buffer, through any such interleaving of arrivals and drains, the items drained so far have strictly
    increasing unwrapped indices (so nothing is delivered twice or out of order, across
    wrap-around too), and each delivered packet carries the sequence number of its index
    and the payload and arrival time of a packet that arrived with that index. *)
Theorem reorder_delivers_in_order (bt cap : Z) (st : trace) :
  0 <= cap <= 16384 → rtc trace_step (trace_init bt cap) st →
  StronglySorted Z.lt (map fst (t_out st)) ∧
  ∀ n d s t, (n, Delivered d s t) ∈ t_out st → s = as_u16 n ∧ (n, d, t) ∈ t_log st.
Proof. intros Hcap Hst. destruct (trace_reachable bt cap st Hcap Hst). by split. Qed.

Lemma reorder_delivers_in_order_witness :
  ∃ st, rtc trace_step (trace_init 1000 64) st ∧
    t_out st = [(65535, Delivered [1] 65535 10); (65536, Lost); (65537, Delivered [2] 1 20)] ∧
    StronglySorted Z.lt (map fst (t_out st)).
Proof.
  eexists. match goal with |- ?P ∧ ?Q ∧ ?R => assert (HP : P) end.
  { eapply rtc_l.
    { apply (step_insert _ _ _ _ 65535 [1] 10); [ulia|vm_compute; reflexivity]. }
    eapply rtc_l.
    { apply (step_insert _ _ _ _ 1 [2] 20); [ulia|vm_compute; reflexivity]. }
    eapply rtc_l.
    { eapply (step_drain _ _ _ _ 2000). vm_compute. reflexivity. }
    apply rtc_refl. }
  split; [exact HP|]. split; [vm_compute; reflexivity|].
  apply (reorder_delivers_in_order 1000 64 _ ltac:(lia) HP).
Defined.

(** ** The drain deadline *)

Lemma next_drain_time_head b base c cells clock :
  wf b → abs b = Some (mkQueue base (c :: cells)) →
  next_drain_time b clock =
    match c with
    | SFilled _ t | SGap t => Some (t + ro_buffer_time b)
    | SEmpty => None
    end ∧ c ≠ SEmpty.
Proof.
  intros [[Hc Hcr Hm Hl] Hw] Ha. unfold abs, next_drain_time in *.
  destruct (ro_base_seq b) as [base'|], (ro_highest_seq b) as [h|]; try done.
  injection Ha as -> Hcells. destruct Hw as [Hb Hh Hr Hin Hout].
  pose proof (f_equal length Hcells) as Hlen. rewrite win_cells_length in Hlen. cbn in Hlen.
  assert (Hc0 : sl_state (oget (ro_capacity b) (ro_slots b) base 0) = c).
  { pose proof (win_cells_lookup (ro_capacity b) (ro_slots b) base (win_len base h) 0 ltac:(lia)) as E.
    rewrite Hcells in E. by injection E. }
  destruct (Hin 0) as [Hs Hne]; [lia|]. rewrite Hc0 in Hne. split; [|done].
  cbn [mbind option_bind]. rewrite Hm, ring_idx_base by done.
  change (slot_at (ro_slots b) (off_idx (ro_capacity b) base 0))
    with (oget (ro_capacity b) (ro_slots b) base 0).
  rewrite Hs, Hc0. rewrite (proj2 (Z.eqb_eq _ _)) by (clear -Hb; ulia). cbn [negb].
  by destruct c.
Qed.

(** The drain deadline is exact while the window is not empty: [next_drain_time]
    gives an instant, before it [drain_ready] leaves the buffer untouched and produces
    nothing, and from it on [drain_ready] produces at least one item. *)
Theorem next_drain_time_exact (b : ReorderBuffer) (base : Z) (c : SlotState)
    (cells : list SlotState) (clock now : Z) :
  wf b → 0 < ro_buffer_time b → abs b = Some (mkQueue base (c :: cells)) →
  ∃ deadline, next_drain_time b clock = Some deadline ∧
    (now < deadline → ∃ b', drain_ready b now [] = Some (b', []) ∧ abs b' = abs b) ∧
    (deadline <= now → ∃ b' it items, drain_ready b now [] = Some (b', it :: items)).
Proof.
  intros Hwf Hbt Ha. destruct (next_drain_time_head b base c cells clock Hwf Ha) as [Hnd Hne].
  destruct (drain_ready_prefix b base (c :: cells) now [] Hwf Ha)
    as (b' & n & Hd & Hn & _ & Ha' & Hall & Hnext).
  assert (Hbu : is_u16 base).
  { pose proof (wf_abs b Hwf) as Hq. rewrite Ha in Hq. by destruct Hq as (_ & ? & _). }
  assert (Hready : ∃ t, next_drain_time b clock = Some (t + ro_buffer_time b) ∧
    (cell_ready (ro_buffer_time b) now c = true ↔ t + ro_buffer_time b <= now)).
  { rewrite Hnd. unfold cell_ready, saturating_duration_since.
    destruct c as [|t|d t]; [done|..]; exists t; rewrite Z.leb_le; split; done || lia. }
  destruct Hready as (t & Ht & Hr). exists (t + ro_buffer_time b). split; [done|].
  destruct n as [|n]; cbn [take drop] in *.
  - assert (Hno : cell_ready (ro_buffer_time b) now c = false) by by apply Hnext.
    split; [|intros Hle%Hr; congruence]. intros _. exists b'. split; [done|].
    rewrite Ha', Ha. do 2 f_equal. clear -Hbu. ulia.
  - apply Forall_cons in Hall as [Hrd _]. split; [intros; apply Hr in Hrd; lia|].
    intros _. rewrite imap_cons in Hd. by eexists _, _, _.
Qed.

Lemma next_drain_time_exact_witness :
  ∃ deadline, next_drain_time demo_buffer 0 = Some deadline ∧ deadline = 1010 ∧
    (deadline <= 1010 → ∃ b' it items, drain_ready demo_buffer 1010 [] = Some (b', it :: items)).
Proof.
  destruct (next_drain_time_exact demo_buffer 65535 (SFilled [1] 10) [SGap 20; SFilled [2] 20] 0 1010
    (proj1 demo_buffer_wf) ltac:(reflexivity) (proj2 demo_buffer_wf)) as (d & Hd & _ & H).
  exists d. split; [exact Hd|]. split; [|exact H].
  vm_compute in Hd. injection Hd as Hd. congruence.
Defined.

(** (C34) The deadline of a fully drained buffer, exactly: [next_drain_time] answers the current
    instant, whatever the clock, unless the empty slot under the base happens to be marked with
    the base's own number (as when a stream that starts at 65535 is drained: base 0, and an
    untouched slot is marked 0), when it answers that there is no deadline; and draining
    produces nothing and does not change the answer.  So apart from that coincidence a
    caller that sleeps until the deadline spins; the documentation promises the earliest
    time at which output is produced, if such a deadline exists. *)
Theorem drained_buffer_deadline_is_now (b : ReorderBuffer) (base clock now : Z) :
  wf b → abs b = Some (mkQueue base []) →
  let under := slot_at (ro_slots b) (ring_idx (ro_mask b) base) in
  next_drain_time b clock = (if sl_seq under =? base then None else Some clock) ∧
  ∃ b', drain_ready b now [] = Some (b', []) ∧ abs b' = abs b ∧ next_drain_time b' clock = next_drain_time b clock.
Proof.
  intros Hwf Ha under. pose proof Hwf as [[Hcap Hcr Hmask _] Hwin].
  pose proof (wf_abs b Hwf) as Hq. rewrite Ha in Hq. destruct Hq as (Eb & Hbu & _). cbn in Eb, Hbu.
  assert (Hlen : ∃ h, ro_highest_seq b = Some h ∧ win_len base h = 0).
  { unfold abs in Ha. rewrite Eb in Ha, Hwin. destruct (ro_highest_seq b) as [h|]; [|done]. exists h. split; [done|].
    injection Ha as Ha. apply (f_equal length) in Ha. rewrite win_cells_length in Ha. cbn in Ha.
    destruct Hwin as [_ _ Hr _ _]. lia. }
  destruct Hlen as (h & Eh & H0).
  assert (Hemp : sl_state under = SEmpty).
  { rewrite Eb, Eh in Hwin. pose proof (win_out _ _ _ _ Hwin 0 ltac:(lia)) as Ho. subst under.
    rewrite Hmask, ring_idx_base by exact Hcap. exact Ho. }
  split.
  - unfold next_drain_time. rewrite Eb. cbn [mbind option_bind]. fold under. rewrite Hemp. by destruct (sl_seq under =? base).
  - exists b. split_and!; [|done..]. unfold drain_ready. destruct drain_fuel_S as [f ->]. cbn [drain_loop]. rewrite Eb, Eh.
    rewrite (proj2 (Z.ltb_lt _ _)); [done|]. rewrite Eb, Eh in Hwin. destruct Hwin as [_ Hhu _ _ _].
    unfold win_len in H0. clear -H0 Hbu Hhu. ulia.
Qed.

(** A stream of one packet, drained. *)
Lemma single_drained seq :
  is_u16 seq →
  ∃ b, drain_ready (insert (with_capacity 1000 64) seq [1] 10).1 1010 [] = Some (b, [Delivered [1] seq 10]) ∧
    wf b ∧ abs b = Some (mkQueue (wrapping_add16 seq 1) []).
Proof.
  intros Hs. destruct (insert_refines (with_capacity 1000 64) seq [1] 10) as (Hw & Ha & _);
    [apply with_capacity_wf; lia|done|reflexivity|].
  assert (Ebt : ro_buffer_time (insert (with_capacity 1000 64) seq [1] 10).1 = 1000) by (apply insert_shape).
  destruct (drain_ready_prefix _ seq [SFilled [1] 10] 1010 [] Hw Ha) as (b & n & Hd & Hn & Hwf & Hab & _ & Hnext).
  destruct n as [|[|n]]; [|exists b|cbn in Hn; lia].
  - specialize (Hnext _ eq_refl). rewrite Ebt in Hnext. discriminate Hnext.
  - split; [|by split]. rewrite Hd. cbn. do 4 f_equal. clear -Hs. ulia.
Qed.

(** A stream that starts at 5, and one that starts at 65535. *)
Lemma drained_buffer_deadline_is_now_witness :
  ∃ b b', drain_ready (insert (with_capacity 1000 64) 5 [1] 10).1 1010 [] = Some (b, [Delivered [1] 5 10]) ∧
    next_drain_time b 2000 = Some 2000 ∧ next_drain_time b 9000 = Some 9000 ∧
    drain_ready (insert (with_capacity 1000 64) 65535 [1] 10).1 1010 [] = Some (b', [Delivered [1] 65535 10]) ∧
    next_drain_time b' 2000 = None.
Proof.
  destruct (single_drained 5 ltac:(ulia)) as (b & Hd & Hwf & Hab).
  destruct (single_drained 65535 ltac:(ulia)) as (b' & Hd' & Hwf' & Hab').
  exists b, b'.
  assert (E : (sl_seq (slot_at (ro_slots b) (ring_idx (ro_mask b) 6)) =? 6) = false).
  { vm_compute in Hd. injection Hd as Hd. rewrite <- Hd. vm_compute. reflexivity. }
  assert (E' : (sl_seq (slot_at (ro_slots b') (ring_idx (ro_mask b') 0)) =? 0) = true).
  { vm_compute in Hd'. injection Hd' as Hd'. rewrite <- Hd'. vm_compute. reflexivity. }
  split; [exact Hd|]. split; [|split; [|split; [exact Hd'|]]].
  - rewrite (proj1 (drained_buffer_deadline_is_now b 6 2000 0 Hwf Hab)). change (wrapping_add16 5 1) with 6 in *. rewrite E. reflexivity.
  - rewrite (proj1 (drained_buffer_deadline_is_now b 6 9000 0 Hwf Hab)). rewrite E. reflexivity.
  - rewrite (proj1 (drained_buffer_deadline_is_now b' 0 2000 0 Hwf' Hab')). rewrite E'. reflexivity.
Defined.

(** ** The jump that loses a packet *)

(** Every packet in the ring satisfies [Q] at its index. *)
Definition filled_at (Q : nat → Slot → Prop) (slots : list Slot) : Prop :=
  ∀ n s, slots !! n = Some s → is_filled s = true → Q n s.

Lemma filled_at_insert Q slots i s :
  filled_at Q slots → is_filled s = false → filled_at Q (<[i := s]> slots).
Proof.
  intros H Hs n s' [(-> & -> & _)|[_ Hl]]%list_lookup_insert_Some Hf; [congruence|by apply H].
Qed.

Lemma mark_gaps_filled_at Q mask h seq now n : ∀ i slots g,
  filled_at Q slots → filled_at Q (mark_gaps mask h seq now i n slots g).1.
Proof.
  induction n as [|n IH]; intros i slots g H; cbn [mark_gaps]; [done|].
  destruct (_ =? seq); [by apply IH|]. destruct (_ || _); [|by apply IH].
  by apply IH, filled_at_insert.
Qed.

Lemma flush_oldest_filled_at Q mask base n : ∀ i slots f,
  filled_at Q slots → filled_at Q (flush_oldest mask base i n slots f).1.
Proof.
  induction n as [|n IH]; intros i slots f H; cbn [flush_oldest]; [done|].
  by apply IH, filled_at_insert.
Qed.

Lemma flush_oldest_none mask base n : ∀ i slots f,
  filled_at (λ _ _, False) slots → (flush_oldest mask base i n slots f).2 = f.
Proof.
  induction n as [|n IH]; intros i slots f H; cbn [flush_oldest]; [done|].
  rewrite IH by by apply filled_at_insert.
  unfold slot_at, ring_get. destruct (slots !! _) as [s|] eqn:E; cbn [from_option id].
  - destruct (is_filled s) eqn:Ef; [by apply H in E|]. by rewrite andb_false_r.
  - by rewrite andb_false_r.
Qed.

Lemma mark_gaps_add mask h seq now n1 n2 : ∀ i slots g,
  mark_gaps mask h seq now i (n1 + n2) slots g =
  let '(slots', g') := mark_gaps mask h seq now i n1 slots g in
  mark_gaps mask h seq now (i + Z.of_nat n1) n2 slots' g'.
Proof.
  induction n1 as [|n1 IH]; intros i slots g.
  - cbn. f_equal. lia.
  - replace (i + Z.of_nat (S n1)) with (i + 1 + Z.of_nat n1) by lia.
    cbn [Nat.add mark_gaps]. destruct (_ =? seq); [apply IH|]. destruct (_ || _); apply IH.
Qed.

(** A pass that meets another sequence number of the packet's slot overwrites it. *)
Lemma mark_gaps_overwrites mask h seq now n1 n2 i slots g :
  filled_at (λ n s, n = ring_idx mask seq ∧ sl_seq s = seq) slots →
  wrapping_add16 h (i + Z.of_nat n1) ≠ seq →
  ring_idx mask (wrapping_add16 h (i + Z.of_nat n1)) = ring_idx mask seq →
  filled_at (λ _ _, False) (mark_gaps mask h seq now i (n1 + S n2) slots g).1.
Proof.
  intros H Hne Hidx. rewrite mark_gaps_add.
  pose proof (mark_gaps_filled_at _ mask h seq now n1 i slots g H) as H1.
  destruct (mark_gaps mask h seq now i n1 slots g) as [slots1 g1]. cbn [fst] in H1.
  cbn [mark_gaps]. rewrite (proj2 (Z.eqb_neq _ _)), Hidx by done.
  unfold slot_at, ring_get. destruct (slots1 !! ring_idx mask seq) as [s|] eqn:Es; cbn [from_option id].
  - destruct (is_empty s || negb (sl_seq s =? _)) eqn:Eo.
    + apply mark_gaps_filled_at. intros n s' [(<- & <- & _)|[Hn Hl]]%list_lookup_insert_Some Hf; [done|].
      by destruct (H1 _ _ Hl Hf) as [-> _].
    + apply orb_false_iff in Eo as [_ Eo%negb_false_iff%Z.eqb_eq].
      apply mark_gaps_filled_at. intros n s' Hl Hf. destruct (H1 _ _ Hl Hf) as [-> Hs].
      rewrite Hl in Es. injection Es as ->. congruence.
  - cbn. apply mark_gaps_filled_at. rewrite list_insert_ge by by apply lookup_ge_None.
    intros n s' Hl Hf. destruct (H1 _ _ Hl Hf) as [-> _]. congruence.
Qed.

Lemma drained_no_packets cap slots b h :
  cap_ok cap → length slots = Z.to_nat cap → win_ok cap slots b h → win_len b h = 0 →
  filled_at (λ _ _, False) slots.
Proof.
  intros Hc Hl [_ _ _ _ Hout] H0 n s Hn Hf.
  destruct (off_idx_surj cap b n Hc) as (i & Hi & <-).
  { apply lookup_lt_Some in Hn. lia. }
  specialize (Hout i ltac:(lia)). unfold off_get, ring_get in Hout. rewrite Hn in Hout. cbn in Hout.
  unfold is_filled in Hf. by rewrite Hout in Hf.
Qed.

(** (C33) A packet is silently lost after a drain: when everything has been drained and
    the next packet is at least one ring but less than two rings ahead of the base,
    [insert] takes the minimal flush (its test for an obsolete window is defeated by the
    wrapped offset 65535), stores the packet, and then overwrites it while it marks the
    numbers below it as gaps.  The reported outcome is an accepted packet, and the ring
    holds no packet at all. *)
Theorem jump_after_drain_loses_packet (b : ReorderBuffer) (seq : Z) (data : bytes) (now : Z) :
  wf b → is_u16 seq → jump_after_drain b seq = true →
  let r := insert b seq data now in
  Forall (λ s, is_filled s = false) (ro_slots r.1) ∧
  io_stale r.2 = false ∧ io_duplicate r.2 = false ∧ io_overflow_flushed r.2 = 0.
Proof.
  intros [Hring Hw] Hseq Hj. pose proof Hring as [Hc Hcr Hm Hl]. unfold jump_after_drain in *.
  destruct (ro_base_seq b) as [base|] eqn:Eb, (ro_highest_seq b) as [h|] eqn:Eh; try done.
  cbn zeta. rewrite !andb_true_iff, Z.eqb_eq, Z.leb_le, Z.ltb_lt in Hj. destruct Hj as [[H0 Hlo] Hhi].
  rewrite (insert_overflow_unfold b base h) by done.
  pose proof (drained_no_packets _ _ _ _ Hc Hl Hw H0) as Hnone.
  pose proof Hw as [Hb Hh _ _ _].
  assert (Es : seq = wrapping_add16 base (as_i16 (wrapping_sub16 seq base))) by by apply seq_offset.
  assert (Eh1 : h = wrapping_sub16 base 1) by (unfold win_len in *; clear -H0 Hb Hh; ulia).
  set (off := as_i16 (wrapping_sub16 seq base)) in *.
  assert (Hoff : off < 32767) by lia. clearbody off.
  assert (Eho : wrapping_sub16 h base = 65535) by (rewrite Eh1; clear -Hb; ulia).
  rewrite Eho, (proj2 (Z.leb_gt (ro_capacity b) _)), (proj2 (Z.ltb_ge 65535 _)) by lia. cbn [orb].
  pose proof (flush_oldest_filled_at _ (ro_mask b) base (Z.to_nat (off - (ro_capacity b - 1))) 0
    (ro_slots b) 0 Hnone) as Hfl.
  pose proof (flush_oldest_none (ro_mask b) base (Z.to_nat (off - (ro_capacity b - 1))) 0
    (ro_slots b) 0 Hnone) as Hf0.
  destruct (flush_oldest _ _ _ _ _ _) as [slots fl]. cbn [fst snd] in Hfl, Hf0. subst fl.
  unfold insert_tail. cbn [set_ring ro_slots ro_mask ro_base_seq].
  replace ((sl_seq (slot_at slots (ring_idx (ro_mask b) seq)) =? seq) &&
           is_filled (slot_at slots (ring_idx (ro_mask b) seq))) with false.
  2:{ unfold slot_at, ring_get. destruct (slots !! _) as [s|] eqn:E; cbn [from_option id]; [|by rewrite andb_false_r].
      destruct (is_filled s) eqn:Ef; [by apply Hfl in E|]. by rewrite andb_false_r. }
  assert (Ed : as_i16 (wrapping_sub16 seq h) = off + 1) by (rewrite Es, Eh1; clear -Hoff Hlo Hcr; ulia).
  rewrite Ed, (proj2 (Z.ltb_lt 0 _)) by lia.
  pose proof (mark_gaps_overwrites (ro_mask b) h seq now (Z.to_nat (off - ro_capacity b))
    (Z.to_nat (ro_capacity b)) 1 (<[ring_idx (ro_mask b) seq := mkSlot seq (SFilled data now)]> slots) 0)
    as Hlost.
  replace (Z.to_nat (off - ro_capacity b) + S (Z.to_nat (ro_capacity b)))%nat
    with (Z.to_nat (off + 1)) in Hlost by lia.
  assert (Egap : wrapping_add16 h (1 + Z.of_nat (Z.to_nat (off - ro_capacity b))) =
    wrapping_add16 base (off - ro_capacity b)).
  { rewrite Z2Nat.id, Eh1 by lia. clear. ulia. }
  destruct (mark_gaps _ _ _ _ _ _ _ _) as [slots' gaps]. cbn [fst snd set_ring ro_slots] in *.
  split; [|done]. apply Forall_lookup_2. intros n s Hn. destruct (is_filled s) eqn:Ef; [|done].
  exfalso. refine (Hlost _ _ _ n s Hn Ef).
  - intros k s' [(<- & <- & _)|[_ Hk]]%list_lookup_insert_Some Hf; [done|by apply Hfl in Hk].
  - rewrite Egap, Es. clear -Hcr. ulia.
  - rewrite Egap, Es, Hm. rewrite !ring_idx_off by done.
    rewrite <- (off_idx_wrap _ _ (off - _)). f_equal. lia.
Qed.

Lemma jump_after_drain_loses_packet_witness :
  ∃ b, drain_ready (insert (with_capacity 1000 64) 5 [1] 10).1 1010 [] = Some (b, [Delivered [1] 5 10]) ∧
    Forall (λ s, is_filled s = false) (ro_slots (insert b 106 [2] 1020).1).
Proof.
  destruct (insert_refines (with_capacity 1000 64) 5 [1] 10) as (Hw & Ha & _);
    [apply with_capacity_wf; lia|ulia|reflexivity|].
  destruct (drain_ready_prefix _ 5 [SFilled [1] 10] 1010 [] Hw Ha) as (b & n & Hd & Hn & Hwf & Hab & _).
  assert (n = 1%nat) as ->.
  { destruct n as [|[|n]]; [exfalso|reflexivity|cbn in Hn; lia].
    vm_compute in Hd. discriminate Hd. }
  exists b. split; [exact Hd|].
  apply (jump_after_drain_loses_packet b 106 [2] 1020 Hwf); [ulia|].
  vm_compute in Hd. injection Hd as Hd. rewrite <- Hd. vm_compute. reflexivity.
Defined.
