(* ===== verification/Retransmit.v ===== *)
(** * The sender's retransmit buffer (rist-protocol/src/protocol/nack_tracker.rs)

    A ring of optional slots that remembers recently sent packets.  [RetransmitStore] is
    what the sender relies on; the ring is an instance of it. *)

From S2P Require Import Prelude Ring.

Record RetransmitSlot := mkRetransmitSlot { rs_seq : Z; rs_data : bytes }.

Record RetransmitBuffer := mkRetransmitBuffer {
  rt_slots : list (option RetransmitSlot);
  rt_capacity : Z
}.

Definition RetransmitBuffer_new (capacity : Z) : RetransmitBuffer :=
  let capacity := next_power_of_two capacity in
  mkRetransmitBuffer (replicate (Z.to_nat capacity) None) capacity.

Definition RetransmitBuffer_insert (self : RetransmitBuffer) (seq : Z) (data : bytes)
    : RetransmitBuffer :=
  let idx := ring_idx (rt_capacity self - 1) seq in
  mkRetransmitBuffer (<[idx := Some (mkRetransmitSlot seq data)]> (rt_slots self)) (rt_capacity self).

Definition RetransmitBuffer_get (self : RetransmitBuffer) (seq : Z) : option bytes :=
  match ring_get None (rt_slots self) (ring_idx (rt_capacity self - 1) seq) with
  | Some slot => if rs_seq slot =? seq then Some (rs_data slot) else None
  | None => None
  end.

Definition RetransmitBuffer_capacity (self : RetransmitBuffer) : Z := rt_capacity self.

(** ** What the sender relies on *)

Class RetransmitStore (S : Type) := {
  store_ok : S → Prop;
  store_insert : S → Z → bytes → S;
  store_get : S → Z → option bytes
}.

(** A stored packet can be read back at once; reading never invents or mixes up packets. *)
Class RetransmitStoreLaws (S : Type) `{!RetransmitStore S} := {
  store_insert_ok (s : S) seq d : store_ok s → store_ok (store_insert s seq d);
  store_get_insert (s : S) seq d : store_ok s → store_get (store_insert s seq d) seq = Some d;
  store_get_old (s : S) seq d seq' d' : store_ok s → seq' ≠ seq →
    store_get (store_insert s seq d) seq' = Some d' → store_get s seq' = Some d'
}.

(** ** The ring *)

(** Any power of two (a capacity above 2^16 leaves slots unused). *)
Definition rt_ok (b : RetransmitBuffer) : Prop :=
  ∃ k, 0 <= k ∧ rt_capacity b = 2 ^ k ∧ length (rt_slots b) = Z.to_nat (rt_capacity b).

Lemma rt_idx_mod k s : 0 <= k → ring_idx (2 ^ k - 1) s = Z.to_nat (s mod 2 ^ k).
Proof. intros. unfold ring_idx. by rewrite Z.sub_1_r, <- Z.ones_equiv, Z.land_ones. Qed.

Lemma rt_idx_lt b s : rt_ok b → (ring_idx (rt_capacity b - 1) s < length (rt_slots b))%nat.
Proof.
  intros (k & Hk & Hc & Hl). rewrite Hl, Hc, rt_idx_mod by done.
  pose proof (Z.pow_pos_nonneg 2 k ltac:(lia) Hk). pose proof (Z.mod_pos_bound s (2 ^ k)). lia.
Qed.

Lemma rt_new_ok c : 0 <= c → rt_ok (RetransmitBuffer_new c).
Proof.
  intros. exists (Z.log2_up c). pose proof (Z.log2_up_nonneg c). split_and!; [done..|].
  cbn. by rewrite length_replicate.
Qed.

Lemma rt_get_new c seq : RetransmitBuffer_get (RetransmitBuffer_new c) seq = None.
Proof.
  unfold RetransmitBuffer_get, RetransmitBuffer_new, ring_get; cbn.
  destruct (replicate _ _ !! _) eqn:E; [|done]. by apply lookup_replicate in E as [-> _].
Qed.

(** One insertion: the packet is readable, the other occupant of its slot is gone, every
    other packet is untouched. *)
Lemma rt_get_insert b s d s' :
  rt_ok b →
  RetransmitBuffer_get (RetransmitBuffer_insert b s d) s' =
  if decide (s' = s) then Some d
  else if decide (ring_idx (rt_capacity b - 1) s' = ring_idx (rt_capacity b - 1) s) then None
  else RetransmitBuffer_get b s'.
Proof.
  intros Hok. unfold RetransmitBuffer_get, RetransmitBuffer_insert, ring_get; cbn.
  destruct (decide (ring_idx (rt_capacity b - 1) s' = ring_idx (rt_capacity b - 1) s)) as [E|E].
  - rewrite E, list_lookup_insert_eq by by apply rt_idx_lt. cbn. case_decide as Es.
    + subst. by rewrite Z.eqb_refl.
    + by rewrite (proj2 (Z.eqb_neq _ _)).
  - rewrite list_lookup_insert_ne by done. case_decide; [subst; done|done].
Qed.

#[export] Instance RetransmitBuffer_store : RetransmitStore RetransmitBuffer := {
  store_ok := rt_ok;
  store_insert := RetransmitBuffer_insert;
  store_get := RetransmitBuffer_get
}.

#[export] Instance RetransmitBuffer_store_laws : RetransmitStoreLaws RetransmitBuffer.
Proof.
  split; cbn.
  - intros [sl cap] seq d (k & Hk & Hc & Hl). exists k. cbn in *. by rewrite length_insert.
  - intros s seq d Hok. rewrite rt_get_insert by done. by rewrite decide_True.
  - intros s seq d seq' d' Hok Hne. rewrite rt_get_insert by done.
    rewrite decide_False by done. by case_decide.
Qed.

(** ** A stream of consecutive packets *)

(** The state after sending [n] consecutive packets from [first]; packet [i] is [pkt i]. *)
Fixpoint send_run (b : RetransmitBuffer) (first : Z) (pkt : Z → bytes) (n : nat) : RetransmitBuffer :=
  match n with
  | O => b
  | S n' =>
      RetransmitBuffer_insert (send_run b first pkt n') (wrapping_add16 first (Z.of_nat n'))
        (pkt (Z.of_nat n'))
  end.

Lemma send_run_ok b first pkt n :
  rt_ok b → rt_ok (send_run b first pkt n) ∧ rt_capacity (send_run b first pkt n) = rt_capacity b.
Proof.
  intros Hb. induction n as [|n [IH1 IH2]]; cbn; [done|].
  split; [|done]. destruct IH1 as (k & ? & ? & ?). exists k. cbn. by rewrite length_insert.
Qed.

(** Two 16-bit numbers share a slot when their distance is a multiple of the capacity. *)
Lemma rt_idx_eq k a b :
  0 <= k → is_u16 a → is_u16 b →
  ring_idx (2 ^ k - 1) a = ring_idx (2 ^ k - 1) b ↔ wrapping_sub16 b a mod 2 ^ k = 0.
Proof.
  intros Hk Ha Hb. rewrite !rt_idx_mod by done. pose proof (Z.pow_pos_nonneg 2 k ltac:(lia) Hk) as Hp.
  pose proof (Z.mod_pos_bound a (2 ^ k) Hp). pose proof (Z.mod_pos_bound b (2 ^ k) Hp).
  assert (Hw : wrapping_sub16 b a = b - a ∨ wrapping_sub16 b a = b - a + 65536 ∧ b < a) by (clear -Ha Hb; ulia).
  assert (Hiff : a mod 2 ^ k = b mod 2 ^ k ↔ (b - a) mod 2 ^ k = 0).
  { split; intros E.
    - rewrite Zminus_mod, E, Z.sub_diag. by apply Z.mod_0_l; lia.
    - replace b with (a + (b - a)) by lia. rewrite Zplus_mod, E, Z.add_0_r, Z.mod_mod by lia. done. }
  transitivity ((b - a) mod 2 ^ k = 0); [rewrite <- Hiff; lia|]. destruct Hw as [->|[-> Hlt]]; [done|].
  destruct (decide (k <= 16)) as [Hle|Hgt].
  - replace 65536 with (2 ^ (16 - k) * 2 ^ k) by (rewrite <- Z.pow_add_r by lia; by replace (16 - k + k) with 16 by lia).
    rewrite Z.mod_add by lia. done.
  - assert (65536 < 2 ^ k) by (apply (Z.pow_lt_mono_r 2 16 k); lia). unfold is_u16 in *.
    split; intros E; exfalso.
    + apply Z.mod_divide in E as [q Hq]; [|lia]. destruct (decide (q < 0)); nia.
    + rewrite Z.mod_small in E by lia. lia.
Qed.

(** (C23) The retransmit buffer is a sliding window, over a stream of any length and for any
    capacity: after [n] consecutive packets sent from a new buffer, asking for a 16-bit number
    gives the newest packet that carries it, if that is among the last [capacity] packets
    sent, with its own bytes, and nothing otherwise.  [capacity] is the configured number
    rounded up to a power of two; [d] counts the packets sent after the one asked for. *)
Theorem retransmit_window (c first s : Z) (pkt : Z → bytes) (n : nat) :
  0 <= c → is_u16 s →
  let cap := next_power_of_two c in
  let d := wrapping_sub16 (wrapping_add16 first (Z.of_nat n - 1)) s in
  RetransmitBuffer_get (send_run (RetransmitBuffer_new c) first pkt n) s =
  if (d <? Z.of_nat n) && (d <? cap) then Some (pkt (Z.of_nat n - 1 - d)) else None.
Proof.
  intros Hc Hs cap. induction n as [|n IH]; cbn [send_run].
  { rewrite rt_get_new. pose proof (wrapping_sub16_range (wrapping_add16 first (Z.of_nat 0 - 1)) s) as [? _].
    cbn zeta. by rewrite (proj2 (Z.ltb_ge _ (Z.of_nat 0))) by lia. }
  destruct (send_run_ok (RetransmitBuffer_new c) first pkt n (rt_new_ok c ltac:(lia))) as [Hok Hce].
  rewrite rt_get_insert, Hce by done. cbn [rt_capacity RetransmitBuffer_new]. fold cap.
  replace (Z.of_nat (S n) - 1) with (Z.of_nat n) by lia.
  set (sn := wrapping_add16 first (Z.of_nat n)). assert (Hsn : is_u16 sn) by (subst sn; auto with rist).
  assert (Ecap : cap = 2 ^ Z.log2_up c) by done. pose proof (Z.log2_up_nonneg c) as Hk.
  pose proof (Z.pow_pos_nonneg 2 (Z.log2_up c) ltac:(lia) Hk) as Hp. cbn zeta in IH |- *.
  set (d := wrapping_sub16 (wrapping_add16 first (Z.of_nat n - 1)) s) in IH.
  case_decide as E.
  { assert (Hd : wrapping_sub16 sn s = 0) by (rewrite E; clear -Hsn; ulia). rewrite Hd, Z.sub_0_r.
    by rewrite (proj2 (Z.ltb_lt 0 (Z.of_nat (S n)))), (proj2 (Z.ltb_lt 0 cap)) by lia. }
  assert (Hd : wrapping_sub16 sn s = d + 1 ∧ 0 <= d < 65535) by (subst d sn; clear -E Hs; ulia).
  destruct Hd as [Hd Hdr]. rewrite Hd. replace (Z.of_nat n - (d + 1)) with (Z.of_nat n - 1 - d) by lia.
  pose proof (rt_idx_eq (Z.log2_up c) s sn Hk Hs Hsn) as Hidx. rewrite Hd, <- Ecap in Hidx.
  case_decide as Ei.
  - apply Hidx, Z.mod_divide in Ei as [q Hq]; [|lia]. assert (1 <= q) by nia.
    rewrite (proj2 (Z.ltb_ge (d + 1) cap)) by nia. by rewrite andb_false_r.
  - rewrite IH. assert (d + 1 ≠ cap) by (intros Eq; apply Ei, Hidx; rewrite Eq; apply Z.mod_same; lia).
    replace (d + 1 <? Z.of_nat (S n)) with (d <? Z.of_nat n) by (case_cmp; done || lia).
    by replace (d + 1 <? cap) with (d <? cap) by (case_cmp; done || lia).
Qed.

(** Two turns of the sequence space and a little more, in a buffer of 4 slots. *)
Lemma retransmit_window_witness :
  let b := send_run (RetransmitBuffer_new 3) 65534 (λ i, [i]) (Z.to_nat 131078) in
  RetransmitBuffer_get b 0 = Some [131074] ∧ RetransmitBuffer_get b 65535 = None.
Proof.
  cbn zeta. split.
  - rewrite (retransmit_window 3 65534 0 (λ i, [i]) (Z.to_nat 131078) ltac:(lia) ltac:(ulia)).
    rewrite Z2Nat.id by lia. vm_compute. reflexivity.
  - rewrite (retransmit_window 3 65534 65535 (λ i, [i]) (Z.to_nat 131078) ltac:(lia) ltac:(ulia)).
    rewrite Z2Nat.id by lia. vm_compute. reflexivity.
Defined.
