(* ===== verification/NackSched.v ===== *)
(** * The receiver's NACK scheduler (rist-protocol/src/protocol/nack_tracker.rs)

    A ring of 4096 slots tracks the sequence numbers that are missing, when the next
    NACK for each is due and how many were sent.  [tracked] reads the ring as a finite
    map from sequence numbers to that state; the theorems describe every operation on
    the map.  [sched_ok] is the invariant with the 32-bit pending counter, [sched_wf] the part
    of it that survives a wrap of that counter. *)

From stdpp Require Import sorting relations.
From Stdlib Require Import Sorted.
From S2P Require Import Prelude Ring.

Record NackSlot := mkNackSlot {
  ns_seq : Z;
  ns_active : bool;
  ns_next_nack_at : Z;
  ns_nack_count : Z
}.

Record NackScheduler := mkNackScheduler {
  nc_slots : list NackSlot;
  nc_capacity : Z;
  nc_max_retries : Z;
  nc_base_delay : Z;
  nc_expected_seq : option Z;
  nc_scan_lo : Z;
  nc_active_count : Z
}.

Definition default_slot (clock : Z) : NackSlot := mkNackSlot 0 false clock 0.

(** [clock] is the reading of [Instant::now()]. *)
Definition NackScheduler_new (max_retries base_delay clock : Z) : NackScheduler :=
  let capacity := 4096 in
  mkNackScheduler (replicate (Z.to_nat capacity) (default_slot clock)) capacity max_retries
    base_delay None 0 0.

Definition nslot_at (slots : list NackSlot) (i : nat) : NackSlot := ring_get (default_slot 0) slots i.

Definition MAX_TRACKABLE_GAP : Z := 1000.

(** [for i in 0..gap]: start tracking the missing numbers. *)
Fixpoint mark_missing (mask base_delay expected now i : Z) (n : nat)
    (slots : list NackSlot) (active_count : Z) (new_gaps : list Z)
    : list NackSlot * Z * list Z :=
  match n with
  | O => (slots, active_count, new_gaps)
  | S n' =>
      let missing := wrapping_add16 expected i in
      let idx := ring_idx mask missing in
      let slot := nslot_at slots idx in
      if negb (ns_active slot) || negb (ns_seq slot =? missing) then
        mark_missing mask base_delay expected now (i + 1) n'
          (<[idx := mkNackSlot missing true (now + base_delay) 0]> slots)
          (as_u32 (active_count + 1)) (new_gaps ++ [missing])
      else mark_missing mask base_delay expected now (i + 1) n' slots active_count new_gaps
  end.

Definition set_nack (self : NackScheduler) (slots : list NackSlot) (expected : option Z)
    (scan_lo active_count : Z) : NackScheduler :=
  mkNackScheduler slots (nc_capacity self) (nc_max_retries self) (nc_base_delay self) expected
    scan_lo active_count.

Definition deactivate (self : NackScheduler) (seq : Z) : NackScheduler :=
  let idx := ring_idx (nc_capacity self - 1) seq in
  let slot := nslot_at (nc_slots self) idx in
  if ns_active slot && (ns_seq slot =? seq) then
    set_nack self
      (<[idx := mkNackSlot (ns_seq slot) false (ns_next_nack_at slot) (ns_nack_count slot)]> (nc_slots self))
      (nc_expected_seq self) (nc_scan_lo self) (Z.max 0 (nc_active_count self - 1))
  else self.

Definition on_packet_recovered (self : NackScheduler) (seq : Z) : NackScheduler := deactivate self seq.

Definition on_packet_received (self : NackScheduler) (seq now : Z) : NackScheduler * list Z :=
  match nc_expected_seq self with
  | None =>
      (set_nack self (nc_slots self) (Some (wrapping_add16 seq 1)) seq (nc_active_count self), [])
  | Some expected =>
      let diff := as_i16 (wrapping_sub16 seq expected) in
      if 0 <? diff then
        let gap := as_u16 diff in
        let '(slots, count, new_gaps) :=
          if gap <=? MAX_TRACKABLE_GAP then
            mark_missing (nc_capacity self - 1) (nc_base_delay self) expected now 0 (Z.to_nat gap)
              (nc_slots self) (nc_active_count self) []
          else (nc_slots self, nc_active_count self, []) in
        (set_nack self slots (Some (wrapping_add16 seq 1)) (nc_scan_lo self) count, new_gaps)
      else if diff =? 0 then
        (set_nack self (nc_slots self) (Some (wrapping_add16 seq 1)) (nc_scan_lo self)
           (nc_active_count self), [])
      else (deactivate self seq, [])
  end.

(** The scan over the ring, slot by slot. *)
Fixpoint scan_slots (max_retries now retry_delay : Z) (slots : list NackSlot) (active_count : Z)
    : list NackSlot * Z * list Z :=
  match slots with
  | [] => ([], active_count, [])
  | slot :: rest =>
      if negb (ns_active slot) then
        let '(rest', c, l) := scan_slots max_retries now retry_delay rest active_count in
        (slot :: rest', c, l)
      else if ns_next_nack_at slot <=? now then
        if max_retries <=? ns_nack_count slot then
          let '(rest', c, l) :=
            scan_slots max_retries now retry_delay rest (Z.max 0 (active_count - 1)) in
          (mkNackSlot (ns_seq slot) false (ns_next_nack_at slot) (ns_nack_count slot) :: rest', c, l)
        else
          let '(rest', c, l) := scan_slots max_retries now retry_delay rest active_count in
          (mkNackSlot (ns_seq slot) true (now + retry_delay) (as_u32 (ns_nack_count slot + 1)) :: rest',
           c, ns_seq slot :: l)
      else
        let '(rest', c, l) := scan_slots max_retries now retry_delay rest active_count in
        (slot :: rest', c, l)
  end.

Definition get_pending_nacks (self : NackScheduler) (now : Z) (rtt : option Z)
    : NackScheduler * list Z :=
  if nc_active_count self =? 0 then (self, []) else
  let retry_delay := default (nc_base_delay self) rtt in
  let '(slots, count, to_nack) :=
    scan_slots (nc_max_retries self) now retry_delay (nc_slots self) (nc_active_count self) in
  (set_nack self slots (nc_expected_seq self) (nc_scan_lo self) count, merge_sort Z.le to_nack).

Definition pending_count (self : NackScheduler) : Z := nc_active_count self.
Definition update_base_delay (self : NackScheduler) (delay : Z) : NackScheduler :=
  mkNackScheduler (nc_slots self) (nc_capacity self) (nc_max_retries self) delay
    (nc_expected_seq self) (nc_scan_lo self) (nc_active_count self).

(** ** The map of tracked numbers *)

(** When the next NACK for [seq] is due and how many were sent. *)
Definition slot_entry (slot : NackSlot) (seq : Z) : option (Z * Z) :=
  if ns_active slot && (ns_seq slot =? seq) then Some (ns_next_nack_at slot, ns_nack_count slot) else None.
Definition tracked (self : NackScheduler) (seq : Z) : option (Z * Z) :=
  slot_entry (nslot_at (nc_slots self) (ring_idx (nc_capacity self - 1) seq)) seq.

Definition untracked (self : NackScheduler) (seq : Z) : bool :=
  match tracked self seq with Some _ => false | None => true end.

Definition count_active (slots : list NackSlot) : Z :=
  Z.of_nat (length (List.filter ns_active slots)).

Definition slot_ok (max_retries : Z) (i : nat) (s : NackSlot) : Prop :=
  ns_active s = true →
  is_u16 (ns_seq s) ∧ ring_idx 4095 (ns_seq s) = i ∧ 0 <= ns_nack_count s <= max_retries.

(** Active slots hold the number of their index, no more NACKs were sent than allowed, and
    the counter is at least the number of active slots. *)
Record sched_ok (self : NackScheduler) : Prop := {
  so_capacity : nc_capacity self = 4096;
  so_length : length (nc_slots self) = Z.to_nat 4096;
  so_retries : is_u32 (nc_max_retries self);
  so_slots : ∀ i s, nc_slots self !! i = Some s → slot_ok (nc_max_retries self) i s;
  so_count : count_active (nc_slots self) <= nc_active_count self
}.

Lemma cap_4096 : cap_ok 4096.
Proof. by exists 12. Qed.
#[export] Hint Resolve cap_4096 : rist.

Abbreviation nget := (off_get (default_slot 0) 4096).

Lemma nslot_lookup slots i s : slots !! i = Some s → nslot_at slots i = s.
Proof. unfold nslot_at, ring_get. by intros ->. Qed.

Lemma nslot_in self seq :
  sched_ok self → nc_slots self !! ring_idx 4095 seq = Some (nslot_at (nc_slots self) (ring_idx 4095 seq)).
Proof.
  intros [_ Hl _ _ _]. destruct (nc_slots self !! ring_idx 4095 seq) as [s|] eqn:E.
  - by rewrite (nslot_lookup _ _ _ E).
  - apply lookup_ge_None in E. rewrite Hl in E.
    change 4095 with (4096 - 1) in E. rewrite ring_idx_base in E by auto with rist.
    pose proof (off_idx_lt 4096 seq 0 cap_4096). lia.
Qed.

Lemma count_active_cons s l : count_active (s :: l) = Z.b2z (ns_active s) + count_active l.
Proof. unfold count_active. cbn [List.filter]. destruct (ns_active s); cbn [length Z.b2z]; lia. Qed.

Lemma count_active_insert slots : ∀ i old new,
  slots !! i = Some old →
  count_active (<[i := new]> slots) =
  count_active slots - Z.b2z (ns_active old) + Z.b2z (ns_active new).
Proof.
  induction slots as [|s slots IH]; intros [|i] old new H; [done..| |].
  - injection H as ->. change (<[0%nat := new]> (old :: slots)) with (new :: slots).
    rewrite !count_active_cons. lia.
  - cbn in H. change (<[S i := new]> (s :: slots)) with (s :: <[i := new]> slots).
    rewrite !count_active_cons, (IH _ _ _ H). lia.
Qed.

Lemma count_active_inactive l : Forall (λ s, ns_active s = false) l → count_active l = 0.
Proof. induction 1 as [|s l Hs _ IH]; [done|]. by rewrite count_active_cons, Hs, IH. Qed.

(** ** Detection of gaps *)

Definition fresh_slot (now delay missing : Z) : NackSlot := mkNackSlot missing true (now + delay) 0.
Definition is_tracked (slot : NackSlot) (seq : Z) : bool := ns_active slot && (ns_seq slot =? seq).

Lemma slot_entry_tracked s q : slot_entry s q = None ↔ is_tracked s q = false.
Proof. unfold slot_entry, is_tracked. by destruct (_ && _). Qed.

Lemma nget_lookup slots e i :
  length slots = Z.to_nat 4096 → slots !! off_idx 4096 e i = Some (nget slots e i).
Proof.
  intros Hl. unfold off_get, ring_get. pose proof (off_idx_lt 4096 e i cap_4096).
  destruct (slots !! off_idx 4096 e i) eqn:E; [done|]. apply lookup_ge_None in E. lia.
Qed.

Lemma mark_missing_spec delay e now n : ∀ i slots c g,
  length slots = Z.to_nat 4096 → 0 <= i → i + Z.of_nat n <= 4096 →
  ∃ slots' new, mark_missing 4095 delay e now i n slots c g =
      (slots', (if decide (new = []) then c else as_u32 (c + Z.of_nat (length new))), g ++ new) ∧
    new = List.filter (λ m, negb (is_tracked (nslot_at slots (ring_idx 4095 m)) m))
            (map (wrapping_add16 e) (seqZ i (Z.of_nat n))) ∧
    length slots' = length slots ∧
    count_active slots' <= count_active slots + Z.of_nat (length new) ∧
    ∀ k, 0 <= k < 4096 → nget slots' e k =
      if decide (i <= k < i + Z.of_nat n) then
        if is_tracked (nget slots e k) (wrapping_add16 e k) then nget slots e k
        else fresh_slot now delay (wrapping_add16 e k)
      else nget slots e k.
Proof.
  induction n as [|n IH]; intros i slots c g Hl Hi Hn.
  - exists slots, []. rewrite seqZ_nil by lia. rewrite app_nil_r. cbn [mark_missing map List.filter length].
    split_and!; [done..|lia|]. intros k Hk. by rewrite decide_False by lia.
  - cbn [mark_missing]. change 4095 with (4096 - 1). rewrite ring_idx_off by auto with rist.
    change (4096 - 1) with 4095.
    rewrite (seqZ_cons i) by lia. replace (Z.succ i) with (i + 1) by lia.
    replace (Z.pred (Z.of_nat (S n))) with (Z.of_nat n) by lia. cbn [map List.filter].
    assert (Eidx : ring_idx 4095 (wrapping_add16 e i) = off_idx 4096 e i)
      by (by rewrite (ring_idx_off 4096) by auto with rist).
    rewrite Eidx. change (nslot_at slots (off_idx 4096 e i)) with (nget slots e i).
    replace (negb (ns_active (nget slots e i)) || negb (ns_seq (nget slots e i) =? wrapping_add16 e i))
      with (negb (is_tracked (nget slots e i) (wrapping_add16 e i))) by (apply negb_andb).
    pose proof (nget_lookup slots e i Hl) as Hlk.
    destruct (is_tracked (nget slots e i) (wrapping_add16 e i)) eqn:Et; cbn [negb].
    + destruct (IH (i + 1) slots c g) as (slots' & new & -> & Hnew & Hl' & Hc & Hget); [done|lia..|].
      exists slots', new. split_and!; [done..|]. intros k Hk. rewrite Hget by done.
      destruct (decide (k = i)) as [->|].
      * by rewrite decide_False, decide_True, Et by lia.
      * destruct (decide (i + 1 <= k < i + 1 + Z.of_nat n));
          [rewrite decide_True by lia|rewrite decide_False by lia]; done.
    + set (f := fresh_slot now delay (wrapping_add16 e i)).
      destruct (IH (i + 1) (<[off_idx 4096 e i := f]> slots) (as_u32 (c + 1)) (g ++ [wrapping_add16 e i]))
        as (slots' & new & Hm & Hnew & Hl' & Hc & Hget); [by rewrite length_insert|lia..|].
      exists slots', (wrapping_add16 e i :: new).
      change (mkNackSlot (wrapping_add16 e i) true (now + delay) 0) with f. rewrite Hm.
      rewrite length_insert in Hl'. rewrite (count_active_insert _ _ _ _ Hlk) in Hc.
      assert (Hag : ∀ k, i + 1 <= k < 4096 → nget (<[off_idx 4096 e i := f]> slots) e k = nget slots e k).
      { intros k Hk. by rewrite off_get_insert, decide_False by (auto with rist; lia). }
      split_and!; [|f_equal; rewrite Hnew|done|cbn [length Z.b2z] in *; destruct (ns_active _); cbn in *; lia|].
      * rewrite <- app_assoc, (decide_False (P := wrapping_add16 e i :: new = [])) by done.
        do 2 f_equal. destruct (decide (new = [])) as [->|]; cbn [length]; clear; ulia.
      * apply filter_ext_in. intros m (k & <- & Hk)%in_map_iff.
        apply list_elem_of_In, elem_of_seqZ in Hk.
        change 4095 with (4096 - 1). rewrite ring_idx_off by auto with rist.
        change (nslot_at ?l (off_idx 4096 e k)) with (nget l e k). by rewrite Hag by lia.
      * intros k Hk. rewrite Hget by done. destruct (decide (k = i)) as [->|].
        -- rewrite decide_False, decide_True, Et by lia.
           by rewrite off_get_insert, decide_True by (auto with rist; lia).
        -- rewrite off_get_insert, (decide_False (P := i = k)) by (auto with rist; lia).
           destruct (decide (i + 1 <= k < i + 1 + Z.of_nat n));
             [rewrite decide_True by lia|rewrite decide_False by lia]; done.
Qed.

Lemma ring_idx_sub e s : ring_idx 4095 s = off_idx 4096 e (wrapping_sub16 s e mod 4096).
Proof.
  change 4095 with (4096 - 1). rewrite ring_idx_mod by auto with rist. unfold off_idx.
  f_equal. ulia.
Qed.

Lemma tracked_off self e s :
  sched_ok self →
  tracked self s = slot_entry (nget (nc_slots self) e (wrapping_sub16 s e mod 4096)) s.
Proof.
  intros [Hc _ _ _ _]. unfold tracked. rewrite Hc. change (4096 - 1) with 4095.
  by rewrite (ring_idx_sub e).
Qed.

(** A ring whose slots are described offset by offset is well formed. *)
Lemma slots_ok_off max slots e :
  length slots = Z.to_nat 4096 →
  (∀ k, 0 <= k < 4096 → slot_ok max (off_idx 4096 e k) (nget slots e k)) →
  ∀ i s, slots !! i = Some s → slot_ok max i s.
Proof.
  intros Hl H i s Hs. pose proof (lookup_lt_Some _ _ _ Hs).
  destruct (off_idx_surj 4096 e i cap_4096) as (k & Hk & <-); [lia|].
  specialize (H k Hk). unfold off_get, ring_get in H. by rewrite Hs in H.
Qed.

Lemma slots_ok_get self e k :
  sched_ok self → 0 <= k < 4096 →
  slot_ok (nc_max_retries self) (off_idx 4096 e k) (nget (nc_slots self) e k).
Proof.
  intros [_ Hl _ Hs _] Hk. apply Hs. unfold off_get, ring_get.
  pose proof (off_idx_lt 4096 e k cap_4096).
  destruct (nc_slots self !! off_idx 4096 e k) eqn:E; [done|]. apply lookup_ge_None in E. lia.
Qed.

Lemma deactivate_spec self seq :
  sched_ok self → is_u16 seq →
  sched_ok (deactivate self seq) ∧ nc_expected_seq (deactivate self seq) = nc_expected_seq self ∧
  (∀ s, is_u16 s → tracked (deactivate self seq) s = if decide (s = seq) then None else tracked self s).
Proof.
  intros Hok Hs. pose proof Hok as [Hc Hl Hr Hsl Hct]. unfold deactivate. rewrite Hc.
  change (4096 - 1) with 4095. pose proof (nslot_in self seq Hok) as Hin.
  set (slot := nslot_at (nc_slots self) (ring_idx 4095 seq)) in *.
  destruct (ns_active slot && (ns_seq slot =? seq)) eqn:E.
  - apply andb_true_iff in E as [Ea Es%Z.eqb_eq]. split_and!; [split; cbn; try done|done|].
    + by rewrite length_insert.
    + intros i s [(<- & <- & _)|[_ Hi]]%list_lookup_insert_Some; [done|by apply Hsl].
    + rewrite (count_active_insert _ _ _ _ Hin), Ea. cbn. lia.
    + intros s Hs'. unfold tracked, set_nack; cbn. rewrite Hc. change (4096 - 1) with 4095.
      unfold nslot_at, ring_get.
      destruct (decide (ring_idx 4095 s = ring_idx 4095 seq)) as [Ei|Ei].
      * rewrite Ei, list_lookup_insert_eq, Hin by (by apply lookup_lt_Some in Hin).
        unfold slot_entry; cbn. case_decide as Eq; [done|]. rewrite Ea, Es.
        cbn. by rewrite (proj2 (Z.eqb_neq _ _)).
      * rewrite list_lookup_insert_ne by done. rewrite decide_False; [done|by intros ->].
  - split_and!; [done..|]. intros s Hs'. case_decide as Eq; [|done]. subst.
    unfold tracked. rewrite Hc. change (4096 - 1) with 4095. unfold slot_entry.
    fold slot. by rewrite E.
Qed.

(** The ring after a pass over the [d] numbers from [e]: those tracked keep their slot, the
    others get a fresh one. *)
Definition gap_marked (now delay e d : Z) (slots slots' : list NackSlot) : Prop :=
  ∀ k, 0 <= k < 4096 → nget slots' e k =
    if decide (0 <= k < d) then
      if is_tracked (nget slots e k) (wrapping_add16 e k) then nget slots e k
      else fresh_slot now delay (wrapping_add16 e k)
    else nget slots e k.

Lemma gap_marked_slots max now delay e d slots slots' :
  is_u32 max → length slots' = Z.to_nat 4096 → gap_marked now delay e d slots slots' →
  (∀ k, 0 <= k < 4096 → slot_ok max (off_idx 4096 e k) (nget slots e k)) →
  ∀ i s, slots' !! i = Some s → slot_ok max i s.
Proof.
  intros Hr Hl Hget Hsl. apply (slots_ok_off _ _ e); [done|]. intros k Hk. rewrite Hget by done.
  case_decide; [|by apply Hsl]. destruct (is_tracked _ _); [by apply Hsl|].
  intros _. split_and!; [cbn; auto with rist|change 4095 with (4096 - 1); apply ring_idx_off; auto with rist|..];
    cbn; destruct Hr; lia.
Qed.

Lemma gap_marked_entry now delay e d slots slots' s :
  0 < d <= 1000 → is_u16 s → gap_marked now delay e d slots slots' →
  let off := wrapping_sub16 s e in
  slot_entry (nget slots' e (off mod 4096)) s =
  if off mod 4096 <? d then
    if off <? d then Some (default (now + delay, 0) (slot_entry (nget slots e (off mod 4096)) s)) else None
  else slot_entry (nget slots e (off mod 4096)) s.
Proof.
  intros Hd Hs Hget off. pose proof (Z.mod_pos_bound off 4096 ltac:(lia)).
  assert (Hoff : 0 <= off < 65536) by apply wrapping_sub16_range.
  assert (Es : s = wrapping_add16 e off) by (subst off; clear -Hs; ulia).
  rewrite Hget by done. set (k := off mod 4096) in *.
  assert (Hk : off = k ↔ s = wrapping_add16 e k).
  { split; [by intros <-|]. intros E. subst off. rewrite E. clear -H. clearbody k. ulia. }
  assert (Hkd : k < d → (off < d ↔ off = k)).
  { intros. split; [|lia]. intros. unfold k. rewrite Z.mod_small; lia. }
  destruct (Z.ltb_spec k d); [rewrite decide_True by lia|by rewrite decide_False by lia].
  destruct (Z.ltb_spec off d) as [Hlt|Hge].
  - apply Hkd, Hk in Hlt; [|done]. rewrite <- Hlt. unfold slot_entry at 2. unfold is_tracked.
    destruct (_ && _) eqn:Et; cbn [from_option]; unfold slot_entry; [by rewrite Et|].
    cbn. by rewrite Z.eqb_refl.
  - assert (Hne : s ≠ wrapping_add16 e k) by (rewrite <- Hk; lia).
    unfold slot_entry, is_tracked.
    destruct (ns_active _ && (ns_seq _ =? wrapping_add16 e k)) eqn:Et; cbn.
    + apply andb_true_iff in Et as [_ ->%Z.eqb_eq]. rewrite (proj2 (Z.eqb_neq _ s)) by done.
      by rewrite andb_false_r.
    + by rewrite (proj2 (Z.eqb_neq _ s)).
Qed.

Lemma received_gap self e seq now :
  sched_ok self → nc_expected_seq self = Some e → is_u16 e → is_u16 seq →
  nc_active_count self + 1000 <= u32_max →
  let d := as_i16 (wrapping_sub16 seq e) in 0 < d <= 1000 →
  let r := on_packet_received self seq now in
  sched_ok r.1 ∧ nc_expected_seq r.1 = Some (wrapping_add16 seq 1) ∧
  r.2 = List.filter (untracked self) (map (wrapping_add16 e) (seqZ 0 d)) ∧
  ∀ s, is_u16 s → tracked r.1 s =
    let off := wrapping_sub16 s e in
    if off mod 4096 <? d then
      if off <? d then Some (default (now + nc_base_delay self, 0) (tracked self s)) else None
    else tracked self s.
Proof.
  intros Hok He Heu Hsu Hcnt d Hd. pose proof Hok as [Hc Hl Hr Hsl Hct].
  unfold on_packet_received. rewrite He. fold d. rewrite (proj2 (Z.ltb_lt 0 d)) by lia.
  replace (as_u16 d) with d by (clear -Hd; clearbody d; ulia).
  rewrite (proj2 (Z.leb_le d MAX_TRACKABLE_GAP)) by (unfold MAX_TRACKABLE_GAP; lia).
  rewrite Hc. change (4096 - 1) with 4095.
  destruct (mark_missing_spec (nc_base_delay self) e now (Z.to_nat d) 0 (nc_slots self)
    (nc_active_count self) []) as (slots' & new & -> & Hnew & Hl' & Hca & Hget); [done|lia..|].
  rewrite Z2Nat.id in Hnew, Hget by lia. cbn zeta. cbn [fst snd app].
  change (gap_marked now (nc_base_delay self) e d (nc_slots self) slots') in Hget.
  assert (Hlen : Z.of_nat (length new) <= 1000).
  { rewrite Hnew. pose proof (List.filter_length_le
      (λ m, negb (is_tracked (nslot_at (nc_slots self) (ring_idx 4095 m)) m))
      (map (wrapping_add16 e) (seqZ 0 d))) as Hf.
    rewrite length_map, length_seqZ in Hf. lia. }
  assert (Hcnt0 : 0 <= nc_active_count self) by (unfold count_active in Hct; lia).
  assert (Hok' : sched_ok (set_nack self slots' (Some (wrapping_add16 seq 1)) (nc_scan_lo self)
    (if decide (new = []) then nc_active_count self
     else as_u32 (nc_active_count self + Z.of_nat (length new))))).
  { split; cbn; try done; [by rewrite Hl'| |].
    - eapply gap_marked_slots; [done|by rewrite Hl'|exact Hget|]. intros. by apply slots_ok_get.
    - case_decide as En; [rewrite En in Hca; cbn in Hca; lia|].
      rewrite as_u32_id by (unfold is_u32, u32_max in *; lia). lia. }
  split_and!; [done..| |].
  - rewrite Hnew. apply filter_ext_in. intros m _. unfold untracked, tracked. rewrite Hc.
    change (4096 - 1) with 4095. unfold slot_entry, is_tracked. by destruct (_ && _).
  - intros s Hs. rewrite (tracked_off _ e s Hok'), (tracked_off self e s Hok). by apply gap_marked_entry.
Qed.

Lemma received_spec self e seq now :
  sched_ok self → nc_expected_seq self = Some e → is_u16 e → is_u16 seq →
  nc_active_count self + 1000 <= u32_max →
  let d := as_i16 (wrapping_sub16 seq e) in
  let r := on_packet_received self seq now in
  let small := (0 <? d) && (d <=? 1000) in
  sched_ok r.1 ∧
  nc_expected_seq r.1 = Some (if d <? 0 then e else wrapping_add16 seq 1) ∧
  r.2 = (if small then
           List.filter (untracked self) (map (wrapping_add16 e) (seqZ 0 d))
         else []) ∧
  ∀ s, is_u16 s → tracked r.1 s =
    if small then
      let off := wrapping_sub16 s e in
      if off mod 4096 <? d then
        if off <? d then Some (default (now + nc_base_delay self, 0) (tracked self s)) else None
      else tracked self s
    else if (d <? 0) && (s =? seq) then None else tracked self s.
Proof.
  intros Hok He Heu Hsu Hcnt. cbn zeta. set (d := as_i16 (wrapping_sub16 seq e)).
  destruct (decide (0 < d <= 1000)) as [Hd|Hd].
  { rewrite (proj2 (Z.ltb_lt 0 d)), (proj2 (Z.leb_le d 1000)), (proj2 (Z.ltb_ge d 0)) by lia.
    by apply received_gap. }
  replace ((0 <? d) && (d <=? 1000)) with false by (case_cmp; done || lia).
  pose proof Hok as [Hc Hl Hr Hsl Hct].
  unfold on_packet_received. rewrite He. fold d. unfold MAX_TRACKABLE_GAP.
  destruct (Z.ltb_spec 0 d); [|destruct (Z.eqb_spec d 0)].
  - assert (as_u16 d = d) as -> by (pose proof (as_i16_range (wrapping_sub16 seq e)); fold d in H0; clear -H H0; clearbody d; ulia).
    rewrite (proj2 (Z.leb_gt d 1000)), (proj2 (Z.ltb_ge d 0)) by lia. cbn.
    split_and!; [by split|done..].
  - rewrite (proj2 (Z.ltb_ge d 0)) by lia. cbn. split_and!; [by split|done..].
  - rewrite (proj2 (Z.ltb_lt d 0)) by lia. destruct (deactivate_spec self seq Hok Hsu) as (H1 & H2 & H3).
    cbn [fst snd andb]. split_and!; [done|by rewrite H2|done|]. intros s Hs. rewrite H3 by done.
    case_decide; case_cmp; done || lia.
Qed.

(** (C11) Gap detection, on every branch of [on_packet_received]: a packet 1 to 1000 numbers
    past the expected one makes exactly the skipped numbers tracked (those not tracked
    before are reported and due after the base delay, those tracked keep their state, and
    only numbers 4096 apart from a skipped one can lose their slot); a larger jump resyncs
    without tracking anything; a packet behind the expected number stops the tracking of
    that number only.  The scheduler's invariant is preserved. *)
Theorem nack_gap_detection (self : NackScheduler) (e seq now : Z) :
  sched_ok self → nc_expected_seq self = Some e → is_u16 e → is_u16 seq →
  nc_active_count self + 1000 <= u32_max →
  let d := as_i16 (wrapping_sub16 seq e) in
  let r := on_packet_received self seq now in
  let small := (0 <? d) && (d <=? 1000) in
  sched_ok r.1 ∧
  nc_expected_seq r.1 = Some (if d <? 0 then e else wrapping_add16 seq 1) ∧
  r.2 = (if small then
           List.filter (untracked self) (map (wrapping_add16 e) (seqZ 0 d))
         else []) ∧
  ∀ s, is_u16 s → tracked r.1 s =
    if small then
      let off := wrapping_sub16 s e in
      if off mod 4096 <? d then
        if off <? d then Some (default (now + nc_base_delay self, 0) (tracked self s)) else None
      else tracked self s
    else if (d <? 0) && (s =? seq) then None else tracked self s.
Proof. apply received_spec. Qed.

Lemma NackScheduler_new_ok max delay clock :
  is_u32 max → sched_ok (NackScheduler_new max delay clock) ∧
  ∀ s, tracked (NackScheduler_new max delay clock) s = None.
Proof.
  intros Hm. assert (Hsl : ∀ i s, nc_slots (NackScheduler_new max delay clock) !! i = Some s →
    ns_active s = false) by (by intros i s [-> _]%lookup_replicate).
  split; [split; [done|apply length_replicate|done| |]|].
  - intros i s Hs. apply Hsl in Hs. intros ?. congruence.
  - rewrite count_active_inactive; [done|]. apply Forall_lookup_2. intros i s Hs. by apply Hsl in Hs.
  - intros s. unfold tracked, slot_entry, nslot_at, ring_get.
    destruct (nc_slots _ !! _) as [x|] eqn:E; cbn [from_option]; [|done]. unfold id. by rewrite (Hsl _ _ E).
Qed.

Lemma nack_gap_detection_witness :
  let r1 := on_packet_received (NackScheduler_new 10 5 0) 65534 1 in
  let r2 := on_packet_received r1.1 1 2 in
  r2.2 = [65535; 0] ∧ tracked r2.1 0 = Some (7, 0) ∧ tracked r2.1 1 = None.
Proof.
  cbn zeta. destruct (NackScheduler_new_ok 10 5 0) as [[Hc Hl Hr Hs Hn] _]; [ulia|].
  assert (H1 : sched_ok (on_packet_received (NackScheduler_new 10 5 0) 65534 1).1) by (split; assumption).
  destruct (nack_gap_detection _ 65535 1 2 H1 eq_refl ltac:(ulia) ltac:(ulia) ltac:(cbn; ulia))
    as (_ & _ & H3 & H4).
  split; [|split].
  - rewrite H3. vm_compute. reflexivity.
  - rewrite H4 by ulia. vm_compute. reflexivity.
  - rewrite H4 by ulia. vm_compute. reflexivity.
Defined.

(** ** Collecting the NACKs that are due *)

(** What one pass of the scan does to a slot, and whether it requests its number. *)
Definition due (max now : Z) (s : NackSlot) : bool :=
  ns_active s && (ns_next_nack_at s <=? now) && (ns_nack_count s <? max).
Definition scan_slot (max now delay : Z) (s : NackSlot) : NackSlot :=
  if ns_active s && (ns_next_nack_at s <=? now) then
    if max <=? ns_nack_count s then mkNackSlot (ns_seq s) false (ns_next_nack_at s) (ns_nack_count s)
    else mkNackSlot (ns_seq s) true (now + delay) (as_u32 (ns_nack_count s + 1))
  else s.

Lemma scan_slots_spec max now delay slots : ∀ c, 0 <= c →
  ∃ c', scan_slots max now delay slots c =
      (map (scan_slot max now delay) slots, c', map ns_seq (List.filter (due max now) slots)) ∧
    0 <= c' ∧ ∀ r, 0 <= r → count_active slots + r <= c →
      count_active (map (scan_slot max now delay) slots) + r <= c'.
Proof.
  induction slots as [|s slots IH]; intros c Hc; cbn [scan_slots map List.filter].
  - exists c. split_and!; [done..|lia].
  - unfold due at 1, scan_slot at 1 3.
    destruct (ns_active s) eqn:Ea; cbn [negb andb].
    2:{ destruct (IH c Hc) as (c' & -> & H0 & H). exists c'. split_and!; [done..|].
        intros r Hr. rewrite !count_active_cons, Ea. cbn [Z.b2z]. intros. specialize (H r Hr). lia. }
    destruct (Z.leb_spec (ns_next_nack_at s) now) as [Hdue|Hnd]; cbn [andb].
    2:{ destruct (IH c Hc) as (c' & -> & H0 & H). exists c'. split_and!; [done..|].
        intros r Hr. rewrite !count_active_cons, Ea. cbn [Z.b2z]. intros. specialize (H (r + 1)). lia. }
    rewrite Z.ltb_antisym. destruct (Z.leb_spec max (ns_nack_count s)); cbn [negb map].
    + destruct (IH (Z.max 0 (c - 1))) as (c' & -> & H0 & Hi); [lia|]. exists c'. split_and!; [done..|].
      intros r Hr. rewrite !count_active_cons, Ea. cbn [Z.b2z ns_active]. intros.
      specialize (Hi r Hr). unfold count_active in *. lia.
    + destruct (IH c Hc) as (c' & -> & H0 & Hi). exists c'. split_and!; [done..|].
      intros r Hr. rewrite !count_active_cons, Ea. cbn [Z.b2z ns_active]. intros.
      specialize (Hi (r + 1)). lia.
Qed.

Lemma due_seqs_NoDup max max' now slots : ∀ j,
  (∀ i s, slots !! i = Some s → slot_ok max (j + i) s) →
  NoDup (map ns_seq (List.filter (due max' now) slots)).
Proof.
  induction slots as [|s slots IH]; intros j H; cbn [List.filter map]; [constructor|].
  assert (Hrest : ∀ i s, slots !! i = Some s → slot_ok max (S j + i) s).
  { intros i x Hi. replace (S j + i)%nat with (j + S i)%nat by lia. by apply H. }
  destruct (due max' now s) eqn:Ed; [|by apply (IH (S j))]. cbn [map]. constructor; [|by apply (IH (S j))].
  intros (x & Hx & Hin)%list_elem_of_fmap. apply list_elem_of_In, List.filter_In in Hin as [Hin Hd].
  apply list_elem_of_In, list_elem_of_lookup in Hin as [i Hi].
  unfold due in Ed, Hd. rewrite !andb_true_iff in Ed, Hd.
  destruct (H 0%nat s eq_refl) as (_ & Hs & _); [tauto|].
  destruct (Hrest i x Hi) as (_ & Hs' & _); [tauto|].
  rewrite Hx in Hs. lia.
Qed.

Definition next_state (max now delay : Z) (e : option (Z * Z)) : option (Z * Z) :=
  match e with
  | Some (t, c) =>
      if now <? t then Some (t, c) else if c <? max then Some (now + delay, c + 1) else None
  | None => None
  end.

Definition is_due (max now : Z) (e : option (Z * Z)) : Prop :=
  match e with Some (t, c) => t <= now ∧ c < max | None => False end.
#[export] Instance is_due_dec max now e : Decision (is_due max now e).
Proof. destruct e as [[t c]|]; apply _. Defined.

Lemma scan_slot_ok max now delay i s :
  is_u32 max → slot_ok max i s → slot_ok max i (scan_slot max now delay s).
Proof.
  intros Hm Hs. unfold scan_slot. destruct (ns_active s && _) eqn:E; [|done].
  apply andb_true_iff in E as [Ea _]. destruct (Hs Ea) as (H1 & H2 & H3).
  case_cmp; [intros ?; done|]. intros _. cbn. rewrite as_u32_id by (unfold is_u32 in *; lia).
  split_and!; [done..|lia|lia].
Qed.

Lemma scan_slot_entry max now delay i s q :
  is_u32 max → slot_ok max i s →
  slot_entry (scan_slot max now delay s) q = next_state max now delay (slot_entry s q).
Proof.
  intros Hm Hs. unfold scan_slot, slot_entry, next_state. destruct (ns_active s) eqn:Ea; cbn [andb].
  - destruct (Hs Ea) as (_ & _ & H3). assert (Hu : as_u32 (ns_nack_count s + 1) = ns_nack_count s + 1 ∨ max <= ns_nack_count s).
    { unfold is_u32 in Hm. destruct (decide (max <= ns_nack_count s)); [by right|left].
      apply as_u32_id. unfold is_u32. lia. }
    destruct (Z.leb_spec (ns_next_nack_at s) now); cbn.
    + destruct (Z.leb_spec max (ns_nack_count s)); cbn; rewrite ?Ea; destruct (ns_seq s =? q); case_cmp; try done; try lia.
      destruct Hu as [->|]; [done|lia].
    + rewrite Ea. cbn. destruct (ns_seq s =? q); case_cmp; done || lia.
  - rewrite Ea. done.
Qed.

(** The scan requests exactly the tracked numbers that are due. *)
Lemma due_elem self now s :
  sched_ok self →
  s ∈ map ns_seq (List.filter (due (nc_max_retries self) now) (nc_slots self)) ↔
  is_u16 s ∧ is_due (nc_max_retries self) now (tracked self s).
Proof.
  intros Hok. pose proof Hok as [Hc _ _ Hsl _]. rewrite list_elem_of_fmap. unfold tracked. rewrite Hc.
  change (4096 - 1) with 4095. split.
  - intros (x & -> & Hx%list_elem_of_In%List.filter_In). destruct Hx as [Hx Hd].
    apply list_elem_of_In, list_elem_of_lookup in Hx as [i Hi].
    unfold due in Hd. rewrite !andb_true_iff, Z.leb_le, Z.ltb_lt in Hd. destruct Hd as [[Ha Ht] Hcn].
    destruct (Hsl i x Hi Ha) as (Hu & <- & _). split; [done|].
    rewrite (nslot_lookup _ _ _ Hi). unfold slot_entry. rewrite Ha, Z.eqb_refl. done.
  - intros [Hu Hd]. exists (nslot_at (nc_slots self) (ring_idx 4095 s)).
    unfold slot_entry in Hd. destruct (_ && _) eqn:E; [|done].
    apply andb_true_iff in E as [Ea Es%Z.eqb_eq]. split; [done|].
    apply list_elem_of_In, List.filter_In. split.
    + apply list_elem_of_In, list_elem_of_lookup. eexists. by apply nslot_in.
    + unfold due. rewrite Ea. cbn in Hd. destruct Hd. cbn. case_cmp; done || lia.
Qed.

Lemma pending_spec self now rtt :
  sched_ok self →
  let delay := default (nc_base_delay self) rtt in
  let r := get_pending_nacks self now rtt in
  sched_ok r.1 ∧ nc_expected_seq r.1 = nc_expected_seq self ∧
  nc_max_retries r.1 = nc_max_retries self ∧ nc_base_delay r.1 = nc_base_delay self ∧
  Sorted Z.le r.2 ∧ NoDup r.2 ∧
  (∀ s, s ∈ r.2 ↔ is_u16 s ∧ is_due (nc_max_retries self) now (tracked self s)) ∧
  (∀ s, tracked r.1 s = next_state (nc_max_retries self) now delay (tracked self s)).
Proof.
  intros Hok. cbn zeta. pose proof Hok as [Hc Hl Hr Hsl Hct].
  set (delay := default (nc_base_delay self) rtt).
  assert (Hact : ∀ q, slot_entry (nslot_at (nc_slots self) (ring_idx 4095 q)) q ≠ None →
    nc_active_count self ≠ 0).
  { intros q Hq H0. pose proof (nslot_in self q Hok) as Hin.
    assert (Ea : ns_active (nslot_at (nc_slots self) (ring_idx 4095 q)) = true)
      by (unfold slot_entry in Hq; by destruct (ns_active _)).
    pose proof (count_active_insert _ _ _ (default_slot 0) Hin) as Hi. rewrite Ea in Hi. cbn in Hi.
    unfold count_active in *. lia. }
  unfold get_pending_nacks. destruct (Z.eqb_spec (nc_active_count self) 0) as [E0|En].
  { assert (Hnone : ∀ s, tracked self s = None).
    { intros s. unfold tracked. rewrite Hc. change (4096 - 1) with 4095.
      destruct (slot_entry _ s) eqn:Es; [|done]. exfalso. apply (Hact s); congruence. }
    cbn [fst snd]. split_and!; try done; [by apply NoDup_nil| |].
    - intros s. rewrite Hnone. cbn. rewrite elem_of_nil. tauto.
    - intros s. by rewrite Hnone. }
  destruct (scan_slots_spec (nc_max_retries self) now delay (nc_slots self) (nc_active_count self))
    as (c' & Hscan & Hc0 & Hcc); [unfold count_active in Hct; lia|].
  fold delay. rewrite Hscan. cbn [fst snd set_nack nc_expected_seq nc_max_retries nc_base_delay].
  split_and!; try done.
  - split; cbn; try done; [by rewrite length_map| |specialize (Hcc 0); lia].
    intros i s. rewrite list_lookup_fmap. intros (x & Hx & ->)%fmap_Some_1. apply scan_slot_ok; auto.
  - apply Sorted_merge_sort. apply _.
  - rewrite merge_sort_Permutation. apply (due_seqs_NoDup (nc_max_retries self) _ _ _ 0). done.
  - intros s. rewrite merge_sort_Permutation. by apply due_elem.
  - intros s. unfold tracked. cbn. rewrite Hc. change (4096 - 1) with 4095.
    rewrite <- (scan_slot_entry _ now delay (ring_idx 4095 s)); [|done|apply Hsl; by apply nslot_in].
    f_equal. unfold nslot_at at 1, ring_get. rewrite list_lookup_fmap, nslot_in by done. done.
Qed.

Lemma scan_slots_count max now delay slots : ∀ c, 0 <= c → 0 <= (scan_slots max now delay slots c).1.2 <= c.
Proof.
  induction slots as [|s slots IH]; intros c Hc; cbn [scan_slots]; [cbn; lia|].
  pose proof (IH c Hc). pose proof (IH (Z.max 0 (c - 1)) ltac:(lia)).
  destruct (negb (ns_active s)), (ns_next_nack_at s <=? now), (max <=? ns_nack_count s);
    repeat match goal with |- context [scan_slots ?a ?b ?d ?l ?x] => destruct (scan_slots a b d l x) as [[??]?] end;
    cbn in *; lia.
Qed.

(** One poll never asks for more than the ring can hold. *)
Lemma pending_length self now rtt :
  sched_ok self → Z.of_nat (length (get_pending_nacks self now rtt).2) <= 4096.
Proof.
  intros [Hc Hl Hr Hsl Hct]. unfold get_pending_nacks.
  destruct (Z.eqb_spec (nc_active_count self) 0); [cbn; lia|].
  destruct (scan_slots_spec (nc_max_retries self) now (default (nc_base_delay self) rtt) (nc_slots self)
    (nc_active_count self)) as (c' & -> & _); [unfold count_active in Hct; lia|].
  cbn [snd]. rewrite merge_sort_Permutation, length_map.
  pose proof (List.filter_length_le (due (nc_max_retries self) now) (nc_slots self)). lia.
Qed.

(** (C12) [get_pending_nacks] requests exactly the numbers that are tracked, due and below
    their retry limit, in ascending order and without repetition; each requested number
    is due again after the retry delay with one more NACK counted, a due number that used
    up its retries is given up, every other number keeps its state.  In particular the
    early exit on [active_count == 0] never hides a pending number. *)
Theorem nack_pending_exact (self : NackScheduler) (now : Z) (rtt : option Z) :
  sched_ok self →
  let delay := default (nc_base_delay self) rtt in
  let r := get_pending_nacks self now rtt in
  sched_ok r.1 ∧ Sorted Z.le r.2 ∧ NoDup r.2 ∧
  (∀ s, s ∈ r.2 ↔ is_u16 s ∧ is_due (nc_max_retries self) now (tracked self s)) ∧
  (∀ s, tracked r.1 s = next_state (nc_max_retries self) now delay (tracked self s)).
Proof.
  intros Hok. destruct (pending_spec self now rtt Hok) as (H1 & _ & _ & _ & H2 & H3 & H4 & H5).
  by split_and!.
Qed.

Definition demo_sched : NackScheduler :=
  (on_packet_received (on_packet_received (NackScheduler_new 2 5 0) 65534 1).1 1 2).1.
Lemma demo_sched_ok : sched_ok demo_sched.
Proof.
  destruct (NackScheduler_new_ok 2 5 0) as [[Hc Hl Hr Hs Hn] _]; [ulia|].
  assert (H1 : sched_ok (on_packet_received (NackScheduler_new 2 5 0) 65534 1).1) by by split.
  by apply (received_gap _ 65535 1 2 H1); try (cbn; ulia).
Qed.

Lemma nack_pending_exact_witness :
  0 ∈ (get_pending_nacks demo_sched 7 None).2 ∧
  tracked (get_pending_nacks demo_sched 7 None).1 0 = Some (12, 1).
Proof.
  destruct (nack_pending_exact demo_sched 7 None demo_sched_ok) as (_ & _ & _ & H3 & H4). split.
  - apply H3. split; [ulia|]. vm_compute. split; [discriminate|reflexivity].
  - rewrite H4. vm_compute. reflexivity.
Defined.

(** ** The counter aside *)

(** The pending counter only over-counts until it wraps, and then a scan may be skipped; nothing
    else depends on it.  [sched_wf] is the invariant without the counter: it holds of
    [self] with any counter in place of its own, here the size of the ring. *)
Definition set_count (self : NackScheduler) (c : Z) : NackScheduler :=
  set_nack self (nc_slots self) (nc_expected_seq self) (nc_scan_lo self) c.
Definition full_count (self : NackScheduler) : NackScheduler := set_count self 4096.
Definition sched_wf (self : NackScheduler) : Prop := sched_ok (full_count self).

Lemma count_active_le slots : count_active slots <= Z.of_nat (length slots).
Proof. unfold count_active. pose proof (List.filter_length_le ns_active slots). lia. Qed.

Lemma sched_wf_intro self c : sched_ok (set_count self c) → sched_wf self.
Proof.
  intros [H1 H2 H3 H4 _]. split; [done..|]. cbn [full_count set_count set_nack nc_slots nc_active_count] in *.
  pose proof (count_active_le (nc_slots self)). lia.
Qed.

Lemma sched_ok_wf self : sched_ok self → sched_wf self.
Proof. intros H. apply (sched_wf_intro self (nc_active_count self)). by destruct self. Qed.

Lemma sched_wf_ok self : sched_wf self → count_active (nc_slots self) <= nc_active_count self → sched_ok self.
Proof. intros [H1 H2 H3 H4 _] Hc. by split. Qed.

Lemma mark_missing_forget mask delay e now n : ∀ i slots c c' g,
  (mark_missing mask delay e now i n slots c g).1.1 = (mark_missing mask delay e now i n slots c' g).1.1 ∧
  (mark_missing mask delay e now i n slots c g).2 = (mark_missing mask delay e now i n slots c' g).2.
Proof. induction n as [|n IH]; intros; cbn [mark_missing]; [done|]. destruct (_ || _); apply IH. Qed.

Lemma scan_slots_forget max now delay slots : ∀ c c',
  (scan_slots max now delay slots c).1.1 = (scan_slots max now delay slots c').1.1 ∧
  (scan_slots max now delay slots c).2 = (scan_slots max now delay slots c').2.
Proof.
  induction slots as [|s slots IH]; intros c c'; cbn [scan_slots]; [done|].
  pose proof (IH c c') as [Ha Hb]. pose proof (IH (Z.max 0 (c - 1)) (Z.max 0 (c' - 1))) as [Hd He].
  destruct (negb (ns_active s)), (ns_next_nack_at s <=? now), (max <=? ns_nack_count s);
    repeat match goal with |- context [scan_slots ?a ?b ?d ?l ?x] => destruct (scan_slots a b d l x) as [[??]?] end;
    cbn in *; subst; done.
Qed.

Lemma deactivate_recount self c seq : ∃ c', deactivate (set_count self c) seq = set_count (deactivate self seq) c'.
Proof. unfold deactivate. cbn [set_count set_nack nc_slots nc_capacity]. destruct (_ && _); by eexists. Qed.

Lemma received_recount self c seq now :
  ∃ c', on_packet_received (set_count self c) seq now =
    (set_count (on_packet_received self seq now).1 c', (on_packet_received self seq now).2).
Proof.
  unfold on_packet_received. cbn [set_count set_nack nc_slots nc_capacity nc_expected_seq nc_base_delay nc_active_count].
  destruct (nc_expected_seq self) as [e|] eqn:Ee; [|by eexists].
  destruct (0 <? _).
  - destruct (_ <=? MAX_TRACKABLE_GAP); [|by eexists].
    match goal with |- context [mark_missing ?a ?b ?d ?n ?i ?m ?s c ?g] =>
      destruct (mark_missing_forget a b d n m i s c (nc_active_count self) g) as [Hs Hg] end.
    repeat destruct (mark_missing _ _ _ _ _ _ _ _ _) as [[??]?]. cbn in *. subst. by eexists.
  - destruct (_ =? 0); [by eexists|]. destruct (deactivate_recount self c seq) as [c' H].
    exists c'. apply (f_equal (λ x, (x, []))). exact H.
Qed.

Lemma pending_recount self c now rtt :
  nc_active_count self ≠ 0 → c ≠ 0 →
  ∃ c', get_pending_nacks (set_count self c) now rtt =
    (set_count (get_pending_nacks self now rtt).1 c', (get_pending_nacks self now rtt).2).
Proof.
  intros Hn Hc. unfold get_pending_nacks.
  cbn [set_count set_nack nc_slots nc_max_retries nc_base_delay nc_active_count].
  rewrite (proj2 (Z.eqb_neq c 0)), (proj2 (Z.eqb_neq (nc_active_count self) 0)) by done.
  match goal with |- context [scan_slots ?a ?b ?d ?s c] =>
    destruct (scan_slots_forget a b d s c (nc_active_count self)) as [Hs Hl] end.
  repeat destruct (scan_slots _ _ _ _ _) as [[??]?]. cbn in *. subst. by eexists.
Qed.

(** A packet behind the expected number ends the tracking of its number. *)
Lemma received_behind self e seq now :
  sched_wf self → nc_expected_seq self = Some e → is_u16 seq → as_i16 (wrapping_sub16 seq e) < 0 →
  tracked (on_packet_received self seq now).1 seq = None.
Proof.
  intros Hok He Hs Hlt. unfold on_packet_received. rewrite He.
  rewrite (proj2 (Z.ltb_ge 0 _)), (proj2 (Z.eqb_neq _ 0)) by lia. cbn [fst].
  destruct (deactivate_recount self 4096 seq) as [c' E].
  destruct (deactivate_spec (full_count self) seq Hok Hs) as (_ & _ & H). specialize (H seq Hs).
  unfold full_count in H. rewrite E, decide_True in H by done. exact H.
Qed.

(** A poll of a scheduler whose counter may have wrapped: it is skipped, or it is the poll of
    the scheduler with a sound counter. *)
Lemma pending_wf self now rtt :
  (nc_active_count self = 0 ∧ get_pending_nacks self now rtt = (self, [])) ∨
  ∃ c', get_pending_nacks (full_count self) now rtt =
    (set_count (get_pending_nacks self now rtt).1 c', (get_pending_nacks self now rtt).2).
Proof.
  destruct (decide (nc_active_count self = 0)) as [E|E].
  - left. split; [done|]. unfold get_pending_nacks. by rewrite E.
  - right. by apply pending_recount.
Qed.

(** What a poll requests, whatever the counter says. *)
Lemma pending_wf_spec self now rtt :
  sched_wf self →
  let r := get_pending_nacks self now rtt in
  sched_wf r.1 ∧ nc_expected_seq r.1 = nc_expected_seq self ∧ Forall is_u16 r.2 ∧ Z.of_nat (length r.2) <= 4096.
Proof.
  intros Hok. cbn zeta. destruct (pending_wf self now rtt) as [[_ ->]|[c' E]].
  { split_and!; [done..|by constructor|cbn; lia]. }
  destruct (pending_spec (full_count self) now rtt Hok) as (H1 & H2 & _ & _ & _ & _ & H3 & _).
  pose proof (pending_length (full_count self) now rtt Hok) as H4. rewrite E in *. cbn [fst snd] in *.
  split_and!; [by eapply sched_wf_intro|done| |done].
  apply Forall_forall. intros s Hs. by apply H3 in Hs as [? _].
Qed.

(** ** Runs of the scheduler *)

Inductive nack_op : Type :=
  | OpReceived (seq now : Z)
  | OpRecovered (seq : Z)
  | OpPoll (now : Z) (rtt : option Z)
  | OpDelay (delay : Z).

Definition op_ok (o : nack_op) : Prop :=
  match o with OpReceived seq _ | OpRecovered seq => is_u16 seq | _ => True end.

(** The scheduler after an operation, the gaps it reported and the numbers it requested. *)
Definition run_op (self : NackScheduler) (o : nack_op) : NackScheduler * list Z * list Z :=
  match o with
  | OpReceived seq now => let '(s, g) := on_packet_received self seq now in (s, g, [])
  | OpRecovered seq => (on_packet_recovered self seq, [], [])
  | OpPoll now rtt => let '(s, l) := get_pending_nacks self now rtt in (s, [], l)
  | OpDelay d => (update_base_delay self d, [], [])
  end.

Fixpoint run_ops (self : NackScheduler) (ops : list nack_op) : NackScheduler * list Z * list Z :=
  match ops with
  | [] => (self, [], [])
  | o :: rest =>
      let '(s1, g1, r1) := run_op self o in
      let '(s2, g2, r2) := run_ops s1 rest in
      (s2, g1 ++ g2, r1 ++ r2)
  end.

Definition occ (s : Z) (l : list Z) : Z := Z.of_nat (length (List.filter (Z.eqb s) l)).
(** NACKs still allowed for [s]. *)
Definition budget (self : NackScheduler) (s : Z) : Z :=
  match tracked self s with Some (_, c) => nc_max_retries self - c | None => 0 end.

Lemma occ_app s l l' : occ s (l ++ l') = occ s l + occ s l'.
Proof. unfold occ. rewrite List.filter_app, length_app. lia. Qed.
Lemma occ_elem s l : s ∈ l → 1 <= occ s l.
Proof.
  unfold occ. induction 1 as [|s x l _ IH]; cbn; [rewrite Z.eqb_refl; cbn; lia|].
  destruct (_ =? _); cbn; lia.
Qed.
Lemma occ_NoDup s l : NoDup l → occ s l = if decide (s ∈ l) then 1 else 0.
Proof.
  unfold occ. induction 1 as [|x l Hx _ IH]; cbn.
  - by rewrite decide_False by apply not_elem_of_nil.
  - destruct (Z.eqb_spec s x) as [->|Hne]; cbn [length].
    + rewrite decide_False in IH by done. rewrite decide_True by (apply elem_of_cons; by left). lia.
    + rewrite IH. destruct (decide (s ∈ l)) as [H|H].
      * by rewrite decide_True by (apply elem_of_cons; by right).
      * rewrite decide_False; [done|]. by intros [?|?]%elem_of_cons.
Qed.

Definition run_ok (self : NackScheduler) : Prop :=
  sched_ok self ∧ match nc_expected_seq self with Some e => is_u16 e | None => True end.

Lemma mark_missing_count mask delay e now n : ∀ i slots c g,
  0 <= c → (mark_missing mask delay e now i n slots c g).1.2 <= c + Z.of_nat n.
Proof.
  induction n as [|n IH]; intros i slots c g Hc; cbn [mark_missing]; [cbn; lia|].
  destruct (_ || _); [|specialize (IH (i + 1) slots c g); lia].
  pose proof (as_u32_range (c + 1)) as [? _].
  assert (as_u32 (c + 1) <= c + 1) by (unfold as_u32; apply Z.mod_le; lia).
  specialize (IH (i + 1) (<[ring_idx mask (wrapping_add16 e i) := mkNackSlot (wrapping_add16 e i) true (now + delay) 0]> slots)
    (as_u32 (c + 1)) (g ++ [wrapping_add16 e i])). lia.
Qed.

Lemma received_count self seq now :
  0 <= nc_active_count self →
  nc_active_count (on_packet_received self seq now).1 <= nc_active_count self + 1000 ∧
  nc_max_retries (on_packet_received self seq now).1 = nc_max_retries self.
Proof.
  intros H. unfold on_packet_received, deactivate, MAX_TRACKABLE_GAP.
  destruct (nc_expected_seq self) as [e|]; [|cbn; lia].
  destruct (0 <? _); [|destruct (_ =? 0); [cbn; lia|destruct (_ && _); cbn; lia]].
  destruct (Z.leb_spec (as_u16 (as_i16 (wrapping_sub16 seq e))) 1000); [|cbn; lia].
  pose proof (mark_missing_count (nc_capacity self - 1) (nc_base_delay self) e now
    (Z.to_nat (as_u16 (as_i16 (wrapping_sub16 seq e)))) 0 (nc_slots self) (nc_active_count self) [] H).
  pose proof (as_u16_range (as_i16 (wrapping_sub16 seq e))) as [? _].
  destruct (mark_missing _ _ _ _ _ _ _ _ _) as [[slots c] g]. cbn in *. lia.
Qed.

Lemma tracked_count self s t c :
  sched_ok self → tracked self s = Some (t, c) → 0 <= c <= nc_max_retries self.
Proof.
  intros [_ _ _ Hsl _]. unfold tracked, slot_entry. destruct (_ && _) eqn:E; [|done].
  intros [= <- <-]. apply andb_true_iff in E as [Ea _]. unfold nslot_at, ring_get in *.
  destruct (nc_slots self !! _) eqn:El; [|done]. by destruct (Hsl _ _ El Ea) as (_ & _ & H3).
Qed.

Lemma next_state_budget max now delay self self' s :
  sched_ok self → nc_max_retries self = max → nc_max_retries self' = max →
  tracked self' s = next_state max now delay (tracked self s) →
  (if decide (is_due max now (tracked self s)) then 1 else 0) + budget self' s <= budget self s.
Proof.
  intros Hok E1 E2 Ht. unfold budget. rewrite Ht, E1, E2.
  destruct (tracked self s) as [[t c]|] eqn:E; cbn.
  - pose proof (tracked_count _ _ _ _ Hok E). rewrite E1 in *. case_decide; case_cmp; lia.
  - by rewrite decide_False by tauto.
Qed.

Lemma budget_kept self self' s :
  sched_ok self → nc_max_retries self' = nc_max_retries self →
  tracked self' s = tracked self s ∨ tracked self' s = None → budget self' s <= budget self s.
Proof.
  intros Hok Em Ht. unfold budget. rewrite Em. destruct Ht as [-> | ->]; [lia|].
  destruct (tracked self s) as [[t c]|] eqn:E; [|lia]. apply tracked_count in E; [lia|done].
Qed.

Lemma received_budget self seq now s :
  run_ok self → is_u16 seq → is_u16 s → nc_active_count self + 1000 <= u32_max →
  let r := on_packet_received self seq now in
  run_ok r.1 ∧ budget r.1 s <= budget self s + nc_max_retries self * occ s r.2.
Proof.
  intros [Hok He] Hq Hs Hcnt. cbn zeta. pose proof Hok as [_ _ Hr _ Hct].
  assert (Hc0 : 0 <= nc_active_count self) by (unfold count_active in Hct; lia).
  pose proof (received_count self seq now Hc0) as [_ Hmx].
  assert (Hocc : ∀ l, 0 <= nc_max_retries self * occ s l)
    by (intros; apply Z.mul_nonneg_nonneg; [apply Hr|unfold occ; lia]).
  destruct (nc_expected_seq self) as [e|] eqn:Ee.
  - destruct (received_spec self e seq now Hok Ee He Hq Hcnt) as (H1 & H2 & H3 & H4).
    set (d := as_i16 (wrapping_sub16 seq e)) in *. cbn zeta in *.
    split; [split; [done|rewrite H2; destruct (_ <? _); auto with rist]|].
    specialize (H4 s Hs). specialize (Hocc (on_packet_received self seq now).2).
    destruct ((0 <? d) && (d <=? 1000)) eqn:Esm.
    + destruct (_ mod 4096 <? d); [|pose proof (budget_kept _ _ s Hok Hmx); rewrite H4 in *; intuition lia].
      destruct (Z.ltb_spec (wrapping_sub16 s e) d); [|pose proof (budget_kept _ _ s Hok Hmx); intuition lia].
      destruct (tracked self s) as [[t c]|] eqn:Et; cbn [from_option id] in H4.
      { pose proof (budget_kept _ _ s Hok Hmx). rewrite H4, Et in *. intuition lia. }
      assert (Hin : s ∈ (on_packet_received self seq now).2).
      { rewrite H3. apply list_elem_of_In, List.filter_In. split; [|unfold untracked; by rewrite Et].
        apply in_map_iff. exists (wrapping_sub16 s e). split; [clear -Hs; ulia|].
        apply list_elem_of_In, elem_of_seqZ. pose proof (wrapping_sub16_range s e) as [? _]. lia. }
      apply occ_elem in Hin. unfold budget. rewrite H4, Et, Hmx. destruct Hr. nia.
    + pose proof (budget_kept _ _ s Hok Hmx). destruct (_ && (s =? seq)); intuition lia.
  - unfold on_packet_received in *. rewrite Ee in *. cbn [fst snd] in *. split.
    + split; [|cbn; auto with rist]. by destruct Hok.
    + specialize (Hocc []). pose proof (budget_kept _ _ s Hok Hmx). intuition lia.
Qed.

Lemma run_op_step self o s :
  run_ok self → op_ok o → is_u16 s → nc_active_count self + 1000 <= u32_max →
  let '(self', gaps, reqs) := run_op self o in
  run_ok self' ∧ nc_max_retries self' = nc_max_retries self ∧
  nc_active_count self' <= nc_active_count self + 1000 ∧
  occ s reqs + budget self' s <= budget self s + nc_max_retries self * occ s gaps.
Proof.
  intros Hrun Ho Hs Hcnt. pose proof Hrun as [Hok He]. pose proof Hok as [_ _ Hr _ Hct].
  assert (Hc0 : 0 <= nc_active_count self) by (unfold count_active in Hct; lia).
  destruct o as [seq now|seq|now rtt|d]; cbn [run_op op_ok] in *.
  - pose proof (received_count self seq now Hc0) as [Hcn Hmx].
    destruct (received_budget self seq now s Hrun Ho Hs Hcnt) as [H1 H2].
    destruct (on_packet_received self seq now) as [s' g]. cbn [fst snd] in *.
    split_and!; [done..|]. unfold occ in *. cbn. lia.
  - destruct (deactivate_spec self seq Hok Ho) as (H1 & H2 & H3). unfold on_packet_recovered.
    split_and!; [split; [done|by rewrite H2]| | |].
    + unfold deactivate. by destruct (_ && _).
    + unfold deactivate. destruct (_ && _); cbn; lia.
    + assert (Hmx : nc_max_retries (deactivate self seq) = nc_max_retries self)
        by (unfold deactivate; by destruct (_ && _)).
      pose proof (budget_kept _ _ s Hok Hmx) as Hb. specialize (H3 s Hs). unfold occ; cbn.
      destruct (decide (s = seq)); rewrite H3 in Hb; intuition lia.
  - destruct (pending_spec self now rtt Hok) as (H1 & H2 & H3 & _ & _ & H4 & H5 & H6).
    pose proof (next_state_budget _ now _ self _ s Hok eq_refl H3 (H6 s)) as Hb.
    pose proof (occ_NoDup s _ H4) as Hn.
    assert (Hcn : nc_active_count (get_pending_nacks self now rtt).1 <= nc_active_count self).
    { unfold get_pending_nacks. destruct (_ =? 0); [cbn; lia|].
      assert (∀ l c, 0 <= c → (scan_slots (nc_max_retries self) now (default (nc_base_delay self) rtt) l c).1.2 <= c) as Hsc.
      { intros l. induction l as [|x l IH]; intros c Hc; cbn [scan_slots]; [cbn; lia|].
        pose proof (IH c Hc) as Ha. pose proof (IH (Z.max 0 (c - 1)) ltac:(lia)) as Hb'.
        repeat (destruct (scan_slots _ _ _ _ _) as [[? ?] ?]). cbn in *.
        repeat case_match; cbn; lia. }
      specialize (Hsc (nc_slots self) (nc_active_count self) Hc0).
      destruct (scan_slots _ _ _ _ _) as [[? ?] ?]. done. }
    destruct (get_pending_nacks self now rtt) as [s' l]. cbn [fst snd] in *.
    split_and!; [split; [done|by rewrite H2]|done|lia|].
    specialize (H5 s). rewrite Hn. unfold occ. cbn.
    repeat case_decide; first [lia|tauto].
  - split_and!; [|done|cbn; lia|unfold occ; cbn; unfold budget, tracked; cbn; lia].
    split; [|done]. by destruct Hok.
Qed.

(** A run keeps the invariant without the counter, for any number of operations. *)
Definition run_wf (self : NackScheduler) : Prop := run_ok (full_count self).

Lemma run_wf_step self o s :
  run_wf self → op_ok o → is_u16 s →
  let '(self', gaps, reqs) := run_op self o in
  run_wf self' ∧ nc_max_retries self' = nc_max_retries self ∧
  occ s reqs + budget self' s <= budget self s + nc_max_retries self * occ s gaps.
Proof.
  intros Hrun Ho Hs. pose proof (run_op_step (full_count self) o s Hrun Ho Hs ltac:(by vm_compute)) as H.
  assert (Hw : ∀ x c, run_ok (set_count x c) → run_wf x)
    by (intros x c [H1 H2]; split; [by eapply sched_wf_intro|done]).
  destruct o as [seq now|seq|now rtt|d]; cbn [run_op] in *.
  - destruct (received_recount self 4096 seq now) as [c' E]. unfold full_count in H. rewrite E in H.
    destruct (on_packet_received self seq now) as [s1 g]. destruct H as (H1 & H2 & _ & H4). eauto.
  - destruct (deactivate_recount self 4096 seq) as [c' E]. unfold on_packet_recovered, full_count in *.
    rewrite E in H. destruct H as (H1 & H2 & _ & H4). eauto.
  - destruct (pending_wf self now rtt) as [[_ ->]|[c' E]]; [split_and!; [done..|unfold occ; cbn; lia]|].
    rewrite E in H. destruct (get_pending_nacks self now rtt) as [s1 l]. destruct H as (H1 & H2 & _ & H4). eauto.
  - by destruct H as (H1 & H2 & _ & H4).
Qed.

Lemma run_ops_bound ops s : ∀ self,
  run_wf self → Forall op_ok ops → is_u16 s →
  let '(self', gaps, reqs) := run_ops self ops in
  run_wf self' ∧ 0 <= budget self' s ∧
  occ s reqs + budget self' s <= budget self s + nc_max_retries self * occ s gaps.
Proof.
  induction ops as [|o ops IH]; intros self Hrun Hops Hs; cbn [run_ops].
  - unfold occ; cbn. split_and!; [done| |lia]. destruct Hrun as [Hok _].
    change (0 <= budget (full_count self) s). unfold budget.
    destruct (tracked (full_count self) s) as [[t c]|] eqn:E; [|lia]. apply tracked_count in E; [lia|done].
  - apply Forall_cons in Hops as [Ho Hops].
    pose proof (run_wf_step self o s Hrun Ho Hs) as Hstep.
    destruct (run_op self o) as [[s1 g1] r1]. destruct Hstep as (H1 & H2 & H3).
    specialize (IH s1 H1 Hops Hs). destruct (run_ops s1 ops) as [[s2 g2] r2].
    destruct IH as (H4 & H5 & H6). split_and!; [done..|]. rewrite !occ_app. rewrite H2 in H6. lia.
Qed.

(** (C13) Bounded retries over every run: from a new scheduler, through any sequence, of any
    length, of packet arrivals, recoveries, polls and delay updates, a sequence number is
    requested at most [max_retries] times for each time it was reported as a new gap; a
    number never reported is never requested.  This holds even when the 32-bit pending
    counter wraps. *)
Theorem nack_retries_bounded (max delay clock s : Z) (ops : list nack_op) :
  is_u32 max → is_u16 s → Forall op_ok ops →
  let '(_, gaps, reqs) := run_ops (NackScheduler_new max delay clock) ops in
  occ s reqs <= max * occ s gaps.
Proof.
  intros Hm Hs Hops. destruct (NackScheduler_new_ok max delay clock Hm) as [Hok Hnone].
  pose proof (run_ops_bound ops s (NackScheduler_new max delay clock)
    (conj (sched_ok_wf _ Hok) I) Hops Hs) as H.
  destruct (run_ops _ ops) as [[s2 g2] r2].
  destruct H as (_ & H1 & H2). unfold budget at 2 in H2. rewrite Hnone in H2. cbn in H2. lia.
Qed.

Lemma nack_retries_bounded_witness :
  let ops := [OpReceived 65534 0; OpReceived 0 1; OpPoll 10 None; OpPoll 20 None; OpPoll 30 None] in
  let '(_, gaps, reqs) := run_ops (NackScheduler_new 2 5 0) ops in
  gaps = [65535] ∧ reqs = [65535; 65535] ∧ occ 65535 reqs <= 2 * occ 65535 gaps.
Proof.
  cbn zeta. pose proof (nack_retries_bounded 2 5 0 65535
    [OpReceived 65534 0; OpReceived 0 1; OpPoll 10 None; OpPoll 20 None; OpPoll 30 None]
    ltac:(ulia) ltac:(ulia) ltac:(repeat constructor; ulia)) as H.
  assert (E : (run_ops (NackScheduler_new 2 5 0) [OpReceived 65534 0; OpReceived 0 1; OpPoll 10 None; OpPoll 20 None; OpPoll 30 None]).1.2 = [65535]
    ∧ (run_ops (NackScheduler_new 2 5 0) [OpReceived 65534 0; OpReceived 0 1; OpPoll 10 None; OpPoll 20 None; OpPoll 30 None]).2 = [65535; 65535])
    by (vm_compute; split; reflexivity).
  destruct (run_ops _ _) as [[s2 g2] r2]. cbn [fst snd] in E. destruct E as [E1 E2].
  split; [exact E1|split; [exact E2|exact H]].
Defined.

(** The pending counter over-counts: when the one number skipped by a packet shares
    its slot with another active number, the other number is overwritten, so the number
    of active slots stays the same, but [pending_count] grows by one (and no later
    operation takes the excess back, since the overwritten number can no longer be
    deactivated). *)
Theorem nack_pending_overcounts (self : NackScheduler) (e now : Z) :
  sched_ok self → nc_expected_seq self = Some e → is_u16 e →
  nc_active_count self + 1 <= u32_max →
  let slot := nslot_at (nc_slots self) (ring_idx 4095 e) in
  ns_active slot = true → ns_seq slot ≠ e →
  let r := on_packet_received self (wrapping_add16 e 1) now in
  count_active (nc_slots r.1) = count_active (nc_slots self) ∧
  pending_count r.1 = pending_count self + 1 ∧ tracked r.1 (ns_seq slot) = None.
Proof.
  intros Hok He Heu Hcnt slot Ha Hne. pose proof Hok as [Hc Hl Hr Hsl Hct].
  assert (Hc0 : 0 <= nc_active_count self) by (unfold count_active in Hct; lia).
  pose proof (nslot_in self e Hok) as Hin. fold slot in Hin.
  destruct (Hsl _ _ Hin Ha) as (Hu & Hidx & _).
  unfold on_packet_received. rewrite He.
  assert (Ed : as_i16 (wrapping_sub16 (wrapping_add16 e 1) e) = 1) by (clear -Heu; ulia). rewrite Ed.
  change (0 <? 1) with true. change (as_u16 1) with 1. cbn [Z.leb MAX_TRACKABLE_GAP].
  change (1 <=? MAX_TRACKABLE_GAP) with true. change (Z.to_nat 1) with 1%nat.
  cbn [mark_missing]. rewrite Hc. change (4096 - 1) with 4095.
  assert (E0 : wrapping_add16 e 0 = e) by (clear -Heu; ulia). rewrite E0. fold slot.
  rewrite Ha, (proj2 (Z.eqb_neq _ _)) by done. cbn [negb orb fst snd set_nack nc_slots pending_count].
  split_and!.
  - rewrite (count_active_insert _ _ _ _ Hin), Ha. cbn. lia.
  - unfold pending_count. cbn. apply as_u32_id. unfold is_u32, u32_max in *. lia.
  - unfold tracked. cbn. rewrite Hc. change (4096 - 1) with 4095. rewrite Hidx.
    unfold nslot_at, ring_get. rewrite list_lookup_insert_eq by (by apply lookup_lt_Some in Hin).
    unfold slot_entry; cbn. by rewrite (proj2 (Z.eqb_neq e _)).
Qed.

Definition alias_sched : NackScheduler :=
  (run_ops (NackScheduler_new 2 5 0) [OpReceived 0 0; OpReceived 2 0; OpReceived 4096 0]).1.1.
Lemma alias_sched_ok : sched_ok alias_sched.
Proof.
  destruct (NackScheduler_new_ok 2 5 0) as [Hok _]; [ulia|].
  pose proof (run_ops_bound [OpReceived 0 0; OpReceived 2 0; OpReceived 4096 0] 0
    (NackScheduler_new 2 5 0) (conj (sched_ok_wf _ Hok) I)) as H.
  specialize (H ltac:(repeat constructor; ulia) ltac:(ulia)).
  apply sched_wf_ok; [|by vm_compute].
  unfold alias_sched. destruct (run_ops _ _) as [[? ?] ?]. by destruct H as [[? _] _].
Qed.

Lemma nack_pending_overcounts_witness :
  pending_count alias_sched = 1 ∧
  pending_count (on_packet_received alias_sched 4098 0).1 = 2 ∧
  count_active (nc_slots (on_packet_received alias_sched 4098 0).1) = 1.
Proof.
  destruct (nack_pending_overcounts alias_sched 4097 0 alias_sched_ok
    ltac:(vm_compute; reflexivity) ltac:(ulia) ltac:(vm_compute; discriminate)
    ltac:(vm_compute; reflexivity) ltac:(vm_compute; discriminate)) as (H1 & H2 & _).
  split; [vm_compute; reflexivity|]. split.
  - etransitivity; [exact H2|vm_compute; reflexivity].
  - etransitivity; [exact H1|vm_compute; reflexivity].
Defined.
