(* ===== verification/Bonding.v ===== *)
(** * SMPTE 2022-7 bonding (rist-protocol/src/protocol/bonding.rs)

    The merger deduplicates the packets of several paths with a bitmap of 1024 positions
    behind the highest sequence number.  Its specification is the set of unwrapped indices
    emitted so far. *)

From stdpp Require Import gmap.
From S2P Require Import Prelude.

Definition WINDOW_SIZE : Z := 1024.
Definition BITMAP_WORDS : Z := WINDOW_SIZE / 64.

Record BondingMerger := mkBondingMerger {
  bm_bitmap : list Z;
  bm_highest_seq : option Z;
  bm_packets_emitted : Z;
  bm_duplicates_dropped : Z;
  bm_late_dropped : Z
}.

Definition zero_bitmap : list Z := replicate (Z.to_nat BITMAP_WORDS) 0.
Definition BondingMerger_new : BondingMerger := mkBondingMerger zero_bitmap None 0 0 0.

(** [self.bitmap[word]]; the array has 16 words and the index is below 16. *)
Definition word_at (bitmap : list Z) (w : nat) : Z := default 0 (bitmap !! w).

Definition mark_seq (bitmap : list Z) (seq : Z) : list Z :=
  let idx := seq mod WINDOW_SIZE in
  let word := Z.to_nat (idx / 64) in
  let bit := idx mod 64 in
  <[word := Z.lor (word_at bitmap word) (Z.shiftl 1 bit)]> bitmap.

Definition is_seq_marked (bitmap : list Z) (seq : Z) : bool :=
  let idx := seq mod WINDOW_SIZE in
  let word := Z.to_nat (idx / 64) in
  let bit := idx mod 64 in
  negb (Z.land (word_at bitmap word) (Z.shiftl 1 bit) =? 0).

Definition clear_bitmap (bitmap : list Z) : list Z := zero_bitmap.

(** [self.bitmap[word] &= !(1u64 << bit)] *)
Definition unmark_seq (bitmap : list Z) (seq : Z) : list Z :=
  let idx := seq mod WINDOW_SIZE in
  let word := Z.to_nat (idx / 64) in
  let bit := idx mod 64 in
  <[word := Z.land (word_at bitmap word) (as_u64 (Z.lnot (Z.shiftl 1 bit)))]> bitmap.

(** [for i in 1..=advance] *)
Fixpoint unmark_range (bitmap : list Z) (highest i : Z) (n : nat) : list Z :=
  match n with
  | O => bitmap
  | S n' => unmark_range (unmark_seq bitmap (wrapping_add16 highest i)) highest (i + 1) n'
  end.

Definition advance_window (bitmap : list Z) (highest_seq : option Z) (advance : Z) : list Z :=
  if WINDOW_SIZE <=? advance then clear_bitmap bitmap
  else unmark_range bitmap (default 0 highest_seq) 1 (Z.to_nat advance).

Definition process (self : BondingMerger) (seq : Z) (data : bytes) : BondingMerger * option bytes :=
  let emit bitmap highest :=
    (mkBondingMerger bitmap highest (as_u64 (bm_packets_emitted self + 1))
       (bm_duplicates_dropped self) (bm_late_dropped self), Some data) in
  let duplicate :=
    (mkBondingMerger (bm_bitmap self) (bm_highest_seq self) (bm_packets_emitted self)
       (as_u64 (bm_duplicates_dropped self + 1)) (bm_late_dropped self), None) in
  match bm_highest_seq self with
  | None => emit (mark_seq (clear_bitmap (bm_bitmap self)) seq) (Some seq)
  | Some highest =>
      let diff := as_i16 (wrapping_sub16 seq highest) in
      if 0 <? diff then
        let bitmap := advance_window (bm_bitmap self) (bm_highest_seq self) (as_u16 diff) in
        emit (mark_seq bitmap seq) (Some seq)
      else if diff =? 0 then duplicate
      else
        let behind := as_u64 (as_i16 (- diff)) in
        if WINDOW_SIZE <=? behind then
          (mkBondingMerger (bm_bitmap self) (bm_highest_seq self) (bm_packets_emitted self)
             (bm_duplicates_dropped self) (as_u64 (bm_late_dropped self + 1)), None)
        else if is_seq_marked (bm_bitmap self) seq then duplicate
        else emit (mark_seq (bm_bitmap self) seq) (bm_highest_seq self)
  end.

(** ** The bitmap as a set of positions *)

Definition bit_at (bitmap : list Z) (j : Z) : bool :=
  Z.testbit (word_at bitmap (Z.to_nat (j / 64))) (j mod 64).

Definition bitmap_ok (bitmap : list Z) : Prop := length bitmap = 16%nat.

Lemma is_seq_marked_bit bitmap seq : is_seq_marked bitmap seq = bit_at bitmap (seq mod 1024).
Proof.
  unfold is_seq_marked, bit_at, WINDOW_SIZE. rewrite Z.shiftl_1_l. apply bit_test.
  apply Z.mod_pos_bound. lia.
Qed.

(** Replacing one word by one that differs at one bit. *)
Lemma bit_at_update bitmap j k f v :
  bitmap_ok bitmap → 0 <= j < 1024 → 0 <= k < 1024 →
  (∀ b, 0 <= b < 64 → Z.testbit (f (word_at bitmap (Z.to_nat (j / 64)))) b =
     if decide (b = j mod 64) then v else Z.testbit (word_at bitmap (Z.to_nat (j / 64))) b) →
  bit_at (<[Z.to_nat (j / 64) := f (word_at bitmap (Z.to_nat (j / 64)))]> bitmap) k =
  if decide (k = j) then v else bit_at bitmap k.
Proof.
  intros Hok Hj Hk Hf. unfold bit_at, word_at in *. unfold bitmap_ok in Hok.
  assert (0 <= j / 64 < 16) by (split; [apply Z.div_pos|apply Z.div_lt_upper_bound]; lia).
  pose proof (Z.mod_pos_bound k 64 ltac:(lia)). pose proof (Z.div_pos k 64).
  destruct (decide (k / 64 = j / 64)) as [E|E].
  - rewrite E, list_lookup_insert_eq by lia. cbn [from_option id]. rewrite Hf by done.
    assert (k = j ↔ k mod 64 = j mod 64).
    { split; [by intros ->|]. intros E'. rewrite (Z.div_mod k 64), (Z.div_mod j 64) by lia. lia. }
    repeat case_decide; tauto.
  - rewrite list_lookup_insert_ne by lia. rewrite decide_False; [done|]. congruence.
Qed.

Lemma mark_seq_bit bitmap seq k :
  bitmap_ok bitmap → 0 <= k < 1024 →
  bit_at (mark_seq bitmap seq) k = if decide (k = seq mod 1024) then true else bit_at bitmap k.
Proof.
  intros Hok Hk. unfold mark_seq, WINDOW_SIZE.
  apply (bit_at_update bitmap (seq mod 1024) k (λ w, Z.lor w (Z.shiftl 1 (seq mod 1024 mod 64))) true);
    [done|apply Z.mod_pos_bound; lia|done|].
  intros b Hb. pose proof (Z.mod_pos_bound (seq mod 1024) 64 ltac:(lia)).
  rewrite Z.shiftl_1_l, Z.lor_spec, Z.pow2_bits_eqb by lia.
  case_decide as E; [by rewrite E, Z.eqb_refl, orb_true_r|].
  by rewrite (proj2 (Z.eqb_neq _ b)), orb_false_r by lia.
Qed.

Lemma unmark_seq_bit bitmap seq k :
  bitmap_ok bitmap → 0 <= k < 1024 →
  bit_at (unmark_seq bitmap seq) k = if decide (k = seq mod 1024) then false else bit_at bitmap k.
Proof.
  intros Hok Hk. unfold unmark_seq, WINDOW_SIZE.
  apply (bit_at_update bitmap (seq mod 1024) k
    (λ w, Z.land w (as_u64 (Z.lnot (Z.shiftl 1 (seq mod 1024 mod 64))))) false);
    [done|apply Z.mod_pos_bound; lia|done|].
  intros b Hb. pose proof (Z.mod_pos_bound (seq mod 1024) 64 ltac:(lia)).
  unfold as_u64. change 18446744073709551616 with (2 ^ 64).
  rewrite Z.shiftl_1_l, Z.land_spec, Z.mod_pow2_bits_low, Z.lnot_spec, Z.pow2_bits_eqb by lia.
  case_decide as E; [by rewrite E, Z.eqb_refl, andb_false_r|].
  by rewrite (proj2 (Z.eqb_neq _ b)), andb_true_r by lia.
Qed.

Lemma mark_seq_ok bitmap seq : bitmap_ok bitmap → bitmap_ok (mark_seq bitmap seq).
Proof. unfold bitmap_ok, mark_seq. by rewrite length_insert. Qed.
Lemma unmark_seq_ok bitmap seq : bitmap_ok bitmap → bitmap_ok (unmark_seq bitmap seq).
Proof. unfold bitmap_ok, unmark_seq. by rewrite length_insert. Qed.
#[export] Hint Resolve mark_seq_ok unmark_seq_ok : rist.

Lemma zero_bitmap_bit k : bit_at zero_bitmap k = false.
Proof.
  unfold bit_at, word_at, zero_bitmap. destruct (replicate _ _ !! _) eqn:E; cbn.
  - apply lookup_replicate in E as [-> _]. apply Z.bits_0.
  - apply Z.bits_0.
Qed.

(** Residues modulo the window are those of the unwrapped index. *)
Lemma window_residue n : as_u16 n mod 1024 = n mod 1024.
Proof. ulia. Qed.

Lemma unmark_range_bit H n : ∀ i bitmap k,
  bitmap_ok bitmap → 0 <= k < 1024 →
  bitmap_ok (unmark_range bitmap (as_u16 H) i n) ∧
  (bit_at (unmark_range bitmap (as_u16 H) i n) k = true ↔
   bit_at bitmap k = true ∧ ∀ m, i <= m < i + Z.of_nat n → (H + m) mod 1024 ≠ k).
Proof.
  induction n as [|n IH]; intros i bitmap k Hok Hk; cbn [unmark_range].
  - split; [done|]. split; [|tauto]. intros. split; [done|lia].
  - destruct (IH (i + 1) (unmark_seq bitmap (wrapping_add16 (as_u16 H) i)) k) as [H1 H2];
      [auto with rist|done|]. split; [done|]. rewrite H2, unmark_seq_bit by done.
    assert (E : wrapping_add16 (as_u16 H) i mod 1024 = (H + i) mod 1024) by ulia. rewrite E.
    split.
    + case_decide as Ek; [by intros [? _]|]. intros [Hb Hm]. split; [done|]. intros m Hm'.
      destruct (decide (m = i)) as [->|]; [by apply not_eq_sym|]. apply Hm. lia.
    + intros [Hb Hm]. rewrite decide_False; [|intros ->; apply (Hm i); [lia|done]].
      split; [done|]. intros m Hm'. apply Hm. lia.
Qed.

(** ** Refinement to the set of emitted indices *)

Record merger_rel (self : BondingMerger) (H : Z) (S : gset Z) : Prop := {
  mr_bitmap : bitmap_ok (bm_bitmap self);
  mr_highest : bm_highest_seq self = Some (as_u16 H);
  mr_in : H ∈ S;
  mr_le : ∀ N, N ∈ S → N <= H;
  mr_bits : ∀ N, H - 1024 < N <= H → (bit_at (bm_bitmap self) (N mod 1024) = true ↔ N ∈ S)
}.

(** The index of an arriving number, relative to the highest index. *)
Definition merge_index (H seq : Z) : Z := H + as_i16 (wrapping_sub16 seq (as_u16 H)).
(** The specification: emit what is inside the window and was not emitted before. *)
Definition fresh (H : Z) (S : gset Z) (N : Z) : bool :=
  bool_decide (H - 1024 < N ∧ N ∉ S).

Lemma window_inj N N' H :
  H - 1024 < N <= H → H - 1024 < N' <= H → N mod 1024 = N' mod 1024 → N = N'.
Proof. ulia. Qed.

Lemma merge_index_mod H seq : is_u16 seq → as_u16 (merge_index H seq) = seq.
Proof. unfold merge_index. ulia. Qed.

Lemma process_first (self : BondingMerger) seq data :
  bm_highest_seq self = None → is_u16 seq →
  (process self seq data).2 = Some data ∧ merger_rel (process self seq data).1 seq {[seq]}.
Proof.
  intros E Hs. unfold process. rewrite E. cbn. split; [done|]. split; cbn.
  - by apply mark_seq_ok.
  - by rewrite as_u16_id.
  - set_solver.
  - intros N. rewrite elem_of_singleton. lia.
  - intros N HN. pose proof (Z.mod_pos_bound N 1024 ltac:(lia)).
    unfold clear_bitmap. rewrite mark_seq_bit, zero_bitmap_bit, elem_of_singleton by done.
    case_decide as Ek; [|split; [done|congruence]].
    split; [|done]. intros _. apply (window_inj N seq seq); [lia..|done].
Qed.

Lemma process_ahead self H S seq data :
  merger_rel self H S → is_u16 seq → H < merge_index H seq →
  (process self seq data).2 = Some data ∧
  merger_rel (process self seq data).1 (merge_index H seq) ({[merge_index H seq]} ∪ S).
Proof.
  intros [Hbm Hh Hin Hle Hbits] Hs Hlt. pose proof (merge_index_mod H seq Hs) as Hm.
  unfold process. rewrite Hh. unfold merge_index in *.
  pose proof (as_i16_range (wrapping_sub16 seq (as_u16 H))) as Hr.
  set (d := as_i16 (wrapping_sub16 seq (as_u16 H))) in *. clearbody d.
  rewrite (proj2 (Z.ltb_lt 0 d)) by lia. cbn [fst snd]. split; [done|].
  assert (Hu : as_u16 d = d) by (apply as_u16_id; unfold is_u16; lia). rewrite Hu.
  set (bitmap := advance_window (bm_bitmap self) (Some (as_u16 H)) d).
  assert (Hbit : bitmap_ok bitmap ∧ ∀ N, H + d - 1024 < N <= H + d →
    (bit_at bitmap (N mod 1024) = true ↔ N ∈ S)).
  { unfold bitmap, advance_window, WINDOW_SIZE. destruct (Z.leb_spec 1024 d).
    - split; [done|]. intros N HN. unfold clear_bitmap. rewrite zero_bitmap_bit.
      split; [done|]. intros HS%Hle. lia.
    - cbn [from_option id]. split.
      { by apply (unmark_range_bit H (Z.to_nat d) 1 (bm_bitmap self) 0). }
      intros N HN. pose proof (Z.mod_pos_bound N 1024 ltac:(lia)).
      destruct (unmark_range_bit H (Z.to_nat d) 1 (bm_bitmap self) (N mod 1024)) as [_ ->]; [done..|].
      destruct (decide (N <= H)) as [HNH|HNH].
      + rewrite Hbits by lia. split; [tauto|]. intros HS. split; [done|]. intros m Hm' E.
        assert (N = H + m) by (apply (window_inj N (H + m) (H + d)); lia). lia.
      + split; [|intros HS%Hle; lia]. intros [_ Hno]. exfalso. apply (Hno (N - H)); [lia|].
        f_equal. lia. }
  destruct Hbit as [Hok Hbit]. split; cbn.
  - by apply mark_seq_ok.
  - by rewrite Hm.
  - by apply elem_of_union_l, elem_of_singleton.
  - intros N. rewrite elem_of_union, elem_of_singleton. intros [->|HN%Hle]; lia.
  - intros N HN. pose proof (Z.mod_pos_bound N 1024 ltac:(lia)).
    rewrite mark_seq_bit, elem_of_union, elem_of_singleton by done.
    rewrite <- Hm, window_residue. case_decide as Ek.
    + split; [|done]. intros _. left. apply (window_inj N (H + d) (H + d)); lia.
    + rewrite Hbit by done. split; [by right|]. intros [->|?]; done.
Qed.

Lemma process_behind self H S seq data :
  merger_rel self H S → is_u16 seq → merge_index H seq <= H →
  let N := merge_index H seq in
  let r := process self seq data in
  r.2 = (if fresh H S N then Some data else None) ∧
  merger_rel r.1 H (if fresh H S N then {[N]} ∪ S else S).
Proof.
  intros Hrel Hs Hle N r. pose proof Hrel as [Hbm Hh Hin HleS Hbits].
  pose proof (merge_index_mod H seq Hs) as Hm. subst r. unfold process. rewrite Hh.
  fold N in Hm, Hle |- *. assert (Hd : as_i16 (wrapping_sub16 seq (as_u16 H)) = N - H)
    by (unfold N, merge_index; lia).
  pose proof (as_i16_range (wrapping_sub16 seq (as_u16 H))) as Hr. rewrite Hd in Hr |- *.
  rewrite (proj2 (Z.ltb_ge 0 (N - H))) by lia.
  assert (Hsame : ∀ e dd l, merger_rel (mkBondingMerger (bm_bitmap self) (Some (as_u16 H)) e dd l) H S)
    by (intros; by split).
  destruct (Z.eqb_spec (N - H) 0) as [E0|En].
  { assert (N = H) as -> by lia. unfold fresh. rewrite bool_decide_false by tauto. done. }
  assert (Hbe : WINDOW_SIZE <= as_u64 (as_i16 (- (N - H))) ↔ N <= H - 1024).
  { unfold WINDOW_SIZE. clear -Hr Hle En. clearbody N. ulia. }
  destruct (Z.leb_spec WINDOW_SIZE (as_u64 (as_i16 (- (N - H))))) as [Hb|Hb].
  { apply Hbe in Hb. unfold fresh. rewrite bool_decide_false by lia. done. }
  assert (HN : H - 1024 < N) by (apply Z.nle_gt; rewrite <- Hbe; lia).
  rewrite is_seq_marked_bit, <- Hm, window_residue.
  destruct (bit_at (bm_bitmap self) (N mod 1024)) eqn:Eb.
  { apply Hbits in Eb; [|lia]. unfold fresh. rewrite bool_decide_false by tauto. done. }
  assert (HNS : N ∉ S) by (rewrite <- Hbits by lia; congruence).
  unfold fresh. rewrite bool_decide_true by done. cbn [fst snd]. split; [done|]. split; cbn.
  - by apply mark_seq_ok.
  - done.
  - by apply elem_of_union_r.
  - intros M. rewrite elem_of_union, elem_of_singleton. intros [->|HM%HleS]; lia.
  - intros M HM. pose proof (Z.mod_pos_bound M 1024 ltac:(lia)).
    rewrite mark_seq_bit, window_residue, elem_of_union, elem_of_singleton by done. case_decide as Ek.
    + split; [|done]. intros _. left. apply (window_inj M N H); lia.
    + rewrite Hbits by done. split; [by right|]. intros [->|?]; done.
Qed.

Lemma process_refines self H S seq data :
  merger_rel self H S → is_u16 seq →
  let N := merge_index H seq in
  let r := process self seq data in
  r.2 = (if fresh H S N then Some data else None) ∧
  merger_rel r.1 (Z.max H N) (if fresh H S N then {[N]} ∪ S else S).
Proof.
  intros Hrel Hs N. destruct (decide (H < N)) as [Hlt|Hge].
  - destruct (process_ahead self H S seq data Hrel Hs Hlt) as [H1 H2]. fold N in H1, H2.
    replace (fresh H S N) with true.
    + by rewrite Z.max_r by lia.
    + symmetry. apply bool_decide_true. split; [lia|]. intros HS. apply (mr_le _ _ _ Hrel) in HS. lia.
  - rewrite Z.max_l by lia. apply process_behind; [done..|]. fold N. lia.
Qed.

(** ** Runs of the merger *)

Fixpoint merge_run (self : BondingMerger) (pkts : list (Z * bytes)) : list (option bytes) :=
  match pkts with
  | [] => []
  | (seq, data) :: rest => let '(self', r) := process self seq data in r :: merge_run self' rest
  end.

(** The specification on unwrapped indices: the highest index and the emitted ones. *)
Fixpoint spec_run (st : option (Z * gset Z)) (pkts : list (Z * bytes)) : list (option (Z * bytes)) :=
  match pkts with
  | [] => []
  | (seq, data) :: rest =>
      match st with
      | None => Some (seq, data) :: spec_run (Some (seq, {[seq]})) rest
      | Some (H, E) =>
          let N := merge_index H seq in
          if fresh H E N then Some (N, data) :: spec_run (Some (Z.max H N, {[N]} ∪ E)) rest
          else None :: spec_run (Some (Z.max H N, E)) rest
      end
  end.

Definition emitted_indices (l : list (option (Z * bytes))) : list Z :=
  omap (λ o, fst <$> o) l.

Lemma merge_run_refines pkts : ∀ self H S,
  merger_rel self H S → Forall (λ p, is_u16 p.1) pkts →
  merge_run self pkts = map (fmap snd) (spec_run (Some (H, S)) pkts).
Proof.
  induction pkts as [|[seq data] pkts IH]; intros self H S Hrel Hp; [done|].
  apply Forall_cons in Hp as [Hs Hp]. cbn [merge_run spec_run].
  destruct (process_refines self H S seq data Hrel Hs) as [H1 H2].
  destruct (process self seq data) as [self' r]. cbn [fst snd] in *. rewrite H1.
  destruct (fresh H S (merge_index H seq)); cbn; f_equal; by apply IH.
Qed.

Lemma spec_run_emitted pkts : ∀ H S,
  NoDup (emitted_indices (spec_run (Some (H, S)) pkts)) ∧
  ∀ N, N ∈ emitted_indices (spec_run (Some (H, S)) pkts) → N ∉ S.
Proof.
  induction pkts as [|[seq data] pkts IH]; intros H S; cbn [spec_run].
  { split; [by apply NoDup_nil|]. intros N HN. by apply not_elem_of_nil in HN. }
  destruct (fresh H S (merge_index H seq)) eqn:Ef.
  - apply bool_decide_eq_true in Ef as [_ Hn].
    destruct (IH (Z.max H (merge_index H seq)) ({[merge_index H seq]} ∪ S)) as [H1 H2].
    cbn. split.
    + apply NoDup_cons. split; [|done]. intros Hin%H2. apply Hin, elem_of_union_l. by apply elem_of_singleton.
    + intros N [->|HN%H2]%elem_of_cons; [done|]. intros HS. by apply HN, elem_of_union_r.
  - apply IH.
Qed.

(** (C20) Exactly-once merging: on every sequence of packets from any number of paths, the
    merger emits exactly what the set specification emits (a packet is emitted when its
    unwrapped index is less than 1024 behind the highest one and was not emitted before,
    so a gap filled by another path goes through and a copy does not), and no index is
    emitted twice. *)
Theorem bonding_exactly_once (pkts : list (Z * bytes)) :
  Forall (λ p, is_u16 p.1) pkts →
  merge_run BondingMerger_new pkts = map (fmap snd) (spec_run None pkts) ∧
  NoDup (emitted_indices (spec_run None pkts)).
Proof.
  destruct pkts as [|[seq data] pkts]; [by split; [|apply NoDup_nil]|].
  intros [Hs Hp]%Forall_cons. cbn [merge_run spec_run].
  destruct (process_first BondingMerger_new seq data eq_refl Hs) as [H1 H2].
  destruct (process BondingMerger_new seq data) as [self' r]. cbn [fst snd] in *. rewrite H1.
  cbn. split; [f_equal; by apply merge_run_refines|].
  destruct (spec_run_emitted pkts seq {[seq]}) as [H3 H4].
  apply NoDup_cons. split; [|done]. intros Hin%H4. by apply Hin, elem_of_singleton.
Qed.

Lemma bonding_exactly_once_witness :
  merge_run BondingMerger_new [(65535, [1]); (1, [3]); (65535, [1]); (0, [2]); (1, [3]); (64000, [9])] =
    [Some [1]; Some [3]; None; Some [2]; None; None].
Proof.
  rewrite (proj1 (bonding_exactly_once
    [(65535, [1]); (1, [3]); (65535, [1]); (0, [2]); (1, [3]); (64000, [9])]
    ltac:(repeat constructor; cbn; lia))).
  vm_compute. reflexivity.
Defined.
