(* ===== verification/Rtt.v ===== *)
(** * RTT estimation (rist-protocol/src/protocol/rtt.rs)

    An RFC 6298 style moving average over echo round trips.  Durations are whole
    nanoseconds, so every division of a [Duration] rounds down. *)

From S2P Require Import Prelude.

Record RttEstimator := mkRttEstimator {
  re_srtt : option Z;
  re_rttvar : option Z;
  re_last_request_time : option Z;
  re_last_request_timestamp : option Z;
  re_request_interval : Z;
  re_next_request_at : option Z
}.

Definition RttEstimator_new (request_interval : Z) : RttEstimator :=
  mkRttEstimator None None None None request_interval None.

Definition generate_request (self : RttEstimator) (now : Z) : RttEstimator * (Z * Z) :=
  let elapsed := as_u64 (as_micros (duration_since now (default now (re_last_request_time self)))) in
  let ts := match re_last_request_timestamp self with Some t => as_u64 (t + elapsed) | None => 0 end in
  (mkRttEstimator (re_srtt self) (re_rttvar self) (Some now) (Some ts) (re_request_interval self)
     (Some (now + re_request_interval self)),
   (as_u32 (Z.shiftr ts 32), as_u32 ts)).

(** RTTVAR and SRTT with gains 1/4 and 1/8. *)
Definition update_rtt (self : RttEstimator) (sample : Z) : RttEstimator :=
  let '(srtt, rttvar) :=
    match re_srtt self with
    | None => (sample, sample / 2)
    | Some srtt =>
        let rttvar := default (sample / 2) (re_rttvar self) in
        let diff := Z.abs (sample - srtt) in
        (srtt * 7 / 8 + sample / 8, rttvar * 3 / 4 + diff / 4)
    end in
  mkRttEstimator (Some srtt) (Some rttvar) (re_last_request_time self)
    (re_last_request_timestamp self) (re_request_interval self) (re_next_request_at self).

Definition from_micros (us : Z) : Z := us * 1000.

Definition on_response (self : RttEstimator) (now request_msw request_lsw processing_delay_us : Z)
    : RttEstimator :=
  match re_last_request_time self with
  | Some sent_time =>
      let total_time := duration_since now sent_time in
      let processing := from_micros processing_delay_us in
      update_rtt self (Z.max 0 (total_time - processing))
  | None => self
  end.

Definition srtt (self : RttEstimator) : option Z := re_srtt self.
Definition nack_delay (self : RttEstimator) : option Z := (λ s, s / 2) <$> re_srtt self.
Definition should_send_request (self : RttEstimator) (now : Z) : bool :=
  match re_next_request_at self with None => true | Some next => next <=? now end.

(** ** The estimate follows the samples *)

Definition updates (self : RttEstimator) (samples : list Z) : RttEstimator :=
  foldl update_rtt self samples.

(** The loss by rounding stays below 8 ns however many samples are averaged. *)
Definition in_band (lo hi : Z) (e : RttEstimator) : Prop :=
  match re_srtt e with
  | None => True
  | Some s => lo - 7 <= s <= hi ∧ match re_rttvar e with Some v => 0 <= v <= hi + 7 | None => True end
  end.

Lemma update_rtt_band lo hi e x :
  0 <= lo → lo <= x <= hi → in_band lo hi e → in_band lo hi (update_rtt e x).
Proof.
  intros Hlo Hx. unfold in_band, update_rtt.
  destruct (re_srtt e) as [s|]; cbn.
  - intros [Hs Hv]. split; [ulia|].
    destruct (re_rttvar e) as [v|]; cbn.
    + split; [ulia|]. assert (Z.abs (x - s) <= hi + 7) by lia. ulia.
    + split; [ulia|]. assert (Z.abs (x - s) <= hi + 7) by lia. ulia.
  - intros _. split; ulia.
Qed.

Lemma updates_band lo hi samples : ∀ e,
  0 <= lo → Forall (λ x, lo <= x <= hi) samples → in_band lo hi e → in_band lo hi (updates e samples).
Proof.
  induction samples as [|x l IH]; intros e Hlo Hs He; [done|]. apply Forall_cons in Hs as [Hx Hl].
  cbn. apply IH; [done..|]. by apply update_rtt_band.
Qed.

(** One step towards a constant sample: the error shrinks by 7/8, up to rounding. *)
Lemma update_rtt_error e s R :
  re_srtt e = Some s →
  ∃ s', re_srtt (update_rtt e R) = Some s' ∧ 8 * Z.abs (s' - R) <= 7 * Z.abs (s - R) + 14.
Proof. intros E. unfold update_rtt. rewrite E. cbn. eexists. split; [done|]. ulia. Qed.

Lemma updates_error n : ∀ e s R,
  re_srtt e = Some s →
  ∃ s', re_srtt (updates e (replicate n R)) = Some s' ∧
    8 ^ Z.of_nat n * Z.abs (s' - R) <= 7 ^ Z.of_nat n * Z.abs (s - R) + 14 * (8 ^ Z.of_nat n - 7 ^ Z.of_nat n).
Proof.
  induction n as [|n IH]; intros e s R E.
  - exists s. cbn [replicate updates foldl]. change (Z.of_nat 0) with 0. split; [done|]. lia.
  - destruct (update_rtt_error e s R E) as (s1 & E1 & H1).
    destruct (IH _ _ R E1) as (s' & E' & H'). exists s'. split; [exact E'|].
    rewrite Nat2Z.inj_succ, !Z.pow_succ_r by lia.
    pose proof (Z.pow_pos_nonneg 7 (Z.of_nat n) ltac:(lia) ltac:(lia)).
    set (a := 8 ^ Z.of_nat n) in *. set (b := 7 ^ Z.of_nat n) in *. clearbody a b.
    assert (b * (8 * Z.abs (s1 - R)) <= b * (7 * Z.abs (s - R) + 14)) by (apply Z.mul_le_mono_nonneg_l; lia).
    lia.
Qed.

(** The smoothed RTT tracks the measurements: with all samples in [lo, hi] the estimate
    stays in [lo - 7 ns, hi] and the variance in [0, hi + 7 ns], for any number of samples
    (rounding never accumulates); and a constant sample R makes the error decay by a factor
    7/8 per sample, to within 14 ns.  The NACK delay is half the estimate. *)
Theorem rtt_tracks_samples (interval lo hi R s : Z) (samples : list Z) (e : RttEstimator) (n : nat) :
  0 <= lo → Forall (λ x, lo <= x <= hi) samples → re_srtt e = Some s →
  in_band lo hi (updates (RttEstimator_new interval) samples) ∧
  (∃ s', srtt (updates e (replicate n R)) = Some s' ∧
    8 ^ Z.of_nat n * Z.abs (s' - R) <= 7 ^ Z.of_nat n * Z.abs (s - R) + 14 * (8 ^ Z.of_nat n - 7 ^ Z.of_nat n) ∧
    nack_delay (updates e (replicate n R)) = Some (s' / 2)).
Proof.
  intros Hlo Hs He. split; [by apply updates_band|].
  destruct (updates_error n e s R He) as (s' & E & H). exists s'.
  unfold nack_delay, srtt. by rewrite E.
Qed.

Lemma rtt_tracks_samples_witness :
  ∃ s', srtt (updates (update_rtt (RttEstimator_new 1000) 1000) (replicate 3 200)) = Some s' ∧
    8 ^ 3 * Z.abs (s' - 200) <= 7 ^ 3 * Z.abs (1000 - 200) + 14 * (8 ^ 3 - 7 ^ 3).
Proof.
  destruct (proj2 (rtt_tracks_samples 1000 5 10 200 1000 [5; 7; 10]
    (update_rtt (RttEstimator_new 1000) 1000) 3 ltac:(lia) ltac:(repeat constructor; lia) eq_refl))
    as (s' & H1 & H2 & _).
  exists s'. split; [exact H1|exact H2].
Defined.

(** ** The echo exchange *)

Lemma request_timestamp_split self now :
  match re_last_request_timestamp self with Some t => is_u64 t | None => True end →
  let '(self', (msw, lsw)) := generate_request self now in
  re_last_request_timestamp self' = Some (msw * 2 ^ 32 + lsw).
Proof.
  intros Ht. unfold generate_request. cbn [re_last_request_timestamp]. f_equal.
  destruct (re_last_request_timestamp self) as [t|]; [|done].
  pose proof (as_u64_range (t + as_u64 (as_micros (duration_since now (default now (re_last_request_time self)))))) as Hr.
  set (ts := as_u64 _) in *. clearbody ts. rewrite Z.shiftr_div_pow2 by lia.
  change (2 ^ 32) with 4294967296 in *. ulia.
Qed.

(** Requests sent and responses handled, with their times. *)
Inductive rtt_op : Type :=
  | RttRequest (now : Z)
  | RttResponse (now request_msw request_lsw processing_delay_us : Z).

Definition rtt_step (e : RttEstimator) (o : rtt_op) : RttEstimator :=
  match o with
  | RttRequest now => (generate_request e now).1
  | RttResponse now msw lsw proc => on_response e now msw lsw proc
  end.
Definition rtt_run (e : RttEstimator) (ops : list rtt_op) : RttEstimator := foldl rtt_step e ops.

(** The measurements of a run: the time from the latest request, less the processing time. *)
Fixpoint rtt_samples (last : option Z) (ops : list rtt_op) : list Z :=
  match ops with
  | [] => []
  | RttRequest now :: rest => rtt_samples (Some now) rest
  | RttResponse now _ _ proc :: rest =>
      match last with Some t => [Z.max 0 (Z.max 0 (now - t) - proc * 1000)] | None => [] end ++ rtt_samples last rest
  end.

(** Everything but the average is kept by a sample. *)
Definition same_average (e e' : RttEstimator) : Prop := re_srtt e = re_srtt e' ∧ re_rttvar e = re_rttvar e'.

Lemma updates_average samples : ∀ e e', same_average e e' → same_average (updates e samples) (updates e' samples).
Proof.
  induction samples as [|x l IH]; intros e e' [H1 H2]; [done|]. cbn. apply IH. unfold update_rtt. rewrite H1, H2. by destruct (re_srtt e').
Qed.

Lemma rtt_run_samples ops : ∀ e,
  same_average (rtt_run e ops) (updates e (rtt_samples (re_last_request_time e) ops)).
Proof.
  induction ops as [|[now|now msw lsw proc] ops IH]; intros e; [done|..]; cbn [rtt_run foldl rtt_step rtt_samples].
  - specialize (IH (generate_request e now).1). cbn [generate_request fst re_last_request_time] in IH.
    destruct IH as [H1 H2].
    match type of H1 with _ = re_srtt (updates ?x ?l) => destruct (updates_average l x e) as [E1 E2]; [done|] end.
    split; [exact (eq_trans H1 E1)|exact (eq_trans H2 E2)].
  - unfold on_response. destruct (re_last_request_time e) as [t|] eqn:Et; [|specialize (IH e); by rewrite Et in IH].
    specialize (IH (update_rtt e (Z.max 0 (duration_since now t - from_micros proc)))).
    replace (re_last_request_time (update_rtt _ _)) with (Some t) in IH
      by (unfold update_rtt; rewrite <- Et; by destruct (re_srtt e)). exact IH.
Qed.

Lemma rtt_run_words ops : ∀ e,
  match re_last_request_timestamp e with Some t => is_u64 t | None => True end →
  match re_last_request_timestamp (rtt_run e ops) with Some t => is_u64 t | None => True end ∧
  re_request_interval (rtt_run e ops) = re_request_interval e.
Proof.
  induction ops as [|[now|now msw lsw proc] ops IH]; intros e He; [done|..]; cbn [rtt_run foldl rtt_step].
  - destruct (IH (generate_request e now).1) as [H1 H2]; [|done].
    cbn. destruct (re_last_request_timestamp e); [apply as_u64_range|ulia].
  - assert (E : re_last_request_timestamp (on_response e now msw lsw proc) = re_last_request_timestamp e ∧
      re_request_interval (on_response e now msw lsw proc) = re_request_interval e)
      by (unfold on_response, update_rtt; destruct (re_last_request_time e), (re_srtt e); done).
    destruct E as [E1 E2]. destruct (IH (on_response e now msw lsw proc)) as [H1 H2]; [by rewrite E1|].
    split; [exact H1|]. by rewrite <- E2.
Qed.

(** (C31) What the estimator measures, over every run of requests and responses from a new
    estimator: the smoothed RTT and its variance are the moving averages of exactly one sample per
    response handled after the first request, namely the time since the latest request less
    the responder's processing time (never below 0); with all samples in [lo, hi] they stay
    in [lo - 7 ns, hi] and [0, hi + 7 ns].  Responses before the first request are ignored; all
    later ones count, repeated and unsolicited ones too and whatever timestamp they echo, since
    the time of the request is never cleared and the timestamp never compared, although a comment
    in the code says it is verified.  A request carries its 64-bit timestamp as two words,
    and the next one is due one interval later. *)
Theorem rtt_exchange (interval : Z) (ops : list rtt_op) :
  let e := rtt_run (RttEstimator_new interval) ops in
  let samples := rtt_samples None ops in
  srtt e = srtt (updates (RttEstimator_new interval) samples) ∧
  re_rttvar e = re_rttvar (updates (RttEstimator_new interval) samples) ∧
  (∀ lo hi, 0 <= lo → Forall (λ x, lo <= x <= hi) samples → in_band lo hi e) ∧
  ∀ t0, let '(e1, (msw, lsw)) := generate_request e t0 in
    re_last_request_timestamp e1 = Some (msw * 2 ^ 32 + lsw) ∧
    ∀ t, should_send_request e1 t = true ↔ t0 + interval <= t.
Proof.
  cbn zeta. destruct (rtt_run_samples ops (RttEstimator_new interval)) as [H1 H2].
  destruct (rtt_run_words ops (RttEstimator_new interval) I) as [H3 H4]. cbn [RttEstimator_new re_last_request_time] in H1, H2.
  split_and!; [exact H1|exact H2| |].
  - intros lo hi Hlo Hs. pose proof (updates_band lo hi _ (RttEstimator_new interval) Hlo Hs I) as Hb.
    unfold in_band in *. by rewrite H1, H2.
  - intros t0. pose proof (request_timestamp_split _ t0 H3) as Hw.
    set (e := rtt_run (RttEstimator_new interval) ops) in *.
    destruct (generate_request e t0) as [e1 [msw lsw]] eqn:Eg. split; [exact Hw|].
    unfold generate_request in Eg. injection Eg as <- _ _. intros t. unfold should_send_request. cbn [re_next_request_at].
    rewrite H4. apply Z.leb_le.
Qed.

(** An early response, a request, its response, and the same response once more. *)
Lemma rtt_exchange_witness :
  let ops := [RttResponse 1000000 0 0 0; RttRequest 5000000; RttResponse 15000000 0 0 1000; RttResponse 25000000 0 0 1000] in
  rtt_samples None ops = [9000000; 19000000] ∧
  srtt (rtt_run (RttEstimator_new 1000) ops) = Some 10250000 ∧
  in_band 9000000 19000000 (rtt_run (RttEstimator_new 1000) ops).
Proof.
  cbn zeta. split; [reflexivity|]. destruct (rtt_exchange 1000
    [RttResponse 1000000 0 0 0; RttRequest 5000000; RttResponse 15000000 0 0 1000; RttResponse 25000000 0 0 1000])
    as (H1 & _ & H2 & _).
  split; [rewrite H1; reflexivity|]. apply H2; [lia|]. repeat constructor; vm_compute; discriminate.
Defined.
