(* ===== verification/Float64.v ===== *)
(** * IEEE 754 doubles

    The [f64] operations the receiver statistics use, on the Standard Library's
    specification of binary floating point at 53 bits of precision. *)

From Stdlib Require Import Floats.SpecFloat.
From S2P Require Import Prelude.

Abbreviation f64 := spec_float.

(** [z as f64] for an unsigned integer: rounded to nearest, ties to even. *)
Definition f64_of_uint (z : Z) : f64 := binary_normalize 53 1024 z 0 false.

Definition f64_add : f64 → f64 → f64 := SFadd 53 1024.
Definition f64_sub : f64 → f64 → f64 := SFsub 53 1024.
Definition f64_mul : f64 → f64 → f64 := SFmul 53 1024.
Definition f64_div : f64 → f64 → f64 := SFdiv 53 1024.
Definition f64_abs : f64 → f64 := SFabs.
Definition f64_ne (a b : f64) : bool := negb (SFeqb a b).

(** The integer part of a finite value, towards zero. *)
Definition f64_trunc (m : positive) (e : Z) : Z :=
  if 0 <=? e then Z.pos m * 2 ^ e else Z.pos m / 2 ^ (- e).

(** [f as uN]: truncates, saturates at both ends, NaN gives 0. *)
Definition f64_as_uint (max : Z) (f : f64) : Z :=
  match f with
  | S754_zero _ | S754_nan => 0
  | S754_infinity s => if s then 0 else max
  | S754_finite s m e => if s then 0 else Z.min max (f64_trunc m e)
  end.

(** [Duration::as_secs_f64] *)
Definition as_secs_f64 (d : Z) : f64 :=
  f64_add (f64_of_uint (d / 1000000000))
    (f64_div (f64_of_uint (d mod 1000000000)) (f64_of_uint 1000000000)).

Lemma f64_as_uint_range max f : 0 <= max → 0 <= f64_as_uint max f <= max.
Proof.
  intros Hm. destruct f as [s|s| |s m e]; cbn; try (destruct s; lia); [lia|].
  destruct s; [lia|]. assert (0 <= f64_trunc m e); [|lia]. unfold f64_trunc.
  destruct (Z.leb_spec 0 e).
  - apply Z.mul_nonneg_nonneg; [lia|]. apply Z.pow_nonneg. lia.
  - apply Z.div_pos; [lia|]. apply Z.pow_pos_nonneg; lia.
Qed.
