(* ===== verification/Float64Props.v ===== *)
(** * Rounding of quotients of integers

    How the binary64 operations of [Float64] act on the values the loss fraction is computed
    from: integers below 2^53 are exact, a quotient is off by less than one unit in its last
    place, and the product with 256 is exact. *)

From Stdlib Require Import Floats.SpecFloat.
From S2P Require Import Prelude Float64.

Lemma digits_log2 p : Z.pos (digits2_pos p) = Z.log2 (Z.pos p) + 1.
Proof.
  induction p as [p IH|p IH|]; [| |done]; cbn [digits2_pos]; rewrite Pos2Z.inj_succ, IH.
  - rewrite Pos2Z.inj_xI, Z.log2_succ_double by lia. lia.
  - rewrite Pos2Z.inj_xO, Z.log2_double by lia. lia.
Qed.

Lemma Zdigits2_unique z d : 0 < d → 2 ^ (d - 1) <= z < 2 ^ d → Zdigits2 z = d.
Proof.
  intros Hd Hz. assert (0 < 2 ^ (d - 1)) by (apply Z.pow_pos_nonneg; lia).
  destruct z as [|p|p]; [lia| |lia]. cbn [Zdigits2]. rewrite digits_log2, (Z.log2_unique _ (d - 1)); [lia|lia|].
  by replace (Z.succ (d - 1)) with d by lia.
Qed.

Lemma fexp_normal x : -1021 <= x → fexp 53 1024 x = x - 53.
Proof. unfold fexp, emin. lia. Qed.

(** The last step of rounding: a mantissa that just overflowed is halved. *)
Lemma round_last r e :
  2 ^ 52 <= r <= 2 ^ 53 → -1000 <= e <= 900 →
  ∃ p e2, (let '(mrs, e') := shr_fexp 53 1024 r e loc_Exact in
     match shr_m mrs with
     | Z0 => S754_zero false
     | Zpos m => if e' <=? 1024 - 53 then S754_finite false m e' else S754_infinity false
     | Zneg _ => S754_nan
     end) = S754_finite false p e2 ∧ e <= e2 <= e + 1 ∧ Z.pos p * 2 ^ (e2 - e) = r ∧
    2 ^ 52 <= Z.pos p < 2 ^ 53 ∧ (r < 2 ^ 53 → e2 = e).
Proof.
  intros Hr He. unfold shr_fexp. destruct (decide (r = 2 ^ 53)) as [->|Hne].
  - exists (2 ^ 52)%positive, (e + 1). rewrite (Zdigits2_unique _ 54) by lia. rewrite fexp_normal by lia.
    replace (54 + e - 53 - e) with 1 by lia. cbn [shr shr_record_of_loc].
    cbn [SpecFloat.iter_pos]. change (shr_1 _) with (Build_shr_record (Z.pos (2 ^ 52)%positive) false false). cbn [shr_m].
    rewrite (proj2 (Z.leb_le _ _)) by lia.
    split_and!; try done; try lia. by replace (e + 1 - e) with 1 by lia.
  - rewrite (Zdigits2_unique _ 53) by lia. rewrite fexp_normal by lia.
    replace (53 + e - 53 - e) with 0 by lia. cbn [shr shr_record_of_loc shr_m].
    destruct r as [|p|p]; [lia| |lia]. exists p, e. rewrite (proj2 (Z.leb_le _ _)) by lia.
    rewrite Z.sub_diag, Z.mul_1_r. split_and!; done || lia.
Qed.

Lemma round_choice m l : ∃ v, (v = 0 ∨ v = 1) ∧ round_nearest_even m l = m + v ∧ (l = loc_Exact → v = 0).
Proof.
  destruct l as [|[]]; cbn; [|destruct (Z.even m)|..];
    first [exists 0; split_and!; [by left|lia|done] | exists 1; split_and!; [by right|lia|done]].
Qed.

Lemma shr_record_m m l : shr_m (shr_record_of_loc m l) = m.
Proof. by destruct l as [|[]]. Qed.
Lemma loc_of_record m l : loc_of_shr_record (shr_record_of_loc m l) = l.
Proof. by destruct l as [|[]]. Qed.
Lemma shr_1_div r : 0 <= shr_m r → shr_m (shr_1 r) = shr_m r / 2.
Proof.
  destruct r as [m r s]; cbn [shr_m]. intros Hm. destruct m as [|[p|p|]|p]; cbn; try lia; try done.
  - rewrite Pos2Z.inj_xI. apply Z.div_unique with 1; lia.
  - rewrite Pos2Z.inj_xO. apply Z.div_unique with 0; lia.
Qed.

(** Rounding a mantissa of 53 or 54 bits: it is cut to 53 bits and perhaps increased by one. *)
Lemma round_aux_spec m e l :
  2 ^ 52 <= m < 2 ^ 54 → -1000 <= e <= 899 →
  ∃ u v p e2, (u = 0 ∨ u = 1) ∧ (v = 0 ∨ v = 1) ∧
    binary_round_aux 53 1024 false m e l = S754_finite false p e2 ∧
    e + u <= e2 <= e + 2 ∧ Z.pos p * 2 ^ (e2 - (e + u)) = m / 2 ^ u + v ∧ 2 ^ 52 <= Z.pos p < 2 ^ 53 ∧
    (m < 2 ^ 53 → l = loc_Exact → Z.pos p = m ∧ e2 = e).
Proof.
  intros Hm He. unfold binary_round_aux. unfold shr_fexp at 1.
  destruct (Z.lt_ge_cases m (2 ^ 53)) as [Hlt|Hge].
  - rewrite (Zdigits2_unique _ 53) by lia. rewrite fexp_normal by lia.
    replace (53 + e - 53 - e) with 0 by lia. cbn [shr]. rewrite shr_record_m, loc_of_record.
    destruct (round_choice m l) as (v & Hv & -> & Hex).
    destruct (round_last (m + v) e) as (p & e2 & -> & He2 & Hp & Hpr & Hsame); [lia|lia|].
    exists 0, v, p, e2. rewrite Z.add_0_r, Z.div_1_r. split_and!; try done; try lia.
    intros _ Hl. rewrite (Hex Hl) in *. rewrite (Hsame ltac:(lia)) in *. split; [|done].
    rewrite Z.sub_diag in Hp. lia.
  - rewrite (Zdigits2_unique _ 54) by lia. rewrite fexp_normal by lia.
    replace (54 + e - 53 - e) with 1 by lia. cbn [shr SpecFloat.iter_pos].
    pose proof (shr_1_div (shr_record_of_loc m l)) as Hd. rewrite shr_record_m in Hd. rewrite Hd by lia.
    destruct (round_choice (m / 2) (loc_of_shr_record (shr_1 (shr_record_of_loc m l)))) as (v & Hv & -> & _).
    assert (2 ^ 52 <= m / 2 < 2 ^ 53) by (split; [apply Z.div_le_lower_bound|apply Z.div_lt_upper_bound]; lia).
    destruct (round_last (m / 2 + v) (e + 1)) as (p & e2 & -> & He2 & Hp & Hpr & _); [lia|lia|].
    exists 1, v, p, e2. split_and!; done || lia.
Qed.

Lemma iter_xO p d : Z.pos (Pos.iter xO p d) = Z.pos p * 2 ^ Z.pos d.
Proof.
  rewrite (Pos.iter_swap_gen _ _ Z.pos xO (Z.mul 2)) by done.
  rewrite <- Z.shiftl_mul_pow2 by lia. done.
Qed.

(** An integer below 2^53 is represented exactly, with a mantissa of 53 bits. *)
Lemma f64_of_uint_exact z :
  0 < z < 2 ^ 53 →
  ∃ p k, f64_of_uint z = S754_finite false p (- k) ∧ Z.pos p = z * 2 ^ k ∧ 2 ^ 52 <= Z.pos p < 2 ^ 53 ∧
    0 <= k <= 52 ∧ k = 52 - Z.log2 z.
Proof.
  intros Hz. unfold f64_of_uint, binary_normalize, binary_round. destruct z as [|m|m]; [lia| |lia].
  pose proof (Z.log2_spec (Z.pos m) ltac:(lia)) as Hlog. pose proof (Z.log2_nonneg (Z.pos m)) as H0.
  assert (Hl : Z.log2 (Z.pos m) <= 52) by (apply Z.lt_succ_r, Z.log2_lt_pow2; lia).
  rewrite digits_log2. set (g := Z.log2 (Z.pos m)) in *. rewrite fexp_normal by lia.
  unfold shl_align. replace (g + 1 + 0 - 53 - 0) with (- (52 - g)) by lia.
  assert (Hscale : 2 ^ 52 <= Z.pos m * 2 ^ (52 - g) < 2 ^ 53).
  { replace 52 with (g + (52 - g)) at 1 by lia. replace 53 with (Z.succ g + (52 - g)) by lia.
    rewrite !Z.pow_add_r by lia. assert (0 < 2 ^ (52 - g)) by (apply Z.pow_pos_nonneg; lia). nia. }
  destruct (52 - g) as [|d|d] eqn:Ed; [| |lia].
  - change (- 0) with 0. cbv iota beta. destruct (round_aux_spec (Z.pos m) 0 loc_Exact) as (u & v & p & e2 & _ & _ & -> & _ & _ & Hp & Hx); [lia|lia|].
    destruct (Hx ltac:(lia) eq_refl) as [Hpm ->]. exists p, 0. split_and!; done || lia.
  - replace (g + 1 + 0 - 53) with (- Z.pos d) by lia. change (- Z.pos d) with (Z.neg d) at 1. cbv iota beta.
    rewrite iter_xO. destruct (round_aux_spec (Z.pos m * 2 ^ Z.pos d) (- Z.pos d) loc_Exact)
      as (u & v & p & e2 & _ & _ & -> & _ & _ & Hp & Hx); [lia|lia|].
    destruct (Hx ltac:(lia) eq_refl) as [Hpm ->]. exists p, (Z.pos d). split_and!; done || lia.
Qed.

(** Multiplying by a power of two is exact. *)
Lemma round_aux_shift p x :
  2 ^ 52 <= Z.pos p < 2 ^ 53 → -900 <= x <= 800 →
  binary_round_aux 53 1024 false (Z.pos (p * 4503599627370496)) x loc_Exact = S754_finite false p (x + 52).
Proof.
  intros Hp Hx. unfold binary_round_aux. unfold shr_fexp at 1.
  assert (Hd : Zdigits2 (Z.pos (p * 4503599627370496)) = 105).
  { apply Zdigits2_unique; [lia|]. rewrite Pos2Z.inj_mul. lia. }
  rewrite Hd.
  rewrite fexp_normal by lia. replace (105 + x - 53 - x) with 52 by lia. cbn [shr].
  assert (Hit : SpecFloat.iter_pos shr_1 52 (shr_record_of_loc (Z.pos (p * 4503599627370496)) loc_Exact) =
    Build_shr_record (Z.pos p) false false) by (rewrite Pos.mul_comm; reflexivity).
  rewrite Hit. cbn [shr_m loc_of_shr_record round_nearest_even].
  destruct (round_last (Z.pos p) (x + 52)) as (p' & e2 & -> & _ & Hpp & _ & Hsame); [lia|lia|].
  rewrite (Hsame ltac:(lia)) in *. f_equal. rewrite Z.sub_diag in Hpp. lia.
Qed.

(** The quotient of two integers below 2^53, rounded. *)
Lemma f64_quotient l n :
  0 < l < 2 ^ 53 → 0 < n < 2 ^ 53 →
  ∃ u v p e2 k1 k2 q r, f64_div (f64_of_uint l) (f64_of_uint n) = S754_finite false p e2 ∧
    (u = 0 ∨ u = 1) ∧ (v = 0 ∨ v = 1) ∧ k1 = 52 - Z.log2 l ∧ k2 = 52 - Z.log2 n ∧ 0 <= k1 <= 52 ∧ 0 <= k2 <= 52 ∧
    k2 - k1 - 53 + u <= e2 <= k2 - k1 - 51 ∧
    l * 2 ^ k1 * 2 ^ 53 = q * (n * 2 ^ k2) + r ∧ 0 <= r < n * 2 ^ k2 ∧ n * 2 ^ k2 < 2 ^ 53 ∧
    Z.pos p * 2 ^ (e2 - (k2 - k1 - 53 + u)) = q / 2 ^ u + v ∧ 2 ^ 52 <= Z.pos p < 2 ^ 53.
Proof.
  intros Hl Hn.
  destruct (f64_of_uint_exact l) as (p1 & k1 & -> & E1 & Hp1 & Hk1 & L1); [lia|].
  destruct (f64_of_uint_exact n) as (p2 & k2 & -> & E2 & Hp2 & Hk2 & L2); [lia|].
  unfold f64_div, SFdiv, SFdiv_core_binary.
  rewrite !(Zdigits2_unique _ 53) by lia. rewrite fexp_normal by lia.
  replace (Z.min (53 + - k1 - (53 + - k2) - 53) (- k1 - - k2)) with (k2 - k1 - 53) by lia.
  replace (- k1 - - k2 - (k2 - k1 - 53)) with 53 by lia. cbv iota.
  rewrite Z.shiftl_mul_pow2 by lia. unfold Z.div_eucl at 1.
  pose proof (Z_div_mod (Z.pos p1 * 2 ^ 53) (Z.pos p2) ltac:(lia)) as Hdm. unfold Z.div_eucl in Hdm.
  change (Z.pos p1 * 2 ^ 53) with (Z.pos (p1 * 2 ^ 53)) in *.
  destruct (Z.pos_div_eucl (p1 * 2 ^ 53) (Z.pos p2)) as [q r]. destruct Hdm as [Hq Hr].
  change (Z.pos (p1 * 2 ^ 53)) with (Z.pos p1 * 2 ^ 53) in Hq.
  assert (Hqr : 2 ^ 52 <= q < 2 ^ 54) by nia.
  destruct (round_aux_spec q (k2 - k1 - 53) (new_location (Z.pos p2) r)) as (u & v & p & e2 & Hu & Hv & E & He & Hp & Hpr & _);
    [lia|lia|].
  exists u, v, p, e2, k1, k2, q, r. rewrite <- E1, <- E2. split_and!; try done; try lia.
Qed.

(** The quotient of two 32-bit integers, at most 1. *)
Lemma f64_div_spec l n :
  0 < l <= n → n < 2 ^ 32 →
  ∃ u v p e2 k1 k2 q r, f64_div (f64_of_uint l) (f64_of_uint n) = S754_finite false p e2 ∧
    (u = 0 ∨ u = 1) ∧ (v = 0 ∨ v = 1) ∧ 0 <= k2 <= k1 ∧ 21 <= k1 <= 52 ∧ k2 - k1 - 53 + u <= e2 <= k2 - k1 - 51 ∧
    l * 2 ^ k1 * 2 ^ 53 = q * (n * 2 ^ k2) + r ∧ 0 <= r < n * 2 ^ k2 ∧ n * 2 ^ k2 < 2 ^ 53 ∧
    Z.pos p * 2 ^ (e2 - (k2 - k1 - 53 + u)) = q / 2 ^ u + v ∧ 2 ^ 52 <= Z.pos p < 2 ^ 53.
Proof.
  intros Hl Hn. assert (2 ^ 32 < 2 ^ 53) by lia.
  assert (Hlog : Z.log2 l <= Z.log2 n) by (apply Z.log2_le_mono; lia).
  assert (Hlog2 : Z.log2 l <= 31) by (apply Z.lt_succ_r, Z.log2_lt_pow2; lia).
  destruct (f64_quotient l n) as (u & v & p & e2 & k1 & k2 & q & r & E & Hu & Hv & L1 & L2 & Hk1 & Hk2 & He & Hrest); [lia|lia|].
  exists u, v, p, e2, k1, k2, q, r. split_and!; try done; lia || apply Hrest.
Qed.

Lemma shr_iter n : ∀ r, 0 <= shr_m r → 0 <= shr_m (SpecFloat.iter_pos shr_1 n r) ∧
  shr_m (SpecFloat.iter_pos shr_1 n r) = shr_m r / 2 ^ Z.pos n.
Proof.
  assert (H1 : ∀ r, 0 <= shr_m r → 0 <= shr_m (shr_1 r)) by (intros r Hr; rewrite shr_1_div by done; apply Z.div_pos; lia).
  assert (Hp : ∀ m, 0 < 2 ^ Z.pos m) by (intros; apply Z.pow_pos_nonneg; lia).
  induction n as [n IH|n IH|]; intros r Hr; cbn [SpecFloat.iter_pos].
  - destruct (IH (shr_1 r) (H1 r Hr)) as [Ha Ea]. destruct (IH _ Ha) as [Hb Eb]. split; [done|].
    rewrite Eb, Ea, shr_1_div by done. specialize (Hp n). rewrite !Z.div_div by lia. f_equal.
    rewrite Pos2Z.inj_xI. replace (2 * Z.pos n + 1) with (1 + Z.pos n + Z.pos n) by lia.
    rewrite !Z.pow_add_r by lia. ring.
  - destruct (IH r Hr) as [Ha Ea]. destruct (IH _ Ha) as [Hb Eb]. split; [done|].
    rewrite Eb, Ea. specialize (Hp n). rewrite Z.div_div by lia.
    change (Z.pos n~0) with (2 * Z.pos n). rewrite <- Z.add_diag, Z.pow_add_r by lia. done.
  - split; [by apply H1|]. by apply shr_1_div.
Qed.

(** Rounding a longer mantissa: it is cut to 53 bits and perhaps increased by one. *)
Lemma round_aux_long m e l s :
  0 < s → 2 ^ (52 + s) <= m < 2 ^ (53 + s) → -900 <= e + s <= 800 → -1000 <= e →
  ∃ v p e2, (v = 0 ∨ v = 1) ∧ binary_round_aux 53 1024 false m e l = S754_finite false p e2 ∧
    e + s <= e2 <= e + s + 1 ∧ Z.pos p * 2 ^ (e2 - (e + s)) = m / 2 ^ s + v ∧ 2 ^ 52 <= Z.pos p < 2 ^ 53.
Proof.
  intros Hs Hm He He'. unfold binary_round_aux. unfold shr_fexp at 1.
  rewrite (Zdigits2_unique m (53 + s)) by (replace (53 + s - 1) with (52 + s) by lia; lia).
  rewrite fexp_normal by lia. replace (53 + s + e - 53 - e) with s by lia. destruct s as [|n|n]; [lia| |lia].
  cbn [shr]. assert (H0 : 0 < 2 ^ (52 + Z.pos n)) by (apply Z.pow_pos_nonneg; lia).
  destruct (shr_iter n (shr_record_of_loc m l)) as [_ Hd]; [rewrite shr_record_m; lia|]. rewrite shr_record_m in Hd.
  rewrite Hd. match goal with |- context [round_nearest_even ?a ?b] => destruct (round_choice a b) as (v & Hv & -> & _) end.
  assert (Hq : 2 ^ 52 <= m / 2 ^ Z.pos n < 2 ^ 53).
  { rewrite !Z.pow_add_r in Hm by lia. assert (0 < 2 ^ Z.pos n) by (apply Z.pow_pos_nonneg; lia).
    split; [apply Z.div_le_lower_bound|apply Z.div_lt_upper_bound]; lia. }
  destruct (round_last (m / 2 ^ Z.pos n + v) (e + Z.pos n)) as (p & e2 & -> & He2 & Hp & Hpr & _); [lia|lia|].
  exists v, p, e2. split_and!; done || lia.
Qed.

(** [(us as f64 / 1_000_000.0 * 90000.0) as u32] from 47722 seconds on (and up to 2^53 us, which
    are 285 years): the product is above [u32::MAX] by more than the rounding can take away. *)
Lemma clock_90k_saturates us :
  47722000000 <= us < 2 ^ 53 →
  f64_as_uint u32_max (f64_mul (f64_div (f64_of_uint us) (f64_of_uint 1000000)) (f64_of_uint 90000)) = u32_max.
Proof.
  intros Hus.
  destruct (f64_quotient us 1000000) as (u & v & p & e & k1 & k2 & q & r & -> & Hu & Hv & _ & Ek2 & Hk1 & _ & He & Hq & Hr & _ & Hp & Hpr);
    [lia|lia|]. change (52 - Z.log2 1000000) with 33 in Ek2. subst k2.
  change (f64_of_uint 90000) with (S754_finite false 6184752906240000 (-36)). unfold f64_mul, SFmul. cbn [xorb].
  (* the quotient, scaled to an integer *)
  set (x := e - (33 - k1 - 53)). assert (Hx : 0 <= x <= 2) by lia.
  assert (HA : us * 2 ^ (k1 + 20) - 2000000 <= Z.pos p * 2 ^ x * 1000000).
  { assert (Hqa : q - 1 <= Z.pos p * 2 ^ x).
    { destruct Hu as [-> | ->]; [replace x with (e - (33 - k1 - 53 + 0)) by lia; rewrite Hp, Z.div_1_r; lia|].
      replace x with (e - (33 - k1 - 53 + 1) + 1) by lia. rewrite Z.pow_add_r, Z.mul_assoc, Hp by lia.
      pose proof (Z.div_mod q (2 ^ 1) ltac:(lia)). pose proof (Z.mod_pos_bound q (2 ^ 1) ltac:(lia)). lia. }
    replace (k1 + 20) with (k1 + 53 - 33) by lia. rewrite Z.pow_sub_r, Z.pow_add_r by lia.
    change (2 ^ 53) with (2 ^ 20 * 2 ^ 33) in Hq |- *. rewrite (Z.mul_assoc (2 ^ k1)), Z.div_mul by lia. nia. }
  assert (HT : 2 ^ 20 <= 2 ^ (k1 + 20)) by (apply Z.pow_le_mono_r; lia). set (T := 2 ^ (k1 + 20)) in *.
  (* the product *)
  assert (Hm : ∃ s, (s = 52 ∨ s = 53) ∧ 2 ^ (52 + s) <= Z.pos (p * 6184752906240000) < 2 ^ (53 + s)).
  { rewrite Pos2Z.inj_mul. destruct (Z.lt_ge_cases (Z.pos p * 6184752906240000) (2 ^ 105)).
    - exists 52. split; [by left|]. lia.
    - exists 53. split; [by right|]. lia. }
  destruct Hm as (s & Hs & Hm).
  destruct (round_aux_long _ (e + -36) loc_Exact s ltac:(lia) Hm ltac:(lia) ltac:(lia)) as (v' & p' & e' & Hv' & -> & He' & Hp' & Hpr').
  unfold f64_as_uint, f64_trunc, u32_max. apply Z.min_l. destruct (Z.leb_spec 0 e').
  { pose proof (Z.pow_pos_nonneg 2 e' ltac:(lia) ltac:(lia)). nia. }
  apply Z.div_le_lower_bound.
  { apply Z.pow_pos_nonneg; lia. }
  set (y := e' - (e + -36)). assert (Hy : 0 <= y) by lia.
  assert (HB : Z.pos p * 6184752906240000 - 2 ^ 53 <= Z.pos p' * 2 ^ y).
  { replace y with (e' - (e + -36 + s) + s) by lia. rewrite Z.pow_add_r, Z.mul_assoc, Hp', <- Pos2Z.inj_mul by lia.
    pose proof (Z.div_mod (Z.pos (p * 6184752906240000)) (2 ^ s) ltac:(destruct Hs as [-> | ->]; lia)).
    pose proof (Z.mod_pos_bound (Z.pos (p * 6184752906240000)) (2 ^ s) ltac:(destruct Hs as [-> | ->]; lia)).
    destruct Hs as [-> | ->]; nia. }
  apply (Z.mul_le_mono_pos_r _ _ (2 ^ y * 2 ^ x)); [apply Z.mul_pos_pos; apply Z.pow_pos_nonneg; lia|].
  assert (ET : 2 ^ (- e') * (2 ^ y * 2 ^ x) = 2 ^ 36 * T)
    by (subst T; rewrite <- !Z.pow_add_r by lia; f_equal; lia).
  replace (2 ^ (- e') * 4294967295 * (2 ^ y * 2 ^ x)) with (4294967295 * (2 ^ (- e') * (2 ^ y * 2 ^ x))) by ring.
  rewrite ET. transitivity ((Z.pos p * 6184752906240000 - 2 ^ 53) * 2 ^ x);
    [|rewrite Z.mul_assoc; apply Z.mul_le_mono_nonneg_r; [apply Z.pow_nonneg; lia|exact HB]].
  assert (Hx4 : 2 ^ x <= 4) by (apply (Z.pow_le_mono_r 2 x 2); lia).
  assert (HusT : 47722000000 * T <= us * T) by (apply Z.mul_le_mono_nonneg_r; lia).
  clear -HA HT HusT Hx4. rewrite Z.mul_sub_distr_r, <- Z.mul_assoc, (Z.mul_comm 6184752906240000), Z.mul_assoc.
  set (A := Z.pos p * 2 ^ x) in *. change (2 ^ 36) with 68719476736. change (2 ^ 53) with 9007199254740992.
  change (2 ^ 20) with 1048576 in HT. lia.
Qed.

Lemma div_succ_unless a t : 0 < t → (∀ c, a + 1 ≠ c * t) → (a + 1) / t = a / t.
Proof.
  intros Ht Hc. symmetry. apply Z.div_unique with (a mod t + 1).
  - left. pose proof (Z.mod_pos_bound a t Ht). assert (a mod t + 1 ≠ t); [|lia]. intros E.
    apply (Hc (a / t + 1)). pose proof (Z.div_mod a t ltac:(lia)). lia.
  - pose proof (Z.div_mod a t ltac:(lia)). lia.
Qed.

(** The arithmetic core: rounding the quotient of two 32-bit integers, either way, never carries
    256 times it across an integer. *)
Lemma quotient_floor l n q r u v k1 k2 :
  0 < l <= n → (u = 0 ∨ u = 1) → (v = 0 ∨ v = 1) → 0 <= k2 <= k1 → 21 <= k1 →
  l * 2 ^ k1 * 2 ^ 53 = q * (n * 2 ^ k2) + r → 0 <= r < n * 2 ^ k2 → n * 2 ^ k2 < 2 ^ 53 →
  (q / 2 ^ u + v) / 2 ^ (k1 - k2 + 45 - u) = l * 256 / n.
Proof.
  intros Hl Hu Hv Hk Hk1 Hq Hr Hn.
  assert (Hpow : ∀ x, 0 <= x → 0 < 2 ^ x) by (intros; by apply Z.pow_pos_nonneg).
  assert (Ek : 2 ^ k1 = 2 ^ (k1 - k2) * 2 ^ k2) by (rewrite <- Z.pow_add_r by lia; f_equal; lia).
  assert (Etot : 2 ^ u * 2 ^ (k1 - k2 + 45 - u) = 2 ^ (k1 - k2) * 2 ^ 45)
    by (rewrite <- !Z.pow_add_r by lia; f_equal; lia).
  assert (Eq : q / (2 ^ u * 2 ^ (k1 - k2 + 45 - u)) = l * 256 / n).
  { rewrite Etot.
    assert (Ediv : q = l * 2 ^ k1 * 2 ^ 53 / (n * 2 ^ k2)) by (apply Z.div_unique with r; [by left|lia]).
    pose proof (Hpow (k1 - k2) ltac:(lia)). pose proof (Hpow k2 ltac:(lia)).
    rewrite Ediv, Z.div_div by nia. rewrite Ek. change (2 ^ 53) with (256 * 2 ^ 45).
    replace (l * (2 ^ (k1 - k2) * 2 ^ k2) * (256 * 2 ^ 45)) with (l * 256 * (2 ^ (k1 - k2) * 2 ^ k2 * 2 ^ 45)) by ring.
    replace (n * 2 ^ k2 * (2 ^ (k1 - k2) * 2 ^ 45)) with (n * (2 ^ (k1 - k2) * 2 ^ k2 * 2 ^ 45)) by ring.
    apply Z.div_mul_cancel_r; nia. }
  rewrite <- Eq, <- Z.div_div by (try apply Z.pow_nonzero; try apply Hpow; lia).
  destruct Hv as [->| ->]; [by rewrite Z.add_0_r|].
  apply div_succ_unless; [apply Hpow; lia|]. intros c Hc.
  set (a := q / 2 ^ u) in *. set (b := q mod 2 ^ u).
  assert (Hb : q = 2 ^ u * a + b ∧ 0 <= b < 2 ^ u).
  { pose proof (Hpow u ltac:(lia)). split; [apply Z.div_mod; lia|apply Z.mod_pos_bound; lia]. }
  destruct Hb as [Hqa Hb]. clearbody a b.
  assert (Hcu : 2 ^ u * (a + 1) = c * (2 ^ (k1 - k2) * 2 ^ 45)) by (rewrite Hc, <- Etot; ring).
  assert (Hx : (2 ^ u - b) * (n * 2 ^ k2) - r = 2 ^ k1 * 2 ^ 45 * (c * n - 256 * l)).
  { rewrite Ek in *. change (2 ^ 53) with (256 * 2 ^ 45) in Hq.
    assert (Hqe : q = c * (2 ^ (k1 - k2) * 2 ^ 45) - (2 ^ u - b)) by lia. rewrite Hqe in Hq. nia. }
  assert (Hbig : 2 ^ 66 <= 2 ^ k1 * 2 ^ 45).
  { rewrite <- Z.pow_add_r by lia. apply Z.pow_le_mono_r; lia. }
  assert (Hub : (2 ^ u - b) * (n * 2 ^ k2) - r < 2 ^ 54).
  { destruct Hu as [-> | ->]; change (2 ^ 0) with 1 in *; change (2 ^ 1) with 2 in *; nia. }
  assert (Hlb : 0 < (2 ^ u - b) * (n * 2 ^ k2) - r) by nia.
  assert (0 < c * n - 256 * l) by nia. nia.
Qed.

(** The fraction of a receiver report, [((lost as f64 / expected as f64) * 256.0) as u8]. *)
Lemma fraction_exact l n :
  0 < l <= n → n < 2 ^ 32 →
  f64_as_uint u8_max (f64_mul (f64_div (f64_of_uint l) (f64_of_uint n)) (f64_of_uint 256)) =
  Z.min 255 (256 * l / n).
Proof.
  intros Hl Hn.
  destruct (f64_div_spec l n Hl Hn) as (u & v & p & e2 & k1 & k2 & q & r & -> & Hu & Hv & Hk & Hk1 & He & Hq & Hr & Hn2 & Hp & Hpr).
  change (f64_of_uint 256) with (S754_finite false 4503599627370496 (-44)).
  unfold f64_mul, SFmul. cbn [xorb]. rewrite round_aux_shift by lia.
  unfold f64_as_uint, f64_trunc, u8_max. rewrite (proj2 (Z.leb_gt 0 _)) by lia. f_equal.
  rewrite (Z.mul_comm 256), <- (quotient_floor l n q r u v k1 k2) by lia. rewrite <- Hp.
  set (w := e2 - (k2 - k1 - 53 + u)). replace (- (e2 + -44 + 52)) with (k1 - k2 + 45 - u - w) by lia.
  replace (2 ^ (k1 - k2 + 45 - u)) with (2 ^ (k1 - k2 + 45 - u - w) * 2 ^ w) by (rewrite <- Z.pow_add_r by lia; f_equal; lia).
  symmetry. apply Z.div_mul_cancel_r; apply Z.pow_nonzero; lia.
Qed.
