(* ===== verification/RtcpState.v ===== *)
(** * RTCP sender and receiver state (rist-protocol/src/protocol/rtcp_state.rs)

    The counters behind sender and receiver reports (RFC 3550).  [SystemTime]s are
    nanoseconds since the Unix epoch. *)

From S2P Require Import Prelude Float64 Float64Props RtcpReports Sdes.

Definition NTP_EPOCH_OFFSET : Z := 2208988800.

(** [time.duration_since(UNIX_EPOCH).unwrap_or_default()] *)
Definition since_unix_epoch (time : Z) : Z := Z.max 0 time.

Definition system_time_to_ntp (time : Z) : Z * Z :=
  let unix_duration := since_unix_epoch time in
  let secs := unix_duration / 1000000000 + NTP_EPOCH_OFFSET in
  let frac := Z.shiftl (unix_duration mod 1000000000) 32 / 1000000000 in
  (as_u32 secs, as_u32 frac).

(** ** Sender *)

Record RtcpSenderState := mkRtcpSenderState {
  ss_ssrc : Z;
  ss_cname : bytes;
  ss_packet_count : Z;
  ss_octet_count : Z;
  ss_last_rtp_timestamp : Z;
  ss_last_rtp_wallclock : option Z;
  ss_rtp_ts_epoch : Z;
  ss_rtp_ts_epoch_system : Z;
  ss_last_rtcp_time : option Z;
  ss_rtcp_interval : Z
}.

Definition RtcpSenderState_new (ssrc : Z) (cname : bytes) (rtcp_interval rtp_ts_epoch rtp_ts_epoch_system : Z)
    : RtcpSenderState :=
  mkRtcpSenderState ssrc cname 0 0 0 None rtp_ts_epoch rtp_ts_epoch_system None rtcp_interval.

Definition on_packet_sent (self : RtcpSenderState) (payload_size rtp_timestamp now : Z) : RtcpSenderState :=
  mkRtcpSenderState (ss_ssrc self) (ss_cname self) (as_u32 (ss_packet_count self + 1))
    (as_u32 (ss_octet_count self + as_u32 payload_size)) rtp_timestamp (Some now)
    (ss_rtp_ts_epoch self) (ss_rtp_ts_epoch_system self) (ss_last_rtcp_time self) (ss_rtcp_interval self).

Definition sender_should_send_rtcp (self : RtcpSenderState) (now : Z) : bool :=
  match ss_last_rtcp_time self with
  | None => true
  | Some last => ss_rtcp_interval self <=? duration_since now last
  end.

(** The RTP clock at [now]: NTP microseconds at 90 kHz, from the epoch pair. *)
Definition epoch_rtp_timestamp (self : RtcpSenderState) (now : Z) : Z :=
  let elapsed := duration_since now (ss_rtp_ts_epoch self) in
  let epoch_unix := since_unix_epoch (ss_rtp_ts_epoch_system self) in
  let ntp_us := as_u64 (as_u64 (as_u64 (as_micros epoch_unix) + as_u64 (NTP_EPOCH_OFFSET * 1000000))
                        + as_u64 (as_micros elapsed)) in
  as_u32 (as_u64 (ntp_us * 90) / 1000).

(** [clock] is the reading of [SystemTime::now()]. *)
Definition generate_sr (self : RtcpSenderState) (now clock : Z) : RtcpSenderState * SenderReport :=
  let '(ntp_msw, ntp_lsw) := system_time_to_ntp clock in
  let rtp_timestamp := epoch_rtp_timestamp self now in
  (mkRtcpSenderState (ss_ssrc self) (ss_cname self) (ss_packet_count self) (ss_octet_count self)
     (ss_last_rtp_timestamp self) (ss_last_rtp_wallclock self) (ss_rtp_ts_epoch self)
     (ss_rtp_ts_epoch_system self) (Some now) (ss_rtcp_interval self),
   mkSenderReport (ss_ssrc self) ntp_msw ntp_lsw rtp_timestamp (ss_packet_count self) (ss_octet_count self)).

Definition sender_generate_sdes (self : RtcpSenderState) : Sdes := mkSdes (ss_ssrc self) (ss_cname self).

(** ** Receiver *)

Record RtcpReceiverState := mkRtcpReceiverState {
  rr_state_ssrc : Z;
  rr_cname : bytes;
  rr_sender_ssrc : option Z;
  rr_extended_max_seq : Z;
  rr_seq_cycles : Z;
  rr_max_seq : Z;
  rr_first_packet_received : bool;
  rr_base_seq : Z;
  rr_packets_received : Z;
  rr_expected_prior : Z;
  rr_received_prior : Z;
  rr_jitter : f64;
  rr_last_transit : f64;
  rr_last_sr_ntp : Z;
  rr_last_sr_time : option Z;
  rr_last_rtcp_time : option Z;
  rr_rtcp_interval : Z
}.

Definition f64_zero : f64 := f64_of_uint 0.

Definition RtcpReceiverState_new (ssrc : Z) (cname : bytes) (rtcp_interval : Z) : RtcpReceiverState :=
  mkRtcpReceiverState ssrc cname None 0 0 0 false 0 0 0 0 f64_zero f64_zero 0 None None rtcp_interval.

(** The arrival instant on the 90 kHz clock, as the code computes it. *)
Definition arrival_rtp (arrival_time_us : Z) : Z :=
  f64_as_uint u32_max
    (f64_mul (f64_div (f64_of_uint arrival_time_us) (f64_of_uint 1000000)) (f64_of_uint 90000)).

(** The sequence part of [on_packet_received]: (first, base, cycles, max, extended). *)
Definition track_seq (self : RtcpReceiverState) (seq : Z) : Z * Z * Z * Z :=
  if negb (rr_first_packet_received self) then (seq, rr_seq_cycles self, seq, seq)
  else
    let diff := as_i16 (wrapping_sub16 seq (rr_max_seq self)) in
    if 0 <? diff then
      let cycles := if seq <? rr_max_seq self then as_u16 (rr_seq_cycles self + 1) else rr_seq_cycles self in
      (rr_base_seq self, cycles, seq, Z.lor (as_u32 (Z.shiftl cycles 16)) seq)
    else (rr_base_seq self, rr_seq_cycles self, rr_max_seq self, rr_extended_max_seq self).

Definition rr_on_packet_received (self : RtcpReceiverState)
    (seq rtp_timestamp arrival_time_us : Z) (is_duplicate : bool) : RtcpReceiverState :=
  if is_duplicate then self else
  let '(base, cycles, max_seq, extended) := track_seq self seq in
  let transit := f64_of_uint (as_u32 (arrival_rtp arrival_time_us - rtp_timestamp)) in
  let jitter :=
    if f64_ne (rr_last_transit self) f64_zero then
      let d := f64_abs (f64_sub transit (rr_last_transit self)) in
      f64_add (rr_jitter self) (f64_div (f64_sub d (rr_jitter self)) (f64_of_uint 16))
    else rr_jitter self in
  mkRtcpReceiverState (rr_state_ssrc self) (rr_cname self) (rr_sender_ssrc self) extended cycles max_seq
    true base (as_u32 (rr_packets_received self + 1)) (rr_expected_prior self) (rr_received_prior self)
    jitter transit (rr_last_sr_ntp self) (rr_last_sr_time self) (rr_last_rtcp_time self)
    (rr_rtcp_interval self).

Definition on_sr_received (self : RtcpReceiverState) (sr : SenderReport) (now : Z) : RtcpReceiverState :=
  mkRtcpReceiverState (rr_state_ssrc self) (rr_cname self) (Some (sr_ssrc sr)) (rr_extended_max_seq self)
    (rr_seq_cycles self) (rr_max_seq self) (rr_first_packet_received self) (rr_base_seq self)
    (rr_packets_received self) (rr_expected_prior self) (rr_received_prior self) (rr_jitter self)
    (rr_last_transit self) (compact_ntp sr) (Some now) (rr_last_rtcp_time self) (rr_rtcp_interval self).

Definition receiver_should_send_rtcp (self : RtcpReceiverState) (now : Z) : bool :=
  match rr_last_rtcp_time self with
  | None => rr_first_packet_received self
  | Some last => rr_rtcp_interval self <=? duration_since now last
  end.

Definition clamp (lo hi z : Z) : Z := Z.min hi (Z.max lo z).

Definition set_rr (self : RtcpReceiverState) (last_rtcp_time : option Z) (expected_prior received_prior : Z)
    : RtcpReceiverState :=
  mkRtcpReceiverState (rr_state_ssrc self) (rr_cname self) (rr_sender_ssrc self) (rr_extended_max_seq self)
    (rr_seq_cycles self) (rr_max_seq self) (rr_first_packet_received self) (rr_base_seq self)
    (rr_packets_received self) expected_prior received_prior (rr_jitter self) (rr_last_transit self)
    (rr_last_sr_ntp self) (rr_last_sr_time self) last_rtcp_time (rr_rtcp_interval self).

Definition generate_rr (self : RtcpReceiverState) (now : Z) : RtcpReceiverState * ReceiverReport :=
  let sender_ssrc := default 0 (rr_sender_ssrc self) in
  if negb (rr_first_packet_received self) then
    (set_rr self (Some now) (rr_expected_prior self) (rr_received_prior self),
     ReceiverReport_empty (rr_state_ssrc self))
  else
    let expected := as_u32 (as_u32 (rr_extended_max_seq self - rr_base_seq self) + 1) in
    let expected_interval := as_u32 (expected - rr_expected_prior self) in
    let received_interval := as_u32 (rr_packets_received self - rr_received_prior self) in
    let fraction_lost :=
      if (expected_interval =? 0) || (expected_interval <=? received_interval) then 0
      else
        let lost_interval := as_u32 (expected_interval - received_interval) in
        f64_as_uint u8_max
          (f64_mul (f64_div (f64_of_uint lost_interval) (f64_of_uint expected_interval)) (f64_of_uint 256)) in
    let cumulative_lost := clamp (-8388608) 8388607 (expected - rr_packets_received self) in
    let delay_since_last_sr :=
      match rr_last_sr_time self with
      | Some sr_time => f64_as_uint u32_max (f64_mul (as_secs_f64 (duration_since now sr_time)) (f64_of_uint 65536))
      | None => 0
      end in
    (set_rr self (Some now) expected (rr_packets_received self),
     mkReceiverReport (rr_state_ssrc self)
       [mkReportBlock sender_ssrc fraction_lost cumulative_lost (rr_extended_max_seq self)
          (f64_as_uint u32_max (rr_jitter self)) (rr_last_sr_ntp self) delay_since_last_sr]).

Definition receiver_generate_sdes (self : RtcpReceiverState) : Sdes := mkSdes (rr_state_ssrc self) (rr_cname self).

(** ** Loss accounting of the receiver *)

(** What the packets received so far amount to, on unwrapped sequence numbers: the first
    number, the highest index and how many packets were counted. *)
Definition rx_ghost : Type := option (Z * Z * Z).

Definition ghost_packet (g : rx_ghost) (seq : Z) (dup : bool) : rx_ghost :=
  if dup then g else
  match g with
  | None => Some (seq, seq, 1)
  | Some (b, M, n) => Some (b, Z.max M (M + as_i16 (wrapping_sub16 seq (as_u16 M))), n + 1)
  end.

Definition rx_inv (self : RtcpReceiverState) (g : rx_ghost) : Prop :=
  match g with
  | None => rr_first_packet_received self = false ∧ rr_packets_received self = 0 ∧ rr_seq_cycles self = 0
  | Some (b, M, n) =>
      rr_first_packet_received self = true ∧ is_u16 b ∧ b <= M ∧ 1 <= n ∧
      rr_base_seq self = b ∧ rr_max_seq self = as_u16 M ∧ rr_seq_cycles self = M / 65536 ∧
      rr_extended_max_seq self = M ∧ rr_packets_received self = n
  end.

(** The index and the counter fit the 32-bit fields. *)
Definition ghost_fits (g : rx_ghost) : Prop :=
  match g with None => True | Some (_, M, n) => M < 4294967296 ∧ n < 4294967296 end.

Lemma ghost_fits_mono g seq dup : ghost_fits (ghost_packet g seq dup) → ghost_fits g.
Proof. destruct dup; [done|]. destruct g as [[[b M] n]|]; cbn; [lia|done]. Qed.

Lemma shift_or_16 hi lo : 0 <= hi < 65536 → is_u16 lo → Z.lor (as_u32 (Z.shiftl hi 16)) lo = hi * 65536 + lo.
Proof.
  intros Hh Hl. rewrite Z.shiftl_mul_pow2 by lia. rewrite as_u32_id by (unfold is_u32; lia).
  apply (lor_add_high hi lo 16); [lia|]. exact Hl.
Qed.

Lemma rx_packet self g seq ts arr dup :
  rx_inv self g → is_u16 seq → ghost_fits (ghost_packet g seq dup) →
  rx_inv (rr_on_packet_received self seq ts arr dup) (ghost_packet g seq dup).
Proof.
  intros Hi Hs Hf. unfold rr_on_packet_received, ghost_packet in *. destruct dup; [done|].
  destruct g as [[[b M] n]|]; unfold track_seq; cbn in Hi, Hf.
  - destruct Hi as (Hfst & Hb & HbM & Hn & Eb & Em & Ec & Ee & Ep). rewrite Hfst, Em. cbn [negb].
    assert (HM : M = M / 65536 * 65536 + as_u16 M) by (clear; ulia).
    pose proof (as_u16_range M) as Hu. unfold is_u16 in Hu.
    assert (Hc : 0 <= M / 65536 < 65536) by (unfold is_u16 in Hb; split; [apply Z.div_pos|apply Z.div_lt_upper_bound]; lia).
    set (d := as_i16 (wrapping_sub16 seq (as_u16 M))) in *.
    assert (Hd : -32768 <= d < 32768 ∧ (as_u16 M + d) mod 65536 = seq)
      by (unfold d; clear -Hs; split; ulia).
    destruct Hd as [Hdr Hdm]. clearbody d.
    destruct (Z.ltb_spec 0 d) as [Hpos|Hneg].
    + rewrite Z.max_r by lia. rewrite Ec, Eb, Ep.
      rewrite Z.max_r in Hf by lia.
      assert (Hseq : seq = as_u16 (M + d)) by (rewrite <- Hdm; clear; ulia).
      assert (Hcyc : (if seq <? as_u16 M then as_u16 (M / 65536 + 1) else M / 65536) = (M + d) / 65536).
      { assert (E : (M + d) / 65536 = M / 65536 + (as_u16 M + d) / 65536).
        { rewrite HM at 1. rewrite <- Z.add_assoc, Z.add_comm, Z.div_add by lia. lia. }
        assert (Hq : (M + d) / 65536 < 65536) by (apply Z.div_lt_upper_bound; lia).
        destruct (Z.ltb_spec seq (as_u16 M)) as [Hw|Hw].
        - assert ((as_u16 M + d) / 65536 = 1) by (clear -Hw Hdm Hpos Hdr Hu; Z.to_euclidean_division_equations; lia).
          rewrite as_u16_id; [lia|]. unfold is_u16. lia.
        - assert ((as_u16 M + d) / 65536 = 0) by (clear -Hw Hdm Hpos Hdr Hu; Z.to_euclidean_division_equations; lia).
          lia. }
      rewrite Hcyc. cbn. unfold is_u16 in Hb.
      assert (Hc' : 0 <= (M + d) / 65536 < 65536) by (split; [apply Z.div_pos|apply Z.div_lt_upper_bound]; lia).
      split_and!; try done; try lia.
      * rewrite shift_or_16 by done. rewrite Hseq. clear. ulia.
      * apply as_u32_id. unfold is_u32. lia.
    + rewrite Z.max_l by lia. cbn. rewrite Ep.
      split_and!; try done; try lia. apply as_u32_id. unfold is_u32. lia.
  - destruct Hi as (Hfst & Hp & Hc). rewrite Hfst, Hc, Hp. cbn. unfold is_u16 in Hs.
    split_and!; try done; try lia.
    + by rewrite as_u16_id.
    + symmetry. by apply Z.div_small.
Qed.

Definition packet : Type := Z * Z * Z * bool.
Definition rx_run (self : RtcpReceiverState) (pkts : list packet) : RtcpReceiverState :=
  foldl (λ s '(seq, ts, arr, dup), rr_on_packet_received s seq ts arr dup) self pkts.
Definition ghost_run (g : rx_ghost) (pkts : list packet) : rx_ghost :=
  foldl (λ g '(seq, ts, arr, dup), ghost_packet g seq dup) g pkts.

Lemma ghost_run_fits pkts : ∀ g, ghost_fits (ghost_run g pkts) → ghost_fits g.
Proof.
  induction pkts as [|[[[seq ts] arr] dup] pkts IH]; intros g H; [done|].
  by apply IH, ghost_fits_mono in H.
Qed.

Lemma rx_run_inv pkts : ∀ self g,
  rx_inv self g → Forall (λ p, is_u16 p.1.1.1) pkts → ghost_fits (ghost_run g pkts) →
  rx_inv (rx_run self pkts) (ghost_run g pkts).
Proof.
  induction pkts as [|[[[seq ts] arr] dup] pkts IH]; intros self g Hi Hp Hf; [done|].
  apply Forall_cons in Hp as [Hs Hp]. cbn in *. apply IH; [|done|done].
  apply rx_packet; [done..|]. by apply ghost_run_fits in Hf.
Qed.

(** The fraction lost of an interval in which [e] packets were expected and [r] received, in
    1/256, rounded down, at most 255. *)
Definition loss_fraction (e r : Z) : Z := if e <=? r then 0 else Z.min 255 (256 * (e - r) / e).

Lemma ghost_run_grows pkts : ∀ b M n g,
  ghost_run (Some (b, M, n)) pkts = g → ∃ M' n', g = Some (b, M', n') ∧ M <= M' ∧ n <= n'.
Proof.
  induction pkts as [|[[[seq ts] arr] dup] pkts IH]; intros b M n g <-; [by exists M, n|].
  cbn. destruct dup; cbn [ghost_packet]; [by apply IH|].
  destruct (IH b (Z.max M (M + as_i16 (wrapping_sub16 seq (as_u16 M)))) (n + 1) _ eq_refl) as (M' & n' & E & ? & ?).
  exists M', n'. split; [exact E|]. lia.
Qed.

Lemma rx_run_priors pkts : ∀ self,
  rr_expected_prior (rx_run self pkts) = rr_expected_prior self ∧
  rr_received_prior (rx_run self pkts) = rr_received_prior self.
Proof.
  induction pkts as [|[[[seq ts] arr] dup] pkts IH]; intros self; [done|].
  change (rx_run self ((seq, ts, arr, dup) :: pkts)) with (rx_run (rr_on_packet_received self seq ts arr dup) pkts).
  destruct (IH (rr_on_packet_received self seq ts arr dup)) as [-> ->].
  unfold rr_on_packet_received. destruct dup; [done|]. by destruct (track_seq self seq) as [[[? ?] ?] ?].
Qed.

Lemma generate_rr_spec self b M n now :
  rx_inv self (Some (b, M, n)) → ghost_fits (Some (b, M, n)) →
  0 <= rr_expected_prior self <= M - b + 1 → M - b + 1 < 4294967296 →
  0 <= rr_received_prior self <= n →
  let '(self', rr) := generate_rr self now in
  let expected := M - b + 1 in
  rx_inv self' (Some (b, M, n)) ∧ rr_expected_prior self' = expected ∧ rr_received_prior self' = n ∧
  ∃ blk, rr_reports rr = [blk] ∧ rb_extended_highest_seq blk = M ∧
    rb_cumulative_lost blk = clamp (-8388608) 8388607 (expected - n) ∧
    rb_fraction_lost blk = loss_fraction (expected - rr_expected_prior self) (n - rr_received_prior self).
Proof.
  intros (Hf & Hb & HbM & Hn & Eb & Em & Ec & Ee & Ep) [HM Hn'] Hep Hex Hrp.
  unfold generate_rr. rewrite Hf. cbn [negb]. rewrite Ee, Eb, Ep. unfold is_u16 in Hb.
  assert (E1 : as_u32 (as_u32 (M - b) + 1) = M - b + 1) by (rewrite !as_u32_id; unfold is_u32; rewrite ?as_u32_id; unfold is_u32; lia).
  rewrite E1. assert (E2 : as_u32 (M - b + 1 - rr_expected_prior self) = M - b + 1 - rr_expected_prior self)
    by (apply as_u32_id; unfold is_u32; lia).
  assert (E3 : as_u32 (n - rr_received_prior self) = n - rr_received_prior self)
    by (apply as_u32_id; unfold is_u32; lia).
  rewrite E2, E3. cbn. split_and!; try done.
  eexists. split; [done|]. cbn [rb_extended_highest_seq rb_cumulative_lost rb_fraction_lost]. split_and!; [done..|].
  unfold loss_fraction. destruct (Z.leb_spec (M - b + 1 - rr_expected_prior self) (n - rr_received_prior self));
    [by rewrite orb_true_r|].
  rewrite (proj2 (Z.eqb_neq _ 0)) by lia. cbn [orb]. rewrite as_u32_id by (unfold is_u32; lia).
  apply fraction_exact; lia.
Qed.

(** (C25) Sequence and loss accounting of receiver reports, over two report intervals: for every
    sequence of arrivals (reordered, wrapping, duplicated), as long as the totals fit the
    32-bit fields, each report carries as highest sequence number the highest unwrapped index
    seen so far, as cumulative loss the span from the first number to it less the packets
    counted (duplicates excluded), clamped to 24 bits, and as fraction lost exactly 256
    times the loss of its own interval over what was expected in it, rounded down and at
    most 255 (0 when nothing is missing): the computation in floating point makes no error. *)
Theorem rr_loss_accounting (ssrc : Z) (cname : bytes) (interval : Z) (pkts1 pkts2 : list packet)
    (b M1 n1 M2 n2 t1 t2 : Z) :
  Forall (λ p, is_u16 p.1.1.1) (pkts1 ++ pkts2) → ghost_run None pkts1 = Some (b, M1, n1) →
  ghost_run None (pkts1 ++ pkts2) = Some (b, M2, n2) → M2 < 4294967296 → M2 - b + 1 < 4294967296 → n2 < 4294967296 →
  let '(self1, rr1) := generate_rr (rx_run (RtcpReceiverState_new ssrc cname interval) pkts1) t1 in
  let '(self2, rr2) := generate_rr (rx_run self1 pkts2) t2 in
  (∃ blk, rr_reports rr1 = [blk] ∧ rb_extended_highest_seq blk = M1 ∧
     rb_cumulative_lost blk = clamp (-8388608) 8388607 (M1 - b + 1 - n1) ∧
     rb_fraction_lost blk = loss_fraction (M1 - b + 1) n1) ∧
  (∃ blk, rr_reports rr2 = [blk] ∧ rb_extended_highest_seq blk = M2 ∧
     rb_cumulative_lost blk = clamp (-8388608) 8388607 (M2 - b + 1 - n2) ∧
     rb_fraction_lost blk = loss_fraction (M2 - M1) (n2 - n1)).
Proof.
  intros Hp G1 G2 H1 H2 H3. apply Forall_app in Hp as [Hp1 Hp2].
  assert (G3 : ghost_run (Some (b, M1, n1)) pkts2 = Some (b, M2, n2))
    by (rewrite <- G1, <- G2; unfold ghost_run; by rewrite foldl_app).
  destruct (ghost_run_grows pkts2 b M1 n1 _ G3) as (M' & n' & [= <- <-] & HM & Hn).
  pose proof (rx_run_inv pkts1 (RtcpReceiverState_new ssrc cname interval) None ltac:(done) Hp1) as I1.
  rewrite G1 in I1. specialize (I1 ltac:(cbn; lia)).
  destruct (rx_run_priors pkts1 (RtcpReceiverState_new ssrc cname interval)) as [P1 P2].
  set (s1 := rx_run _ pkts1) in *. pose proof I1 as (_ & Hb & HbM & Hn1 & _). unfold is_u16 in Hb.
  pose proof (generate_rr_spec s1 b M1 n1 t1 I1 ltac:(cbn; lia)) as S1. rewrite P1, P2 in S1. cbn [RtcpReceiverState_new rr_expected_prior rr_received_prior] in S1.
  specialize (S1 ltac:(lia) ltac:(lia) ltac:(lia)).
  destruct (generate_rr s1 t1) as [self1 rr1]. destruct S1 as (J1 & Q1 & Q2 & R1). rewrite !Z.sub_0_r in R1.
  pose proof (rx_run_inv pkts2 self1 _ J1 Hp2) as I2. rewrite G3 in I2. specialize (I2 ltac:(cbn; lia)).
  destruct (rx_run_priors pkts2 self1) as [P3 P4].
  pose proof (generate_rr_spec _ b M2 n2 t2 I2 ltac:(cbn; lia)) as S2. rewrite P3, P4, Q1, Q2 in S2.
  specialize (S2 ltac:(lia) ltac:(lia) ltac:(lia)).
  destruct (generate_rr (rx_run self1 pkts2) t2) as [self2 rr2]. destruct S2 as (_ & _ & _ & R2).
  replace (M2 - b + 1 - (M1 - b + 1)) with (M2 - M1) in R2 by lia. by split.
Qed.

Lemma rr_loss_accounting_witness :
  let pkts1 := [(65534, 0, 0, false); (1, 0, 0, false); (65535, 0, 0, false); (65535, 0, 0, true)] in
  let pkts2 := [(7, 0, 0, false)] in
  let '(self1, _) := generate_rr (rx_run (RtcpReceiverState_new 7 [] 1000) pkts1) 5 in
  let '(_, rr) := generate_rr (rx_run self1 pkts2) 9 in
  ∃ blk, rr_reports rr = [blk] ∧ rb_extended_highest_seq blk = 65543 ∧ rb_cumulative_lost blk = 6 ∧
    rb_fraction_lost blk = 213.
Proof.
  cbn zeta.
  pose proof (rr_loss_accounting 7 [] 1000
    [(65534, 0, 0, false); (1, 0, 0, false); (65535, 0, 0, false); (65535, 0, 0, true)] [(7, 0, 0, false)]
    65534 65537 3 65543 4 5 9 ltac:(repeat constructor; cbn; lia) ltac:(reflexivity) ltac:(reflexivity)
    ltac:(lia) ltac:(lia) ltac:(lia)) as H.
  destruct (generate_rr _ 5) as [self1 rr1]. destruct (generate_rr _ 9) as [self2 rr2].
  destruct H as (_ & blk & H1 & H2 & H3 & H4). exists blk.
  split; [exact H1|]. split; [exact H2|]. split; [exact H3|exact H4].
Defined.

(** ** Every report fits the wire *)

Definition rx_ok (self : RtcpReceiverState) : Prop :=
  is_u32 (rr_state_ssrc self) ∧ is_u32 (rr_extended_max_seq self) ∧ is_u32 (rr_last_sr_ntp self) ∧
  match rr_sender_ssrc self with Some s => is_u32 s | None => True end.

Lemma f64_u8 f : is_u8 (f64_as_uint u8_max f).
Proof. pose proof (f64_as_uint_range u8_max f). unfold is_u8, u8_max in *. lia. Qed.
Lemma f64_u32 f : is_u32 (f64_as_uint u32_max f).
Proof. pose proof (f64_as_uint_range u32_max f). unfold is_u32, u32_max in *. lia. Qed.

Lemma f64_u8_if (c : bool) f : is_u8 (if c then 0 else f64_as_uint u8_max f).
Proof. destruct c; [done|apply f64_u8]. Qed.
Lemma clamp_range lo hi z : lo <= hi → lo <= clamp lo hi z <= hi.
Proof. unfold clamp. lia. Qed.

Lemma generate_rr_ok self now : rx_ok self → rr_ok (generate_rr self now).2 ∧ rx_ok (generate_rr self now).1.
Proof.
  intros (H1 & H2 & H3 & H4). unfold generate_rr. destruct (negb _); cbn.
  { split; [|done]. unfold rr_ok; cbn. split_and!; [done|constructor|lia]. }
  split; [|done]. unfold rr_ok; cbn. split_and!; [done| |lia]. constructor; [|done].
  unfold rb_ok; cbn. split_and!; try apply f64_u32; try done.
  - by destruct (rr_sender_ssrc self).
  - apply f64_u8_if.
  - apply clamp_range. lia.
  - apply clamp_range. lia.
  - destruct (rr_last_sr_time self); [apply f64_u32|done].
Qed.

Definition tx_ok (self : RtcpSenderState) : Prop :=
  is_u32 (ss_ssrc self) ∧ is_u32 (ss_packet_count self) ∧ is_u32 (ss_octet_count self).

Lemma generate_sr_ok self now clock :
  tx_ok self → sr_ok (generate_sr self now clock).2 ∧ tx_ok (generate_sr self now clock).1.
Proof.
  intros (H1 & H2 & H3). unfold generate_sr, system_time_to_ntp. cbn. split; [|done].
  unfold sr_ok; cbn. split_and!; auto with rist. apply as_u32_range.
Qed.

Lemma on_packet_sent_ok self size ts now : tx_ok self → tx_ok (on_packet_sent self size ts now).
Proof. intros (H1 & H2 & H3). unfold tx_ok; cbn. split_and!; auto with rist. Qed.

(** ** The clock mapping of sender reports *)

(** Microseconds on the NTP scale at [now], floored twice as in the code. *)
Lemma epoch_rtp_ticks self now :
  0 <= ss_rtp_ts_epoch_system self < 10 ^ 19 → ss_rtp_ts_epoch self <= now →
  now - ss_rtp_ts_epoch self < 10 ^ 19 →
  let ntp_ns := ss_rtp_ts_epoch_system self + NTP_EPOCH_OFFSET * 1000000000 + (now - ss_rtp_ts_epoch self) in
  ∃ ticks, epoch_rtp_timestamp self now = as_u32 ticks ∧
    0 <= 9 * ntp_ns - ticks * 100000 < 2 * 100000.
Proof.
  intros Hs Hn Hl ntp_ns. unfold epoch_rtp_timestamp, duration_since, since_unix_epoch, as_micros.
  rewrite !Z.max_r by lia. set (us := ss_rtp_ts_epoch_system self / 1000 + NTP_EPOCH_OFFSET * 1000000
    + (now - ss_rtp_ts_epoch self) / 1000).
  exists (us * 90 / 1000).
  set (S := ss_rtp_ts_epoch_system self) in *. set (D := now - ss_rtp_ts_epoch self) in *.
  assert (HD : 0 <= D) by lia. change (10 ^ 19) with 10000000000000000000 in *.
  unfold NTP_EPOCH_OFFSET in *. clearbody S D.
  assert (HSq : 0 <= S / 1000 < 10000000000000000) by (Z.to_euclidean_division_equations; lia).
  assert (HDq : 0 <= D / 1000 < 10000000000000000) by (Z.to_euclidean_division_equations; lia).
  assert (Hu : ∀ z, 0 <= z < 18446744073709551616 → as_u64 z = z) by (intros; apply Z.mod_small; lia).
  rewrite (Hu (S / 1000)), (Hu (2208988800 * 1000000)) by lia.
  rewrite (Hu (S / 1000 + _)), (Hu (D / 1000)) by lia.
  rewrite (Hu (S / 1000 + _ + _)) by lia. fold us.
  rewrite (Hu (us * 90)) by (unfold us; lia).
  split; [done|]. unfold us, ntp_ns. clear. Z.to_euclidean_division_equations; lia.
Qed.

(** (C32) Clock mapping of sender reports: the RTP timestamp is the NTP time of [now] on the
    epoch pair at 90 kHz, modulo 2^32, up to 2 ticks of rounding; the NTP words encode the
    system clock.  So the two halves describe the same instant when the system clock ran
    on steadily since the epoch, and are apart by exactly [step] when it was stepped. *)
Theorem sr_clock_mapping (self : RtcpSenderState) (now step : Z) :
  0 <= ss_rtp_ts_epoch_system self < 10 ^ 19 → ss_rtp_ts_epoch self <= now →
  now - ss_rtp_ts_epoch self < 10 ^ 19 →
  let unix_ns := ss_rtp_ts_epoch_system self + (now - ss_rtp_ts_epoch self) in
  let ntp_ns := unix_ns + NTP_EPOCH_OFFSET * 1000000000 in
  0 <= unix_ns + step →
  let sr := (generate_sr self now (unix_ns + step)).2 in
  (∃ ticks, sr_rtp_timestamp sr = as_u32 ticks ∧ 0 <= 9 * ntp_ns - ticks * 100000 < 2 * 100000) ∧
  sr_ntp_msw sr = as_u32 ((ntp_ns + step) / 1000000000) ∧
  sr_ntp_lsw sr = (ntp_ns + step) mod 1000000000 * 2 ^ 32 / 1000000000 ∧
  sr_sender_packet_count sr = ss_packet_count self ∧ sr_sender_octet_count sr = ss_octet_count self.
Proof.
  intros Hs Hn Hl unix_ns ntp_ns Hst sr. split.
  { destruct (epoch_rtp_ticks self now Hs Hn Hl) as (ticks & E & H). exists ticks. split; [exact E|].
    unfold ntp_ns, unix_ns. lia. }
  subst sr. unfold generate_sr, system_time_to_ntp, since_unix_epoch. rewrite Z.max_r by done. cbn.
  assert (E1 : (ntp_ns + step) / 1000000000 = (unix_ns + step) / 1000000000 + NTP_EPOCH_OFFSET).
  { unfold ntp_ns. replace (unix_ns + _ + step) with (unix_ns + step + NTP_EPOCH_OFFSET * 1000000000) by lia.
    apply Z.div_add. lia. }
  assert (E2 : (ntp_ns + step) mod 1000000000 = (unix_ns + step) mod 1000000000).
  { unfold ntp_ns. replace (unix_ns + _ + step) with (unix_ns + step + NTP_EPOCH_OFFSET * 1000000000) by lia.
    apply Z.mod_add. lia. }
  rewrite E1, E2. split_and!; [done| |done..]. rewrite Z.shiftl_mul_pow2 by lia.
  pose proof (Z.mod_pos_bound (unix_ns + step) 1000000000 ltac:(lia)).
  apply as_u32_id. unfold is_u32. change (2 ^ 32) with 4294967296. split.
  - apply Z.div_pos; lia.
  - apply Z.div_lt_upper_bound; lia.
Qed.

Lemma sr_clock_mapping_witness :
  let self := RtcpSenderState_new 1 [] 1000 5000 1700000000000000000 in
  sr_ntp_msw (generate_sr self 1000005000 (1700000000000000000 + 1000000000 + 0)).2 =
    as_u32 (1700000000 + 2208988800 + 1) ∧
  sr_rtp_timestamp (generate_sr self 1000005000 (1700000000000000000 + 1000000000 + 0)).2 =
    as_u32 ((1700000000 + 2208988800 + 1) * 90000).
Proof.
  cbn zeta. split; [|vm_compute; reflexivity].
  pose proof (sr_clock_mapping (RtcpSenderState_new 1 [] 1000 5000 1700000000000000000) 1000005000 0
    ltac:(cbn; lia) ltac:(cbn; lia) ltac:(cbn; lia) ltac:(cbn; lia)) as (_ & H & _).
  etransitivity; [exact H|vm_compute; reflexivity].
Defined.

(** ** The jitter clock *)

(** A packet as the accounting sees it: number, RTP timestamp, arrival time, duplicate or not. *)
Definition rx_arrival : Type := Z * Z * Z * bool.
Definition rx_arrivals (self : RtcpReceiverState) (l : list rx_arrival) : RtcpReceiverState :=
  foldl (λ r '(seq, ts, arrival, dup), rr_on_packet_received r seq ts arrival dup) self l.

(** The same packet, arriving at another time; both after 47722 s (13 h 15 min 22 s) and before
    2^53 us (285 years). *)
Definition same_but_late (p p' : rx_arrival) : Prop :=
  let '(seq, ts, a, dup) := p in let '(seq', ts', a', dup') := p' in
  seq = seq' ∧ ts = ts' ∧ dup = dup' ∧ 47722000000 <= a < 2 ^ 53 ∧ 47722000000 <= a' < 2 ^ 53.

(** (C38) The jitter clock stops after 13 hours: from 47722 seconds after the receiver's start
    (and for the next 285 years) the conversion of every arrival time to RTP units is
    [u32::MAX], so that from then on no state the receiver can reach depends on when packets
    arrive: two streams of the same packets with whatever arrival times leave the same
    statistics, the jitter included. *)
Theorem jitter_clock_saturates (self : RtcpReceiverState) (l l' : list rx_arrival) :
  Forall2 same_but_late l l' →
  Forall (λ '(_, _, a, _), arrival_rtp a = u32_max) l ∧
  rx_arrivals self l = rx_arrivals self l' ∧ rr_jitter (rx_arrivals self l) = rr_jitter (rx_arrivals self l').
Proof.
  intros H. assert (Hs : Forall (λ '(_, _, a, _), arrival_rtp a = u32_max) l ∧ rx_arrivals self l = rx_arrivals self l').
  { revert self. induction H as [|[[[seq ts] a] dup] [[[seq' ts'] a'] dup'] l l' (-> & -> & -> & Ha & Ha') _ IH];
      intros self; [done|].
    assert (E : arrival_rtp a = u32_max ∧ arrival_rtp a' = u32_max) by (split; by apply clock_90k_saturates).
    destruct E as [E E']. cbn [rx_arrivals foldl].
    assert (Es : rr_on_packet_received self seq' ts' a dup' = rr_on_packet_received self seq' ts' a' dup')
      by (unfold rr_on_packet_received; by rewrite E, E').
    rewrite Es. destruct (IH (rr_on_packet_received self seq' ts' a' dup')) as [H1 H2]. split; [by constructor|exact H2]. }
  destruct Hs as [H1 H2]. split_and!; [exact H1|exact H2|by rewrite H2].
Qed.

(** [n] packets whose RTP timestamps advance by 1800 (20 ms), [gap] microseconds apart. *)
Fixpoint paced (seq ts arrival gap : Z) (n : nat) : list rx_arrival :=
  match n with
  | O => []
  | S n' => (seq, ts, arrival, false) :: paced (wrapping_add16 seq 1) (as_u32 (ts + 1800)) (arrival + gap) gap n'
  end.

(** A perfectly paced stream has jitter 0 at the start of a session; after 14 hours it shows the same
    jitter (above 1700 units, 19 ms) as one whose packets come 40 ms apart. *)
Lemma jitter_clock_saturates_witness :
  let new := RtcpReceiverState_new 1 [] 0 in
  rr_jitter (rx_arrivals new (paced 0 7 50400000000 20000 50)) = rr_jitter (rx_arrivals new (paced 0 7 50400000000 40000 50)) ∧
  f64_as_uint u32_max (rr_jitter (rx_arrivals new (paced 0 7 1000000 20000 50))) = 0 ∧
  1700 <= f64_as_uint u32_max (rr_jitter (rx_arrivals new (paced 0 7 50400000000 20000 50))).
Proof.
  cbn zeta. split; [|vm_compute; split; [reflexivity|discriminate]].
  apply (jitter_clock_saturates (RtcpReceiverState_new 1 [] 0) (paced 0 7 50400000000 20000 50) (paced 0 7 50400000000 40000 50)).
  assert (Hb : ∀ n seq ts a a', 47722000000 <= a → a + 40000 * Z.of_nat n < 2 ^ 53 → 47722000000 <= a' → a' + 40000 * Z.of_nat n < 2 ^ 53 →
    Forall2 same_but_late (paced seq ts a 20000 n) (paced seq ts a' 40000 n)).
  { induction n as [|n IH]; intros seq ts a a' H1 H2 H3 H4; cbn [paced]; constructor.
    - split_and!; done || lia.
    - apply IH; lia. }
  apply Hb; lia.
Defined.
