(* ===== verification/Guard.v ===== *)
(** * Admission guards, addresses and connection statistics

    rist-transport/src/guard.rs (the hold-down rules and the retransmit budget), the address
    arithmetic of channel.rs ([Channel] has the rest) and stats.rs (the counters both tasks update). *)

From S2P Require Import Prelude.

(** ** Socket addresses *)

Inductive IpAddr : Type := V4 (octets : Z) | V6 (segments : Z).
#[export] Instance IpAddr_eq_dec : EqDecision IpAddr.
Proof. solve_decision. Defined.

(** [sa_scope] holds the flow and scope identifiers of an IPv6 socket address, which
    take part in its equality; it is 0 for IPv4 and for [SocketAddr::new]. *)
Record SocketAddr := mkSocketAddr { sa_ip : IpAddr; sa_port : Z; sa_scope : Z }.
#[export] Instance SocketAddr_eq_dec : EqDecision SocketAddr.
Proof. solve_decision. Defined.

Definition SocketAddr_new (ip : IpAddr) (port : Z) : SocketAddr := mkSocketAddr ip port 0.

(** [port() + 1] in the release profile (a debug build panics on port 65535). *)
Definition rtcp_addr_for (rtp_addr : SocketAddr) : SocketAddr :=
  SocketAddr_new (sa_ip rtp_addr) (as_u16 (sa_port rtp_addr + 1)).

(** ** Hold-down *)

Definition PEER_TAKEOVER_GRACE : Z := from_secs 12.

Definition peer_is_protected (last_live : option Z) (now : Z) : bool :=
  match last_live with
  | None => false
  | Some t => saturating_duration_since now t <? PEER_TAKEOVER_GRACE
  end.

Definition peer_move_allowed (from current : SocketAddr) (last_live : option Z) (now : Z) : bool :=
  bool_decide (sa_ip from = sa_ip current) || negb (peer_is_protected last_live now).

Definition source_allowed (from : SocketAddr) (pinned_ip : option IpAddr)
    (current : option SocketAddr) (last_live : option Z) (now : Z) : bool :=
  let foreign := match pinned_ip with Some ip => bool_decide (sa_ip from ≠ ip) | None => false end in
  if foreign then false else
  match current with
  | None => true
  | Some cur => peer_move_allowed from cur last_live now
  end.

(** [media_ssrc & !1 == our_ssrc & !1] on u32. *)
Definition nack_targets_us (media_ssrc our_ssrc : Z) : bool :=
  (media_ssrc =? 0) || (Z.land media_ssrc 4294967294 =? Z.land our_ssrc 4294967294).

(** ** The retransmit budget of one datagram *)

Record NackWorkBudget := mkNackWorkBudget { wb_scan : Z; wb_retx : Z }.

Definition MIN_RETX : Z := 512.
Definition MAX_RETX : Z := 8192.

Definition for_capacity (retransmit_capacity : Z) : NackWorkBudget :=
  let retx := Z.min MAX_RETX (Z.max MIN_RETX (Z.min retransmit_capacity u32_max)) in
  mkNackWorkBudget (Z.min u32_max (retx * 4)) retx.

Definition charge_scan (self : NackWorkBudget) : NackWorkBudget * bool :=
  if wb_scan self =? 0 then (self, false)
  else (mkNackWorkBudget (wb_scan self - 1) (wb_retx self), true).

Definition charge_retx (self : NackWorkBudget) : NackWorkBudget * bool :=
  if wb_retx self =? 0 then (self, false)
  else (mkNackWorkBudget (wb_scan self) (wb_retx self - 1), true).

Lemma for_capacity_bounds cap :
  let b := for_capacity cap in
  512 <= wb_retx b <= 8192 ∧ wb_scan b = 4 * wb_retx b ∧
  (512 <= cap <= 8192 → wb_retx b = cap).
Proof. unfold for_capacity, MIN_RETX, MAX_RETX, u32_max. cbn. lia. Qed.

Lemma peer_protected_iff last now :
  peer_is_protected last now = true ↔ ∃ t, last = Some t ∧ now - t < PEER_TAKEOVER_GRACE.
Proof.
  unfold peer_is_protected, saturating_duration_since, PEER_TAKEOVER_GRACE, from_secs.
  destruct last as [t|]; [|split; [done|by intros (? & ? & _)]]. rewrite Z.ltb_lt. split.
  - intros. exists t. split; [done|lia].
  - intros (t' & [= <-] & H). lia.
Qed.

Lemma peer_move_allowed_iff from cur last now :
  peer_move_allowed from cur last now = true ↔
  sa_ip from = sa_ip cur ∨ ∀ t, last = Some t → PEER_TAKEOVER_GRACE <= now - t.
Proof.
  unfold peer_move_allowed. rewrite orb_true_iff, bool_decide_eq_true, negb_true_iff.
  split; (intros [?|H]; [by left|right]).
  - intros t ->. apply Z.nlt_ge. intros Hlt.
    assert (peer_is_protected (Some t) now = true) by (apply peer_protected_iff; eauto). congruence.
  - destruct (peer_is_protected last now) eqn:E; [|done].
    apply peer_protected_iff in E as (t & -> & Hlt). specialize (H t eq_refl). lia.
Qed.

Lemma source_allowed_pinned from ip current last now :
  source_allowed from (Some ip) current last now = true → sa_ip from = ip.
Proof. unfold source_allowed. by case_bool_decide as E; [|destruct (decide (sa_ip from = ip))]. Qed.

(** The admission rule of the receiver, exactly: a datagram is admitted iff its source
    IP matches the configured pin (when there is one) and, when the slot is latched, it comes
    from the latched IP or the slot has not been live during the last 12 seconds; so a slot
    never live is open to anyone, and a port change on the same IP always passes. *)
Theorem source_allowed_exact (from : SocketAddr) (pinned : option IpAddr)
    (current : option SocketAddr) (last_live : option Z) (now : Z) :
  source_allowed from pinned current last_live now = true ↔
  (∀ ip, pinned = Some ip → sa_ip from = ip) ∧
  (∀ cur, current = Some cur →
     sa_ip from = sa_ip cur ∨ ∀ t, last_live = Some t → PEER_TAKEOVER_GRACE <= now - t).
Proof.
  unfold source_allowed.
  assert (Hpin : (match pinned with Some ip => bool_decide (sa_ip from ≠ ip) | None => false end = false)
    ↔ ∀ ip, pinned = Some ip → sa_ip from = ip).
  { destruct pinned as [ip|]; [|naive_solver].
    rewrite bool_decide_eq_false. split; [intros H ? [= <-]; by apply dec_stable|naive_solver]. }
  destruct (match pinned with Some ip => _ | None => false end).
  - split; [done|]. intros [H _]. by apply Hpin in H.
  - split.
    + intros H. split; [by apply Hpin|]. intros cur ->. by apply peer_move_allowed_iff.
    + intros [_ H]. destruct current as [cur|]; [|done]. by apply peer_move_allowed_iff, H.
Qed.

(** ** Counters *)

Record RistConnStats := mkRistConnStats {
  st_packets_sent : Z;
  st_bytes_sent : Z;
  st_packets_retransmitted : Z;
  st_nacks_received : Z;
  st_packets_received : Z;
  st_bytes_received : Z;
  st_packets_lost : Z;
  st_packets_recovered : Z;
  st_nacks_sent : Z;
  st_duplicates : Z;
  st_reorder_drops : Z;
  st_retransmits_received : Z;
  st_rtt_us : Z;
  st_jitter_us : Z
}.
Definition RistConnStats_new : RistConnStats := mkRistConnStats 0 0 0 0 0 0 0 0 0 0 0 0 0 0.

(** [AtomicU64::fetch_add] wraps. *)
Definition fetch_add (c n : Z) : Z := as_u64 (c + n).

(** The sender's updates. *)
Definition stats_sent (s : RistConnStats) (bytes_len : Z) : RistConnStats :=
  mkRistConnStats (fetch_add (st_packets_sent s) 1) (fetch_add (st_bytes_sent s) bytes_len)
    (st_packets_retransmitted s) (st_nacks_received s) (st_packets_received s) (st_bytes_received s)
    (st_packets_lost s) (st_packets_recovered s) (st_nacks_sent s) (st_duplicates s)
    (st_reorder_drops s) (st_retransmits_received s) (st_rtt_us s) (st_jitter_us s).
Definition stats_nack_served (s : RistConnStats) (requested retransmitted : Z) : RistConnStats :=
  mkRistConnStats (st_packets_sent s) (st_bytes_sent s)
    (fetch_add (st_packets_retransmitted s) retransmitted) (fetch_add (st_nacks_received s) requested)
    (st_packets_received s) (st_bytes_received s) (st_packets_lost s) (st_packets_recovered s)
    (st_nacks_sent s) (st_duplicates s) (st_reorder_drops s) (st_retransmits_received s)
    (st_rtt_us s) (st_jitter_us s).
Definition stats_rtt (s : RistConnStats) (rtt_us : Z) : RistConnStats :=
  mkRistConnStats (st_packets_sent s) (st_bytes_sent s) (st_packets_retransmitted s)
    (st_nacks_received s) (st_packets_received s) (st_bytes_received s) (st_packets_lost s)
    (st_packets_recovered s) (st_nacks_sent s) (st_duplicates s) (st_reorder_drops s)
    (st_retransmits_received s) rtt_us (st_jitter_us s).
(** The receiver's updates. *)
Definition stats_nacks_sent (s : RistConnStats) (n : Z) : RistConnStats :=
  mkRistConnStats (st_packets_sent s) (st_bytes_sent s) (st_packets_retransmitted s)
    (st_nacks_received s) (st_packets_received s) (st_bytes_received s) (st_packets_lost s)
    (st_packets_recovered s) (fetch_add (st_nacks_sent s) n) (st_duplicates s) (st_reorder_drops s)
    (st_retransmits_received s) (st_rtt_us s) (st_jitter_us s).
Definition stats_jitter (s : RistConnStats) (jitter_us : Z) : RistConnStats :=
  mkRistConnStats (st_packets_sent s) (st_bytes_sent s) (st_packets_retransmitted s)
    (st_nacks_received s) (st_packets_received s) (st_bytes_received s) (st_packets_lost s)
    (st_packets_recovered s) (st_nacks_sent s) (st_duplicates s) (st_reorder_drops s)
    (st_retransmits_received s) (st_rtt_us s) jitter_us.
Definition stats_drained (s : RistConnStats) (lost drops : Z) : RistConnStats :=
  mkRistConnStats (st_packets_sent s) (st_bytes_sent s) (st_packets_retransmitted s)
    (st_nacks_received s) (st_packets_received s) (st_bytes_received s)
    (fetch_add (st_packets_lost s) lost) (st_packets_recovered s) (st_nacks_sent s) (st_duplicates s)
    (fetch_add (st_reorder_drops s) drops) (st_retransmits_received s) (st_rtt_us s) (st_jitter_us s).
