(* ===== verification/Channel.v ===== *)
(** * The port pair (rist-transport/src/channel.rs)

    Creating the RTP and RTCP sockets.  The operating system is a state that its calls pass on;
    they are parameters, and what is used of their documented behaviour are the laws
    [udp_laws], stated on the address each socket is bound to. *)

From S2P Require Import Prelude Guard.

Inductive ChannelError : Type := OddPort (port : Z) | Io.

Definition DEFAULT_RECV_BUFFER : Z := 32 * 1024 * 1024.
Definition DEFAULT_SEND_BUFFER : Z := 32 * 1024 * 1024.

(** What the code uses of socket2 and tokio's [UdpSocket]: [Os] is the state of the operating
    system, [Sock] a handle, [ipv4] the domain.  [None] and [false] are I/O errors; [os_drop] is
    what happens to a socket that goes out of scope.  [os_from_std] consumes the socket. *)
Record udp_os (Sock Os : Type) := mkUdpOs {
  os_new : ∀ (ipv4 : bool), Os → option Sock * Os;
  os_set_reuse_address : Sock → Os → bool * Os;
  os_set_nonblocking : Sock → Os → bool * Os;
  os_set_recv_buffer_size : Sock → Z → Os → bool * Os;
  os_set_send_buffer_size : Sock → Z → Os → bool * Os;
  os_recv_buffer_size : Sock → Os → option Z * Os;
  os_bind : Sock → SocketAddr → Os → bool * Os;
  os_from_std : Sock → Os → option Sock * Os;
  os_local_addr : Sock → Os → option SocketAddr * Os;
  os_drop : Sock → Os → Os
}.
Arguments mkUdpOs {_ _}.
Arguments os_new {_ _}. Arguments os_set_reuse_address {_ _}. Arguments os_set_nonblocking {_ _}.
Arguments os_set_recv_buffer_size {_ _}. Arguments os_set_send_buffer_size {_ _}. Arguments os_recv_buffer_size {_ _}.
Arguments os_bind {_ _}. Arguments os_from_std {_ _}. Arguments os_local_addr {_ _}. Arguments os_drop {_ _}.

Definition is_ipv4 (a : SocketAddr) : bool := match sa_ip a with V4 _ => true | V6 _ => false end.

Record RistChannel (Sock : Type) := mkRistChannel {
  ch_rtp : Sock;
  ch_rtcp : Sock;
  ch_local_rtp_addr : SocketAddr;
  ch_local_rtcp_addr : SocketAddr
}.
Arguments mkRistChannel {_}. Arguments ch_rtp {_}. Arguments ch_rtcp {_}.
Arguments ch_local_rtp_addr {_}. Arguments ch_local_rtcp_addr {_}.

Section channel.
  Context {Sock Os : Type} (os : udp_os Sock Os).

(** [None] is an I/O error.  The results of setting the buffer sizes are ignored, and the
    applied size is only read for a log line. *)
Definition create_udp_socket (addr : SocketAddr) (w : Os) : option Sock * Os :=
  let '(socket, w) := os_new os (is_ipv4 addr) w in
  match socket with
  | None => (None, w)
  | Some socket =>
      let '(ok, w) := os_set_reuse_address os socket w in
      if negb ok then (None, os_drop os socket w) else
      let '(ok, w) := os_set_nonblocking os socket w in
      if negb ok then (None, os_drop os socket w) else
      let '(_, w) := os_set_recv_buffer_size os socket DEFAULT_RECV_BUFFER w in
      let '(_, w) := os_set_send_buffer_size os socket DEFAULT_SEND_BUFFER w in
      let '(_, w) := os_recv_buffer_size os socket w in
      let '(ok, w) := os_bind os socket addr w in
      if negb ok then (None, os_drop os socket w) else
      os_from_std os socket w
  end.

(** [port() + 1] cannot overflow here: the port is even.  What was created before an error is
    dropped, the last first. *)
Definition RistChannel_bind (rtp_addr : SocketAddr) (w : Os) : (RistChannel Sock + ChannelError) * Os :=
  if negb (sa_port rtp_addr mod 2 =? 0) then (inr (OddPort (sa_port rtp_addr)), w) else
  let rtcp_addr := SocketAddr_new (sa_ip rtp_addr) (as_u16 (sa_port rtp_addr + 1)) in
  let '(rtp, w) := create_udp_socket rtp_addr w in
  match rtp with
  | None => (inr Io, w)
  | Some rtp =>
      let '(rtcp, w) := create_udp_socket rtcp_addr w in
      match rtcp with
      | None => (inr Io, os_drop os rtp w)
      | Some rtcp =>
          let '(local_rtp_addr, w) := os_local_addr os rtp w in
          match local_rtp_addr with
          | None => (inr Io, os_drop os rtp (os_drop os rtcp w))
          | Some local_rtp_addr =>
              let '(local_rtcp_addr, w) := os_local_addr os rtcp w in
              match local_rtcp_addr with
              | None => (inr Io, os_drop os rtp (os_drop os rtcp w))
              | Some local_rtcp_addr => (inl (mkRistChannel rtp rtcp local_rtp_addr local_rtcp_addr), w)
              end
          end
      end
  end.

(** ** What is used of the operating system *)

(** [bound w s] is the address of socket [s], or [None] when it has none or does not exist.  A
    socket bound to a port other than 0 gets that port; for port 0 the system chooses a port,
    never 0.  Only binding, handing a socket over and dropping it change addresses. *)
Record udp_laws (bound : Os → Sock → option SocketAddr) : Prop := {
  ul_new : ∀ v4 w s w', os_new os v4 w = (s, w') →
    (∀ x, bound w' x = bound w x) ∧ ∀ x, s = Some x → bound w x = None;
  ul_reuse : ∀ s w ok w', os_set_reuse_address os s w = (ok, w') → ∀ x, bound w' x = bound w x;
  ul_nonblocking : ∀ s w ok w', os_set_nonblocking os s w = (ok, w') → ∀ x, bound w' x = bound w x;
  ul_set_recv : ∀ s n w ok w', os_set_recv_buffer_size os s n w = (ok, w') → ∀ x, bound w' x = bound w x;
  ul_set_send : ∀ s n w ok w', os_set_send_buffer_size os s n w = (ok, w') → ∀ x, bound w' x = bound w x;
  ul_recv : ∀ s w n w', os_recv_buffer_size os s w = (n, w') → ∀ x, bound w' x = bound w x;
  ul_bind : ∀ s a w ok w', os_bind os s a w = (ok, w') →
    (∀ x, x ≠ s → bound w' x = bound w x) ∧
    if ok then ∃ b, bound w' s = Some b ∧ sa_ip b = sa_ip a ∧
      (if sa_port a =? 0 then sa_port b ≠ 0 else sa_port b = sa_port a)
    else bound w' s = bound w s;
  ul_from_std : ∀ s w s' w', os_from_std os s w = (s', w') →
    match s' with
    | Some s' => bound w' s' = bound w s ∧ (s' ≠ s → bound w s' = None ∧ bound w' s = None) ∧
        ∀ x, x ≠ s → x ≠ s' → bound w' x = bound w x
    | None => bound w' s = None ∧ ∀ x, x ≠ s → bound w' x = bound w x
    end;
  ul_local_addr : ∀ s w a w', os_local_addr os s w = (a, w') →
    (∀ x, bound w' x = bound w x) ∧ ∀ b, a = Some b → bound w s = Some b;
  ul_drop : ∀ s w, bound (os_drop os s w) s = None ∧ ∀ x, x ≠ s → bound (os_drop os s w) x = bound w x
}.

Section laws.
  Context `{!EqDecision Sock} (bound : Os → Sock → option SocketAddr) (laws : udp_laws bound).

(** A socket is created and bound as asked, or nothing is left of it. *)
Lemma create_udp_socket_spec addr w r w' :
  create_udp_socket addr w = (r, w') →
  match r with
  | None => ∀ x, bound w' x = bound w x
  | Some s => bound w s = None ∧ (∀ x, x ≠ s → bound w' x = bound w x) ∧
      ∃ b, bound w' s = Some b ∧ sa_ip b = sa_ip addr ∧
        (if sa_port addr =? 0 then sa_port b ≠ 0 else sa_port b = sa_port addr)
  end.
Proof using laws EqDecision0.
  unfold create_udp_socket. destruct (os_new os _ w) as [[s|] w1] eqn:E1; cbn zeta.
  2:{ intros [= <- <-]. apply (ul_new _ laws) in E1. apply E1. }
  apply (ul_new _ laws) in E1 as [H1 Hn]. specialize (Hn s eq_refl).
  assert (Hdrop : ∀ w2, (∀ x, x ≠ s → bound w2 x = bound w x) → ∀ x, bound (os_drop os s w2) x = bound w x).
  { intros w2 H x. destruct (ul_drop _ laws s w2) as [D1 D2]. destruct (decide (x = s)) as [->|Hne].
    - by rewrite D1, Hn.
    - by rewrite D2, H. }
  destruct (os_set_reuse_address os s w1) as [ok2 w2] eqn:E2. pose proof (ul_reuse _ laws _ _ _ _ E2) as H2.
  destruct ok2; cbn [negb]; [|intros [= <- <-]; apply Hdrop; intros; by rewrite H2, H1].
  destruct (os_set_nonblocking os s w2) as [ok3 w3] eqn:E3. pose proof (ul_nonblocking _ laws _ _ _ _ E3) as H3.
  destruct ok3; cbn [negb]; [|intros [= <- <-]; apply Hdrop; intros; by rewrite H3, H2, H1].
  destruct (os_set_recv_buffer_size os s _ w3) as [ok4 w4] eqn:E4. pose proof (ul_set_recv _ laws _ _ _ _ _ E4) as H4.
  destruct (os_set_send_buffer_size os s _ w4) as [ok5 w5] eqn:E5. pose proof (ul_set_send _ laws _ _ _ _ _ E5) as H5.
  destruct (os_recv_buffer_size os s w5) as [n w6] eqn:E6. pose proof (ul_recv _ laws _ _ _ _ E6) as H6.
  destruct (os_bind os s addr w6) as [ok7 w7] eqn:E7. destruct (ul_bind _ laws _ _ _ _ _ E7) as [H7 Hb].
  assert (Hw7 : ∀ x, x ≠ s → bound w7 x = bound w x) by (intros; by rewrite H7, H6, H5, H4, H3, H2, H1).
  destruct ok7; cbn [negb]; [|intros [= <- <-]; by apply Hdrop].
  intros E8. apply (ul_from_std _ laws) in E8. destruct r as [s'|].
  - destruct E8 as (Es & Hne & Hx). destruct Hb as (b & Hb & Hip & Hport). rewrite Hb in Es.
    destruct (decide (s' = s)) as [->|Hd].
    { split_and!; [done| |by exists b]. intros x Hx'. by rewrite Hx, Hw7. }
    destruct (Hne Hd) as [N1 N2]. split_and!; [by rewrite <- Hw7| |by exists b].
    intros x Hx'. destruct (decide (x = s)) as [->|Hxs]; [by rewrite N2, Hn|by rewrite Hx, Hw7].
  - destruct E8 as [D1 D2]. intros x. destruct (decide (x = s)) as [->|Hne]; [by rewrite D1, Hn|by rewrite D2, Hw7].
Qed.

(** (C26) Binding, exactly: an odd port, and only an odd port, is refused with that port and
    without a call to the operating system; any other failure is an I/O error that leaves no
    socket bound.  On success the channel reports the addresses its two different sockets are
    bound to, both at the requested IP: for an even port other than 0 that port and the next
    one, which is the control port a peer derives ([rtcp_addr_for]).  For port 0 the media
    port is whatever the operating system chose while the control port is 1, so the pair is
    never adjacent, and a peer derives the wrong control port.  (Of the operating system this
    uses that a socket is bound to the port asked for, or to one other than 0 when
    asked for port 0.)  Applied to a peer at the odd port 65535 the derivation gives port 0. *)
Theorem channel_bind_exact (rtp_addr : SocketAddr) (w w' : Os) (r : RistChannel Sock + ChannelError) :
  is_u16 (sa_port rtp_addr) → RistChannel_bind rtp_addr w = (r, w') →
  (sa_port rtp_addr = 65535 → sa_port (rtcp_addr_for rtp_addr) = 0) ∧
  (r = inr (OddPort (sa_port rtp_addr)) ↔ sa_port rtp_addr mod 2 = 1) ∧
  (sa_port rtp_addr mod 2 = 1 → w' = w) ∧
  match r with
  | inr (OddPort p) => p = sa_port rtp_addr
  | inr Io => ∀ x, bound w' x = bound w x
  | inl c =>
      ch_rtp c ≠ ch_rtcp c ∧
      bound w' (ch_rtp c) = Some (ch_local_rtp_addr c) ∧ bound w' (ch_rtcp c) = Some (ch_local_rtcp_addr c) ∧
      sa_ip (ch_local_rtp_addr c) = sa_ip rtp_addr ∧ sa_ip (ch_local_rtcp_addr c) = sa_ip rtp_addr ∧
      if sa_port rtp_addr =? 0 then
        sa_port (ch_local_rtcp_addr c) = 1 ∧ sa_port (ch_local_rtcp_addr c) ≠ sa_port (ch_local_rtp_addr c) + 1
      else
        sa_port (ch_local_rtp_addr c) = sa_port rtp_addr ∧
        sa_port (ch_local_rtcp_addr c) = sa_port (ch_local_rtp_addr c) + 1 ∧
        sa_port (ch_local_rtcp_addr c) = sa_port (rtcp_addr_for (ch_local_rtp_addr c))
  end.
Proof using laws EqDecision0.
  intros Hp. assert (Hm : sa_port rtp_addr mod 2 = 0 ∨ sa_port rtp_addr mod 2 = 1) by ulia.
  unfold RistChannel_bind. fold (rtcp_addr_for rtp_addr). intros H. split; [by cbn; intros ->|]. revert H.
  destruct (Z.eqb_spec (sa_port rtp_addr mod 2) 0) as [E|E]; cbn [negb]; [|intros [= <- <-]; split; [split; [lia|done]|done]].
  destruct (create_udp_socket rtp_addr w) as [[rtp|] w1] eqn:E1; pose proof (create_udp_socket_spec _ _ _ _ E1) as H1.
  2:{ intros [= <- <-]. split; [split; [done|lia]|]. split; [lia|done]. }
  destruct H1 as (N1 & F1 & b1 & B1 & I1 & P1).
  destruct (create_udp_socket (rtcp_addr_for rtp_addr) w1) as [[rtcp|] w2] eqn:E2;
    pose proof (create_udp_socket_spec _ _ _ _ E2) as H2.
  2:{ intros [= <- <-]. split; [split; [done|lia]|]. split; [lia|]. intros x. destruct (ul_drop _ laws rtp w2) as [D1 D2].
      destruct (decide (x = rtp)) as [->|Hne]; [by rewrite D1, N1|by rewrite D2, H2, F1]. }
  destruct H2 as (N2 & F2 & b2 & B2 & I2 & P2).
  assert (Hne : rtp ≠ rtcp) by (intros ->; congruence).
  assert (Hclean : ∀ w3, (∀ x, bound w3 x = bound w2 x) → ∀ x, bound (os_drop os rtp (os_drop os rtcp w3)) x = bound w x).
  { intros w3 H3 x. destruct (ul_drop _ laws rtp (os_drop os rtcp w3)) as [D1 D2], (ul_drop _ laws rtcp w3) as [D3 D4].
    destruct (decide (x = rtp)) as [->|H]; [by rewrite D1, N1|]. rewrite D2 by done.
    destruct (decide (x = rtcp)) as [->|H']; [by rewrite D3, <- F1 by done|by rewrite D4, H3, F2, F1]. }
  destruct (os_local_addr os rtp w2) as [[l1|] w3] eqn:E3; destruct (ul_local_addr _ laws _ _ _ _ E3) as [F3 L3].
  2:{ intros [= <- <-]. split; [split; [done|lia]|]. split; [lia|by apply Hclean]. }
  destruct (os_local_addr os rtcp w3) as [[l2|] w4] eqn:E4; destruct (ul_local_addr _ laws _ _ _ _ E4) as [F4 L4].
  2:{ intros [= <- <-]. split; [split; [done|lia]|]. split; [lia|]. apply Hclean. intros x. by rewrite F4. }
  intros [= <- <-]. split; [split; [done|lia]|]. split; [lia|]. cbn [ch_rtp ch_rtcp ch_local_rtp_addr ch_local_rtcp_addr].
  specialize (L3 l1 eq_refl). specialize (L4 l2 eq_refl). rewrite F3 in L4.
  assert (b1 = l1) as -> by (rewrite F2 in L3 by done; congruence). assert (b2 = l2) as -> by congruence.
  assert (Hport : sa_port (rtcp_addr_for rtp_addr) = sa_port rtp_addr + 1) by (cbn; clear -Hp E; ulia).
  rewrite Hport in P2. rewrite (proj2 (Z.eqb_neq (sa_port rtp_addr + 1) 0)) in P2 by (unfold is_u16 in Hp; lia).
  split_and!; [done|by rewrite F4, F3|by rewrite F4, F3|done|done|].
  destruct (Z.eqb_spec (sa_port rtp_addr) 0) as [E0|E0]; [split; lia|].
  split_and!; [done|lia|]. cbn [rtcp_addr_for SocketAddr_new sa_port]. rewrite P1. cbn in Hport. by rewrite Hport, P2.
Qed.
End laws.
End channel.

(** ** A small operating system *)

(** Sockets are numbered; the state lists, for each socket created, the address it is bound to. *)
Abbreviation demo_os_state := (list (option SocketAddr)).
Definition demo_bound (w : demo_os_state) (s : nat) : option SocketAddr := w !! s ≫= id.
(** Binding takes the address, with port 49152 and up in place of port 0. *)
Definition demo_bind (s : nat) (a : SocketAddr) (w : demo_os_state) : bool * demo_os_state :=
  if bool_decide (s < length w)%nat then
    (true, <[s := Some (if sa_port a =? 0 then SocketAddr_new (sa_ip a) (49152 + Z.of_nat s) else a)]> w)
  else (false, w).
Definition demo_os : udp_os nat demo_os_state :=
  mkUdpOs (λ _ w, (Some (length w), w ++ [None])) (λ _ w, (true, w)) (λ _ w, (true, w))
    (λ _ _ w, (false, w)) (λ _ _ w, (true, w)) (λ _ w, (Some 212992, w)) demo_bind (λ s w, (Some s, w))
    (λ s w, (demo_bound w s, w)) (λ s w, <[s := None]> w).

Lemma demo_bound_insert w s x a :
  (s < length w)%nat → demo_bound (<[s := a]> w) x = if decide (x = s) then a else demo_bound w x.
Proof.
  intros Hs. unfold demo_bound. destruct (decide (x = s)) as [->|Hne].
  - by rewrite list_lookup_insert_eq.
  - by rewrite list_lookup_insert_ne.
Qed.

Lemma demo_laws : udp_laws demo_os demo_bound.
Proof.
  split; cbn; unfold demo_bind; intros; simplify_eq; try done.
  - split.
    + intros x. unfold demo_bound. destruct (decide (x < length w)%nat); [by rewrite lookup_app_l|].
      rewrite (lookup_ge_None_2 w) by lia. rewrite lookup_app_r by lia. by destruct (x - length w)%nat as [|[|]].
    + intros x [= <-]. unfold demo_bound. by rewrite lookup_ge_None_2.
  - case_bool_decide as Hs; simplify_eq; [|done]. split.
    + intros x Hx. by rewrite demo_bound_insert, decide_False.
    + rewrite demo_bound_insert, decide_True by done. eexists. split; [done|].
      destruct (Z.eqb_spec (sa_port a) 0); cbn; split; done || lia.
  - destruct (decide (s < length w)%nat) as [Hs|Hs].
    + split; [by rewrite demo_bound_insert, decide_True|]. intros x Hx. by rewrite demo_bound_insert, decide_False.
    + rewrite list_insert_ge by lia. unfold demo_bound. by rewrite lookup_ge_None_2 by lia.
Qed.

Lemma channel_bind_exact_witness :
  let a := SocketAddr_new (V4 2130706433) 5000 in let a0 := SocketAddr_new (V4 2130706433) 0 in
  ∃ c w c0 w0, RistChannel_bind demo_os a [] = (inl c, w) ∧ sa_port (ch_local_rtp_addr c) = 5000 ∧
    sa_port (ch_local_rtcp_addr c) = sa_port (ch_local_rtp_addr c) + 1 ∧
    RistChannel_bind demo_os a0 w = (inl c0, w0) ∧
    sa_port (ch_local_rtcp_addr c0) ≠ sa_port (ch_local_rtp_addr c0) + 1.
Proof.
  cbn zeta. eexists _, _, _, _. split; [vm_compute; reflexivity|].
  match goal with |- context [ch_local_rtp_addr ?c] => set (c1 := c) end.
  match goal with |- context [RistChannel_bind demo_os (SocketAddr_new _ 0) ?w] => set (w1 := w) end.
  assert (E : RistChannel_bind demo_os (SocketAddr_new (V4 2130706433) 5000) [] = (inl c1, w1)) by (vm_compute; reflexivity).
  pose proof (channel_bind_exact demo_os demo_bound demo_laws (SocketAddr_new (V4 2130706433) 5000) [] w1 (inl c1)
    ltac:(unfold is_u16; cbn; lia) E) as (_ & _ & _ & _ & _ & _ & _ & _ & H1 & H2 & _).
  split; [exact H1|]. split; [exact H2|].
  split; [vm_compute; reflexivity|].
  match goal with |- sa_port (ch_local_rtcp_addr ?c) ≠ _ => set (c2 := c) end.
  destruct (RistChannel_bind demo_os (SocketAddr_new (V4 2130706433) 0) w1) as [r w2] eqn:E2.
  assert (Er : r = inl c2) by (vm_compute in E2; injection E2 as <- _; reflexivity). subst r.
  pose proof (channel_bind_exact demo_os demo_bound demo_laws (SocketAddr_new (V4 2130706433) 0) w1 w2 (inl c2)
    ltac:(unfold is_u16; cbn; lia) E2) as (_ & _ & _ & _ & _ & _ & _ & _ & _ & H4).
  exact H4.
Defined.
