(* ===== verification/Config.v ===== *)
(** * Configuration (rist-transport/src/config.rs, rist-protocol/src/config.rs)

    The settings of a socket with their defaults, and those of the protocol crate. *)

From Stdlib Require Import Floats.SpecFloat.
From S2P Require Import Prelude Float64 Guard.

(** ** Sockets *)

Record RistSocketConfig := mkRistSocketConfig {
  cf_local_addr : SocketAddr;
  cf_remote_addr : option SocketAddr;
  cf_buffer_size : Z;
  cf_max_nack_retries : Z;
  cf_rtcp_interval : Z;
  cf_cname : option bytes;
  cf_retransmit_buffer_capacity : Z;
  cf_rtt_echo_enabled : bool
}.

(** "0.0.0.0:5000" *)
Definition RistSocketConfig_default : RistSocketConfig :=
  mkRistSocketConfig (SocketAddr_new (V4 0) 5000) None (from_millis 1000) 10 (from_millis 100) None 2048 true.

(** ** The protocol crate *)

Inductive RistProfile : Type := Simple | Main.

Record RistConfig := mkRistConfig {
  pc_profile : RistProfile;
  pc_buffer_size : Z;
  pc_max_nack_retries : Z;
  pc_rtcp_interval : Z;
  pc_rtcp_bandwidth_fraction : f64;
  pc_cname : option bytes;
  pc_retransmit_buffer_capacity : Z;
  pc_rtt_echo_enabled : bool;
  pc_null_packet_deletion : bool
}.

(** The literal [0.05] is the binary64 number nearest to 1/20. *)
Definition f64_0_05 : f64 := S754_finite false 7205759403792794 (-57).

Definition RistConfig_default : RistConfig :=
  mkRistConfig Simple (from_millis 1000) 10 (from_millis 100) f64_0_05 None 2048 true false.

(** The literal is the correctly rounded quotient. *)
Lemma f64_0_05_rounded : f64_0_05 = f64_div (f64_of_uint 1) (f64_of_uint 20).
Proof. by vm_compute. Qed.

(** The two crates agree on the defaults they share. *)
Lemma defaults_agree :
  let s := RistSocketConfig_default in let p := RistConfig_default in
  (cf_buffer_size s, cf_max_nack_retries s, cf_rtcp_interval s, cf_cname s,
   cf_retransmit_buffer_capacity s, cf_rtt_echo_enabled s) =
  (pc_buffer_size p, pc_max_nack_retries p, pc_rtcp_interval p, pc_cname p,
   pc_retransmit_buffer_capacity p, pc_rtt_echo_enabled p).
Proof. done. Qed.
