(* ===== verification/Net.v ===== *)
(** * Socket addresses as text

    [SocketAddr::from_str] of the Rust standard library, which the example programs and the
    default configuration use on string literals and on command-line arguments.  A parser
    takes the bytes still to read and yields a value and the rest, or fails and consumes
    nothing. *)

From Stdlib Require Import Ascii String.
From S2P Require Import Prelude Guard Config.
Local Open Scope Z_scope.

(** The bytes of a string literal. *)
Definition str (s : string) : bytes := map (λ c, Z.of_nat (nat_of_ascii c)) (list_ascii_of_string s).

Definition parser (A : Type) : Type := bytes → option (A * bytes).

Definition read_given_char (c : Z) : parser () := λ s,
  match s with x :: s => if x =? c then Some ((), s) else None | [] => None end.

(** [char::to_digit] *)
Definition to_digit (radix c : Z) : option Z :=
  let d := if (48 <=? c) && (c <=? 57) then c - 48
           else if (97 <=? c) && (c <=? 122) then c - 87
           else if (65 <=? c) && (c <=? 90) then c - 55 else radix in
  if d <? radix then Some d else None.

(** The digits of [read_number], with the value so far and their number.  A value above
    [type_max], or more digits than [max_digits], make it fail. *)
Fixpoint read_digits (radix : Z) (max_digits : option Z) (type_max : Z) (s : bytes) (result count : Z)
    : option (Z * Z * bytes) :=
  match s with
  | c :: rest =>
      match to_digit radix c with
      | Some digit =>
          let result := result * radix + digit in
          if match max_digits with Some m => m <? count + 1 | None => type_max <? result end then None
          else read_digits radix max_digits type_max rest result (count + 1)
      | None => Some (result, count, s)
      end
  | [] => Some (result, count, [])
  end.

Definition read_number (radix : Z) (max_digits : option Z) (allow_zero_prefix : bool) (type_max : Z) : parser Z := λ s,
  let has_leading_zero := match s with 48 :: _ => true | _ => false end in
  '(result, digit_count, rest) ← read_digits radix max_digits type_max s 0 0;
  if digit_count =? 0 then None
  else if negb allow_zero_prefix && has_leading_zero && (1 <? digit_count) then None
  else if type_max <? result then None
  else Some (result, rest).

Definition read_separator {A} (sep : Z) (index : nat) (inner : parser A) : parser A := λ s,
  match index with O => inner s | S _ => '(_, s) ← read_given_char sep s; inner s end.

Definition read_octet (index : nat) : parser Z := read_separator 46 index (read_number 10 (Some 3) false 255).

(** The address as a 32-bit number. *)
Definition read_ipv4_addr : parser Z := λ s,
  '(a, s) ← read_octet 0 s; '(b, s) ← read_octet 1 s; '(c, s) ← read_octet 2 s; '(d, s) ← read_octet 3 s;
  Some (((a * 256 + b) * 256 + c) * 256 + d, s).

(** [read_groups]: the groups read, whether the last two came from an embedded IPv4 address,
    and the rest.  [n] groups are left of [limit]; [i] were read. *)
Fixpoint read_groups (n i : nat) (limit : nat) (s : bytes) : list Z * bool * bytes :=
  match n with
  | O => ([], false, s)
  | S n =>
      let ipv4 := if bool_decide (i < limit - 1)%nat then read_separator 58 i read_ipv4_addr s else None in
      match ipv4 with
      | Some (v4, s) => ([v4 / 65536; v4 mod 65536], true, s)
      | None =>
          match read_separator 58 i (read_number 16 (Some 4) true 65535) s with
          | Some (g, s) => let '(gs, v4, s) := read_groups n (S i) limit s in (g :: gs, v4, s)
          | None => ([], false, s)
          end
      end
  end.

Definition segments_be (groups : list Z) : Z := foldl (λ acc g, acc * 65536 + g) 0 groups.

Definition read_ipv6_addr : parser Z := λ s,
  let '(head, head_ipv4, s) := read_groups 8 0 8 s in
  if bool_decide (length head = 8)%nat then Some (segments_be head, s)
  else if head_ipv4 then None
  else
    '(_, s) ← read_given_char 58 s; '(_, s) ← read_given_char 58 s;
    let limit := (8 - (length head + 1))%nat in
    let '(tail, _, s) := read_groups limit 0 limit s in
    Some (segments_be (head ++ replicate (8 - length head - length tail) 0 ++ tail), s).

Definition read_port : parser Z := λ s,
  '(_, s) ← read_given_char 58 s; read_number 10 None true 65535 s.

Definition read_socket_addr_v4 : parser SocketAddr := λ s,
  '(ip, s) ← read_ipv4_addr s; '(port, s) ← read_port s; Some (mkSocketAddr (V4 ip) port 0, s).

Definition read_scope_id : parser Z := λ s,
  '(_, s) ← read_given_char 37 s; read_number 10 None true u32_max s.

(** The flow label is 0. *)
Definition read_socket_addr_v6 : parser SocketAddr := λ s,
  '(_, s) ← read_given_char 91 s; '(ip, s) ← read_ipv6_addr s;
  let '(scope_id, s) := match read_scope_id s with Some (n, s) => (n, s) | None => (0, s) end in
  '(_, s) ← read_given_char 93 s; '(port, s) ← read_port s;
  Some (mkSocketAddr (V6 ip) port scope_id, s).

(** The whole input must be consumed. *)
Definition SocketAddr_from_str (s : bytes) : option SocketAddr :=
  match (match read_socket_addr_v4 s with Some r => Some r | None => read_socket_addr_v6 s end) with
  | Some (addr, []) => Some addr
  | _ => None
  end.

(** ** Dotted quads *)

Lemma to_digit_10 d : 0 <= d < 10 → to_digit 10 (48 + d) = Some d.
Proof.
  intros Hd. unfold to_digit. rewrite (proj2 (Z.leb_le _ _)), (proj2 (Z.leb_le _ _)) by lia. cbn [andb].
  replace (48 + d - 48) with d by lia. by rewrite (proj2 (Z.ltb_lt _ _)) by lia.
Qed.

(** The decimal digits of a number below 100000, without leading zeros. *)
Fixpoint decimal (fuel : nat) (n : Z) : list Z :=
  match fuel with
  | O => []
  | S fuel => (if n <? 10 then [] else decimal fuel (n / 10)) ++ [n mod 10]
  end.
Definition show_number (n : Z) : bytes := map (Z.add 48) (decimal 5 n).

(** The text of an IPv4 socket address. *)
Definition show_v4 (a b c d port : Z) : bytes :=
  show_number a ++ [46] ++ show_number b ++ [46] ++ show_number c ++ [46] ++ show_number d ++ [58] ++ show_number port.

Definition value (acc : Z) (ds : list Z) : Z := foldl (λ acc d, acc * 10 + d) acc ds.

Lemma value_ge ds : ∀ acc, 0 <= acc → Forall (λ d, 0 <= d < 10) ds → acc <= value acc ds.
Proof.
  induction ds as [|d ds IH]; intros acc Ha Hd; [done|]. apply Forall_cons in Hd as [Hd Hds].
  cbn [value foldl]. specialize (IH (acc * 10 + d) ltac:(lia) Hds). unfold value in IH. lia.
Qed.

Lemma decimal_spec fuel : ∀ n, 0 <= n < 10 ^ Z.of_nat fuel → (fuel ≠ 0)%nat →
  Forall (λ d, 0 <= d < 10) (decimal fuel n) ∧ value 0 (decimal fuel n) = n ∧
  (n < 10 → length (decimal fuel n) = 1%nat) ∧ (10 <= n → hd 0 (decimal fuel n) ≠ 0) ∧
  ∀ k, (0 < k)%nat → n < 10 ^ Z.of_nat k → (length (decimal fuel n) <= k)%nat.
Proof.
  induction fuel as [|fuel IH]; intros n Hn Hf; [done|]. cbn [decimal].
  pose proof (Z.mod_pos_bound n 10 ltac:(lia)) as Hm. pose proof (Z.div_mod n 10 ltac:(lia)) as Hdm.
  destruct (Z.ltb_spec n 10) as [Hlt|Hge].
  { cbn. rewrite Z.mod_small by lia. split_and!; [constructor; [lia|constructor]|lia|done|lia|intros; lia]. }
  assert (Hp : 10 ^ Z.of_nat (S fuel) = 10 * 10 ^ Z.of_nat fuel) by (rewrite Nat2Z.inj_succ, Z.pow_succ_r; lia).
  assert (Hfuel : fuel ≠ 0%nat) by (intros ->; cbn in Hp; lia).
  destruct (IH (n / 10) ltac:(lia) Hfuel) as (H1 & H2 & H3 & H4 & H5). split_and!.
  - apply Forall_app. split; [done|]. constructor; [lia|constructor].
  - unfold value in *. rewrite foldl_app, H2. cbn. lia.
  - lia.
  - intros _. destruct (decide (n / 10 < 10)) as [Hs|Hs].
    + destruct (decimal fuel (n / 10)) as [|d [|]]; cbn in *; try (specialize (H3 Hs); done). lia.
    + specialize (H4 ltac:(lia)). destruct (decimal fuel (n / 10)) as [|d ds]; cbn in *; lia.
  - intros k Hk Hnk. destruct k as [|k]; [lia|].
    assert (Hpk : 10 ^ Z.of_nat (S k) = 10 * 10 ^ Z.of_nat k) by (rewrite Nat2Z.inj_succ, Z.pow_succ_r; lia).
    assert (Hk0 : k ≠ 0%nat) by (intros ->; cbn in Hpk; lia).
    rewrite length_app. cbn. specialize (H5 k ltac:(lia) ltac:(lia)). lia.
Qed.

(** What may follow a number. *)
Definition no_digit (s : bytes) : Prop := match s with c :: _ => to_digit 10 c = None | [] => True end.

Lemma read_digits_decimal m max rest : no_digit rest → ∀ ds acc count,
  0 <= acc → Forall (λ d, 0 <= d < 10) ds → value acc ds <= max →
  (∀ k, m = Some k → count + Z.of_nat (length ds) <= k) →
  read_digits 10 m max (map (Z.add 48) ds ++ rest) acc count =
    Some (value acc ds, count + Z.of_nat (length ds), rest).
Proof.
  intros Hrest. induction ds as [|d ds IH]; intros acc count Ha Hd Hv Hk.
  { cbn. destruct rest as [|c rest]; cbn; [|rewrite Hrest]; by rewrite Z.add_0_r. }
  apply Forall_cons in Hd as [Hd Hds]. cbn [map app read_digits]. rewrite to_digit_10 by done. cbn [value foldl] in *.
  pose proof (value_ge ds (acc * 10 + d) ltac:(lia) Hds) as Hge. unfold value in Hge.
  assert (Hgo : (match m with Some m => m <? count + 1 | None => max <? acc * 10 + d end) = false).
  { destruct m as [k|]; apply Z.ltb_ge; [specialize (Hk k eq_refl); cbn in Hk|]; lia. }
  rewrite Hgo, IH; [|lia|done|done|intros k ->; specialize (Hk k eq_refl); cbn in Hk; lia].
  unfold value. do 3 f_equal. cbn. lia.
Qed.

Lemma read_number_show m prefix max n rest :
  0 <= n <= max → max < 100000 → no_digit rest → (m = None ∨ m = Some 3 ∧ max < 1000) →
  read_number 10 m prefix max (show_number n ++ rest) = Some (n, rest).
Proof.
  intros Hn Hmax Hrest Hm. unfold read_number, show_number.
  destruct (decimal_spec 5 n ltac:(cbn; lia) ltac:(done)) as (H1 & H2 & H3 & H4 & H5).
  rewrite (read_digits_decimal m max rest Hrest); [|lia|done|lia|].
  2:{ intros k ->. destruct Hm as [|[[= ->] Hlt]]; [done|]. specialize (H5 3%nat ltac:(lia) ltac:(cbn; lia)). lia. }
  cbn [mbind option_bind]. rewrite H2, Z.add_0_l.
  destruct (decimal 5 n) as [|d ds] eqn:E; [by destruct (decide (n < 10)) as [?%H3|?%Z.nlt_ge%H4]|].
  replace (Z.of_nat (length (d :: ds)) =? 0) with false by (symmetry; apply Z.eqb_neq; cbn; lia).
  assert (Hz : (negb prefix && match map (Z.add 48) (d :: ds) ++ rest with 48 :: _ => true | _ => false end
    && (1 <? Z.of_nat (length (d :: ds)))) = false).
  { destruct (decide (n < 10)) as [Hs|Hs]; [rewrite H3 by done; by rewrite andb_false_r|].
    specialize (H4 ltac:(lia)). cbn [hd] in H4. apply Forall_cons in H1 as [Hd _].
    assert (Hne : 48 + d ≠ 48) by lia. cbn [map app]. destruct prefix; [done|]. cbn [negb andb].
    destruct (48 + d) as [|p|p] eqn:E48; try done. repeat (destruct p as [p|p|]; try done). }
  rewrite Hz. by rewrite (proj2 (Z.ltb_ge _ _)) by lia.
Qed.

(** Every IPv4 socket address is read back from its text. *)
Lemma from_str_show_v4 a b c d port :
  0 <= a < 256 → 0 <= b < 256 → 0 <= c < 256 → 0 <= d < 256 → is_u16 port →
  SocketAddr_from_str (show_v4 a b c d port) = Some (SocketAddr_new (V4 (((a * 256 + b) * 256 + c) * 256 + d)) port).
Proof.
  intros Ha Hb Hc Hd [Hp1 Hp2]. unfold SocketAddr_from_str, read_socket_addr_v4, read_ipv4_addr, read_octet, show_v4.
  cbn [read_separator]. assert (Hoct : ∀ n s, 0 <= n < 256 → no_digit s →
    read_number 10 (Some 3) false 255 (show_number n ++ s) = Some (n, s)).
  { intros. apply read_number_show; [lia|done|done|by right]. }
  repeat (rewrite Hoct by done; cbn [mbind option_bind app read_given_char Z.eqb Pos.eqb]).
  unfold read_port. cbn [read_given_char Z.eqb Pos.eqb mbind option_bind].
  rewrite <- (app_nil_r (show_number port)), read_number_show by (done || lia || by left). done.
Qed.

Lemma default_local_addr : SocketAddr_from_str (str "0.0.0.0:5000") = Some (cf_local_addr RistSocketConfig_default).
Proof. by vm_compute. Qed.

Example parse_v6 : SocketAddr_from_str (str "[2001:db8::1:ffff%3]:6000") =
  Some (mkSocketAddr (V6 0x20010db800000000000000000001ffff) 6000 3).
Proof. by vm_compute. Qed.
Example parse_v6_embedded : SocketAddr_from_str (str "[::ffff:1.2.3.4]:80") = Some (mkSocketAddr (V6 0xffff01020304) 80 0).
Proof. by vm_compute. Qed.
Example parse_octal : SocketAddr_from_str (str "127.0.0.01:80") = None.
Proof. by vm_compute. Qed.
Example parse_port : SocketAddr_from_str (str "127.0.0.1:65536") = None.
Proof. by vm_compute. Qed.
Example show_v4_127 : show_v4 127 0 0 1 42100 = str "127.0.0.1:42100".
Proof. by vm_compute. Qed.
