(* ===== verification/MainProfile.v ===== *)
(** * Declarations of the Main Profile (rist-protocol/src/gre, crypto, protocol/tunnel.rs,
    protocol/null_delete.rs, stats.rs; rist-transport/src/dtls_channel.rs, tunnel_task.rs,
    bonding_task.rs, stats_poller.rs)

    The data types the crates declare for TR-06-2 and for bonding, with their constructors and
    defaults.  No task of the Simple Profile uses them yet, so there is no behaviour beyond
    the defaults. *)

From S2P Require Import Prelude Float64 Guard Bonding.

(** ** GRE (gre/header.rs, keepalive.rs, reduced.rs) *)

Definition VSF_ETHERTYPE : Z := 0xCCE0.
Definition LEGACY_REDUCED_ETHERTYPE : Z := 0x88B6.
Definition LEGACY_KEEPALIVE_ETHERTYPE : Z := 0x88B5.

Inductive RistVersion : Type := V2020 | V2021 | V2022.
#[export] Instance RistVersion_eq_dec : EqDecision RistVersion.
Proof. solve_decision. Defined.

(** The discriminants [V2020 = 0], [V2021 = 1], [V2022 = 2]. *)
Definition RistVersion_bits (v : RistVersion) : Z :=
  match v with V2020 => 0 | V2021 => 1 | V2022 => 2 end.

Record GreHeader := mkGreHeader {
  gh_c_flag : bool;
  gh_k_flag : bool;
  gh_s_flag : bool;
  gh_h_bit : bool;
  gh_rist_version : RistVersion;
  gh_protocol_type : Z;
  gh_key : option Z;
  gh_sequence : option Z
}.

Record VsfPacketHeader := mkVsfPacketHeader { vh_protocol_type : Z; vh_protocol_subtype : Z }.

Record KeepAlivePayload := mkKeepAlivePayload { ka_version : bytes; ka_profile : bytes }.

Record ReducedUdpHeader := mkReducedUdpHeader { ru_source_port : Z; ru_dest_port : Z }.

(** ** Encryption (crypto/psk.rs, crypto/dtls.rs, dtls_channel.rs) *)

Inductive PskKeyLength : Type := Aes128 | Aes256.
#[export] Instance PskKeyLength_eq_dec : EqDecision PskKeyLength.
Proof. solve_decision. Defined.

Record PskConfig := mkPskConfig { pk_key_length : PskKeyLength; pk_passphrase : bytes }.

Inductive DtlsAuthMode : Type :=
  | Certificate (cert_path key_path : bytes)
  | Srp (username password : bytes).

Record DtlsConfig := mkDtlsConfig { dt_auth_mode : DtlsAuthMode }.
Record DtlsChannelConfig := mkDtlsChannelConfig { dc_enabled : bool }.

(** ** The tunnel (protocol/tunnel.rs, tunnel_task.rs) *)

Inductive TunnelState : Type := Disconnected | Establishing | Connected.
#[export] Instance TunnelState_eq_dec : EqDecision TunnelState.
Proof. solve_decision. Defined.

Record TunnelConfig := mkTunnelConfig {
  tn_keepalive_interval : Z;
  tn_tunnel_timeout : Z;
  tn_initial_keepalive_count : Z;
  tn_reduced_overhead : bool
}.

Definition TunnelConfig_default : TunnelConfig := mkTunnelConfig (from_secs 5) (from_secs 60) 5 true.

Record TunnelTaskConfig := mkTunnelTaskConfig { tk_tunnel_port : Z; tk_reduced_overhead : bool }.

(** The defaults are in the ranges the field comments quote from TR-06-2, and the timeout
    leaves room for twelve keep-alives. *)
Lemma tunnel_defaults_in_range :
  let c := TunnelConfig_default in
  from_secs 1 <= tn_keepalive_interval c <= from_secs 10 ∧
  3 <= tn_initial_keepalive_count c <= 10 ∧
  tn_tunnel_timeout c = from_secs 60 ∧ tn_tunnel_timeout c = 12 * tn_keepalive_interval c.
Proof. cbn. unfold from_secs. lia. Qed.

(** ** Null packet deletion (protocol/null_delete.rs) *)

Definition TS_NULL_PID : Z := 0x1FFF.
Record NullDeleteSender := mkNullDeleteSender { nd_extended_seq : Z }.
Record NullDeleteReceiver := mkNullDeleteReceiver { nd_last_extended_seq : Z }.

(** ** Bonding and statistics wrappers (bonding_task.rs, stats.rs, stats_poller.rs) *)

Record BondingConfig := mkBondingConfig { bc_additional_paths : list SocketAddr }.
Record ReceiverBonding := mkReceiverBonding { rbo_merger : BondingMerger }.
Definition ReceiverBonding_new : ReceiverBonding := mkReceiverBonding BondingMerger_new.
Definition ReceiverBonding_default : ReceiverBonding := ReceiverBonding_new.

Record RistStats := mkRistStats {
  ps_packets_sent : Z;
  ps_packets_received : Z;
  ps_bytes_sent : Z;
  ps_bytes_received : Z;
  ps_packets_retransmitted : Z;
  ps_nacks_sent : Z;
  ps_nacks_received : Z;
  ps_packets_lost : Z;
  ps_packets_recovered : Z;
  ps_rtt : option Z;
  ps_loss_fraction : f64;
  ps_jitter : f64;
  ps_bonding_switches : Z
}.
(** The derived default: zeros, [None] and [0.0]. *)
Definition RistStats_default : RistStats :=
  mkRistStats 0 0 0 0 0 0 0 0 0 None (f64_of_uint 0) (f64_of_uint 0) 0.

Record StatsCollector := mkStatsCollector { sc_stats : RistStats }.
Definition StatsCollector_new : StatsCollector := mkStatsCollector RistStats_default.
Definition StatsCollector_default : StatsCollector := StatsCollector_new.
Definition StatsCollector_snapshot (self : StatsCollector) : RistStats := sc_stats self.
