(* ===== verification/Sender.v ===== *)
(** * The sender task (rist-transport/src/sender.rs)

    One definition per arm of the task's [select!] loop.  Every clock reading an arm takes
    is an argument, and so is the outcome of each [send_to]; an arm yields the next state
    and the datagrams it hands to the sockets, in order.  The retransmit buffer is used
    through the interface [RetransmitStore]. *)

From S2P Require Import Prelude Rtp RtcpCodec RtcpReports Sdes RtcpNack RtcpApp Rtcp Retransmit Rtt RtcpState Guard.

Inductive sock : Type := RtpSock | RtcpSock.
Record datagram := mkDatagram { dg_sock : sock; dg_to : SocketAddr; dg_bytes : bytes }.

(** Size of [rtcp_recv_buf]. *)
Definition RTCP_RECV_BUF : Z := 2048.

Definition ntp_to_rtp90k (epoch_system epoch_instant now : Z) : Z :=
  let epoch_unix := since_unix_epoch epoch_system in
  let elapsed := duration_since now epoch_instant in
  let ntp_us := as_u64 (as_u64 (as_u64 (as_micros epoch_unix) + as_u64 (NTP_EPOCH_OFFSET * 1000000))
                        + as_u64 (as_micros elapsed)) in
  as_u32 (as_u64 (ntp_us * 90) / 1000).

Definition write_rtp_header (ssrc seq timestamp : Z) : bytes :=
  put_u8 128 ++ put_u8 33 ++ put_u16 seq ++ put_u32 timestamp ++ put_u32 ssrc.

(** [retx_buf[11] |= 0x01] on a copy of the stored packet. *)
Definition flag_retransmit (pkt : bytes) : bytes :=
  if 11 <? blen pkt then
    match pkt !! 11%nat with Some b => <[11%nat := Z.lor b 1]> pkt | None => pkt end
  else pkt.

Section sender.
  Context {St : Type} `{!RetransmitStore St}.

(** What serving the NACKs of one datagram has used and produced so far. *)
Record nack_work := mkNackWork {
  nw_budget : NackWorkBudget;
  nw_requested : Z;
  nw_retransmitted : Z;
  nw_out : list datagram
}.

(** [net k] is the outcome of the [k]-th [send_to] of the handler.  The result is [true] when
    the budget ran out. *)
Fixpoint serve_nack_entries (net : nat → bool) (remote_rtp_addr : SocketAddr) (store : St)
    (seqs : list Z) (w : nack_work) : bool * nack_work :=
  match seqs with
  | [] => (false, w)
  | lost_seq :: rest =>
      let '(budget, ok) := charge_scan (nw_budget w) in
      if negb ok then (true, w) else
      let requested := as_u64 (nw_requested w + 1) in
      match store_get store lost_seq with
      | None =>
          serve_nack_entries net remote_rtp_addr store rest
            (mkNackWork budget requested (nw_retransmitted w) (nw_out w))
      | Some pkt_data =>
          let '(budget, ok) := charge_retx budget in
          if negb ok then (true, mkNackWork budget requested (nw_retransmitted w) (nw_out w)) else
          let retransmitted :=
            if net (length (nw_out w)) then as_u64 (nw_retransmitted w + 1) else nw_retransmitted w in
          serve_nack_entries net remote_rtp_addr store rest
            (mkNackWork budget requested retransmitted
               (nw_out w ++ [mkDatagram RtpSock remote_rtp_addr (flag_retransmit pkt_data)]))
      end
  end.

Record Sender := mkSender {
  sn_ssrc : Z;
  sn_seq : Z;
  sn_ts_epoch : Z;
  sn_ts_epoch_system : Z;
  sn_rtcp_state : RtcpSenderState;
  sn_retransmit_buf : St;
  sn_rtt_estimator : RttEstimator;
  sn_remote_rtp_addr : SocketAddr;
  sn_remote_rtcp_addr : SocketAddr;
  sn_rtcp_peer_live : option Z;
  sn_nack_budget_template : NackWorkBudget;
  sn_rtt_echo_enabled : bool;
  sn_stats : RistConnStats
}.

(** The state before the loop: [random_ssrc] and [random_seq] are the two [rand::random]
    draws, [store] the new retransmit buffer of capacity [capacity]. *)
Definition Sender_new (random_ssrc random_seq : Z) (cname : bytes) (rtcp_interval ts_epoch ts_epoch_system : Z)
    (store : St) (capacity : Z) (remote_rtp_addr : SocketAddr) (rtt_echo_enabled : bool)
    (stats : RistConnStats) : Sender :=
  let ssrc := Z.land random_ssrc 4294967294 in
  mkSender ssrc random_seq ts_epoch ts_epoch_system
    (RtcpSenderState_new ssrc cname rtcp_interval ts_epoch ts_epoch_system) store
    (RttEstimator_new (rtcp_interval * 10)) remote_rtp_addr (rtcp_addr_for remote_rtp_addr) None
    (for_capacity capacity) rtt_echo_enabled stats.

(** The arm for outgoing media. *)
Definition on_media (self : Sender) (payload : bytes) (now : Z) (sent : bool)
    : Sender * list datagram :=
  let rtp_timestamp := ntp_to_rtp90k (sn_ts_epoch_system self) (sn_ts_epoch self) now in
  let send_buf := write_rtp_header (sn_ssrc self) (sn_seq self) rtp_timestamp ++ payload in
  let retransmit_buf := store_insert (sn_retransmit_buf self) (sn_seq self) send_buf in
  let stats := if sent then stats_sent (sn_stats self) (blen send_buf) else sn_stats self in
  let rtcp_state := on_packet_sent (sn_rtcp_state self) (blen payload) rtp_timestamp now in
  (mkSender (sn_ssrc self) (wrapping_add16 (sn_seq self) 1) (sn_ts_epoch self)
     (sn_ts_epoch_system self) rtcp_state retransmit_buf (sn_rtt_estimator self)
     (sn_remote_rtp_addr self) (sn_remote_rtcp_addr self) (sn_rtcp_peer_live self)
     (sn_nack_budget_template self) (sn_rtt_echo_enabled self) stats,
   [mkDatagram RtpSock (sn_remote_rtp_addr self) send_buf]).

Definition set_peer (self : Sender) (addr : SocketAddr) (live : option Z) : Sender :=
  mkSender (sn_ssrc self) (sn_seq self) (sn_ts_epoch self) (sn_ts_epoch_system self)
    (sn_rtcp_state self) (sn_retransmit_buf self) (sn_rtt_estimator self) (sn_remote_rtp_addr self)
    addr live (sn_nack_budget_template self) (sn_rtt_echo_enabled self) (sn_stats self).
Definition set_stats (self : Sender) (rtt : RttEstimator) (stats : RistConnStats) : Sender :=
  mkSender (sn_ssrc self) (sn_seq self) (sn_ts_epoch self) (sn_ts_epoch_system self)
    (sn_rtcp_state self) (sn_retransmit_buf self) rtt (sn_remote_rtp_addr self)
    (sn_remote_rtcp_addr self) (sn_rtcp_peer_live self) (sn_nack_budget_template self)
    (sn_rtt_echo_enabled self) stats.

(** The sequence numbers of an APP Range NACK, in order. *)
Definition app_range_seqs (entries : list (Z * Z)) : list Z :=
  concat (map (λ e, map (λ i, wrapping_add16 (fst e) (as_u16 i)) (seqZ 0 (snd e + 1))) entries).

(** [elapsed().as_micros().min(u32::MAX as u128) as u32] *)
Definition turnaround_us (recv_at now : Z) : Z := Z.min (as_micros (duration_since now recv_at)) u32_max.

Definition echo_reply (ssrc : Z) (req : RttEchoRequest) (delay_us : Z) : bytes :=
  RtcpCompound_serialize
    [PktReceiverReport (ReceiverReport_empty ssrc);
     PktApp (AppRttEchoResponse
       (mkRttEchoResponse (eq_ssrc req) (eq_timestamp_msw req) (eq_timestamp_lsw req) delay_us))].

(** The [for pkt in &compound.packets] loop.  [clock i] is the clock read while handling
    sub-packet [i]. *)
Fixpoint handle_packets (net : nat → bool) (clock : nat → Z) (from : SocketAddr) (recv_at : Z)
    (i : nat) (packets : list RtcpPacket) (budget : NackWorkBudget) (self : Sender)
    (out : list datagram) : Sender * list datagram :=
  match packets with
  | [] => (self, out)
  | pkt :: rest =>
      let serve media_ssrc seqs :=
        if negb (nack_targets_us media_ssrc (sn_ssrc self))
        then handle_packets net clock from recv_at (S i) rest budget self out
        else
          let '(spent, w) :=
            serve_nack_entries net (sn_remote_rtp_addr self) (sn_retransmit_buf self) seqs
              (mkNackWork budget 0 0 out) in
          let self := set_stats self (sn_rtt_estimator self)
                        (stats_nack_served (sn_stats self) (nw_requested w) (nw_retransmitted w)) in
          if spent then (self, nw_out w)
          else handle_packets net clock from recv_at (S i) rest (nw_budget w) self (nw_out w) in
      match pkt with
      | PktNack nack => serve (nk_media_ssrc nack) (requested_seqs (nk_entries nack))
      | PktApp (AppRange nack) => serve (an_media_ssrc nack) (app_range_seqs (an_entries nack))
      | PktApp (AppRttEchoRequest req) =>
          handle_packets net clock from recv_at (S i) rest budget self
            (out ++ [mkDatagram RtcpSock from
                       (echo_reply (sn_ssrc self) req (turnaround_us recv_at (clock i)))])
      | PktApp (AppRttEchoResponse resp) =>
          let rtt := on_response (sn_rtt_estimator self) (clock i) (er_timestamp_msw resp)
                       (er_timestamp_lsw resp) (er_processing_delay_us resp) in
          let stats := match srtt rtt with
                       | Some r => stats_rtt (sn_stats self) (as_u64 (as_micros r))
                       | None => sn_stats self
                       end in
          handle_packets net clock from recv_at (S i) rest budget (set_stats self rtt stats) out
      | _ => handle_packets net clock from recv_at (S i) rest budget self out
      end
  end.

(** The arm for incoming RTCP: the datagram [buf] is read into [rtcp_recv_buf]. *)
Definition on_rtcp (self : Sender) (buf : bytes) (from : SocketAddr) (recv_at : Z)
    (clock : nat → Z) (net : nat → bool) : exec (Sender * list datagram) :=
  match RtcpCompound_parse (recv_into RTCP_RECV_BUF buf) with
  | Panic => Panic
  | Err _ => Ok (self, [])
  | Ok packets =>
      match packets with
      | [] => Ok (self, [])
      | _ :: _ =>
          if negb (peer_move_allowed from (sn_remote_rtcp_addr self) (sn_rtcp_peer_live self) recv_at)
          then Ok (self, [])
          else
            let addr := if bool_decide (from ≠ sn_remote_rtcp_addr self) then from
                        else sn_remote_rtcp_addr self in
            let self := set_peer self addr (Some recv_at) in
            Ok (handle_packets net clock from recv_at 0 packets (sn_nack_budget_template self) self [])
      end
  end.

(** The arm of the RTCP timer; [clock] is the system clock read by [generate_sr]. *)
Definition on_rtcp_tick (self : Sender) (now clock : Z) : Sender * list datagram :=
  let '(rtcp_state, sr) := generate_sr (sn_rtcp_state self) now clock in
  let sdes := sender_generate_sdes rtcp_state in
  let echo := sn_rtt_echo_enabled self && should_send_request (sn_rtt_estimator self) now in
  let '(rtt, packets) :=
    if echo then
      let '(rtt, (msw, lsw)) := generate_request (sn_rtt_estimator self) now in
      (rtt, [PktSenderReport sr; PktSdes sdes;
             PktApp (AppRttEchoRequest (mkRttEchoRequest (sn_ssrc self) msw lsw))])
    else (sn_rtt_estimator self, [PktSenderReport sr; PktSdes sdes]) in
  (mkSender (sn_ssrc self) (sn_seq self) (sn_ts_epoch self) (sn_ts_epoch_system self) rtcp_state
     (sn_retransmit_buf self) rtt (sn_remote_rtp_addr self) (sn_remote_rtcp_addr self)
     (sn_rtcp_peer_live self) (sn_nack_budget_template self) (sn_rtt_echo_enabled self) (sn_stats self),
   [mkDatagram RtcpSock (sn_remote_rtcp_addr self) (RtcpCompound_serialize packets)]).

(** One turn of the [select!] loop; cancellation, a closed channel and an error of the RTCP
    socket end the task. *)
Inductive sender_event : Type :=
  | EvMedia (payload : bytes) (now : Z) (sent : bool)
  | EvRtcp (buf : bytes) (from : SocketAddr) (recv_at : Z) (clock : nat → Z) (net : nat → bool)
  | EvRtcpTick (now clock : Z).

Definition sender_step (self : Sender) (ev : sender_event) : exec (Sender * list datagram) :=
  match ev with
  | EvMedia payload now sent => Ok (on_media self payload now sent)
  | EvRtcp buf from recv_at clock net => on_rtcp self buf from recv_at clock net
  | EvRtcpTick now clock => Ok (on_rtcp_tick self now clock)
  end.
End sender.
Arguments Sender St : clear implicits.
