(* ===== verification/SenderProps.v ===== *)
(** * Properties of the sender task

    What goes on the wire: fresh media, retransmissions and reports, for every sequence of
    events; the bound on the work one control datagram can cause; the hold-down of the
    control peer.  Proved against the interface of the retransmit buffer. *)

From S2P Require Import Prelude Rtp RtcpCodec RtcpReports Sdes RtcpNack RtcpApp Rtcp Retransmit Rtt RtcpState Guard Sender.

(** ** Packets on the wire *)

Lemma write_rtp_header_eq ssrc seq ts :
  write_rtp_header ssrc seq ts = RtpHeader_serialize (new_ts ssrc seq ts).
Proof. reflexivity. Qed.

Lemma new_ts_ok ssrc seq ts : is_u32 ssrc → is_u16 seq → is_u32 ts → header_ok (new_ts ssrc seq ts).
Proof. intros. unfold header_ok; cbn. split_and!; done || lia. Qed.

Lemma media_parse ssrc seq ts payload :
  is_u32 ssrc → is_u16 seq → is_u32 ts →
  RtpPacket_parse (write_rtp_header ssrc seq ts ++ payload) = Ok (mkRtpPacket (new_ts ssrc seq ts) payload).
Proof.
  intros. rewrite write_rtp_header_eq.
  apply (RtpPacket_parse_serialize (mkRtpPacket (new_ts ssrc seq ts) payload)); [by apply new_ts_ok|done..].
Qed.

(** Setting bit 0 of byte 11 adds one to an even SSRC and touches nothing else. *)
Lemma flag_retransmit_eq ssrc seq ts payload :
  is_u32 ssrc → ssrc mod 2 = 0 →
  flag_retransmit (write_rtp_header ssrc seq ts ++ payload) = write_rtp_header (ssrc + 1) seq ts ++ payload.
Proof.
  intros Hs He. unfold flag_retransmit. rewrite blen_app. pose proof (blen_nonneg payload).
  change (blen (write_rtp_header ssrc seq ts)) with 12. rewrite (proj2 (Z.ltb_lt _ _)) by lia.
  unfold write_rtp_header, put_u8, put_u16, put_u32. cbn [app lookup list_lookup insert list_insert].
  rewrite lor_1.
  assert (E0 : (ssrc + 1) / 16777216 = ssrc / 16777216) by (clear -Hs He; ulia).
  assert (E1 : (ssrc + 1) / 65536 = ssrc / 65536) by (clear -Hs He; ulia).
  assert (E2 : (ssrc + 1) / 256 = ssrc / 256) by (clear -Hs He; ulia).
  assert (E3 : (ssrc + 1) mod 256 = ssrc mod 256 - (ssrc mod 256) mod 2 + 1) by (clear -Hs He; ulia).
  by rewrite E0, E1, E2, E3.
Qed.

Section props.
  Context {St : Type} `{!RetransmitStore St} `{!RetransmitStoreLaws St}.
  Implicit Types (self : Sender St) (store : St).

(** ** Serving NACKs *)

Definition retransmission (addr : SocketAddr) (store : St) (seqs : list Z) (d : datagram) : Prop :=
  ∃ seq pkt, seq ∈ seqs ∧ store_get store seq = Some pkt ∧
    d = mkDatagram RtpSock addr (flag_retransmit pkt).

Definition retransmit_of (addr : SocketAddr) (store : St) (seq : Z) : option datagram :=
  (λ pkt, mkDatagram RtpSock addr (flag_retransmit pkt)) <$> store_get store seq.

(** Only stored packets go out, and every one is paid for. *)
Lemma serve_spec net addr store seqs : ∀ w,
  0 <= wb_scan (nw_budget w) → 0 <= wb_retx (nw_budget w) →
  let '(spent, w') := serve_nack_entries net addr store seqs w in
  ∃ ds, nw_out w' = nw_out w ++ ds ∧ Forall (retransmission addr store seqs) ds ∧
    0 <= wb_scan (nw_budget w') ∧ 0 <= wb_retx (nw_budget w') ∧
    wb_retx (nw_budget w') + Z.of_nat (length ds) = wb_retx (nw_budget w) ∧
    wb_scan (nw_budget w') <= wb_scan (nw_budget w).
Proof.
  induction seqs as [|s seqs IH]; intros w Hs Hr; cbn [serve_nack_entries].
  { exists []. rewrite app_nil_r. split_and!; try done; cbn; lia. }
  assert (Hmono : ∀ ds, Forall (retransmission addr store seqs) ds →
    Forall (retransmission addr store (s :: seqs)) ds).
  { intros ds H. eapply Forall_impl; [exact H|]. intros d (q & pkt & Hq & Hg & ->).
    exists q, pkt. split_and!; [by apply elem_of_cons; right|done..]. }
  unfold charge_scan. destruct (Z.eqb_spec (wb_scan (nw_budget w)) 0); cbn [negb].
  { exists []. rewrite app_nil_r. split_and!; try done; cbn; lia. }
  destruct (store_get store s) as [pkt|] eqn:Eg.
  - unfold charge_retx; cbn [wb_retx wb_scan].
    destruct (Z.eqb_spec (wb_retx (nw_budget w)) 0); cbn [negb].
    { exists []. cbn. rewrite app_nil_r. split_and!; try done; lia. }
    match goal with |- context [serve_nack_entries net addr store seqs ?x] =>
      specialize (IH x); destruct (serve_nack_entries net addr store seqs x) as [spent w'] end.
    cbn in IH. destruct IH as (ds & H1 & H2 & H3 & H4 & H5 & H6); [lia..|].
    exists (mkDatagram RtpSock addr (flag_retransmit pkt) :: ds). rewrite H1, <- app_assoc.
    split_and!; [done| |done|done|cbn [length]; lia|lia].
    constructor; [|by apply Hmono]. exists s, pkt. split_and!; [by apply elem_of_cons; left|done..].
  - match goal with |- context [serve_nack_entries net addr store seqs ?x] =>
      specialize (IH x); destruct (serve_nack_entries net addr store seqs x) as [spent w'] end.
    cbn in IH. destruct IH as (ds & H1 & H2 & H3 & H4 & H5 & H6); [lia..|].
    exists ds. split_and!; [done|by apply Hmono|done..|lia].
Qed.

(** Within the budget every stored packet that is asked for goes out, in order. *)
Lemma serve_complete net addr store seqs : ∀ w,
  Z.of_nat (length seqs) <= wb_scan (nw_budget w) → Z.of_nat (length seqs) <= wb_retx (nw_budget w) →
  let '(spent, w') := serve_nack_entries net addr store seqs w in
  spent = false ∧ nw_out w' = nw_out w ++ omap (retransmit_of addr store) seqs.
Proof.
  induction seqs as [|s seqs IH]; intros w Hs Hr; cbn [serve_nack_entries].
  { cbn. by rewrite app_nil_r. }
  cbn [length] in *. unfold charge_scan. destruct (Z.eqb_spec (wb_scan (nw_budget w)) 0); [lia|].
  cbn [negb omap list_omap]. unfold retransmit_of at 1. destruct (store_get store s) as [pkt|] eqn:Eg; cbn [fmap option_fmap option_map].
  - unfold charge_retx; cbn [wb_retx wb_scan].
    destruct (Z.eqb_spec (wb_retx (nw_budget w)) 0); [lia|]. cbn [negb].
    match goal with |- context [serve_nack_entries net addr store seqs ?x] =>
      specialize (IH x); destruct (serve_nack_entries net addr store seqs x) as [spent w'] end.
    cbn in IH. destruct IH as [-> ->]; [lia..|]. by rewrite <- app_assoc.
  - match goal with |- context [serve_nack_entries net addr store seqs ?x] =>
      specialize (IH x); destruct (serve_nack_entries net addr store seqs x) as [spent w'] end.
    cbn in IH. by destruct IH as [-> ->]; [lia..|].
Qed.

(** ** The RTCP handler *)

(** The part of the state no control packet changes. *)
Definition core (s : Sender St) :=
  (sn_ssrc s, sn_seq s, sn_ts_epoch s, sn_ts_epoch_system s, sn_rtcp_state s, sn_retransmit_buf s,
   sn_remote_rtp_addr s, sn_nack_budget_template s, sn_rtt_echo_enabled s).
Definition same_core (a b : Sender St) : Prop := core a = core b.

Definition control_datagram (self : Sender St) (from : SocketAddr) (d : datagram) : Prop :=
  (dg_sock d = RtpSock ∧ dg_to d = sn_remote_rtp_addr self ∧
   ∃ seq pkt, store_get (sn_retransmit_buf self) seq = Some pkt ∧ dg_bytes d = flag_retransmit pkt) ∨
  (dg_sock d = RtcpSock ∧ dg_to d = from).

Definition count_rtp (ds : list datagram) : Z :=
  Z.of_nat (length (List.filter (λ d, match dg_sock d with RtpSock => true | RtcpSock => false end) ds)).

(** The datagrams on the control socket. *)
Definition count_replies (ds : list datagram) : Z :=
  Z.of_nat (length (List.filter (λ d, match dg_sock d with RtpSock => false | RtcpSock => true end) ds)).
Lemma count_split ds : Z.of_nat (length ds) = count_rtp ds + count_replies ds.
Proof.
  unfold count_rtp, count_replies. induction ds as [|d ds IH]; [done|]. cbn [List.filter length]. destruct (dg_sock d); cbn [length]; lia.
Qed.

Lemma count_rtp_app a b : count_rtp (a ++ b) = count_rtp a + count_rtp b.
Proof. unfold count_rtp. rewrite List.filter_app, length_app. lia. Qed.
Lemma count_rtp_le ds : count_rtp ds <= Z.of_nat (length ds).
Proof.
  unfold count_rtp. apply inj_le. induction ds as [|d ds IH]; cbn; [lia|]. destruct (dg_sock d); cbn; lia.
Qed.
Lemma count_rtp_all addr store seqs ds :
  Forall (retransmission addr store seqs) ds → count_rtp ds = Z.of_nat (length ds).
Proof.
  unfold count_rtp. induction 1 as [|d ds (q & pkt & _ & _ & ->) _ IH]; cbn; [done|]. lia.
Qed.

(** What handling control packets from [self] amounts to: the core and the peer are kept, and
    [ds] is appended, with at most [retx] retransmissions and [n] other datagrams. *)
Definition handled (self : Sender St) (from : SocketAddr) (out : list datagram) (retx n : Z)
    (r : Sender St * list datagram) : Prop :=
  same_core r.1 self ∧ sn_remote_rtcp_addr r.1 = sn_remote_rtcp_addr self ∧
  sn_rtcp_peer_live r.1 = sn_rtcp_peer_live self ∧
  ∃ ds, r.2 = out ++ ds ∧ Forall (control_datagram self from) ds ∧
    count_rtp ds <= retx ∧ Z.of_nat (length ds) <= count_rtp ds + n.

Lemma handled_none self from out retx n : 0 <= retx → 0 <= n → handled self from out retx n (self, out).
Proof.
  intros. split_and!; [done..|]. exists []. rewrite app_nil_r. unfold count_rtp. split_and!; [done..|].
  cbn. lia.
Qed.

Lemma handled_weaken self from out retx retx' n n' r :
  handled self from out retx n r → retx <= retx' → n <= n' → handled self from out retx' n' r.
Proof. intros (? & ? & ? & ds & ? & ? & ? & ?) ??. split_and!; [done..|]. exists ds. split_and!; [done..|lia|lia]. Qed.

(** One packet, then the rest. *)
Lemma handled_trans self self1 from out out1 retx1 retx2 n1 n2 r :
  handled self from out retx1 n1 (self1, out1) → handled self1 from out1 retx2 n2 r →
  handled self from out (retx1 + retx2) (n1 + n2) r.
Proof.
  intros (Hc1 & Ha1 & Hl1 & ds1 & E1 & Hd1 & Hn1 & Ht1) (Hc & Ha & Hl & ds & E & Hd & Hn & Ht).
  cbn [fst snd] in *. split_and!; [unfold same_core in *; congruence|congruence..|].
  exists (ds1 ++ ds). rewrite E, E1, app_assoc, count_rtp_app, length_app. split_and!; [done| |lia|lia].
  apply Forall_app. split; [done|]. eapply Forall_impl; [exact Hd|].
  unfold control_datagram. injection Hc1 as _ _ _ _ _ -> -> _ _. done.
Qed.

Lemma handled_serve net self from seqs budget out spent w stats :
  0 <= wb_scan budget → 0 <= wb_retx budget →
  serve_nack_entries net (sn_remote_rtp_addr self) (sn_retransmit_buf self) seqs
    (mkNackWork budget 0 0 out) = (spent, w) →
  0 <= wb_scan (nw_budget w) ∧ 0 <= wb_retx (nw_budget w) ∧
  handled self from out (wb_retx budget - wb_retx (nw_budget w)) 0
    (set_stats self (sn_rtt_estimator self) stats, nw_out w).
Proof.
  intros Hs Hr E. pose proof (serve_spec net (sn_remote_rtp_addr self) (sn_retransmit_buf self) seqs
    (mkNackWork budget 0 0 out) Hs Hr) as Hsv.
  rewrite E in Hsv. cbn in Hsv. destruct Hsv as (ds & Ho & Hds & Hs' & Hr' & Hrx & _).
  pose proof (count_rtp_all _ _ _ _ Hds) as Hall.
  unfold handled. split_and!; [done..|]. exists ds. split_and!; [done| |lia|lia].
  eapply Forall_impl; [exact Hds|]. intros d (q & pkt & _ & Hg & ->). left.
  split_and!; [done..|]. by exists q, pkt.
Qed.

Lemma handle_packets_spec net clock from recv_at ps : ∀ i budget self out,
  0 <= wb_scan budget → 0 <= wb_retx budget →
  handled self from out (wb_retx budget) (Z.of_nat (length ps))
    (handle_packets net clock from recv_at i ps budget self out).
Proof.
  induction ps as [|p ps IH]; intros i budget self out Hs Hr; [by apply handled_none|].
  rewrite length_cons, Nat2Z.inj_succ, <- Z.add_1_l.
  assert (Hskip : ∀ self1 out1, handled self from out 0 1 (self1, out1) →
    handled self from out (wb_retx budget) (1 + Z.of_nat (length ps))
      (handle_packets net clock from recv_at (S i) ps budget self1 out1)).
  { intros self1 out1 H1. exact (handled_trans _ _ _ _ _ _ _ _ _ _ H1 (IH _ _ _ _ Hs Hr)). }
  assert (Hself : handled self from out 0 1 (self, out)) by (apply handled_none; lia).
  destruct p as [sr|rr|sdes|nack|[req|resp|nack|st data]|pt data]; cbn [handle_packets];
    try (apply Hskip; exact Hself).
  1, 3: destruct (negb _); [by apply Hskip|];
    destruct (serve_nack_entries _ _ _ _ _) as [spent w] eqn:E;
    destruct (handled_serve _ _ from _ _ _ _ _
      (stats_nack_served (sn_stats self) (nw_requested w) (nw_retransmitted w)) Hs Hr E) as (Hs' & Hr' & Hw);
    replace (wb_retx budget) with (wb_retx budget - wb_retx (nw_budget w) + wb_retx (nw_budget w)) by lia;
    replace (1 + Z.of_nat (length ps)) with (0 + (1 + Z.of_nat (length ps))) by lia;
    (eapply handled_trans; [exact Hw|]); destruct spent; [apply handled_none; lia|];
    (eapply handled_weaken; [apply IH; done|lia|lia]).
  apply Hskip. split_and!; [done..|]. eexists [_]. split_and!; [done| |done|done].
    constructor; [by right|done].
Qed.

(** ** The invariant *)

(** [log] holds the sequence number, timestamp and payload of every packet sent. *)
Definition log_entry : Type := Z * Z * bytes.

Record sender_inv (self : Sender St) (log : list log_entry) : Prop := {
  si_ssrc : is_u32 (sn_ssrc self) ∧ sn_ssrc self mod 2 = 0;
  si_seq : is_u16 (sn_seq self);
  si_store : store_ok (sn_retransmit_buf self);
  si_stored : ∀ seq pkt, store_get (sn_retransmit_buf self) seq = Some pkt →
    ∃ ts payload, (seq, ts, payload) ∈ log ∧ is_u16 seq ∧ is_u32 ts ∧
      pkt = write_rtp_header (sn_ssrc self) seq ts ++ payload;
  si_budget : 0 <= wb_scan (sn_nack_budget_template self) ∧
    0 <= wb_retx (sn_nack_budget_template self) <= MAX_RETX;
  si_rtcp : tx_ok (sn_rtcp_state self) ∧ ss_ssrc (sn_rtcp_state self) = sn_ssrc self ∧
    ss_rtp_ts_epoch (sn_rtcp_state self) = sn_ts_epoch self ∧
    ss_rtp_ts_epoch_system (sn_rtcp_state self) = sn_ts_epoch_system self
}.

Lemma ntp_to_rtp90k_range es ei now : is_u32 (ntp_to_rtp90k es ei now).
Proof. apply as_u32_range. Qed.

(** What an event adds to the log. *)
Definition logged (self : Sender St) (ev : sender_event) : list log_entry :=
  match ev with
  | EvMedia payload now _ =>
      [(sn_seq self, ntp_to_rtp90k (sn_ts_epoch_system self) (sn_ts_epoch self) now, payload)]
  | _ => []
  end.

Lemma inv_core self self' log : sender_inv self log → same_core self' self → sender_inv self' log.
Proof.
  intros [H1 H2 H3 H4 H5 H6] Hc. injection Hc as E1 E2 E3 E4 E5 E6 E7 E8 E9.
  split; rewrite ?E1, ?E2, ?E3, ?E4, ?E5, ?E6, ?E7, ?E8; done.
Qed.

(** What a control datagram may do: nothing at all, or be accepted under the hold-down rule. *)
Definition rtcp_effect (self : Sender St) (from : SocketAddr) (recv_at : Z)
    (self' : Sender St) (out : list datagram) : Prop :=
  same_core self' self ∧ Forall (control_datagram self from) out ∧
  count_rtp out <= wb_retx (sn_nack_budget_template self) ∧
  Z.of_nat (length out) <= count_rtp out + MAX_RTCP_SUB_PACKETS ∧
  ((self' = self ∧ out = []) ∨
   (sn_remote_rtcp_addr self' = from ∧ sn_rtcp_peer_live self' = Some recv_at ∧
    peer_move_allowed from (sn_remote_rtcp_addr self) (sn_rtcp_peer_live self) recv_at = true)).

Lemma rtcp_refused self from recv_at log : sender_inv self log → rtcp_effect self from recv_at self [].
Proof.
  intros Hinv. destruct (si_budget _ _ Hinv). unfold rtcp_effect, count_rtp, MAX_RTCP_SUB_PACKETS. cbn.
  split_and!; try done; [lia|]. by left.
Qed.

Lemma on_rtcp_spec self buf from recv_at clock net self' out log :
  sender_inv self log → on_rtcp self buf from recv_at clock net = Ok (self', out) →
  rtcp_effect self from recv_at self' out.
Proof.
  intros Hinv. unfold on_rtcp. set (b := recv_into _ buf). pose proof (compound_parse_length b) as Hlen.
  destruct (RtcpCompound_parse b) as [packets|e|]; [| |done].
  2:{ intros [= <- <-]. by apply (rtcp_refused _ _ _ log). }
  destruct packets as [|p ps]; [intros [= <- <-]; by apply (rtcp_refused _ _ _ log)|].
  destruct (peer_move_allowed _ _ _ _) eqn:Em; cbn [negb].
  2:{ intros [= <- <-]. by apply (rtcp_refused _ _ _ log). }
  assert (Ea : (if bool_decide (from ≠ sn_remote_rtcp_addr self) then from else sn_remote_rtcp_addr self) = from).
  { by case_bool_decide as E. }
  rewrite Ea. destruct (si_budget _ _ Hinv) as [Hs Hr].
  pose proof (handle_packets_spec net clock from recv_at (p :: ps) 0 (sn_nack_budget_template self)
    (set_peer self from (Some recv_at)) [] Hs (proj1 Hr)) as Hh. cbn [set_peer sn_nack_budget_template] in Hh |- *.
  destruct (handle_packets _ _ _ _ _ _ _ _ _) as [self1 out1]. intros [= <- <-].
  destruct Hh as (Hc & Ha & Hl & ds & E & Hd & Hn & Ht). cbn [fst snd app] in *. subst out1.
  split_and!; [exact Hc|exact Hd|done|specialize (Hlen _ eq_refl); lia|]. right. by split_and!.
Qed.

Lemma sender_step_inv self log ev self' out :
  sender_inv self log → sender_step self ev = Ok (self', out) → sender_inv self' (logged self ev ++ log).
Proof using Type*.
  intros Hinv. pose proof Hinv as [H1 H2 H3 H4 H5 H6].
  destruct ev as [payload now sent|buf from recv_at clock net|now clock]; cbn [sender_step logged app].
  - unfold on_media. intros [= <- <-].
    set (pkt := write_rtp_header (sn_ssrc self) (sn_seq self)
      (ntp_to_rtp90k (sn_ts_epoch_system self) (sn_ts_epoch self) now) ++ payload).
    split; cbn [sn_ssrc sn_seq sn_retransmit_buf sn_nack_budget_template sn_rtcp_state sn_ts_epoch
      sn_ts_epoch_system].
    + done.
    + auto with rist.
    + by apply store_insert_ok.
    + intros seq p Hg. destruct (decide (seq = sn_seq self)) as [->|Hne].
      * rewrite store_get_insert in Hg by done. injection Hg as <-.
        eexists _, payload. split_and!; [by apply elem_of_cons; left|done|apply ntp_to_rtp90k_range|done].
      * apply store_get_old in Hg; [|done..]. destruct (H4 seq p Hg) as (ts & pl & Hin & ? & ? & ?).
        exists ts, pl. split_and!; [by apply elem_of_cons; right|done..].
    + done.
    + destruct H6 as (Ht & ? & ? & ?). split_and!; [by apply on_packet_sent_ok|done..].
  - intros Hr. apply on_rtcp_spec with (log := log) in Hr as (Hc & _); [|done].
    by apply (inv_core self self').
  - unfold on_rtcp_tick. destruct (generate_sr (sn_rtcp_state self) now clock) as [rs sr] eqn:Eg.
    destruct H6 as (Ht & E1 & E2 & E3).
    pose proof (generate_sr_ok (sn_rtcp_state self) now clock Ht) as [_ Ht'].
    assert (Er : tx_ok rs ∧ ss_ssrc rs = sn_ssrc self ∧ ss_rtp_ts_epoch rs = sn_ts_epoch self ∧
      ss_rtp_ts_epoch_system rs = sn_ts_epoch_system self).
    { rewrite Eg in Ht'. unfold generate_sr in Eg. destruct (system_time_to_ntp clock).
      injection Eg as <- _. done. }
    destruct (_ && _); [destruct (generate_request (sn_rtt_estimator self) now) as [rtt [msw lsw]]|];
      intros [= <- <-]; by split.
Qed.

(** Runs from a fresh sender: the state, the log and everything handed to the sockets. *)
Inductive sender_run (remote : SocketAddr) : Sender St → list log_entry → list datagram → Prop :=
  | run_init rssrc rseq cname interval epoch epoch_sys store cap echo stats :
      is_u32 rssrc → is_u16 rseq → store_ok store → (∀ seq, store_get store seq = None) →
      sender_run remote
        (Sender_new rssrc rseq cname interval epoch epoch_sys store cap remote echo stats) [] []
  | run_step self log out ev self' out' :
      sender_run remote self log out → sender_step self ev = Ok (self', out') →
      sender_run remote self' (logged self ev ++ log) (out ++ out').

Definition media_event (ev : sender_event) : bool := match ev with EvMedia _ _ _ => true | _ => false end.

(** A datagram with media: fresh media is the packet just logged, under the sender's SSRC; anything
    else is a packet logged before, under the flagged SSRC. *)
Definition wire_media (self : Sender St) (log : list log_entry) (ev : sender_event) (d : datagram) : Prop :=
  dg_to d = sn_remote_rtp_addr self ∧
  ∃ seq ts payload, (seq, ts, payload) ∈ (if media_event ev then logged self ev else log) ∧
    let h := new_ts (if media_event ev then sn_ssrc self else sn_ssrc self + 1) seq ts in
    RtpPacket_parse (dg_bytes d) = Ok (mkRtpPacket h payload) ∧ is_retransmit h = negb (media_event ev).

Lemma sender_step_wire self log ev self' out :
  sender_inv self log → sender_step self ev = Ok (self', out) →
  sn_ssrc self' = sn_ssrc self ∧ sn_remote_rtp_addr self' = sn_remote_rtp_addr self ∧
  (media_event ev = true → ∃ d, out = [d] ∧ dg_sock d = RtpSock) ∧
  ∀ d, d ∈ out → dg_sock d = RtpSock → wire_media self log ev d.
Proof using Type*.
  intros Hinv Hstep. destruct (si_ssrc _ _ Hinv) as [Hs1 Hs2].
  assert (Heven : ∀ seq ts, is_retransmit (new_ts (sn_ssrc self) seq ts) = false).
  { intros. apply not_true_iff_false. intros E%is_retransmit_spec. cbn in E. lia. }
  assert (Hodd : ∀ seq ts, is_retransmit (new_ts (sn_ssrc self + 1) seq ts) = true).
  { intros. apply is_retransmit_spec. cbn [new_ts rh_ssrc]. clear -Hs2. ulia. }
  destruct ev as [payload now sent|buf from recv_at clock net|now clock]; cbn [sender_step] in Hstep.
  - unfold on_media in Hstep. injection Hstep as <- <-. split_and!; [done..|by eexists|].
    intros d ->%list_elem_of_singleton _. split; [done|].
    exists (sn_seq self), (ntp_to_rtp90k (sn_ts_epoch_system self) (sn_ts_epoch self) now), payload.
    cbn [media_event logged dg_bytes negb]. split; [by apply elem_of_cons; left|]. split; [|apply Heven].
    apply media_parse; [apply Hinv|apply Hinv|apply ntp_to_rtp90k_range].
  - apply on_rtcp_spec with (log := log) in Hstep as (Hc & Hd & _); [|done].
    injection Hc as E1 _ _ _ _ _ E2 _ _. split; [exact E1|]. split; [exact E2|].
    split; [cbn [media_event]; discriminate|]. intros d Hin Esock.
    rewrite Forall_forall in Hd. destruct (Hd d Hin) as [(Es & Et & seq & pkt & Hg & Hb)|[Es _]]; [|congruence].
    split; [done|]. destruct (si_stored _ _ Hinv seq pkt Hg) as (ts & payload & Hl & Hu & Ht & ->).
    exists seq, ts, payload. split; [done|]. cbn [media_event negb]. rewrite Hb, flag_retransmit_eq by done.
    split; [apply media_parse; [clear -Hs1 Hs2; ulia|done..]|apply Hodd].
  - unfold on_rtcp_tick in Hstep. destruct (generate_sr _ _ _) as [rs sr].
    destruct (_ && _); [destruct (generate_request (sn_rtt_estimator self) now) as [rtt [msw lsw]]|];
      injection Hstep as <- <-; cbn [sn_ssrc sn_remote_rtp_addr media_event];
      (split_and!; [done..|]); intros d ->%list_elem_of_singleton; cbn [dg_sock]; discriminate.
Qed.

Lemma sender_run_inv remote self log out :
  sender_run remote self log out → sender_inv self log ∧ sn_remote_rtp_addr self = remote.
Proof using Type*.
  induction 1 as [rssrc rseq cname interval epoch epoch_sys store cap echo stats H1 H2 H3 H4
                 |self log out ev self' out' _ (Hinv & Hrem) Hstep].
  - split; [|done]. destruct (even_land rssrc H1) as [He1 He2].
    destruct (for_capacity_bounds cap) as (Hb1 & Hb2 & _).
    split; [exact (conj He1 He2)|done|done|intros seq pkt; cbn; by rewrite H4| |by split_and!].
    change (sn_nack_budget_template _) with (for_capacity cap). unfold MAX_RETX. lia.
  - destruct (sender_step_wire _ _ _ _ _ Hinv Hstep) as (_ & E & _).
    split; [by eapply sender_step_inv|by rewrite E].
Qed.

(** ** Claims *)

(** Outgoing media: the datagram for a payload parses back to exactly that payload under
    the sender's SSRC (never flagged as a retransmission), the current sequence number and
    the RTP time that a sender report generated at the same instant would carry; it goes to
    the configured receiver, can be retransmitted from then on, and the sequence number
    moves on by one modulo 2^16. *)
Theorem media_datagram_exact (self : Sender St) (log : list log_entry) (payload : bytes) (now : Z) (sent : bool) :
  sender_inv self log →
  let h := new_ts (sn_ssrc self) (sn_seq self) (epoch_rtp_timestamp (sn_rtcp_state self) now) in
  let '(self', out) := on_media self payload now sent in
  ∃ pkt, out = [mkDatagram RtpSock (sn_remote_rtp_addr self) pkt] ∧
    RtpPacket_parse pkt = Ok (mkRtpPacket h payload) ∧ is_retransmit h = false ∧
    store_get (sn_retransmit_buf self') (sn_seq self) = Some pkt ∧
    sn_seq self' = wrapping_add16 (sn_seq self) 1.
Proof using Type*.
  intros Hinv h. pose proof Hinv as [[Hs He] Hq Hst _ _ (_ & _ & E1 & E2)].
  unfold on_media. eexists. split; [done|].
  assert (Et : ntp_to_rtp90k (sn_ts_epoch_system self) (sn_ts_epoch self) now =
    epoch_rtp_timestamp (sn_rtcp_state self) now).
  { unfold epoch_rtp_timestamp. by rewrite E1, E2. }
  rewrite Et. split_and!; [|..|done].
  - apply media_parse; [done..|]. rewrite <- Et. apply ntp_to_rtp90k_range.
  - destruct (is_retransmit h) eqn:E; [|done]. apply is_retransmit_spec in E. cbn in E. lia.
  - cbn. by apply store_get_insert.
Qed.

(** (C15) The work one control datagram can cause is bounded: whatever bytes arrive, the
    handler terminates without panicking, and puts at most [wb_retx] (never more than 8192)
    retransmissions on the media socket and at most 64 replies on the control socket, however
    many sub-packets and ranges the datagram names. *)
Theorem nack_work_bounded (self : Sender St) (log : list log_entry) (buf : bytes) (from : SocketAddr)
    (recv_at : Z) (clock : nat → Z) (net : nat → bool) :
  sender_inv self log → bytes_ok buf →
  ∃ self' out, on_rtcp self buf from recv_at clock net = Ok (self', out) ∧
    count_rtp out <= wb_retx (sn_nack_budget_template self) <= 8192 ∧ count_replies out <= 64.
Proof using Type*.
  intros Hinv Hbuf. pose proof (compound_parse_no_panic _ (recv_into_ok RTCP_RECV_BUF buf Hbuf)) as Hnp.
  assert (Hok : ∃ r, on_rtcp self buf from recv_at clock net = Ok r).
  { unfold on_rtcp. destruct (RtcpCompound_parse _) as [[|p ps]|e|]; [by eexists| |by eexists|done].
    destruct (negb _); by eexists. }
  destruct Hok as [[self' out] Hr]. exists self', out. split; [done|].
  destruct (on_rtcp_spec _ _ _ _ _ _ _ _ _ Hinv Hr) as (_ & _ & Hn & Hl & _).
  destruct (si_budget _ _ Hinv) as [_ Hb]. pose proof (count_split out). unfold MAX_RETX, MAX_RTCP_SUB_PACKETS in *. lia.
Qed.

(** (C10) Authentic media on the wire: at every step of every run of the sender, through any
    interleaving of media, control datagrams of any content and timer ticks, what goes out
    on the RTP socket goes to the configured receiver and parses to a packet the application
    sent.  Media from the application goes out as exactly one datagram, under the sender's
    even SSRC and not flagged, with the number and the payload just logged; everything else
    is a packet logged earlier, under that SSRC + 1, which is the retransmit flag.  Nothing a
    peer sends can make the sender emit other media. *)
Theorem sender_wire_authentic (remote : SocketAddr) (self self' : Sender St) (log : list log_entry)
    (out out' : list datagram) (ev : sender_event) :
  sender_run remote self log out → sender_step self ev = Ok (self', out') →
  (media_event ev = true → ∃ d, out' = [d] ∧ dg_sock d = RtpSock) ∧
  ∀ d, d ∈ out' → dg_sock d = RtpSock →
    dg_to d = remote ∧
    ∃ seq ts payload, (seq, ts, payload) ∈ (if media_event ev then logged self ev else log) ∧
      let h := new_ts (if media_event ev then sn_ssrc self else sn_ssrc self + 1) seq ts in
      RtpPacket_parse (dg_bytes d) = Ok (mkRtpPacket h payload) ∧ is_retransmit h = negb (media_event ev).
Proof using Type*.
  intros Hrun Hstep. destruct (sender_run_inv _ _ _ _ Hrun) as [Hinv <-].
  by destruct (sender_step_wire _ _ _ _ _ Hinv Hstep) as (_ & _ & H1 & H2).
Qed.

(** (C24) Hold-down of the control peer: a control datagram either leaves the sender exactly
    as it was and causes no output, or it is accepted and its source becomes the control
    peer; the peer moves to another IP only when nothing was accepted for 12 seconds, and
    the configured media destination never moves.  Replies go to the source of the
    datagram that asked for them. *)
Theorem sender_peer_hold_down (self self' : Sender St) (log : list log_entry) (buf : bytes)
    (from : SocketAddr) (recv_at : Z) (clock : nat → Z) (net : nat → bool) (out : list datagram) :
  sender_inv self log → on_rtcp self buf from recv_at clock net = Ok (self', out) →
  sn_remote_rtp_addr self' = sn_remote_rtp_addr self ∧
  Forall (λ d, dg_to d = match dg_sock d with RtpSock => sn_remote_rtp_addr self | RtcpSock => from end) out ∧
  ((self' = self ∧ out = []) ∨
   (sn_remote_rtcp_addr self' = from ∧ sn_rtcp_peer_live self' = Some recv_at ∧
    (sa_ip from = sa_ip (sn_remote_rtcp_addr self) ∨
     ∀ t, sn_rtcp_peer_live self = Some t → PEER_TAKEOVER_GRACE <= recv_at - t))).
Proof using Type*.
  intros Hinv Hr. destruct (on_rtcp_spec _ _ _ _ _ _ _ _ _ Hinv Hr) as (Hc & Hd & _ & _ & He).
  injection Hc as _ _ _ _ _ _ Er _ _. split_and!; [done| |].
  - eapply Forall_impl; [exact Hd|]. intros d [(-> & -> & _)|[-> ->]]; done.
  - destruct He as [?|(? & ? & Hm)]; [by left|right]. split_and!; [done..|]. by apply peer_move_allowed_iff.
Qed.

(** Reports decode: the compound emitted on a timer tick parses back to the sender report
    and the SDES of the current state, followed by an RTT echo request exactly when echo
    is enabled and a request is due; it goes to the current control peer. *)
Theorem sender_tick_roundtrip (self : Sender St) (log : list log_entry) (now clock : Z) :
  sender_inv self log → sdes_ok (sender_generate_sdes (sn_rtcp_state self)) →
  let '(self', out) := on_rtcp_tick self now clock in
  let sr := (generate_sr (sn_rtcp_state self) now clock).2 in
  let sdes := sender_generate_sdes (sn_rtcp_state self) in
  ∃ b, out = [mkDatagram RtcpSock (sn_remote_rtcp_addr self) b] ∧
    RtcpCompound_parse b =
      Ok (PktSenderReport sr :: PktSdes sdes ::
          if sn_rtt_echo_enabled self && should_send_request (sn_rtt_estimator self) now then
            let '(_, (msw, lsw)) := generate_request (sn_rtt_estimator self) now in
            [PktApp (AppRttEchoRequest (mkRttEchoRequest (sn_ssrc self) msw lsw))]
          else []).
Proof using Type*.
  intros Hinv Hsd. destruct (si_rtcp _ _ Hinv) as (Ht & Es & _). destruct (si_ssrc _ _ Hinv) as [Hs _].
  pose proof (generate_sr_ok (sn_rtcp_state self) now clock Ht) as [Hsr _].
  unfold on_rtcp_tick. destruct (generate_sr (sn_rtcp_state self) now clock) as [rs sr] eqn:Eg.
  assert (Esd : sender_generate_sdes rs = sender_generate_sdes (sn_rtcp_state self)).
  { unfold generate_sr in Eg. destruct (system_time_to_ntp clock). injection Eg as <- _. done. }
  rewrite Esd. cbn [snd] in Hsr |- *.
  destruct (_ && should_send_request _ _).
  - destruct (generate_request (sn_rtt_estimator self) now) as [rtt [msw lsw]] eqn:Er.
    eexists. split; [done|]. apply compound_roundtrip; [|cbn; unfold MAX_RTCP_SUB_PACKETS; lia].
    constructor; [exact Hsr|]. constructor; [exact Hsd|]. constructor; [|done].
    unfold generate_request in Er. injection Er as _ <- <-. cbn. split_and!; [done|auto with rist..].
  - eexists. split; [done|]. apply compound_roundtrip; [|cbn; unfold MAX_RTCP_SUB_PACKETS; lia].
    constructor; [exact Hsr|]. constructor; [exact Hsd|]. done.
Qed.
End props.

(** ** A concrete session *)

Definition demo_receiver : SocketAddr := mkSocketAddr (V4 3232235521) 5000 0.
Definition demo_stranger : SocketAddr := mkSocketAddr (V4 167772161) 4000 0.
Definition demo_sender : Sender RetransmitBuffer :=
  Sender_new 287454020 65535 [97] 100000000 0 1700000000000000000 (RetransmitBuffer_new 64) 64
    demo_receiver true RistConnStats_new.

Lemma demo_sender_run : sender_run demo_receiver demo_sender [] [].
Proof.
  apply run_init; [ulia|ulia| |].
  - apply (rt_new_ok 64). lia.
  - intros. apply rt_get_new.
Qed.
Lemma demo_sender_inv : sender_inv demo_sender [].
Proof. apply (sender_run_inv demo_receiver demo_sender [] []), demo_sender_run. Qed.

Lemma media_datagram_exact_witness :
  ∃ pkt, (on_media demo_sender [71; 1; 2] 0 true).2 = [mkDatagram RtpSock demo_receiver pkt] ∧
    RtpPacket_parse pkt = Ok (mkRtpPacket (new_ts 287454020 65535
      (epoch_rtp_timestamp (sn_rtcp_state demo_sender) 0)) [71; 1; 2]).
Proof.
  pose proof (media_datagram_exact demo_sender [] [71; 1; 2] 0 true demo_sender_inv) as H.
  destruct (on_media demo_sender [71; 1; 2] 0 true) as [self' out].
  destruct H as (pkt & H1 & H2 & _). exists pkt. split; [exact H1|exact H2].
Defined.

(** A NACK for sequence number 65535 and the 2 after it. *)
Definition demo_nack : bytes :=
  RtcpCompound_serialize [PktReceiverReport (ReceiverReport_empty 2);
    PktNack (mkNackPacket 2 287454020 (Range [mkRangeNack 65535 2]))].

Lemma demo_nack_ok : bytes_ok demo_nack.
Proof. unfold demo_nack, bytes_ok. apply (bool_decide_unpack _). vm_compute. exact I. Qed.

Lemma nack_work_bounded_witness :
  ∃ self' out, on_rtcp (on_media demo_sender [71] 0 true).1 demo_nack demo_receiver 5 (λ _, 6) (λ _, true)
      = Ok (self', out) ∧ count_rtp out = 1 ∧ count_replies out <= 64.
Proof.
  assert (Hinv : sender_inv (on_media demo_sender [71] 0 true).1
    (logged demo_sender (EvMedia [71] 0 true) ++ [])).
  { apply (sender_step_inv demo_sender [] (EvMedia [71] 0 true) _ _ demo_sender_inv eq_refl). }
  destruct (nack_work_bounded _ _ demo_nack demo_receiver 5 (λ _, 6) (λ _, true) Hinv demo_nack_ok)
    as (self' & out & H1 & _ & H3).
  exists self', out. split; [exact H1|]. split; [|exact H3].
  vm_compute in H1. injection H1 as _ H1. rewrite <- H1. vm_compute. reflexivity.
Defined.

(** A packet is sent, and asked for again. *)
Lemma sender_wire_authentic_witness :
  ∃ self log out self' out', sender_run demo_receiver self log out ∧
    sender_step self (EvRtcp demo_nack demo_receiver 5 (λ _, 6) (λ _, true)) = Ok (self', out') ∧
    count_rtp out' = 1 ∧ ∀ d, d ∈ out' → dg_sock d = RtpSock → dg_to d = demo_receiver.
Proof.
  eexists (on_media demo_sender [71] 0 true).1, _, _.
  destruct (sender_step (on_media demo_sender [71] 0 true).1 (EvRtcp demo_nack demo_receiver 5 (λ _, 6) (λ _, true)))
    as [[self' out']|e|] eqn:E; [|vm_compute in E; discriminate E..].
  exists self', out'. match goal with |- ?P ∧ _ => assert (HP : P) end.
  { eapply (run_step demo_receiver demo_sender [] [] (EvMedia [71] 0 true)); [exact demo_sender_run|]. reflexivity. }
  split; [exact HP|]. split; [reflexivity|]. split; [|intros d Hd Hs].
  - vm_compute in E. injection E as _ <-. vm_compute. reflexivity.
  - apply (proj2 (sender_wire_authentic _ _ _ _ _ _ _ HP E) d Hd Hs).
Defined.

Definition demo_live : Sender RetransmitBuffer :=
  match on_rtcp demo_sender demo_nack demo_receiver 5 (λ _, 6) (λ _, true) with
  | Ok (s, _) => s | _ => demo_sender
  end.

Lemma sender_peer_hold_down_witness :
  on_rtcp demo_sender demo_nack demo_receiver 5 (λ _, 6) (λ _, true) = Ok (demo_live, []) ∧
  sn_rtcp_peer_live demo_live = Some 5 ∧
  on_rtcp demo_live demo_nack demo_stranger 1000 (λ _, 6) (λ _, true) = Ok (demo_live, []) ∧
  sn_remote_rtp_addr demo_live = demo_receiver.
Proof.
  assert (E : on_rtcp demo_sender demo_nack demo_receiver 5 (λ _, 6) (λ _, true) = Ok (demo_live, []))
    by (vm_compute; reflexivity).
  split; [exact E|]. split; [vm_compute; reflexivity|]. split; [vm_compute; reflexivity|].
  exact (proj1 (sender_peer_hold_down demo_sender demo_live [] demo_nack demo_receiver 5 (λ _, 6)
    (λ _, true) [] demo_sender_inv E)).
Defined.

Lemma demo_sdes_ok : sdes_ok (sender_generate_sdes (sn_rtcp_state demo_sender)).
Proof.
  assert (E : sender_generate_sdes (sn_rtcp_state demo_sender) = mkSdes 287454020 [97]) by (vm_compute; reflexivity).
  rewrite E. unfold sdes_ok, sdes_str_ok, bytes_ok, blen; cbn.
  split_and!; try lia; try ulia; repeat constructor; ulia.
Qed.

Lemma sender_tick_roundtrip_witness :
  ∃ b sr sdes app, (on_rtcp_tick demo_sender 1000 1700000000000000000).2 =
      [mkDatagram RtcpSock (sn_remote_rtcp_addr demo_sender) b] ∧
    RtcpCompound_parse b = Ok [PktSenderReport sr; PktSdes sdes; PktApp app].
Proof.
  pose proof (sender_tick_roundtrip demo_sender [] 1000 1700000000000000000 demo_sender_inv
    demo_sdes_ok) as H.
  destruct (on_rtcp_tick demo_sender 1000 1700000000000000000) as [self' out].
  destruct H as (b & H1 & H2).
  destruct (generate_request (sn_rtt_estimator demo_sender) 1000) as [rtt [msw lsw]].
  eexists b, _, _, _. split; [exact H1|exact H2].
Defined.
