(* ===== verification/NackServe.v ===== *)
(** * Serving a NACK, against a reference

    The loop of [serve_nack_entries] interleaves two budgets, lookups and sends.  The
    reference below says in list operations what it does; the theorem shows them equal. *)

From S2P Require Import Prelude Retransmit Guard Sender SenderProps.

Section serve.
  Context {St : Type} `{!RetransmitStore St}.

(** How many of the numbers are looked up when at most [retx] of them may be resent: all, or
    those up to the first packet that cannot be paid for. *)
Fixpoint scanned_len (store : St) (retx : nat) (seqs : list Z) : nat :=
  match seqs with
  | [] => 0
  | s :: rest =>
      match store_get store s, retx with
      | None, _ => S (scanned_len store retx rest)
      | Some _, O => 1
      | Some _, S r => S (scanned_len store r rest)
      end
  end.

(** How many of the sends [k], ..., [k + n - 1] succeed. *)
Fixpoint accepted (net : nat → bool) (k n : nat) : Z :=
  match n with O => 0 | S n' => (if net k then 1 else 0) + accepted net (S k) n' end.

Definition serve_reference (net : nat → bool) (addr : SocketAddr) (store : St) (seqs : list Z)
    (w : nack_work) : bool * nack_work :=
  let scan := Z.to_nat (wb_scan (nw_budget w)) in
  let retx := Z.to_nat (wb_retx (nw_budget w)) in
  let hits := omap (retransmit_of addr store) (take scan seqs) in
  let sent := take retx hits in
  let n := Z.of_nat (scanned_len store retx (take scan seqs)) in
  (bool_decide (scan < length seqs)%nat || bool_decide (retx < length hits)%nat,
   mkNackWork (mkNackWorkBudget (wb_scan (nw_budget w) - n) (wb_retx (nw_budget w) - Z.of_nat (length sent)))
     (as_u64 (nw_requested w + n))
     (as_u64 (nw_retransmitted w + accepted net (length (nw_out w)) (length sent)))
     (nw_out w ++ sent)).

Lemma as_u64_id z : is_u64 z → as_u64 z = z.
Proof. ulia. Qed.
Lemma as_u64_add_l a b : as_u64 (as_u64 a + b) = as_u64 (a + b).
Proof. unfold as_u64. by rewrite Zplus_mod_idemp_l. Qed.

Lemma serve_eq_reference net addr store seqs : ∀ w,
  0 <= wb_scan (nw_budget w) → 0 <= wb_retx (nw_budget w) →
  is_u64 (nw_requested w) → is_u64 (nw_retransmitted w) →
  serve_nack_entries net addr store seqs w = serve_reference net addr store seqs w.
Proof.
  induction seqs as [|s seqs IH]; intros w Hs Hr Hq Ht; cbn [serve_nack_entries].
  { unfold serve_reference. rewrite take_nil. cbn [omap list_omap]. rewrite take_nil.
    cbn. rewrite !Z.add_0_r, !Z.sub_0_r, app_nil_r, !as_u64_id by done.
    by destruct w as [[] ? ? ?]. }
  destruct w as [[scan retx] req ret out]. cbn [nw_budget wb_scan wb_retx nw_requested nw_retransmitted nw_out] in *.
  unfold charge_scan; cbn [wb_scan wb_retx]. destruct (Z.eqb_spec scan 0) as [->|Hscan]; cbn [negb].
  { unfold serve_reference.
    cbn [nw_budget wb_scan wb_retx nw_requested nw_retransmitted nw_out].
    change (take (Z.to_nat 0) (s :: seqs)) with (@nil Z). cbn [omap list_omap scanned_len].
    rewrite take_nil. cbn [length accepted].
    rewrite !Z.add_0_r, !Z.sub_0_r, app_nil_r, !as_u64_id by done.
    by rewrite bool_decide_eq_true_2 by lia. }
  assert (Esc : Z.to_nat scan = S (Z.to_nat (scan - 1))) by lia.
  assert (Hq1 : is_u64 (as_u64 (req + 1))) by auto with rist.
  unfold serve_reference. cbn [nw_budget wb_scan wb_retx nw_requested nw_retransmitted nw_out].
  rewrite Esc. cbn [take omap list_omap scanned_len length].
  assert (Eh : retransmit_of addr store s =
    (λ pkt, mkDatagram RtpSock addr (flag_retransmit pkt)) <$> store_get store s) by done.
  destruct (store_get store s) as [pkt|]; cbn [fmap option_fmap option_map] in Eh; rewrite Eh.
  - unfold charge_retx; cbn [wb_scan wb_retx]. destruct (Z.eqb_spec retx 0) as [->|Hretx]; cbn [negb].
    { change (Z.to_nat 0) with 0%nat. cbn [take length accepted app]. rewrite app_nil_r, Z.add_0_r, Z.sub_0_r, (as_u64_id ret) by done.
      rewrite (bool_decide_eq_true_2 (0 < S _)%nat), orb_true_r by lia. done. }
    assert (Erx : Z.to_nat retx = S (Z.to_nat (retx - 1))) by lia.
    rewrite Erx. cbn [take length accepted]. rewrite IH; cbn [nw_budget wb_scan wb_retx nw_requested nw_retransmitted nw_out];
      [|lia|lia|done|destruct (net _); auto with rist].
    unfold serve_reference. cbn [nw_budget wb_scan wb_retx nw_requested nw_retransmitted nw_out].
    f_equal; [f_equal; apply bool_decide_ext; lia|].
    rewrite <- app_assoc, as_u64_add_l, length_app, Nat.add_1_r. cbn [app]. f_equal; [f_equal; lia|f_equal; lia|].
    destruct (net (length out)); rewrite ?as_u64_add_l; f_equal; lia.
  - rewrite IH; cbn [nw_budget wb_scan wb_retx nw_requested nw_retransmitted nw_out]; [|lia|lia|done|done].
    unfold serve_reference. cbn [nw_budget wb_scan wb_retx nw_requested nw_retransmitted nw_out].
    f_equal; [f_equal; apply bool_decide_ext; lia|].
    rewrite as_u64_add_l. f_equal; [f_equal; lia|f_equal; lia].
Qed.

(** (C16) Serving a NACK equals its reference: the loop over the requested numbers, with its two
    budgets and its early returns, sends exactly the stored ones among the first [scan]
    numbers, in the order of the request and at most [retx] of them; it counts as
    requested every number it looked up (up to and including the first packet it cannot
    pay for) and as retransmitted every send that succeeded, modulo 2^64; it charges
    both budgets accordingly and reports exhaustion exactly when numbers were left over
    or a stored packet could not be paid for. *)
Theorem serve_nack_equiv (net : nat → bool) (addr : SocketAddr) (store : St) (seqs : list Z) (w : nack_work) :
  0 <= wb_scan (nw_budget w) → 0 <= wb_retx (nw_budget w) →
  is_u64 (nw_requested w) → is_u64 (nw_retransmitted w) →
  serve_nack_entries net addr store seqs w = serve_reference net addr store seqs w.
Proof. apply serve_eq_reference. Qed.
End serve.

(** Two of four numbers are stored, one can be paid for. *)
Lemma serve_nack_equiv_witness :
  let store := RetransmitBuffer_insert (RetransmitBuffer_insert (RetransmitBuffer_new 8) 3 [1]) 5 [2] in
  let w := mkNackWork (mkNackWorkBudget 10 1) 0 0 [] in
  serve_nack_entries (λ _, true) demo_receiver store [2; 3; 5; 6] w =
    (true, mkNackWork (mkNackWorkBudget 7 0) 3 1 [mkDatagram RtpSock demo_receiver [1]]).
Proof.
  cbn zeta. etransitivity; [apply serve_nack_equiv; cbn; unfold is_u64; lia|]. vm_compute. reflexivity.
Defined.
