(* ===== verification/Receiver.v ===== *)
(** * The receiver task (rist-transport/src/receiver.rs)

    One definition per arm of the receive task's [select!] loop, and one turn of the delivery
    thread.  Clock readings and the outcomes of sends are arguments, as in [Sender].  The
    reorder buffer is shared by the two threads under a mutex; each critical section of the
    code is one operation on it here, so every interleaving of the threads is a sequence
    of these operations.  Datagrams are read through [recv_into], which cuts them to the
    buffers' 2048 bytes. *)

From S2P Require Import Prelude Float64 Rtp RtcpCodec RtcpReports Sdes RtcpNack RtcpApp Rtcp Reorder NackSched Rtt RtcpState Guard Sender.

(** Size of [rtp_buf] and of [rtcp_recv_buf]. *)
Definition MAX_UDP_RECV : Z := 2048.
Definition MIN_NACK_RETRY_DELAY : Z := from_millis 20.
Definition MAX_BATCH : Z := 32.

Record ParsedRtp := mkParsedRtp {
  pr_seq : Z;
  pr_ssrc : Z;
  pr_rtp_ts : Z;
  pr_payload : bytes;
  pr_arrival_us : Z;
  pr_payload_len : Z;
  pr_is_retransmit : bool
}.

(** [clock] is the reading of [Instant::now()]; [None] on a malformed datagram. *)
Definition parse_rtp (buf : bytes) (epoch clock : Z) : exec (option ParsedRtp) :=
  match RtpHeader_parse buf with
  | Panic => Panic
  | Err _ => Ok None
  | Ok (header, header_size) =>
      payload ← slice_from buf header_size;
      Ok (Some (mkParsedRtp (rh_sequence_number header) (rh_ssrc header) (rh_timestamp header)
        payload (as_u64 (as_micros (duration_since clock epoch))) (blen buf - header_size)
        (is_retransmit header)))
  end.

Record RistDelivered := mkRistDelivered { rd_data : bytes; rd_arrival : Z; rd_rtp_seq : Z }.

Record Receiver := mkReceiver {
  rc_ssrc : Z;
  rc_rtcp_state : RtcpReceiverState;
  rc_nack_scheduler : NackScheduler;
  rc_rtt_estimator : RttEstimator;
  rc_observed_media_ssrc : option Z;
  rc_reorder : ReorderBuffer;
  rc_pinned_source_ip : option IpAddr;
  rc_sender_rtp_addr : option SocketAddr;
  rc_rtp_peer_live : option Z;
  rc_sender_rtcp_addr : option SocketAddr;
  rc_rtcp_peer_live : option Z;
  rc_epoch : Z;
  rc_rtt_echo_enabled : bool;
  rc_stats : RistConnStats
}.

(** The state before the loop; [clock] is read by [NackScheduler::new], [epoch] just before
    the loop starts. *)
Definition Receiver_new (random_ssrc : Z) (cname : bytes) (rtcp_interval max_nack_retries buffer_size : Z)
    (remote_addr : option SocketAddr) (clock epoch : Z) (rtt_echo_enabled : bool) (stats : RistConnStats)
    : Receiver :=
  let ssrc := Z.land random_ssrc 4294967294 in
  mkReceiver ssrc (RtcpReceiverState_new ssrc cname rtcp_interval)
    (NackScheduler_new max_nack_retries MIN_NACK_RETRY_DELAY clock) (RttEstimator_new (rtcp_interval * 10))
    None (ReorderBuffer_new buffer_size) (sa_ip <$> remote_addr) None None None None epoch
    rtt_echo_enabled stats.

(** ** Incoming media *)

(** A datagram waiting in the socket: its bytes, its source and the clock when it is parsed. *)
Definition queued : Type := bytes * SocketAddr * Z.

(** [while batch.len() < MAX_BATCH && drained < MAX_BATCH]: the batch and what stays queued. *)
Fixpoint read_burst (from : SocketAddr) (epoch : Z) (queue : list queued)
    (batch : list ParsedRtp) (drained : Z) : exec (list ParsedRtp * list queued) :=
  match queue with
  | [] => Ok (batch, [])
  | (buf, src, clock) :: rest =>
      if (Z.of_nat (length batch) <? MAX_BATCH) && (drained <? MAX_BATCH) then
        if bool_decide (src ≠ from) then read_burst from epoch rest batch (drained + 1)
        else
          p ← parse_rtp (recv_into MAX_UDP_RECV buf) epoch clock;
          read_burst from epoch rest (batch ++ match p with Some p => [p] | None => [] end) (drained + 1)
      else Ok (batch, queue)
  end.

(** The inserts of a batch, under one lock. *)
Fixpoint insert_batch (g : ReorderBuffer) (batch : list ParsedRtp) (now : Z)
    : ReorderBuffer * list InsertOutcome :=
  match batch with
  | [] => (g, [])
  | p :: rest =>
      let '(g, o) := insert g (pr_seq p) (pr_payload p) now in
      let '(g, os) := insert_batch g rest now in
      (g, o :: os)
  end.

Definition stats_received (s : RistConnStats) (p : ParsedRtp) (o : InsertOutcome) : RistConnStats :=
  let bump (c : bool) (v : Z) := if c then fetch_add v 1 else v in
  mkRistConnStats (st_packets_sent s) (st_bytes_sent s) (st_packets_retransmitted s) (st_nacks_received s)
    (fetch_add (st_packets_received s) 1) (fetch_add (st_bytes_received s) (pr_payload_len p))
    (if 0 <? io_overflow_flushed o then fetch_add (st_packets_lost s) (io_overflow_flushed o)
     else st_packets_lost s)
    (bump (io_recovered o) (st_packets_recovered s)) (st_nacks_sent s)
    (bump (io_duplicate o) (st_duplicates s)) (bump (io_stale o) (st_reorder_drops s))
    (bump (pr_is_retransmit p) (st_retransmits_received s)) (st_rtt_us s) (st_jitter_us s).

(** The accounting loop over the batch and its outcomes. *)
Fixpoint account_batch (rs : RtcpReceiverState) (ns : NackScheduler) (st : RistConnStats)
    (batch : list (ParsedRtp * InsertOutcome)) (now : Z)
    : RtcpReceiverState * NackScheduler * RistConnStats :=
  match batch with
  | [] => (rs, ns, st)
  | (p, o) :: rest =>
      account_batch
        (rr_on_packet_received rs (pr_seq p) (pr_rtp_ts p) (pr_arrival_us p) (io_duplicate o))
        (NackSched.on_packet_received ns (pr_seq p) now).1 (stats_received st p o) rest now
  end.

(** [(jitter * 1_000_000.0 / 90_000.0) as u64] *)
Definition jitter_us (jitter : f64) : Z :=
  f64_as_uint u64_max (f64_div (f64_mul jitter (f64_of_uint 1000000)) (f64_of_uint 90000)).

Definition set_addrs (self : Receiver) (rtp : option SocketAddr) (rtcp : option SocketAddr)
    (observed : option Z) : Receiver :=
  mkReceiver (rc_ssrc self) (rc_rtcp_state self) (rc_nack_scheduler self) (rc_rtt_estimator self) observed
    (rc_reorder self) (rc_pinned_source_ip self) rtp (rc_rtp_peer_live self) rtcp
    (rc_rtcp_peer_live self) (rc_epoch self) (rc_rtt_echo_enabled self) (rc_stats self).

(** Insert the batch, wake the delivery thread, account for every packet. *)
Definition process_batch (self : Receiver) (batch : list ParsedRtp) (now : Z) : Receiver :=
  let '(reorder, outcomes) := insert_batch (rc_reorder self) batch now in
  let '(rs, ns, st) :=
    account_batch (rc_rtcp_state self) (rc_nack_scheduler self) (rc_stats self)
      (zip batch outcomes) now in
  mkReceiver (rc_ssrc self) rs ns (rc_rtt_estimator self) (rc_observed_media_ssrc self) reorder
    (rc_pinned_source_ip self) (rc_sender_rtp_addr self) (Some now) (rc_sender_rtcp_addr self)
    (rc_rtcp_peer_live self) (rc_epoch self) (rc_rtt_echo_enabled self)
    (stats_jitter st (jitter_us (rr_jitter rs))).

(** The arm for incoming RTP: the datagram [buf] from [from], received at [arrived_at] and
    parsed at [clock], the datagrams already [queue]d behind it, and the clock [now] at the
    insertion. *)
Definition on_rtp (self : Receiver) (buf : bytes) (from : SocketAddr) (arrived_at clock : Z)
    (queue : list queued) (now : Z) : exec (Receiver * list queued) :=
  if negb (source_allowed from (rc_pinned_source_ip self) (rc_sender_rtp_addr self)
             (rc_rtp_peer_live self) arrived_at)
  then Ok (self, queue)
  else
    let self :=
      if bool_decide (rc_sender_rtp_addr self ≠ Some from)
      then set_addrs self (Some from) (Some (rtcp_addr_for from)) (rc_observed_media_ssrc self)
      else self in
    p ← parse_rtp (recv_into MAX_UDP_RECV buf) (rc_epoch self) clock;
    let '(self, batch) :=
      match p with
      | Some p =>
          let observed := match rc_observed_media_ssrc self with None => Some (pr_ssrc p) | o => o end in
          (set_addrs self (rc_sender_rtp_addr self) (rc_sender_rtcp_addr self) observed, [p])
      | None => (self, [])
      end in
    '(batch, rest) ← read_burst from (rc_epoch self) queue batch 1;
    match batch with
    | [] => Ok (self, rest)
    | _ :: _ => Ok (process_batch self batch now, rest)
    end.

(** ** Incoming control *)

(** [Option::max] with [None] below every instant. *)
Definition option_max (a b : option Z) : option Z :=
  match a, b with
  | Some x, Some y => Some (Z.max x y)
  | Some x, None => Some x
  | None, b => b
  end.

Definition set_control (self : Receiver) (rs : RtcpReceiverState) (ns : NackScheduler)
    (rtt : RttEstimator) (st : RistConnStats) : Receiver :=
  mkReceiver (rc_ssrc self) rs ns rtt (rc_observed_media_ssrc self) (rc_reorder self)
    (rc_pinned_source_ip self) (rc_sender_rtp_addr self) (rc_rtp_peer_live self)
    (rc_sender_rtcp_addr self) (rc_rtcp_peer_live self) (rc_epoch self) (rc_rtt_echo_enabled self) st.

Definition handle_control (clock : nat → Z) (from : SocketAddr) (now : Z) (i : nat) (pkt : RtcpPacket)
    (self : Receiver) : Receiver * list datagram :=
  match pkt with
  | PktSenderReport sr =>
      (set_control self (on_sr_received (rc_rtcp_state self) sr now) (rc_nack_scheduler self)
         (rc_rtt_estimator self) (rc_stats self), [])
  | PktApp (AppRttEchoRequest req) =>
      (self, [mkDatagram RtcpSock from (echo_reply (rc_ssrc self) req (turnaround_us now (clock i)))])
  | PktApp (AppRttEchoResponse resp) =>
      let rtt := on_response (rc_rtt_estimator self) now (er_timestamp_msw resp)
                   (er_timestamp_lsw resp) (er_processing_delay_us resp) in
      match srtt rtt with
      | Some r =>
          let retry := Z.max (r / 2) MIN_NACK_RETRY_DELAY in
          (set_control self (rc_rtcp_state self) (update_base_delay (rc_nack_scheduler self) retry) rtt
             (stats_rtt (rc_stats self) (as_u64 (as_micros r))), [])
      | None => (set_control self (rc_rtcp_state self) (rc_nack_scheduler self) rtt (rc_stats self), [])
      end
  | _ => (self, [])
  end.

Fixpoint handle_controls (clock : nat → Z) (from : SocketAddr) (now : Z) (i : nat)
    (pkts : list RtcpPacket) (self : Receiver) (out : list datagram) : Receiver * list datagram :=
  match pkts with
  | [] => (self, out)
  | p :: rest =>
      let '(self, ds) := handle_control clock from now i p self in
      handle_controls clock from now (S i) rest self (out ++ ds)
  end.

Definition on_control (self : Receiver) (buf : bytes) (from : SocketAddr) (now : Z) (clock : nat → Z)
    : exec (Receiver * list datagram) :=
  let live := option_max (rc_rtcp_peer_live self) (rc_rtp_peer_live self) in
  if negb (source_allowed from (rc_pinned_source_ip self) (rc_sender_rtcp_addr self) live now)
  then Ok (self, [])
  else
    match RtcpCompound_parse (recv_into MAX_UDP_RECV buf) with
    | Panic => Panic
    | Err _ => Ok (self, [])
    | Ok [] => Ok (self, [])
    | Ok pkts =>
        let self :=
          mkReceiver (rc_ssrc self) (rc_rtcp_state self) (rc_nack_scheduler self) (rc_rtt_estimator self)
            (rc_observed_media_ssrc self) (rc_reorder self) (rc_pinned_source_ip self)
            (rc_sender_rtp_addr self) (rc_rtp_peer_live self) (Some from) (Some now) (rc_epoch self)
            (rc_rtt_echo_enabled self) (rc_stats self) in
        Ok (handle_controls clock from now 0 pkts self [])
    end.

(** ** Timers *)

(** The NACK pump; [sent] is the outcome of its [send_to]. *)
Definition on_pump (self : Receiver) (now : Z) (sent : bool) : Receiver * list datagram :=
  match rc_sender_rtcp_addr self with
  | None => (self, [])
  | Some rtcp_dest =>
      let '(ns, pending) := get_pending_nacks (rc_nack_scheduler self) now (srtt (rc_rtt_estimator self)) in
      match pending with
      | [] => (set_control self (rc_rtcp_state self) ns (rc_rtt_estimator self) (rc_stats self), [])
      | _ :: _ =>
          let sender_ssrc :=
            match rr_sender_ssrc (rc_rtcp_state self) with
            | Some s => s
            | None => default 0 (rc_observed_media_ssrc self)
            end in
          let nack_pkt := build_bitmask (mkNackListBuilder (rc_ssrc self) sender_ssrc) pending in
          let '(rs, rr) := generate_rr (rc_rtcp_state self) now in
          let st := if sent then stats_nacks_sent (rc_stats self) (Z.of_nat (length pending))
                    else rc_stats self in
          (set_control self rs ns (rc_rtt_estimator self) st,
           [mkDatagram RtcpSock rtcp_dest
              (RtcpCompound_serialize [PktReceiverReport rr; PktNack nack_pkt])])
      end
  end.

(** The report timer. *)
Definition on_report (self : Receiver) (now : Z) : Receiver * list datagram :=
  match rc_sender_rtcp_addr self with
  | None => (self, [])
  | Some rtcp_dest =>
      let '(rs, rr) := generate_rr (rc_rtcp_state self) now in
      let sdes := receiver_generate_sdes rs in
      let '(rtt, packets) :=
        if rc_rtt_echo_enabled self && should_send_request (rc_rtt_estimator self) now then
          let '(rtt, (msw, lsw)) := generate_request (rc_rtt_estimator self) now in
          (rtt, [PktReceiverReport rr; PktSdes sdes;
                 PktApp (AppRttEchoRequest (mkRttEchoRequest (rc_ssrc self) msw lsw))])
        else (rc_rtt_estimator self, [PktReceiverReport rr; PktSdes sdes]) in
      (set_control self rs (rc_nack_scheduler self) rtt (rc_stats self),
       [mkDatagram RtcpSock rtcp_dest (RtcpCompound_serialize packets)])
  end.

(** ** The delivery thread *)

(** What one turn of [run_drain_thread] does after it has looked at the buffer. *)
Inductive drain_action : Type :=
  | Park                       (** wait for a notification *)
  | WaitTimeout (d : Z)        (** wait for a notification, at most [d] *)
  | Again                      (** loop at once *)
  | Deliver (items : list DrainItem).

(** [now] is read before the drain, [now2] before the wait; [Instant::now()] inside
    [next_drain_time] is [clock]. *)
Definition drain_turn (g : ReorderBuffer) (now clock now2 : Z) : option (ReorderBuffer * drain_action) :=
  '(g, scratch) ← drain_ready g now [];
  match scratch with
  | [] =>
      match next_drain_time g clock with
      | None => Some (g, Park)
      | Some deadline =>
          if now2 <? deadline then Some (g, WaitTimeout (deadline - now2)) else Some (g, Again)
      end
  | _ :: _ => Some (g, Deliver scratch)
  end.

(** The delivery loop outside the lock; [room k] tells whether the channel takes the [k]-th
    packet offered. *)
Fixpoint deliver (room : nat → bool) (k : nat) (items : list DrainItem) (st : RistConnStats)
    : list RistDelivered * RistConnStats :=
  match items with
  | [] => ([], st)
  | Delivered data seq arrival :: rest =>
      if room k then
        let '(l, st) := deliver room (S k) rest st in (mkRistDelivered data arrival seq :: l, st)
      else deliver room (S k) rest (stats_drained st 0 1)
  | Lost :: rest => deliver room k rest (stats_drained st 1 0)
  end.
