(* ===== verification/ReceiverProps.v ===== *)
(** * Properties of the receiver task

    Admission of media bursts, the turns of the delivery thread, and where the code departs
    from its documentation. *)

From S2P Require Import Prelude Float64 Rtp RtcpCodec RtcpReports Sdes RtcpNack RtcpApp Rtcp Retransmit Ring Reorder ReorderSpec ReorderProps NackSched Rtt RtcpState Guard Sender SenderProps Receiver.

(** ** Parsing media *)

Lemma parse_rtp_ok buf epoch clock : bytes_ok buf → ∃ p, parse_rtp buf epoch clock = Ok p.
Proof.
  intros Hb. unfold parse_rtp. destruct (RtpHeader_parse buf) as [[h n]|e|] eqn:E; [|by eexists|].
  - assert (Hn : 0 <= n <= blen buf).
    { unfold RtpHeader_parse, RTP_HEADER_SIZE in E. destruct (Z.ltb_spec (blen buf) 12); [done|]. revert E.
      read_step. destruct (negb _); [done|]. do 4 read_step.
      destruct (Z.ltb_spec (blen buf) (12 + Z.land z 15 * 4)) as [|Hle]; [done|]. intros [= _ <-].
      rewrite land_15 in *. pose proof (Z.mod_pos_bound z 16 ltac:(lia)). lia. }
    rewrite slice_from_ok by done. by eexists.
  - exfalso. revert E. unfold RtpHeader_parse, RTP_HEADER_SIZE. destruct (Z.ltb_spec (blen buf) 12); [done|].
    read_step. destruct (negb _); [done|]. do 4 read_step. by destruct (_ <? _).
Qed.

(** The receiver reads the sender's packets as they were written. *)
Lemma parse_rtp_media ssrc seq ts payload epoch clock :
  is_u32 ssrc → is_u16 seq → is_u32 ts →
  ∃ p, parse_rtp (write_rtp_header ssrc seq ts ++ payload) epoch clock = Ok (Some p) ∧
    pr_seq p = seq ∧ pr_ssrc p = ssrc ∧ pr_rtp_ts p = ts ∧ pr_payload p = payload ∧
    pr_payload_len p = blen payload ∧ (pr_is_retransmit p = true ↔ ssrc mod 2 = 1).
Proof.
  intros Hs Hq Ht. unfold parse_rtp. rewrite write_rtp_header_eq.
  rewrite RtpHeader_parse_serialize by by apply new_ts_ok. cbn [new_ts rh_csrc_count].
  pose proof (blen_nonneg payload). rewrite (proj2 (Z.ltb_ge _ _)) by lia.
  rewrite slice_from_ok by (rewrite blen_app, serialize_blen; lia). cbn [mbind exec_bind].
  eexists. split; [done|]. split_and!; try done.
  - cbn [pr_payload_len]. rewrite blen_app, serialize_blen. lia.
  - apply (is_retransmit_spec (new_ts ssrc seq ts)).
Qed.

(** What a datagram of media carries into the receiver: its buffer of 2048 bytes has room for
    the header and 2036 bytes of payload, the rest is cut off. *)
Definition rx_payload (payload : bytes) : bytes := recv_into (MAX_UDP_RECV - RTP_HEADER_SIZE) payload.

Lemma rx_payload_take payload : rx_payload payload = take 2036 payload.
Proof. done. Qed.
Lemma rx_payload_short payload : blen payload <= 2036 → rx_payload payload = payload.
Proof. intros. by apply recv_into_short. Qed.
Lemma rx_payload_ok payload : bytes_ok payload → bytes_ok (rx_payload payload).
Proof. apply recv_into_ok. Qed.
Lemma recv_media ssrc seq ts payload :
  recv_into MAX_UDP_RECV (write_rtp_header ssrc seq ts ++ payload) = write_rtp_header ssrc seq ts ++ rx_payload payload.
Proof.
  assert (Hl : length (write_rtp_header ssrc seq ts) = 12%nat).
  { rewrite write_rtp_header_eq. pose proof (serialize_blen (new_ts ssrc seq ts)). unfold blen in *. lia. }
  unfold rx_payload, recv_into. rewrite take_app_ge by (rewrite Hl; unfold MAX_UDP_RECV; lia).
  rewrite Hl. do 2 f_equal.
Qed.

(** ** Bursts *)

Definition parsed (from : SocketAddr) (epoch : Z) (q : queued) : option ParsedRtp :=
  let '(buf, src, clock) := q in
  if bool_decide (src = from) then
    match parse_rtp (recv_into MAX_UDP_RECV buf) epoch clock with Ok (Some p) => Some p | _ => None end
  else None.

Lemma read_burst_spec from epoch queue : ∀ batch drained,
  Forall (λ q, bytes_ok q.1.1) queue → Z.of_nat (length batch) <= drained →
  let n := Z.to_nat (MAX_BATCH - drained) in
  read_burst from epoch queue batch drained =
    Ok (batch ++ omap (parsed from epoch) (take n queue), drop n queue).
Proof.
  induction queue as [|[[buf src] clock] queue IH]; intros batch drained Hq Hlen n; cbn [read_burst].
  { subst n. by rewrite take_nil, drop_nil, app_nil_r. }
  apply Forall_cons in Hq as [Hb Hq]. cbn in Hb. unfold MAX_BATCH in *.
  destruct (Z.ltb_spec drained 32) as [Hd|Hd].
  2:{ rewrite andb_false_r. subst n. replace (Z.to_nat (32 - drained)) with 0%nat by lia. cbn. by rewrite app_nil_r. }
  rewrite (proj2 (Z.ltb_lt (Z.of_nat (length batch)) 32)) by lia. cbn [andb].
  assert (En : n = S (Z.to_nat (32 - (drained + 1)))) by (subst n; lia). rewrite En.
  cbn [take drop omap list_omap]. unfold parsed at 1.
  destruct (decide (src = from)) as [->|Hne].
  - rewrite bool_decide_false by (by intros ?). rewrite bool_decide_true by done.
    destruct (parse_rtp_ok _ epoch clock (recv_into_ok MAX_UDP_RECV _ Hb)) as [p ->]. cbn [mbind exec_bind].
    rewrite IH; [|done|rewrite length_app; destruct p; cbn; lia].
    destruct p; cbn; [by rewrite <- app_assoc|by rewrite app_nil_r].
  - rewrite bool_decide_true, bool_decide_false by done. apply IH; [done|lia].
Qed.

Definition latch (self : Receiver) (from : SocketAddr) : Receiver :=
  if bool_decide (rc_sender_rtp_addr self ≠ Some from)
  then set_addrs self (Some from) (Some (rtcp_addr_for from)) (rc_observed_media_ssrc self)
  else self.

Definition observe (self : Receiver) (p : option ParsedRtp) : Receiver :=
  match p with
  | Some p => set_addrs self (rc_sender_rtp_addr self) (rc_sender_rtcp_addr self)
                (match rc_observed_media_ssrc self with None => Some (pr_ssrc p) | o => o end)
  | None => self
  end.

Lemma on_rtp_eq (self : Receiver) (buf : bytes) (from : SocketAddr) (arrived_at clock now : Z)
    (queue : list queued) :
  bytes_ok buf → Forall (λ q, bytes_ok q.1.1) queue →
  on_rtp self buf from arrived_at clock queue now =
  if source_allowed from (rc_pinned_source_ip self) (rc_sender_rtp_addr self) (rc_rtp_peer_live self) arrived_at
  then
    let first := parsed from (rc_epoch self) (buf, from, clock) in
    let batch := omap (parsed from (rc_epoch self)) ((buf, from, clock) :: take 31 queue) in
    let self1 := observe (latch self from) first in
    Ok (match batch with [] => self1 | _ => process_batch self1 batch now end, drop 31 queue)
  else Ok (self, queue).
Proof.
  intros Hb Hq. unfold on_rtp. destruct (source_allowed _ _ _ _ _); cbn [negb]; [|done].
  fold (latch self from). assert (Ee : rc_epoch (latch self from) = rc_epoch self)
    by (unfold latch; by case_bool_decide).
  assert (Eo : ∀ q l, omap (parsed from (rc_epoch self)) (q :: l) =
    match parsed from (rc_epoch self) q with
    | Some p => p :: omap (parsed from (rc_epoch self)) l
    | None => omap (parsed from (rc_epoch self)) l
    end) by done.
  assert (Ep : parsed from (rc_epoch self) (buf, from, clock) =
    match parse_rtp (recv_into MAX_UDP_RECV buf) (rc_epoch self) clock with Ok (Some p) => Some p | _ => None end)
    by (unfold parsed; by rewrite bool_decide_true).
  rewrite Ee. cbn zeta. rewrite Eo, Ep.
  destruct (parse_rtp_ok _ (rc_epoch self) clock (recv_into_ok MAX_UDP_RECV _ Hb)) as [p ->]. cbn [mbind exec_bind].
  destruct p as [p|]; cbn [observe set_addrs rc_epoch].
  - rewrite Ee, read_burst_spec by (done || cbn; lia). cbn [mbind exec_bind].
    change (Z.to_nat (MAX_BATCH - 1)) with 31%nat. done.
  - rewrite Ee, read_burst_spec by (done || cbn; lia). cbn [mbind exec_bind app].
    change (Z.to_nat (MAX_BATCH - 1)) with 31%nat. by destruct (omap _ _).
Qed.

(** (C21) A burst carries only its own source: a datagram that is not admitted changes nothing
    and consumes nothing; an admitted one consumes at most 31 more waiting datagrams, and
    the packets inserted are exactly the well-formed ones among it and those of the 31 that
    come from the very same address, in order.  No content makes the handler panic. *)
Theorem rtp_burst_exact (self : Receiver) (buf : bytes) (from : SocketAddr) (arrived_at clock now : Z)
    (queue : list queued) :
  bytes_ok buf → Forall (λ q, bytes_ok q.1.1) queue →
  on_rtp self buf from arrived_at clock queue now =
  if source_allowed from (rc_pinned_source_ip self) (rc_sender_rtp_addr self) (rc_rtp_peer_live self) arrived_at
  then
    let first := parsed from (rc_epoch self) (buf, from, clock) in
    let batch := omap (parsed from (rc_epoch self)) ((buf, from, clock) :: take 31 queue) in
    let self1 := observe (latch self from) first in
    Ok (match batch with [] => self1 | _ => process_batch self1 batch now end, drop 31 queue)
  else Ok (self, queue).
Proof. apply on_rtp_eq. Qed.

(** ** A concrete session *)

Definition demo_source : SocketAddr := mkSocketAddr (V4 3232235777) 6000 0.
Definition demo_attacker : SocketAddr := mkSocketAddr (V4 167772161) 4000 0.
Definition demo_recv : Receiver :=
  Receiver_new 123456 [98] 100000000 10 1000000000 None 0 0 true RistConnStats_new.
Definition demo_media (seq : Z) : bytes := write_rtp_header 287454020 seq 0 ++ [71; seq].

Lemma demo_media_ok seq : is_u8 seq → bytes_ok (demo_media seq).
Proof. intros Hs. unfold demo_media, bytes_ok. cbn. repeat constructor; unfold is_u8 in *; ulia. Qed.

(** Three packets in one burst, the second from a stranger: it is left out. *)
Lemma rtp_burst_exact_witness :
  ∃ self', on_rtp demo_recv (demo_media 5) demo_source 10 10
      [(demo_media 6, demo_attacker, 11); (demo_media 7, demo_source, 12)] 13 = Ok (self', []) ∧
    abs (rc_reorder self') =
      Some (mkQueue 5 [SFilled [71; 5] 13; SGap 13; SFilled [71; 7] 13]) ∧
    nc_expected_seq (rc_nack_scheduler self') = Some 8.
Proof.
  eexists. split.
  - rewrite rtp_burst_exact.
    + vm_compute. reflexivity.
    + apply demo_media_ok. ulia.
    + constructor; [apply demo_media_ok; ulia|]. constructor; [apply demo_media_ok; ulia|constructor].
  - split; vm_compute; reflexivity.
Defined.

(** ** Where the control peer is not protected *)

(** The peer slots after a batch. *)
Lemma process_batch_slots self batch now :
  let self' := process_batch self batch now in
  rc_pinned_source_ip self' = rc_pinned_source_ip self ∧ rc_sender_rtcp_addr self' = rc_sender_rtcp_addr self ∧
  rc_rtcp_peer_live self' = rc_rtcp_peer_live self ∧ rc_rtp_peer_live self' = Some now.
Proof. unfold process_batch. destruct (insert_batch _ _ _) as [g os]. by destruct (account_batch _ _ _ _ _) as [[rs ns] st]. Qed.

Lemma latch_slots self from p :
  rc_sender_rtp_addr self = None →
  let self' := observe (latch self from) p in
  rc_pinned_source_ip self' = rc_pinned_source_ip self ∧ rc_sender_rtcp_addr self' = Some (rtcp_addr_for from) ∧
  rc_rtcp_peer_live self' = rc_rtcp_peer_live self ∧ rc_rtp_peer_live self' = rc_rtp_peer_live self.
Proof. intros H. unfold latch. rewrite H, bool_decide_true by done. by destruct p. Qed.

(** (C37) A live control peer can be displaced through the media port: while no media source
    has been latched and no source is configured, one datagram on the RTP port, whatever its
    bytes, whatever is queued behind it and from any other IP, redirects the control slot to its
    source, and while less than 12 seconds have passed since the real control peer was last
    heard, every control datagram of that peer is refused.  The guard's documentation says
    that a live slot does not move to a different source IP. *)
Theorem rtp_displaces_live_control_peer (self : Receiver) (peer from : SocketAddr) (t arrived_at clock now : Z)
    (buf : bytes) (queue : list queued) :
  rc_pinned_source_ip self = None → rc_sender_rtp_addr self = None →
  rc_sender_rtcp_addr self = Some peer → rc_rtcp_peer_live self = Some t → sa_ip from ≠ sa_ip peer →
  bytes_ok buf → Forall (λ q, bytes_ok q.1.1) queue →
  ∃ self', on_rtp self buf from arrived_at clock queue now = Ok (self', drop 31 queue) ∧
    rc_sender_rtcp_addr self' = Some (rtcp_addr_for from) ∧
    ∀ ctl later cl, later - t < PEER_TAKEOVER_GRACE → on_control self' ctl peer later cl = Ok (self', []).
Proof.
  intros Hpin Hrtp Hctl Hct Hip Hb Hq. rewrite on_rtp_eq by done. rewrite Hpin, Hrtp. cbn [source_allowed].
  eexists. split; [done|].
  match goal with |- rc_sender_rtcp_addr ?s = _ ∧ _ => assert (Hs : rc_pinned_source_ip s = None ∧
    rc_sender_rtcp_addr s = Some (rtcp_addr_for from) ∧ rc_rtcp_peer_live s = Some t); [|generalize dependent s] end.
  { destruct (latch_slots self from (parsed from (rc_epoch self) (buf, from, clock)) Hrtp) as (E1 & E2 & E3 & _).
    destruct (omap _ _) as [|p ps]; [by rewrite E1, E2, E3|].
    destruct (process_batch_slots (observe (latch self from) (parsed from (rc_epoch self) (buf, from, clock)))
      (p :: ps) now) as (-> & -> & -> & _). by rewrite E1, E2, E3. }
  intros self' (E1 & E2 & E3). split; [done|]. intros ctl later cl Hlater.
  unfold on_control. rewrite E1, E2, E3.
  destruct (source_allowed _ _ _ _ _) eqn:E; [|done]. exfalso. unfold source_allowed in E.
  apply peer_move_allowed_iff in E as [E|E]; [by cbn in E|].
  destruct (rc_rtp_peer_live self') as [n|]; cbn [option_max] in E; specialize (E _ eq_refl); lia.
Qed.

Definition demo_latched : Receiver :=
  match on_control demo_recv demo_nack demo_source 5 (λ _, 0) with Ok (r, _) => r | _ => demo_recv end.

Lemma rtp_displaces_live_control_peer_witness :
  rc_sender_rtcp_addr demo_latched = Some demo_source ∧
  ∃ self', on_rtp demo_latched (demo_media 5) demo_attacker 6 6 [(demo_media 6, demo_attacker, 6)] 6 = Ok (self', []) ∧
    rc_sender_rtcp_addr self' = Some (rtcp_addr_for demo_attacker) ∧
    on_control self' demo_nack demo_source 7 (λ _, 0) = Ok (self', []).
Proof.
  split; [vm_compute; reflexivity|].
  assert (E1 : rc_pinned_source_ip demo_latched = None) by (vm_compute; reflexivity).
  assert (E2 : rc_sender_rtp_addr demo_latched = None) by (vm_compute; reflexivity).
  assert (E3 : rc_sender_rtcp_addr demo_latched = Some demo_source) by (vm_compute; reflexivity).
  assert (E4 : rc_rtcp_peer_live demo_latched = Some 5) by (vm_compute; reflexivity).
  assert (E5 : Forall (λ q : queued, bytes_ok q.1.1) [(demo_media 6, demo_attacker, 6)])
    by (constructor; [apply demo_media_ok; ulia|constructor]).
  destruct (rtp_displaces_live_control_peer demo_latched demo_source demo_attacker 5 6 6 6 (demo_media 5)
    [(demo_media 6, demo_attacker, 6)] E1 E2 E3 E4 ltac:(discriminate) (demo_media_ok 5 ltac:(ulia))
    E5) as (self' & H1 & H2 & H3).
  exists self'. split; [exact H1|]. split; [exact H2|]. apply H3. unfold PEER_TAKEOVER_GRACE, from_secs. lia.
Defined.

(** ** The delivery thread *)

(** One turn of the delivery thread: when it delivers, it hands over the longest prefix
    of due cells, in sequence order, and keeps the rest; when it waits with a timeout, nothing
    becomes due before the timeout ends; it parks only when the queue is empty.  In all
    cases the turn ends and the buffer stays well formed. *)
Theorem drain_turn_sound (g : ReorderBuffer) (base : Z) (cells : list SlotState) (now clock now2 : Z) :
  wf g → 0 < ro_buffer_time g → abs g = Some (mkQueue base cells) → now <= now2 →
  ∃ g' act, drain_turn g now clock now2 = Some (g', act) ∧ wf g' ∧
    match act with
    | Deliver items => ∃ n, (0 < n <= length cells)%nat ∧
        items = imap (λ i c, cell_item (wrapping_add16 base (Z.of_nat i)) c) (take n cells) ∧
        Forall (λ c, cell_ready (ro_buffer_time g) now c = true) (take n cells) ∧
        abs g' = Some (mkQueue (wrapping_add16 base (Z.of_nat n)) (drop n cells))
    | WaitTimeout d => 0 < d ∧ abs g' = abs g ∧
        (cells ≠ [] → ∀ t, t < now2 + d → Forall (λ c, cell_ready (ro_buffer_time g) t c = false) (take 1 cells))
    | Park => cells = [] ∧ abs g' = abs g
    | Again => abs g' = abs g
    end.
Proof.
  intros Hwf Hbt Ha Hn. unfold drain_turn.
  destruct (drain_ready_prefix g base cells now [] Hwf Ha) as (g' & n & Hd & Hle & Hwf' & Ha' & Hall & Hnext).
  rewrite Hd. cbn [mbind option_bind app].
  destruct n as [|n].
  - cbn [take imap]. assert (Ea : abs g' = abs g).
    { rewrite Ha', Ha. pose proof (wf_abs g Hwf) as Hq. rewrite Ha in Hq. destruct Hq as (_ & Hu & _).
      cbn in Hu. do 2 f_equal. clear -Hu. ulia. }
    destruct cells as [|c cells].
    + destruct (next_drain_time g' clock) as [dl|]; [destruct (Z.ltb_spec now2 dl)|];
        eexists _, _; (split; [done|]); (split; [done|]); try done. split; [lia|]. by split.
    + rewrite Ha in Ea. destruct (next_drain_time_head g' base c cells clock Hwf' Ea) as [Hnt Hne].
      assert (Ebt : ro_buffer_time g' = ro_buffer_time g).
      { destruct (drain_loop_refines _ drain_fuel g base (c :: cells) now [] Hwf Ha eq_refl)
          as (g2 & Hd2 & _ & _ & E & _).
        - pose proof (wf_abs g Hwf) as Hq. rewrite Ha in Hq. destruct Hq as (_ & _ & Hl). cbn [q_cells] in Hl.
          destruct Hwf as [[_ Hcr _ _] _]. unfold drain_fuel. lia.
        - unfold drain_ready in Hd. rewrite Hd in Hd2. injection Hd2 as <- _. done. }
      rewrite Hnt, Ebt. destruct c as [|t|d t]; [done|..];
        (destruct (Z.ltb_spec now2 (t + ro_buffer_time g));
         eexists _, _; (split; [done|]); (split; [done|]); [|by rewrite Ha]);
        (split; [lia|]); (split; [by rewrite Ha|]);
        intros _ t' Ht'; cbn; (constructor; [|done]); cbn; unfold saturating_duration_since;
        apply Z.leb_gt; lia.
  - destruct cells as [|c cells]; [cbn in Hle; lia|]. cbn [take]. rewrite imap_cons.
    eexists _, _. split; [done|]. split; [done|]. exists (S n). cbn [take]. rewrite imap_cons.
    split_and!; [lia|done|done|done|done].
Qed.

Lemma drain_turn_sound_witness :
  ∃ g' act, drain_turn demo_buffer 1015 0 1016 = Some (g', act) ∧ wf g' ∧
    act = Deliver [Delivered [1] 65535 10].
Proof.
  destruct (drain_turn_sound demo_buffer 65535 [SFilled [1] 10; SGap 20; SFilled [2] 20] 1015 0 1016
    (proj1 demo_buffer_wf) ltac:(reflexivity) (proj2 demo_buffer_wf) ltac:(lia)) as (g' & act & H & Hw & _).
  exists g', act. split; [exact H|]. split; [exact Hw|].
  vm_compute in H. injection H as _ H. congruence.
Defined.
