(* ===== verification/ReceiverRun.v ===== *)
(** * Runs of the receiver

    The receive task and the delivery thread as one step function on events, the invariant
    every step preserves, and what a receiver puts on the wire in any run. *)

From S2P Require Import Prelude Float64 Rtp RtcpCodec RtcpReports Sdes RtcpNack RtcpApp Rtcp Ring Reorder ReorderProps NackSched Rtt RtcpState Guard Sender Receiver ReceiverProps.

(** ** Events *)

(** The arms of the [select!] loop, and a turn of the delivery thread that drains the shared
    buffer ([room] as in [deliver]). *)
Inductive receiver_event : Type :=
  | EvRtpIn (buf : bytes) (from : SocketAddr) (arrived_at clock : Z) (queue : list queued) (now : Z)
  | EvControlIn (buf : bytes) (from : SocketAddr) (now : Z) (clock : nat → Z)
  | EvPump (now : Z) (sent : bool)
  | EvReport (now : Z)
  | EvDrain (now : Z) (room : nat → bool).

Definition set_reorder (self : Receiver) (g : ReorderBuffer) (st : RistConnStats) : Receiver :=
  mkReceiver (rc_ssrc self) (rc_rtcp_state self) (rc_nack_scheduler self) (rc_rtt_estimator self)
    (rc_observed_media_ssrc self) g (rc_pinned_source_ip self) (rc_sender_rtp_addr self)
    (rc_rtp_peer_live self) (rc_sender_rtcp_addr self) (rc_rtcp_peer_live self) (rc_epoch self)
    (rc_rtt_echo_enabled self) st.

(** The next state, the datagrams sent and the packets handed to the application.  A drain
    that did not return would be [Panic]. *)
Definition receiver_step (self : Receiver) (ev : receiver_event)
    : exec (Receiver * list datagram * list RistDelivered) :=
  match ev with
  | EvRtpIn buf from arrived_at clock queue now =>
      '(self', _) ← on_rtp self buf from arrived_at clock queue now; Ok (self', [], [])
  | EvControlIn buf from now clock =>
      '(self', out) ← on_control self buf from now clock; Ok (self', out, [])
  | EvPump now sent => Ok (on_pump self now sent, [])
  | EvReport now => Ok (on_report self now, [])
  | EvDrain now room =>
      match drain_ready (rc_reorder self) now [] with
      | None => Panic
      | Some (g, items) =>
          let '(delivered, st) := deliver room 0 items (rc_stats self) in
          Ok (set_reorder self g st, [], delivered)
      end
  end.

Fixpoint receiver_run (self : Receiver) (evs : list receiver_event)
    : exec (Receiver * list datagram * list RistDelivered) :=
  match evs with
  | [] => Ok (self, [], [])
  | ev :: rest =>
      '(self1, out1, del1) ← receiver_step self ev;
      '(self2, out2, del2) ← receiver_run self1 rest;
      Ok (self2, out1 ++ out2, del1 ++ del2)
  end.

(** What arrives are bytes. *)
Definition event_ok (ev : receiver_event) : Prop :=
  match ev with
  | EvRtpIn buf _ _ _ queue _ => bytes_ok buf ∧ Forall (λ q, bytes_ok q.1.1) queue
  | EvControlIn buf _ _ _ => bytes_ok buf
  | _ => True
  end.

(** ** The invariant *)

Record receiver_ok (r : Receiver) : Prop := {
  ro_ssrc : is_u32 (rc_ssrc r);
  ro_sched : sched_wf (rc_nack_scheduler r);
  ro_rtcp : rx_ok (rc_rtcp_state r);
  ro_observed : match rc_observed_media_ssrc r with Some s => is_u32 s | None => True end
}.

(** [pin] is the operator's source filter. *)
Record receiver_inv (pin : option IpAddr) (r : Receiver) : Prop := {
  ri_ok : receiver_ok r;
  ri_expected : match nc_expected_seq (rc_nack_scheduler r) with Some e => is_u16 e | None => True end;
  ri_ssrc : rr_state_ssrc (rc_rtcp_state r) = rc_ssrc r;
  ri_sdes : sdes_ok (receiver_generate_sdes (rc_rtcp_state r));
  ri_pin : rc_pinned_source_ip r = pin;
  ri_peer : ∀ ip a, pin = Some ip → rc_sender_rtcp_addr r = Some a → sa_ip a = ip
}.

(** A datagram of the receiver: a compound that starts with its own report, sent to the
    pinned host when there is one. *)
Definition receiver_datagram (pin : option IpAddr) (ssrc : Z) (d : datagram) : Prop :=
  dg_sock d = RtcpSock ∧ (∀ ip, pin = Some ip → sa_ip (dg_to d) = ip) ∧
  ∃ rr rest, rr_ssrc rr = ssrc ∧ RtcpCompound_parse (dg_bytes d) = Ok (PktReceiverReport rr :: rest).

(** ** Preservation *)

Lemma parsed_range_rtp from epoch q p :
  bytes_ok q.1.1 → parsed from epoch q = Some p → is_u16 (pr_seq p) ∧ is_u32 (pr_ssrc p).
Proof.
  destruct q as [[buf src] clock]. cbn [fst snd parsed]. intros Hb. case_bool_decide; [|done].
  apply (recv_into_ok MAX_UDP_RECV) in Hb. revert Hb. generalize (recv_into MAX_UDP_RECV buf). intros b Hb.
  unfold parse_rtp. destruct (RtpHeader_parse b) as [[h n]|e|] eqn:E; [|done..].
  destruct (slice_from b n); cbn [mbind exec_bind]; [|done..]. intros [= <-]. cbn.
  by destruct (RtpHeader_parse_ok b h n Hb E) as (_ & _ & _ & ? & _ & ?).
Qed.

Lemma rr_on_packet_ok rs seq ts arr dup :
  rx_ok rs → is_u16 seq →
  rx_ok (rr_on_packet_received rs seq ts arr dup) ∧
  rr_state_ssrc (rr_on_packet_received rs seq ts arr dup) = rr_state_ssrc rs ∧
  rr_cname (rr_on_packet_received rs seq ts arr dup) = rr_cname rs.
Proof.
  intros (H1 & H2 & H3 & H4) Hs. unfold rr_on_packet_received. destruct dup; [done|].
  destruct (track_seq rs seq) as [[[base cycles] mx] ext] eqn:E. cbn.
  split_and!; try done. unfold rx_ok; cbn. split_and!; try done.
  revert E. unfold track_seq. destruct (negb _); [intros [= _ _ _ <-]; ulia|].
  destruct (0 <? _); intros [= _ _ _ <-]; [|done].
  apply lor_u32; [auto with rist|ulia].
Qed.

(** The accounting of a batch keeps the parts of the invariant that concern reports and gaps. *)
Lemma account_batch_ok batch now : ∀ rs ns st,
  rx_ok rs → run_wf ns → Forall (λ po, is_u16 (pr_seq po.1)) batch →
  let '(rs', ns', _) := account_batch rs ns st batch now in
  rx_ok rs' ∧ rr_state_ssrc rs' = rr_state_ssrc rs ∧ rr_cname rs' = rr_cname rs ∧ run_wf ns'.
Proof.
  induction batch as [|[p o] batch IH]; intros rs ns st Hrs Hns Hb; cbn [account_batch]; [done|].
  apply Forall_cons in Hb as [Hp Hb]. cbn [fst] in *.
  destruct (rr_on_packet_ok rs (pr_seq p) (pr_rtp_ts p) (pr_arrival_us p) (io_duplicate o) Hrs Hp)
    as (Hrs1 & E1 & E2).
  pose proof (run_wf_step ns (OpReceived (pr_seq p) now) 0 Hns Hp ltac:(ulia)) as Hns1. cbn [run_op] in Hns1.
  destruct (NackSched.on_packet_received ns (pr_seq p) now) as [ns1 g]. destruct Hns1 as [Hns1 _]. cbn [fst].
  specialize (IH _ _ (stats_received st p o) Hrs1 Hns1 Hb).
  destruct (account_batch _ _ _ batch now) as [[rs' ns'] st'].
  destruct IH as (H1 & H2 & H3 & H4). split_and!; [done|congruence|congruence|done].
Qed.

Lemma insert_batch_length g batch now : length (insert_batch g batch now).2 = length batch.
Proof.
  revert g. induction batch as [|p batch IH]; intros g; cbn [insert_batch]; [done|].
  destruct (insert g _ _ now) as [g1 o]. specialize (IH g1).
  destruct (insert_batch g1 batch now) as [g2 os]. cbn in *. lia.
Qed.

Lemma process_batch_inv pin r batch now :
  receiver_inv pin r → Forall (λ p, is_u16 (pr_seq p)) batch →
  receiver_inv pin (process_batch r batch now) ∧ rc_ssrc (process_batch r batch now) = rc_ssrc r.
Proof.
  intros [[H1 H2 H3 H4] He Hs Hd Hp Ha] Hb. unfold process_batch.
  pose proof (insert_batch_length (rc_reorder r) batch now) as Hlen.
  destruct (insert_batch _ batch now) as [g os]. cbn [snd] in Hlen.
  pose proof (account_batch_ok (zip batch os) now (rc_rtcp_state r) (rc_nack_scheduler r) (rc_stats r)
    H3 (conj H2 He)) as Hacc.
  specialize (Hacc ltac:(eapply Forall_zip_with_fst; [exact Hb|by apply Forall_true])).
  destruct (account_batch _ _ _ _ _) as [[rs ns] st]. destruct Hacc as (G1 & G2 & G3 & [G4 G5]).
  split; [|done]. split; cbn; try done; [congruence|].
  unfold receiver_generate_sdes in *. by rewrite G2, G3.
Qed.

(** Latching a source that passed the admission test. *)
Lemma set_addrs_inv pin r rtp rtcp obs :
  receiver_inv pin r →
  (∀ ip a, pin = Some ip → rtcp = Some a → sa_ip a = ip) →
  match obs with Some s => is_u32 s | None => True end →
  receiver_inv pin (set_addrs r rtp rtcp obs).
Proof. intros [[] ? ? ? ? ?] Ha Ho. by split. Qed.

Lemma on_rtp_inv pin r buf from arrived_at clock queue now :
  receiver_inv pin r → bytes_ok buf → Forall (λ q, bytes_ok q.1.1) queue →
  ∃ r' rest, on_rtp r buf from arrived_at clock queue now = Ok (r', rest) ∧
    receiver_inv pin r' ∧ rc_ssrc r' = rc_ssrc r.
Proof.
  intros Hi Hb Hq. rewrite on_rtp_eq by done.
  destruct (source_allowed _ _ _ _ _) eqn:Ea.
  2:{ by eexists _, _. }
  assert (Hall : Forall (λ q, bytes_ok q.1.1) ((buf, from, clock) :: take 31 queue))
    by (constructor; [done|by apply Forall_take]).
  set (all := (buf, from, clock) :: take 31 queue) in *. cbn zeta.
  assert (Hr1 : receiver_inv pin (latch r from)).
  { unfold latch. case_bool_decide; [|done]. apply set_addrs_inv; [done| |apply Hi].
    intros ip a Hp [= <-]. cbn. rewrite (ri_pin _ _ Hi), Hp in Ea. by apply source_allowed_pinned in Ea. }
  set (first := parsed from (rc_epoch r) (buf, from, clock)).
  assert (Hr2 : receiver_inv pin (observe (latch r from) first) ∧
    rc_ssrc (observe (latch r from) first) = rc_ssrc r).
  { split; [|by unfold observe, latch; destruct first; case_bool_decide]. unfold observe.
    destruct first as [p|] eqn:Ef; [|done]. apply set_addrs_inv; [done|apply Hr1|].
    pose proof (ro_observed _ (ri_ok _ _ Hr1)) as Hob.
    destruct (rc_observed_media_ssrc (latch r from)); [done|].
    by apply parsed_range_rtp in Ef as [_ ?]. }
  destruct Hr2 as [Hr2 Es]. set (batch := omap (parsed from (rc_epoch r)) all).
  assert (Hbt : Forall (λ p, is_u16 (pr_seq p)) batch).
  { apply Forall_forall. intros p (q & Hin & Hp)%list_elem_of_omap.
    eapply parsed_range_rtp; [|exact Hp]. by eapply (Forall_forall _ _) in Hall. }
  change (omap (parsed from (rc_epoch r)) ((buf, from, clock) :: take 31 queue)) with batch.
  clearbody batch. destruct batch as [|p batch]; eexists _, _; (split; [done|]).
  { split; [exact Hr2|exact Es]. }
  destruct (process_batch_inv pin _ (p :: batch) now Hr2 Hbt) as [Hr3 Es3].
  split; [exact Hr3|]. etransitivity; [exact Es3|exact Es].
Qed.

Lemma set_control_inv pin r rs ns rtt st :
  receiver_inv pin r → rx_ok rs → rr_state_ssrc rs = rr_state_ssrc (rc_rtcp_state r) →
  rr_cname rs = rr_cname (rc_rtcp_state r) → run_wf ns →
  receiver_inv pin (set_control r rs ns rtt st).
Proof.
  intros [[H1 H2 H3 H4] He Hs Hd Hp Ha] Hrs E1 E2 [Hn1 Hn2]. split; cbn; try done; [congruence|].
  unfold receiver_generate_sdes in *. by rewrite E1, E2.
Qed.

Lemma run_wf_of pin r : receiver_inv pin r → run_wf (rc_nack_scheduler r).
Proof. intros [[] ? ? ? ? ?]. by split. Qed.

(** A compound of the receiver's own packets reaches its peer intact. *)
Lemma receiver_datagram_intro pin ssrc dest rr rest :
  (∀ ip, pin = Some ip → sa_ip dest = ip) → rr_ssrc rr = ssrc → rr_ok rr → Forall pkt_ok rest →
  Z.of_nat (length rest) <= 3 →
  receiver_datagram pin ssrc (mkDatagram RtcpSock dest (RtcpCompound_serialize (PktReceiverReport rr :: rest))).
Proof.
  intros Hd Hs Hr Hrest Hl. split_and!; [done..|]. exists rr, rest. split; [done|].
  apply compound_roundtrip; [by constructor|]. unfold MAX_RTCP_SUB_PACKETS. cbn [length]. lia.
Qed.

Lemma turnaround_u32 a b : is_u32 (turnaround_us a b).
Proof. unfold turnaround_us, as_micros, duration_since. ulia. Qed.

Lemma handle_control_inv pin r clock from now i p :
  receiver_inv pin r → parsed_range p → (∀ ip, pin = Some ip → sa_ip from = ip) →
  let '(r', ds) := handle_control clock from now i p r in
  receiver_inv pin r' ∧ rc_ssrc r' = rc_ssrc r ∧ Forall (receiver_datagram pin (rc_ssrc r)) ds.
Proof.
  intros Hi Hp Hf. pose proof Hi as [[H1 H2 H3 H4] He Hs Hd Hpin Ha]. pose proof (run_wf_of _ _ Hi) as Hns.
  destruct p as [sr|rr|sdes|nack|[req|resp|nack|st data]|pt data]; cbn [handle_control]; try done.
  - split_and!; [|done..]. apply set_control_inv; try done. destruct H3 as (R1 & R2 & R3 & R4), Hp as (? & _).
    unfold rx_ok; cbn. split_and!; try done. unfold compact_ntp.
    apply lor_u32; [auto with rist|]. rewrite land_65535. ulia.
  - split_and!; [done..|]. constructor; [|done]. apply receiver_datagram_intro; [done..| | |cbn; lia].
    + unfold rr_ok. cbn. split_and!; [done|constructor|lia].
    + constructor; [|done]. destruct Hp as (? & ? & ?). cbn. split_and!; try done. apply turnaround_u32.
  - destruct (srtt _); split_and!; try done; apply set_control_inv; try done.
    destruct Hns as [[] ?]. by split; [split|].
Qed.

Lemma handle_controls_inv pin clock from now ps : ∀ i r out,
  receiver_inv pin r → Forall parsed_range ps → (∀ ip, pin = Some ip → sa_ip from = ip) →
  Forall (receiver_datagram pin (rc_ssrc r)) out →
  let '(r', out') := handle_controls clock from now i ps r out in
  receiver_inv pin r' ∧ rc_ssrc r' = rc_ssrc r ∧ Forall (receiver_datagram pin (rc_ssrc r)) out'.
Proof.
  induction ps as [|p ps IH]; intros i r out Hi Hps Hf Ho; cbn [handle_controls]; [done|].
  apply Forall_cons in Hps as [Hp Hps].
  pose proof (handle_control_inv pin r clock from now i p Hi Hp Hf) as H.
  destruct (handle_control clock from now i p r) as [r1 ds]. destruct H as (H1 & H2 & H3).
  specialize (IH (S i) r1 (out ++ ds) H1 Hps Hf). rewrite H2 in IH. apply IH. by apply Forall_app.
Qed.

Lemma on_control_inv pin r buf from now clock :
  receiver_inv pin r → bytes_ok buf →
  ∃ r' out, on_control r buf from now clock = Ok (r', out) ∧ receiver_inv pin r' ∧
    rc_ssrc r' = rc_ssrc r ∧ Forall (receiver_datagram pin (rc_ssrc r)) out.
Proof.
  intros Hi Hb. unfold on_control.
  destruct (source_allowed _ _ _ _ _) eqn:Ea; cbn [negb]; [|by eexists _, _; split_and!].
  apply (recv_into_ok MAX_UDP_RECV) in Hb.
  destruct (RtcpCompound_parse _) as [ps|e|] eqn:E; [|by eexists _, _; split_and!|by apply compound_parse_no_panic in E].
  destruct ps as [|p ps]; [by eexists _, _; split_and!|].
  assert (Hf : ∀ ip, pin = Some ip → sa_ip from = ip).
  { intros ip Hp. rewrite (ri_pin _ _ Hi), Hp in Ea. by apply source_allowed_pinned in Ea. }
  set (r1 := mkReceiver _ _ _ _ _ _ _ _ _ _ _ _ _ _).
  assert (Hi1 : receiver_inv pin r1).
  { destruct Hi as [[] ? ? ? ? ?]. split; cbn; try done. intros ip a Hp [= <-]. by apply Hf. }
  pose proof (handle_controls_inv pin clock from now (p :: ps) 0 r1 [] Hi1
    (compound_loop_range _ _ _ _ Hb E) Hf ltac:(constructor)) as H.
  destruct (handle_controls _ _ _ _ _ _ _) as [r' out]. by eexists _, _.
Qed.

(** The SSRC the receiver names as the media source in its NACKs. *)
Definition media_ssrc (r : Receiver) : Z :=
  match rr_sender_ssrc (rc_rtcp_state r) with
  | Some s => s
  | None => default 0 (rc_observed_media_ssrc r)
  end.

Lemma media_ssrc_u32 r : receiver_ok r → is_u32 (media_ssrc r).
Proof.
  intros [_ _ (_ & _ & _ & Hs) Ho]. unfold media_ssrc.
  destruct (rr_sender_ssrc (rc_rtcp_state r)); [done|]. by destruct (rc_observed_media_ssrc r).
Qed.

Lemma generate_rr_reports rs now : (length (rr_reports (generate_rr rs now).2) <= 1)%nat.
Proof. unfold generate_rr. destruct (negb _); cbn; lia. Qed.

Lemma generate_rr_ids rs now :
  rr_ssrc (generate_rr rs now).2 = rr_state_ssrc rs ∧
  rr_state_ssrc (generate_rr rs now).1 = rr_state_ssrc rs ∧ rr_cname (generate_rr rs now).1 = rr_cname rs.
Proof. unfold generate_rr. by destruct (negb _). Qed.

(** What the pump puts on the wire. *)
Lemma pump_datagram r dest now sent ns pending :
  receiver_ok r → rc_sender_rtcp_addr r = Some dest →
  get_pending_nacks (rc_nack_scheduler r) now (srtt (rc_rtt_estimator r)) = (ns, pending) →
  pending ≠ [] →
  let rr := (generate_rr (rc_rtcp_state r) now).2 in
  let nack := build_bitmask (mkNackListBuilder (rc_ssrc r) (media_ssrc r)) pending in
  (on_pump r now sent).2 =
    [mkDatagram RtcpSock dest (RtcpCompound_serialize [PktReceiverReport rr; PktNack nack])] ∧
  rr_ok rr ∧ (length (rr_reports rr) <= 1)%nat ∧ nack_ok nack ∧ seqs_ok pending.
Proof.
  intros Hr Hd Hp Hne. cbn zeta. pose proof Hr as [H1 H2 H3 H4].
  destruct (pending_wf_spec _ now (srtt (rc_rtt_estimator r)) H2) as (_ & _ & Hsq & Hlen).
  rewrite Hp in Hsq, Hlen. cbn [snd] in Hsq, Hlen.
  split_and!; [|by apply generate_rr_ok|apply generate_rr_reports| |done].
  - unfold on_pump. rewrite Hd, Hp. destruct pending as [|s pending]; [done|].
    fold (media_ssrc r). by destruct (generate_rr (rc_rtcp_state r) now) as [rs rr].
  - apply build_bitmask_ok; [done|by apply media_ssrc_u32|done|lia].
Qed.

Lemma on_pump_inv pin r now sent :
  receiver_inv pin r →
  receiver_inv pin (on_pump r now sent).1 ∧ rc_ssrc (on_pump r now sent).1 = rc_ssrc r ∧
  Forall (receiver_datagram pin (rc_ssrc r)) (on_pump r now sent).2.
Proof.
  intros Hi. pose proof Hi as [Hok He Hs Hd Hpin Ha]. pose proof Hok as [H1 H2 H3 H4].
  destruct (rc_sender_rtcp_addr r) as [dest|] eqn:Ed; [|unfold on_pump; rewrite Ed; done].
  pose proof (pending_wf_spec _ now (srtt (rc_rtt_estimator r)) H2) as (P1 & P2 & _).
  destruct (get_pending_nacks (rc_nack_scheduler r) now (srtt (rc_rtt_estimator r))) as [ns pending] eqn:Ep.
  cbn [fst] in *.
  assert (Hns : run_wf ns) by (split; [done|cbn; by rewrite P2]).
  destruct pending as [|q pending].
  { unfold on_pump. rewrite Ed, Ep. cbn. split_and!; [|done..]. by apply set_control_inv. }
  destruct (pump_datagram r dest now sent ns (q :: pending) Hok Ed Ep ltac:(done)) as (E & Hrr & _ & Hnk & _).
  destruct (generate_rr_ids (rc_rtcp_state r) now) as (G1 & G2 & G3).
  destruct (generate_rr_ok (rc_rtcp_state r) now H3) as [_ G4].
  rewrite E. split_and!.
  - unfold on_pump. rewrite Ed, Ep. destruct (generate_rr _ now) as [rs rr]. cbn [fst] in *.
    by apply set_control_inv.
  - unfold on_pump. rewrite Ed, Ep. by destruct (generate_rr _ now).
  - constructor; [|done]. apply receiver_datagram_intro; [|congruence|done| |cbn; lia].
    + intros ip Hp. by apply (Ha ip).
    + by apply Forall_singleton.
Qed.

Lemma generate_request_u32 rtt now :
  let '(_, (msw, lsw)) := generate_request rtt now in is_u32 msw ∧ is_u32 lsw.
Proof. cbn. auto with rist. Qed.

Lemma on_report_inv pin r now :
  receiver_inv pin r →
  receiver_inv pin (on_report r now).1 ∧ rc_ssrc (on_report r now).1 = rc_ssrc r ∧
  Forall (receiver_datagram pin (rc_ssrc r)) (on_report r now).2.
Proof.
  intros Hi. pose proof Hi as [Hok He Hs Hd Hpin Ha]. pose proof Hok as [H1 H2 H3 H4].
  unfold on_report. destruct (rc_sender_rtcp_addr r) as [dest|] eqn:Ed; [|done].
  destruct (generate_rr_ids (rc_rtcp_state r) now) as (G1 & G2 & G3).
  destruct (generate_rr_ok (rc_rtcp_state r) now H3) as [Hrr G4].
  destruct (generate_rr _ now) as [rs rr]. cbn [fst snd] in *.
  assert (Hsd : pkt_ok (PktSdes (receiver_generate_sdes rs))).
  { unfold receiver_generate_sdes in *. rewrite G2, G3. exact Hd. }
  pose proof (generate_request_u32 (rc_rtt_estimator r) now) as Hq.
  destruct (generate_request _ now) as [rtt [msw lsw]].
  assert (Hdest : ∀ ip, pin = Some ip → sa_ip dest = ip) by (intros ip Hp; by apply (Ha ip)).
  destruct (_ && _); cbn [fst snd]; (split_and!; [by apply set_control_inv|done|]); (constructor; [|done]);
    (apply receiver_datagram_intro; [done|congruence|done| |cbn; lia]);
    by repeat (apply Forall_cons; split; [done|]).
Qed.

Lemma receiver_step_inv pin r ev :
  receiver_inv pin r → event_ok ev →
  ∃ r' out del, receiver_step r ev = Ok (r', out, del) ∧ receiver_inv pin r' ∧
    rc_ssrc r' = rc_ssrc r ∧ Forall (receiver_datagram pin (rc_ssrc r)) out.
Proof.
  intros Hi Hev.
  destruct ev as [buf from arrived_at clock queue now|buf from now clock|now sent|now|now room];
    cbn [receiver_step event_ok] in *.
  - destruct Hev as [Hb Hq].
    destruct (on_rtp_inv pin r buf from arrived_at clock queue now Hi Hb Hq) as (r' & rest & -> & H1 & H2).
    cbn [mbind exec_bind]. by eexists _, _, _.
  - destruct (on_control_inv pin r buf from now clock Hi Hev) as (r' & out & -> & H1 & H2 & H3).
    cbn [mbind exec_bind]. by eexists _, _, _.
  - destruct (on_pump_inv pin r now sent Hi) as (H1 & H2 & H3). destruct (on_pump r now sent) as [r' out].
    by eexists _, _, _.
  - destruct (on_report_inv pin r now Hi) as (H1 & H2 & H3). destruct (on_report r now) as [r' out].
    by eexists _, _, _.
  - destruct (drain_ready_returns (rc_reorder r) now []) as [[g items] ->].
    destruct (deliver room 0 items (rc_stats r)) as [del st]. eexists _, _, _.
    split_and!; [done| |done..]. by destruct Hi as [[] ? ? ? ? ?].
Qed.

Lemma receiver_run_inv pin evs : ∀ r,
  receiver_inv pin r → Forall event_ok evs →
  ∃ r' out del, receiver_run r evs = Ok (r', out, del) ∧ receiver_inv pin r' ∧
    rc_ssrc r' = rc_ssrc r ∧ Forall (receiver_datagram pin (rc_ssrc r)) out.
Proof.
  induction evs as [|ev evs IH]; intros r Hi Hev; cbn [receiver_run].
  { by eexists _, _, _. }
  apply Forall_cons in Hev as [Hev Hevs].
  destruct (receiver_step_inv pin r ev Hi Hev) as (r1 & out1 & del1 & -> & H1 & H2 & H3).
  cbn [mbind exec_bind].
  destruct (IH r1 H1 Hevs) as (r2 & out2 & del2 & -> & H4 & H5 & H6).
  cbn [mbind exec_bind]. rewrite H2 in H5, H6. eexists _, _, _. split_and!; [done..|by apply Forall_app].
Qed.

Lemma Receiver_new_inv rssrc cname interval retries hold remote clock epoch echo stats :
  is_u32 rssrc → is_u32 retries → bytes_ok cname → utf8_valid cname = true → blen cname <= 255 →
  receiver_inv (sa_ip <$> remote)
    (Receiver_new rssrc cname interval retries hold remote clock epoch echo stats).
Proof.
  intros Hs Hr Hc Hu Hl. destruct (even_land rssrc Hs) as [He _].
  split; cbn -[NackScheduler_new]; try done.
  split; cbn -[NackScheduler_new]; try done. by apply sched_ok_wf, NackScheduler_new_ok.
Qed.

(** (C19) The receiver on the wire, in every run: from a new receiver whose CNAME is valid UTF-8
    of at most 255 bytes, through any sequence, of any length, of media bursts, control
    datagrams of any bytes, timer ticks and drains by the delivery thread, no step panics or
    fails to return; every datagram sent is an RTCP compound that decodes and starts with a
    report under the receiver's own SSRC; and when the operator configured the sender's
    address, none goes to another host.  The state stays well formed. *)
Theorem receiver_run_safe (rssrc : Z) (cname : bytes) (interval retries hold : Z)
    (remote : option SocketAddr) (clock epoch : Z) (echo : bool) (stats : RistConnStats)
    (evs : list receiver_event) :
  is_u32 rssrc → is_u32 retries → bytes_ok cname → utf8_valid cname = true → blen cname <= 255 →
  Forall event_ok evs →
  let r := Receiver_new rssrc cname interval retries hold remote clock epoch echo stats in
  ∃ r' out delivered, receiver_run r evs = Ok (r', out, delivered) ∧ receiver_ok r' ∧
    ∀ d, d ∈ out →
      dg_sock d = RtcpSock ∧ (∀ a, remote = Some a → sa_ip (dg_to d) = sa_ip a) ∧
      ∃ rr rest, rr_ssrc rr = rc_ssrc r ∧ RtcpCompound_parse (dg_bytes d) = Ok (PktReceiverReport rr :: rest).
Proof.
  intros Hs Hr Hc Hu Hl Hev. cbn zeta.
  pose proof (Receiver_new_inv rssrc cname interval retries hold remote clock epoch echo stats Hs Hr Hc Hu Hl) as Hi.
  destruct (receiver_run_inv _ evs _ Hi Hev) as (r' & out & del & -> & H1 & H2 & H3).
  eexists _, _, _. split; [done|]. split; [apply H1|]. intros d Hd.
  eapply Forall_forall in H3 as (G1 & G2 & G3); [|exact Hd]. split_and!; [done| |done].
  intros a ->. by apply G2.
Qed.

(** A pinned receiver: a burst with a gap, a stranger's datagram, the NACK for the gap, a report,
    and the delivery of what was held for a second. *)
Definition demo_pinned : Receiver :=
  Receiver_new 123456 [98] 100000000 10 1000000000 (Some demo_source) 0 0 true RistConnStats_new.
Definition demo_events : list receiver_event :=
  [EvRtpIn (demo_media 5) demo_source 10 10 [(demo_media 7, demo_source, 12)] 13;
   EvRtpIn (demo_media 6) demo_attacker 20 20 [] 21;
   EvPump 30000000 true; EvReport 40000000; EvDrain 1000000013 (λ _, true)].

Lemma receiver_run_safe_witness :
  ∃ r' out delivered, receiver_run demo_pinned demo_events = Ok (r', out, delivered) ∧
    length out = 2%nat ∧ map rd_rtp_seq delivered = [5; 7] ∧
    ∀ d, d ∈ out → sa_ip (dg_to d) = sa_ip demo_source.
Proof.
  destruct (receiver_run_safe 123456 [98] 100000000 10 1000000000 (Some demo_source) 0 0 true RistConnStats_new
    demo_events) as (r' & out & del & E & _ & H).
  - ulia.
  - ulia.
  - repeat constructor; ulia.
  - reflexivity.
  - vm_compute. discriminate.
  - repeat constructor; cbn [event_ok fst snd]; try apply demo_media_ok; try ulia.
  - exists r', out, del. split; [exact E|].
    assert (Hc : match receiver_run demo_pinned demo_events with
                 | Ok (_, o, l) => (length o, map rd_rtp_seq l) | _ => (0%nat, []) end = (2%nat, [5; 7]))
      by (vm_compute; reflexivity).
    change (receiver_run _ demo_events) with (receiver_run demo_pinned demo_events) in E.
    rewrite E in Hc. injection Hc as H1 H2. split; [exact H1|]. split; [exact H2|].
    intros d Hd. destruct (H d Hd) as (_ & Hp & _). exact (Hp demo_source eq_refl).
Defined.
