(* ===== verification/Socket.v ===== *)
(** * Sockets (rist-transport/src/socket.rs, listener.rs, stats.rs)

    The public interface: a socket is created as a sender or as a receiver, spawns its task
    and talks to it through a bounded channel.  The channel (tokio's [mpsc]) is used through
    the class [Mpsc], whose laws state its documented behaviour; a waiting future is
    [Pending].  The counters and the cancellation token are behind an [Arc] that the socket
    and its task share: they live in a store ([shared]), and both sides hold handles. *)

From S2P Require Import Prelude Float64 Rtp RtcpCodec Retransmit Rtt RtcpState Guard Channel Config Sender SenderProps Receiver.

(** ** The channel between the application and a task *)

Inductive poll (A : Type) : Type := Ready (a : A) | Pending.
Arguments Ready {_}. Arguments Pending {_}.

(** [mp_send] yields the channel, or the value back when the receiving half is closed;
    [mp_recv] yields [None] when the channel is empty and every sending half is gone. *)
Class Mpsc (Ch A : Type) := {
  mp_channel : nat → Ch;
  mp_send : Ch → A → poll (Ch + A);
  mp_recv : Ch → poll (Ch * option A);
  mp_queue : Ch → list A;
  mp_capacity : Ch → nat;
  mp_tx_open : Ch → bool;
  mp_rx_open : Ch → bool
}.

(** The halves and the capacity of a channel. *)
Definition mp_ends {Ch A} `{!Mpsc Ch A} (c : Ch) : nat * bool * bool :=
  (mp_capacity c, mp_tx_open c, mp_rx_open c).

Class MpscLaws (Ch A : Type) `{!Mpsc Ch A} := {
  mp_channel_new : ∀ n, mp_queue (mp_channel n) = [] ∧ mp_ends (mp_channel n) = (n, true, true);
  mp_send_closed : ∀ c a, mp_rx_open c = false → mp_send c a = Ready (inr a);
  mp_send_room : ∀ c a, mp_rx_open c = true → (length (mp_queue c) < mp_capacity c)%nat →
    ∃ c', mp_send c a = Ready (inl c') ∧ mp_queue c' = mp_queue c ++ [a] ∧ mp_ends c' = mp_ends c;
  mp_send_full : ∀ c a, mp_rx_open c = true → (mp_capacity c <= length (mp_queue c))%nat →
    mp_send c a = Pending;
  mp_recv_some : ∀ c a q, mp_queue c = a :: q →
    ∃ c', mp_recv c = Ready (c', Some a) ∧ mp_queue c' = q ∧ mp_ends c' = mp_ends c;
  mp_recv_wait : ∀ c, mp_queue c = [] → mp_tx_open c = true → mp_recv c = Pending;
  mp_recv_end : ∀ c, mp_queue c = [] → mp_tx_open c = false → mp_recv c = Ready (c, None)
}.

(** ** Statistics *)

Inductive RistRole : Type := RoleSender | RoleReceiver.

Record RistConnStatsSnapshot := mkRistConnStatsSnapshot {
  sp_packets_sent : Z;
  sp_bytes_sent : Z;
  sp_packets_retransmitted : Z;
  sp_nacks_received : Z;
  sp_packets_received : Z;
  sp_bytes_received : Z;
  sp_packets_lost : Z;
  sp_packets_recovered : Z;
  sp_nacks_sent : Z;
  sp_duplicates : Z;
  sp_reorder_drops : Z;
  sp_retransmits_received : Z;
  sp_rtt_us : Z;
  sp_jitter_us : Z
}.

(** [RistConnStats::snapshot]: fourteen relaxed loads, one after the other, while the tasks go
    on counting; [s i] are the counters when the [i]-th load happens. *)
Definition snapshot (s : nat → RistConnStats) : RistConnStatsSnapshot :=
  mkRistConnStatsSnapshot (st_packets_sent (s 0%nat)) (st_bytes_sent (s 1%nat)) (st_packets_retransmitted (s 2%nat))
    (st_nacks_received (s 3%nat)) (st_packets_received (s 4%nat)) (st_bytes_received (s 5%nat)) (st_packets_lost (s 6%nat))
    (st_packets_recovered (s 7%nat)) (st_nacks_sent (s 8%nat)) (st_duplicates (s 9%nat)) (st_reorder_drops (s 10%nat))
    (st_retransmits_received (s 11%nat)) (st_rtt_us (s 12%nat)) (st_jitter_us (s 13%nat)).

Definition rtt_ms (s : RistConnStatsSnapshot) : f64 :=
  f64_div (f64_of_uint (sp_rtt_us s)) (f64_of_uint 1000).

(** ** What a socket and its task share *)

(** The counters and the cancellation tokens allocated so far; a token is represented by whether
    it was cancelled, which is all the code asks of it. *)
Record shared := mkShared { sh_stats : list RistConnStats; sh_tokens : list bool }.

(** [RistConnStats::new()], which allocates, and [CancellationToken::new()]; cloning a handle
    copies it. *)
Definition stats_alloc (w : shared) : nat * shared :=
  (length (sh_stats w), mkShared (sh_stats w ++ [RistConnStats_new]) (sh_tokens w)).
Definition token_alloc (w : shared) : nat * shared :=
  (length (sh_tokens w), mkShared (sh_stats w) (sh_tokens w ++ [false])).
Definition token_cancel (w : shared) (token : nat) : shared :=
  mkShared (sh_stats w) (<[token := true]> (sh_tokens w)).
(** The counters at a handle, and their update. *)
Definition stats_load (w : shared) (stats : nat) : RistConnStats := default RistConnStats_new (sh_stats w !! stats).
Definition stats_store (w : shared) (stats : nat) (v : RistConnStats) : shared :=
  mkShared (<[stats := v]> (sh_stats w)) (sh_tokens w).

(** A spawned task with its handles.  The task's model carries the content of its counters
    while it makes a step; [stats_store] publishes it. *)
Record spawned (T : Type) := mkSpawned { sw_task : T; sw_cancel : nat; sw_stats : nat }.
Arguments mkSpawned {_}. Arguments sw_task {_}. Arguments sw_cancel {_}. Arguments sw_stats {_}.

(** ** The socket *)

Section socket.
  Context {Sock Os : Type} (os : udp_os Sock Os).
  Context {ChS ChR : Type} `{!Mpsc ChS bytes} `{!Mpsc ChR RistDelivered}.

Record RistSocket := mkRistSocket {
  sk_sender : option ChS;
  sk_receiver : option ChR;
  sk_cancel : nat;
  sk_stats : nat;
  sk_role : RistRole
}.

(** [spawn_sender]: the channel and the task in its initial state.  The two random draws and the
    clocks are those the task reads when it starts; [local_name] is its local address as
    text. *)
Definition spawn_sender (config : RistSocketConfig) (remote_rtp_addr : SocketAddr) (cancel stats : nat) (w : shared)
    (random_ssrc random_seq now now_system : Z) (local_name : bytes) : ChS * spawned (Sender RetransmitBuffer) :=
  let retransmit_buf := RetransmitBuffer_new (cf_retransmit_buffer_capacity config) in
  (mp_channel 256,
   mkSpawned
     (Sender_new random_ssrc random_seq (default local_name (cf_cname config)) (cf_rtcp_interval config)
        now now_system retransmit_buf (RetransmitBuffer_capacity retransmit_buf) remote_rtp_addr
        (cf_rtt_echo_enabled config) (stats_load w stats)) cancel stats).

Definition spawn_receiver (config : RistSocketConfig) (cancel stats : nat) (w : shared)
    (random_ssrc clock epoch : Z) (local_name : bytes) : ChR * spawned Receiver :=
  (mp_channel 1024,
   mkSpawned
     (Receiver_new random_ssrc (default local_name (cf_cname config)) (cf_rtcp_interval config)
        (cf_max_nack_retries config) (cf_buffer_size config) (cf_remote_addr config) clock epoch
        (cf_rtt_echo_enabled config) (stats_load w stats)) cancel stats).

(** [RistSocket::sender]; [config.remote_addr] is not read.  The store, and the state [o] of the
    operating system, before and after are passed along. *)
Definition RistSocket_sender (config : RistSocketConfig) (remote_addr : SocketAddr)
    (random_ssrc random_seq now now_system : Z) (local_name : bytes) (w : shared) (o : Os)
    : ((RistSocket * spawned (Sender RetransmitBuffer) * shared) + ChannelError) * Os :=
  match RistChannel_bind os (cf_local_addr config) o with
  | (inr e, o) => (inr e, o)
  | (inl channel, o) =>
      let '(cancel, w) := token_alloc w in
      let '(stats, w) := stats_alloc w in
      let '(handle, task) :=
        spawn_sender config remote_addr cancel stats w random_ssrc random_seq now now_system local_name in
      (inl (mkRistSocket (Some handle) None cancel stats RoleSender, task, w), o)
  end.

Definition RistSocket_receiver (config : RistSocketConfig) (random_ssrc clock epoch : Z) (local_name : bytes)
    (w : shared) (o : Os) : ((RistSocket * spawned Receiver * shared) + ChannelError) * Os :=
  match RistChannel_bind os (cf_local_addr config) o with
  | (inr e, o) => (inr e, o)
  | (inl channel, o) =>
      let '(cancel, w) := token_alloc w in
      let '(stats, w) := stats_alloc w in
      let '(handle, task) := spawn_receiver config cancel stats w random_ssrc clock epoch local_name in
      (inl (mkRistSocket None (Some handle) cancel stats RoleReceiver, task, w), o)
  end.

Definition with_sender (self : RistSocket) (c : ChS) : RistSocket :=
  mkRistSocket (Some c) (sk_receiver self) (sk_cancel self) (sk_stats self) (sk_role self).
Definition with_receiver (self : RistSocket) (c : ChR) : RistSocket :=
  mkRistSocket (sk_sender self) (Some c) (sk_cancel self) (sk_stats self) (sk_role self).

(** The error carries the data back. *)
Definition RistSocket_send (self : RistSocket) (data : bytes) : poll (RistSocket + bytes) :=
  match sk_sender self with
  | Some sender =>
      match mp_send sender data with
      | Ready (inl c) => Ready (inl (with_sender self c))
      | Ready (inr d) => Ready (inr d)
      | Pending => Pending
      end
  | None => Ready (inr data)
  end.

Definition recv_delivered (self : RistSocket) : poll (RistSocket * option RistDelivered) :=
  match sk_receiver self with
  | Some receiver =>
      match mp_recv receiver with
      | Ready (c, r) => Ready (with_receiver self c, r)
      | Pending => Pending
      end
  | None => Ready (self, None)
  end.

Definition RistSocket_recv (self : RistSocket) : poll (RistSocket * option bytes) :=
  match recv_delivered self with
  | Ready (self', r) => Ready (self', rd_data <$> r)
  | Pending => Pending
  end.

(** The handle, not the counters. *)
Definition RistSocket_stats (self : RistSocket) : nat := sk_stats self.
Definition RistSocket_role (self : RistSocket) : RistRole := sk_role self.
(** [close(self)] consumes the socket. *)
Definition RistSocket_close (self : RistSocket) (w : shared) : shared := token_cancel w (sk_cancel self).

(** ** The listener *)

Record RistListener := mkRistListener { ls_config : RistSocketConfig }.
Definition RistListener_new (config : RistSocketConfig) : RistListener := mkRistListener config.
Definition RistListener_accept (self : RistListener) (random_ssrc clock epoch : Z) (local_name : bytes)
    (w : shared) (o : Os) : ((RistSocket * spawned Receiver * shared) + ChannelError) * Os :=
  RistSocket_receiver (ls_config self) random_ssrc clock epoch local_name w o.
End socket.
Arguments RistSocket : clear implicits.
