(* ===== verification/SocketProps.v ===== *)
(** * Properties of sockets

    Roles and errors of the public interface, the order and the numbers under which what the
    application sends is handed to the RTP socket, and what a snapshot of the counters can
    show. *)

From stdpp Require Import relations.
From S2P Require Import Prelude Float64 Rtp RtcpCodec RtcpReports Retransmit Rtt RtcpState Guard Channel Config Sender SenderProps Receiver Socket.

(** ** A channel that satisfies the interface *)

Record list_chan (A : Type) := mkListChan { lc_queue : list A; lc_cap : nat; lc_tx : bool; lc_rx : bool }.
Arguments mkListChan {_}. Arguments lc_queue {_}. Arguments lc_cap {_}. Arguments lc_tx {_}. Arguments lc_rx {_}.

#[export] Instance list_chan_mpsc A : Mpsc (list_chan A) A := {
  mp_channel n := mkListChan [] n true true;
  mp_send c a :=
    if lc_rx c then
      if bool_decide (length (lc_queue c) < lc_cap c)%nat
      then Ready (inl (mkListChan (lc_queue c ++ [a]) (lc_cap c) (lc_tx c) (lc_rx c)))
      else Pending
    else Ready (inr a);
  mp_recv c :=
    match lc_queue c with
    | a :: q => Ready (mkListChan q (lc_cap c) (lc_tx c) (lc_rx c), Some a)
    | [] => if lc_tx c then Pending else Ready (c, None)
    end;
  mp_queue := lc_queue;
  mp_capacity := lc_cap;
  mp_tx_open := lc_tx;
  mp_rx_open := lc_rx
}.

#[export] Instance list_chan_laws A : MpscLaws (list_chan A) A.
Proof.
  split; cbn; intros; try done.
  - by rewrite H.
  - rewrite H, bool_decide_eq_true_2 by done. eexists. split_and!; [done..|]. unfold mp_ends. cbn. by rewrite H.
  - by rewrite H, bool_decide_eq_false_2 by lia.
  - rewrite H. eexists. by split_and!.
  - by rewrite H, H0.
  - by rewrite H, H0.
Qed.

Section props.
  Context {Sock Os : Type} (os : udp_os Sock Os).
  Context {ChS ChR : Type} `{!Mpsc ChS bytes} `{!Mpsc ChR RistDelivered}.
  Context `{!MpscLaws ChS bytes} `{!MpscLaws ChR RistDelivered}.
  Implicit Types (sk : RistSocket ChS ChR).

(** ** Roles *)

(** A socket has the handle of its role and not the other. *)
Definition role_ok sk : Prop :=
  match sk_role sk with
  | RoleSender => is_Some (sk_sender sk) ∧ sk_receiver sk = None
  | RoleReceiver => sk_sender sk = None ∧ is_Some (sk_receiver sk)
  end.

(** What a socket operation leaves alone. *)
Definition same_socket sk sk' : Prop :=
  role_ok sk' ∧ sk_role sk' = sk_role sk ∧ sk_cancel sk' = sk_cancel sk ∧ sk_stats sk' = sk_stats sk.

(** A new socket and its task have the same fresh token and counters. *)
Definition connected {T} (w w' : shared) sk (task : spawned T) : Prop :=
  sw_cancel task = sk_cancel sk ∧ sw_stats task = RistSocket_stats sk ∧
  sk_cancel sk = length (sh_tokens w) ∧ RistSocket_stats sk = length (sh_stats w) ∧
  sh_tokens w' = sh_tokens w ++ [false] ∧ sh_stats w' = sh_stats w ++ [RistConnStats_new].

(** Roles: creating a socket fails with exactly the error of binding its local address, and
    otherwise gives a socket that has the channel of its own role only, and shares fresh
    counters and a fresh token with its task.  On such a socket [send] in the receiver role
    returns the data at once in its error and changes nothing, [recv] in the sender role
    yields nothing at once, and no operation changes the role or makes the other channel
    appear; [close] cancels its own token and no other.  A listener's [accept] is the
    receiver constructor. *)
Theorem socket_roles (config : RistSocketConfig) (remote : SocketAddr) (r1 r2 t1 t2 : Z) (name : bytes) (w : shared) (o : Os) :
  (∀ e o', RistChannel_bind os (cf_local_addr config) o = (inr e, o') →
     RistSocket_sender (ChS:=ChS) (ChR:=ChR) os config remote r1 r2 t1 t2 name w o = (inr e, o') ∧
     RistSocket_receiver (ChS:=ChS) (ChR:=ChR) os config r1 t1 t2 name w o = (inr e, o')) ∧
  (∀ sk task w' o', RistSocket_sender os config remote r1 r2 t1 t2 name w o = (inl (sk, task, w'), o') →
     role_ok sk ∧ sk_role sk = RoleSender ∧ connected w w' sk task ∧ sn_remote_rtp_addr (sw_task task) = remote) ∧
  (∀ sk task w' o', RistListener_accept os (RistListener_new config) r1 t1 t2 name w o = (inl (sk, task, w'), o') →
     role_ok sk ∧ sk_role sk = RoleReceiver ∧ connected w w' sk task ∧
     rc_pinned_source_ip (sw_task task) = sa_ip <$> cf_remote_addr config) ∧
  (∀ sk data, role_ok sk →
     (sk_role sk = RoleReceiver → RistSocket_send sk data = Ready (inr data)) ∧
     (sk_role sk = RoleSender → RistSocket_recv sk = Ready (sk, None)) ∧
     (∀ sk', RistSocket_send sk data = Ready (inl sk') → same_socket sk sk') ∧
     (∀ sk' r, recv_delivered sk = Ready (sk', r) → same_socket sk sk')) ∧
  (∀ sk i, sh_stats (RistSocket_close sk w) = sh_stats w ∧
     sh_tokens (RistSocket_close sk w) !! i =
       if decide (i = sk_cancel sk) then (λ _, true) <$> sh_tokens w !! i else sh_tokens w !! i).
Proof.
  unfold RistListener_accept, RistListener_new, RistSocket_sender, RistSocket_receiver. cbn [ls_config].
  split_and!.
  - by intros e o' ->.
  - intros sk task w' o'. destruct (RistChannel_bind os _ _) as [[ch|] o1]; [|done]. cbn. intros [= <- <- <- _]. by split_and!; [split|..].
  - intros sk task w' o'. destruct (RistChannel_bind os _ _) as [[ch|] o1]; [|done]. cbn. intros [= <- <- <- _]. by split_and!; [split|..].
  - intros sk data Hr. unfold role_ok, same_socket in *.
    unfold RistSocket_send, RistSocket_recv, recv_delivered. destruct (sk_role sk) eqn:Er.
    + destruct Hr as [[c Hc] Hn]. rewrite Hc, Hn. split_and!; try done.
      * intros sk'. destruct (mp_send c data) as [[c'|d]|]; [|done..]. intros [= <-].
        unfold role_ok. cbn. rewrite Er. by split_and!.
      * intros sk' r [= <- _]. unfold role_ok. rewrite Er. by split_and!.
    + destruct Hr as [Hn [c Hc]]. rewrite Hc, Hn. split_and!; try done.
      intros sk' r. destruct (mp_recv c) as [[c' x]|]; [|done]. intros [= <- _].
      unfold role_ok. cbn. rewrite Er. by split_and!.
  - intros sk i. split; [done|]. cbn. destruct (decide (i = sk_cancel sk)) as [->|Hne].
    + destruct (sh_tokens w !! sk_cancel sk) as [b|] eqn:E; cbn.
      * apply list_lookup_insert_eq. by eapply lookup_lt_Some.
      * by rewrite list_insert_ge by (by apply lookup_ge_None).
    + by apply list_lookup_insert_ne.
Qed.

(** ** A sending session *)

(** The socket of the application, its task and the store they share; the histories are what
    [send] accepted, and the datagrams the task handed to its UDP sockets (whatever became of
    them). *)
Record session := mkSession {
  ss_socket : RistSocket ChS ChR;
  ss_task : spawned (Sender RetransmitBuffer);
  ss_shared : shared;
  ss_accepted : list bytes;
  ss_handed : list datagram
}.

(** The task after a step, and the store with its counters. *)
Definition stepped (task : spawned (Sender RetransmitBuffer)) (t : Sender RetransmitBuffer) :=
  mkSpawned t (sw_cancel task) (sw_stats task).
Definition published (w : shared) (task : spawned (Sender RetransmitBuffer)) (t : Sender RetransmitBuffer) : shared :=
  stats_store w (sw_stats task) (sn_stats t).

(** The application sends; the task takes the next payload; the task handles another event. *)
Inductive session_step : session → session → Prop :=
  | ss_send sk task w acc hd data sk' :
      RistSocket_send sk data = Ready (inl sk') →
      session_step (mkSession sk task w acc hd) (mkSession sk' task w (acc ++ [data]) hd)
  | ss_media sk task w acc hd c c' payload now sent t' out :
      sk_sender sk = Some c → mp_recv c = Ready (c', Some payload) →
      sender_step (sw_task task) (EvMedia payload now sent) = Ok (t', out) →
      session_step (mkSession sk task w acc hd)
        (mkSession (with_sender sk c') (stepped task t') (published w task t') acc (hd ++ out))
  | ss_other sk task w acc hd ev t' out :
      media_event ev = false → sender_step (sw_task task) ev = Ok (t', out) →
      session_step (mkSession sk task w acc hd)
        (mkSession sk (stepped task t') (published w task t') acc (hd ++ out)).

(** What a reader of the wire sees of fresh media: the sequence number and the payload of a
    datagram of the RTP socket that parses and is not flagged as a retransmission. *)
Definition fresh_media (d : datagram) : option (Z * bytes) :=
  match dg_sock d, RtpPacket_parse (dg_bytes d) with
  | RtpSock, Ok p => if is_retransmit (rp_header p) then None else Some (rh_sequence_number (rp_header p), rp_payload p)
  | _, _ => None
  end.
Definition transmitted (s : session) : list (Z * bytes) := omap fresh_media (ss_handed s).

Definition numbered (first : Z) (l : list (Z * bytes)) : Prop :=
  ∀ i x, l !! i = Some x → x.1 = wrapping_add16 first (Z.of_nat i).

Record session_ok (remote : SocketAddr) (first : Z) (s : session) : Prop := {
  se_chan : ∃ c, sk_sender (ss_socket s) = Some c ∧ mp_ends c = (256%nat, true, true) ∧
    (length (mp_queue c) <= 256)%nat ∧ ss_accepted s = map snd (transmitted s) ++ mp_queue c;
  se_seq : sn_seq (sw_task (ss_task s)) = wrapping_add16 first (Z.of_nat (length (transmitted s)));
  se_numbered : numbered first (transmitted s);
  se_inv : ∃ log, sender_inv (sw_task (ss_task s)) log;
  se_dest : sn_remote_rtp_addr (sw_task (ss_task s)) = remote ∧
    ∀ d, d ∈ ss_handed s → dg_sock d = RtpSock → dg_to d = remote;
  se_stats : sw_stats (ss_task s) = RistSocket_stats (ss_socket s) ∧
    sh_stats (ss_shared s) !! RistSocket_stats (ss_socket s) = Some (sn_stats (sw_task (ss_task s)))
}.

(** The counters stay visible at the socket's handle. *)
Lemma published_stats w (task : spawned (Sender RetransmitBuffer)) h v t' :
  sw_stats task = h → sh_stats w !! h = Some v → sh_stats (published w task t') !! h = Some (sn_stats t').
Proof. intros <- Hl. cbn. apply list_lookup_insert_eq. by eapply lookup_lt_Some. Qed.

(** The fresh media of one step. *)
Lemma step_media (t t' : Sender RetransmitBuffer) log ev out :
  sender_inv t log → sender_step t ev = Ok (t', out) →
  omap fresh_media out = match ev with EvMedia payload _ _ => [(sn_seq t, payload)] | _ => [] end ∧
  sn_seq t' = (match ev with EvMedia _ _ _ => wrapping_add16 (sn_seq t) 1 | _ => sn_seq t end) ∧
  sn_remote_rtp_addr t' = sn_remote_rtp_addr t ∧
  ∀ d, d ∈ out → dg_sock d = RtpSock → dg_to d = sn_remote_rtp_addr t.
Proof.
  intros Hi Hst. destruct (sender_step_wire _ _ _ _ _ Hi Hst) as (_ & Hr & Hone & Hw).
  split; [|split; [|split; [done|intros d Hd Hs; by apply Hw]]].
  - destruct (media_event ev) eqn:Em.
    + destruct ev as [payload now sent| |]; try done. destruct (Hone eq_refl) as (d & -> & Hs).
      destruct (Hw d ltac:(by apply list_elem_of_singleton) Hs) as (_ & seq & ts & pl & Hl & Hp & Hf).
      cbn [media_event logged] in Hl. apply list_elem_of_singleton in Hl. injection Hl as -> -> ->.
      cbn [omap list_omap]. unfold fresh_media. rewrite Hs, Hp. cbn [rp_header]. by rewrite Hf.
    + assert (Hnone : ∀ d, d ∈ out → fresh_media d = None).
      { intros d Hd. unfold fresh_media. destruct (dg_sock d) eqn:Es; [|done].
        destruct (Hw d Hd Es) as (_ & seq & ts & pl & _ & Hp & Hf). rewrite Hp. cbn [rp_header]. by rewrite Hf, Em. }
      transitivity (@nil (Z * bytes)); [|by destruct ev]. clear -Hnone. induction out as [|d out IH]; [done|].
      cbn [omap list_omap]. rewrite Hnone by (apply elem_of_cons; by left). apply IH.
      intros x Hx. apply Hnone, elem_of_cons. by right.
  - destruct ev as [payload now sent|buf from recv_at clock net|now clock]; cbn [sender_step] in Hst.
    + unfold on_media in Hst. by injection Hst as <- _.
    + apply on_rtcp_spec with (log := log) in Hst as (Hcore & _); [|done]. by injection Hcore as _ -> _.
    + unfold on_rtcp_tick in Hst. destruct (generate_sr _ _ _) as [rs sr].
      destruct (_ && _); [destruct (generate_request (sn_rtt_estimator t) now) as [rtt [msw lsw]]|];
        by injection Hst as <- _.
Qed.

(** Handing over the datagrams of a step. *)
Lemma handed_dest remote hd out :
  (∀ d, d ∈ hd → dg_sock d = RtpSock → dg_to d = remote) → (∀ d, d ∈ out → dg_sock d = RtpSock → dg_to d = remote) →
  ∀ d, d ∈ hd ++ out → dg_sock d = RtpSock → dg_to d = remote.
Proof. intros H1 H2 d [Hd|Hd]%elem_of_app; auto. Qed.

Lemma session_send_ok remote first sk task w acc hd data sk' :
  session_ok remote first (mkSession sk task w acc hd) → RistSocket_send sk data = Ready (inl sk') →
  session_ok remote first (mkSession sk' task w (acc ++ [data]) hd).
Proof using MpscLaws0.
  intros [(c & Hc & He & Hl & Hacc) Hs Hn Hi Hd Hst] E. cbn in *. unfold RistSocket_send in E. rewrite Hc in E.
  split; cbn; try done; [|by destruct (mp_send c data) as [[c1|]|]; [injection E as <-|..]].
  assert (Hrx : mp_rx_open c = true) by (by injection He). assert (Hcap : mp_capacity c = 256%nat) by (by injection He).
  destruct (decide (length (mp_queue c) < 256)%nat) as [Hlt|Hge].
  - destruct (mp_send_room c data Hrx) as (c1 & E1 & Eq & Ee); [by rewrite Hcap|]. rewrite E1 in E. injection E as <-.
    exists c1. rewrite Ee, Eq, Hacc, length_app, app_assoc. cbn. split_and!; [done..|lia|done].
  - by rewrite mp_send_full in E by (done || lia).
Qed.

Lemma session_media_ok remote first sk task w acc hd c c' payload now sent t' out :
  is_u16 first → session_ok remote first (mkSession sk task w acc hd) →
  sk_sender sk = Some c → mp_recv c = Ready (c', Some payload) →
  sender_step (sw_task task) (EvMedia payload now sent) = Ok (t', out) →
  session_ok remote first (mkSession (with_sender sk c') (stepped task t') (published w task t') acc (hd ++ out)).
Proof using MpscLaws0.
  intros Hf [(c0 & Hc & He & Hl & Hacc) Hs Hn [log Hi] [Hd Hto] [Hh Hst]] E1 E2 E3.
  cbn [ss_socket ss_task ss_shared ss_accepted ss_handed] in *. rewrite E1 in Hc. injection Hc as <-.
  pose proof (sender_step_inv _ _ _ _ _ Hi E3) as Hi'. pose proof (published_stats w task _ _ t' Hh Hst) as Hp.
  destruct (step_media _ _ _ _ _ Hi E3) as (Em & Et & Er & Ho).
  unfold transmitted in *. cbn [ss_handed] in *. set (tr := omap fresh_media hd) in *.
  assert (Etr : omap fresh_media (hd ++ out) = tr ++ [(sn_seq (sw_task task), payload)]) by (by rewrite omap_app, Em).
  destruct (mp_queue c) as [|a q] eqn:Eq.
  { assert (Htx : mp_tx_open c = true) by (by injection He). by rewrite mp_recv_wait in E2. }
  destruct (mp_recv_some c a q Eq) as (c1 & E4 & Eq1 & Ee). rewrite E4 in E2. injection E2 as -> ->.
  split; unfold transmitted; cbn [ss_socket ss_task ss_shared ss_accepted ss_handed stepped sw_task sw_stats];
    rewrite ?Etr; [| | |by eexists| |by split].
  - exists c'. rewrite Ee, Eq1, Hacc, map_app, <- app_assoc. cbn in *. split_and!; [done..|lia|done].
  - rewrite Et, Hs, length_app. cbn [length]. clear -Hf. ulia.
  - intros i x Hx. apply lookup_app_Some in Hx as [Hx|[Hge Hx]]; [by apply Hn|].
    destruct (i - length tr)%nat eqn:Ei; [|done]. injection Hx as <-. cbn [fst]. rewrite Hs. do 2 f_equal. lia.
  - split; [congruence|]. apply handed_dest; [done|]. by rewrite <- Hd.
Qed.

Lemma session_other_ok remote first sk task w acc hd ev t' out :
  media_event ev = false → session_ok remote first (mkSession sk task w acc hd) →
  sender_step (sw_task task) ev = Ok (t', out) →
  session_ok remote first (mkSession sk (stepped task t') (published w task t') acc (hd ++ out)).
Proof.
  intros Hne [Hc Hs Hn [log Hi] [Hd Hto] [Hh Hst]] E. pose proof (sender_step_inv _ _ _ _ _ Hi E) as Hi'.
  destruct (step_media _ _ _ _ _ Hi E) as (Em & Et & Er & Ho).
  cbn [ss_socket ss_task ss_shared ss_accepted ss_handed] in *. unfold transmitted in *. cbn [ss_handed] in *.
  assert (Etr : omap fresh_media (hd ++ out) = omap fresh_media hd)
    by (rewrite omap_app, Em; destruct ev; try done; by rewrite app_nil_r).
  split; unfold transmitted; cbn [ss_socket ss_task ss_shared ss_accepted ss_handed stepped sw_task sw_stats];
    rewrite ?Etr; [done| |done|by eexists| |split; [done|by eapply published_stats]].
  - rewrite <- Hs, Et. by destruct ev.
  - split; [congruence|]. apply handed_dest; [done|]. by rewrite <- Hd.
Qed.

Lemma session_step_ok remote first s s' :
  is_u16 first → session_ok remote first s → session_step s s' → session_ok remote first s'.
Proof using MpscLaws0.
  intros Hf Hok Hs. destruct Hs; [by eapply session_send_ok|by eapply session_media_ok|by eapply session_other_ok].
Qed.

Lemma Sender_new_inv r1 r2 name interval t1 t2 cap remote echo stats :
  is_u32 r1 → is_u16 r2 → 0 <= cap →
  sender_inv (Sender_new r1 r2 name interval t1 t2 (RetransmitBuffer_new cap)
    (rt_capacity (RetransmitBuffer_new cap)) remote echo stats) [].
Proof.
  intros. apply (sender_run_inv remote _ [] []). apply run_init; [done..|by apply rt_new_ok|]. intros. apply rt_get_new.
Qed.

(** (C22) What the application sends goes out in order and correctly numbered: from the creation of
    a sender socket, through any interleaving of [send] calls, of the task taking payloads from
    the channel, of control datagrams of any content and of timer ticks, take the datagrams
    the task has handed to its RTP socket and parse them: those not flagged as
    retransmissions carry, in order, exactly the payloads that [send] accepted, except for those
    still waiting in the channel (at most 256); the [i]-th has the sequence number of the start
    plus [i], modulo 2^16, in its header; and everything on that socket is addressed to
    the configured receiver.  All along, the handle that [stats] gives out shows the task's
    counters. *)
Theorem send_order_and_numbers (config : RistSocketConfig) (remote : SocketAddr) (r1 r2 t1 t2 : Z)
    (name : bytes) (w w' : shared) (o o' : Os) (sk : RistSocket ChS ChR) (task : spawned (Sender RetransmitBuffer))
    (s : session) :
  is_u32 r1 → is_u16 r2 → 0 <= cf_retransmit_buffer_capacity config →
  RistSocket_sender os config remote r1 r2 t1 t2 name w o = (inl (sk, task, w'), o') →
  rtc session_step (mkSession sk task w' [] []) s →
  sh_stats (ss_shared s) !! RistSocket_stats (ss_socket s) = Some (sn_stats (sw_task (ss_task s))) ∧
  (∀ d, d ∈ ss_handed s → dg_sock d = RtpSock → dg_to d = remote) ∧
  ∃ c, sk_sender (ss_socket s) = Some c ∧ (length (mp_queue c) <= 256)%nat ∧
    ss_accepted s = map snd (omap fresh_media (ss_handed s)) ++ mp_queue c ∧
    ∀ i x, omap fresh_media (ss_handed s) !! i = Some x → x.1 = wrapping_add16 r2 (Z.of_nat i).
Proof using MpscLaws0.
  intros H1 H2 H3 E Hrun.
  assert (H0 : session_ok remote r2 (mkSession sk task w' [] [])).
  { unfold RistSocket_sender in E. destruct (RistChannel_bind os _ _) as [[ch|] o1]; [|done]. cbn in E. injection E as <- <- <- _.
    destruct (mp_channel_new (Ch:=ChS) (A:=bytes) 256) as [Eq Ee].
    split; cbn -[Sender_new]; [| | |eexists; by apply Sender_new_inv| |].
    - eexists. rewrite Eq, Ee. split_and!; [done..|cbn; lia|done].
    - cbn [Sender_new sn_seq length]. clear -H2. ulia.
    - by intros i x Hx.
    - split; [done|]. intros d Hd. destruct (not_elem_of_nil _ Hd).
    - split; [done|]. cbn [Sender_new sn_stats]. unfold stats_load. cbn [sh_stats]. by rewrite list_lookup_middle. }
  assert (Hok : session_ok remote r2 s).
  { clear E. induction Hrun as [|a b c Hs _ IH]; [done|]. apply IH. by eapply session_step_ok. }
  destruct Hok as [(c & Hc & _ & Hl & Hacc) _ Hn _ [_ Hto] [_ Hst]]. split; [done|]. split; [done|]. by exists c.
Qed.
End props.

(** ** A concrete session *)

Definition demo_config : RistSocketConfig :=
  mkRistSocketConfig (SocketAddr_new (V4 0) 5000) None (from_millis 1000) 10 (from_millis 100) None 4 true.
Definition demo_shared : shared := mkShared [RistConnStats_new] [true].
Definition demo_socket :
    RistSocket (list_chan bytes) (list_chan RistDelivered) * spawned (Sender RetransmitBuffer) * shared :=
  match RistSocket_sender demo_os demo_config demo_receiver 7 65535 0 0 [120] demo_shared [] with
  | (inl p, _) => p
  | (inr _, _) => (mkRistSocket None None 0 0 RoleReceiver, mkSpawned demo_sender 0 0, demo_shared)
  end.
Definition demo_sk := demo_socket.1.1.
Definition demo_task := demo_socket.1.2.
Definition demo_w := demo_socket.2.

Definition sent_socket (sk : RistSocket (list_chan bytes) (list_chan RistDelivered)) (data : bytes) :=
  match RistSocket_send sk data with Ready (inl sk') => sk' | _ => sk end.
Definition demo_two_sent := sent_socket (sent_socket demo_sk [1; 2]) [3].
Definition demo_chan (q : list bytes) : list_chan bytes := mkListChan q 256 true true.
Definition demo_after := (on_media (sw_task demo_task) [1; 2] 5 true).1.

Definition demo_handed := (on_media (sw_task demo_task) [1; 2] 5 true).2.

(** The application sends twice while the task transmits the first payload. *)
Lemma send_order_and_numbers_witness :
  ∃ s c, rtc session_step (mkSession demo_sk demo_task demo_w [] []) s ∧
    sk_sender (ss_socket s) = Some c ∧ ss_accepted s = map snd (omap fresh_media (ss_handed s)) ++ mp_queue c ∧
    omap fresh_media (ss_handed s) = [(65535, [1; 2])] ∧ mp_queue c = [[3]] ∧
    (st_packets_sent <$> sh_stats (ss_shared s) !! RistSocket_stats (ss_socket s)) = Some 1.
Proof.
  assert (HP : rtc session_step (mkSession demo_sk demo_task demo_w [] [])
    (mkSession (with_sender demo_two_sent (demo_chan [[3]])) (stepped demo_task demo_after)
       (published demo_w demo_task demo_after) [[1; 2]; [3]] ([] ++ demo_handed))).
  { eapply rtc_l; [apply (ss_send _ _ _ [] [] [1; 2] (sent_socket demo_sk [1; 2])); vm_compute; reflexivity|].
    eapply rtc_l; [apply (ss_send _ _ _ [[1; 2]] [] [3] demo_two_sent); vm_compute; reflexivity|].
    eapply rtc_l; [|apply rtc_refl].
    apply (ss_media demo_two_sent demo_task demo_w [[1; 2]; [3]] [] (demo_chan [[1; 2]; [3]]) (demo_chan [[3]]) [1; 2] 5 true
      demo_after demo_handed);
      [vm_compute; reflexivity|vm_compute; reflexivity|reflexivity]. }
  assert (E : RistSocket_sender demo_os demo_config demo_receiver 7 65535 0 0 [120] demo_shared [] =
    (inl (demo_sk, demo_task, demo_w), (RistChannel_bind demo_os (cf_local_addr demo_config) []).2)) by (vm_compute; reflexivity).
  destruct (send_order_and_numbers demo_os demo_config demo_receiver 7 65535 0 0 [120] demo_shared demo_w _ _
    demo_sk demo_task _ ltac:(ulia) ltac:(ulia) ltac:(vm_compute; discriminate) E HP)
    as (Hst & _ & c & Hc & _ & Hacc & _).
  eexists _, c. split; [exact HP|]. split; [exact Hc|]. split; [exact Hacc|].
  split; [vm_compute; reflexivity|]. split; [injection Hc as <-; reflexivity|]. rewrite Hst. vm_compute. reflexivity.
Defined.
