(* ===== verification/System.v ===== *)
(** * Sender and receiver together

    Loss recovery, from the receiver's NACK pump over the wire to the sender's retransmissions,
    back into the gap and to the application, and the limit the receive buffers put on it. *)

From S2P Require Import Prelude Float64 Rtp RtcpCodec RtcpReports Sdes RtcpNack RtcpApp Rtcp Retransmit Ring Reorder ReorderSpec ReorderProps NackSched Rtt RtcpState Guard Sender SenderProps Receiver ReceiverProps ReceiverRun.

Lemma rr_serialize_blen rr : blen (ReceiverReport_serialize rr) = 8 + 24 * Z.of_nat (length (rr_reports rr)).
Proof.
  unfold ReceiverReport_serialize. rewrite !blen_app, concat_reports_blen.
  unfold put_u8, put_u16, put_u32, blen. cbn [length]. lia.
Qed.

Lemma nack_serialize_blen n : blen (NackPacket_serialize n) = 12 + 4 * entries_count (nk_entries n).
Proof.
  unfold NackPacket_serialize. rewrite 3!blen_app. fold (nack_body n). rewrite nack_body_blen.
  unfold put_u8, put_u16, blen. cbn [length]. lia.
Qed.

(** The size of a report and a NACK in one datagram, and what it decodes to. *)
Lemma report_nack_blen rr nack :
  blen (RtcpCompound_serialize [PktReceiverReport rr; PktNack nack]) =
  20 + 24 * Z.of_nat (length (rr_reports rr)) + 4 * entries_count (nk_entries nack).
Proof.
  unfold RtcpCompound_serialize. cbn [map concat serialize_sub_packet].
  rewrite !blen_app, rr_serialize_blen, nack_serialize_blen. change (blen []) with 0. lia.
Qed.

Lemma report_nack_parse rr nack :
  rr_ok rr → nack_ok nack →
  RtcpCompound_parse (RtcpCompound_serialize [PktReceiverReport rr; PktNack nack]) =
  Ok [PktReceiverReport rr; PktNack nack].
Proof.
  intros. apply compound_roundtrip; [|cbn; unfold MAX_RTCP_SUB_PACKETS; lia].
  by apply Forall_cons; split; [|apply Forall_singleton].
Qed.

(** Cut at the size of the receive buffer, only the report is left. *)
Lemma report_nack_truncated rr nack :
  rr_ok rr → (length (rr_reports rr) <= 1)%nat → nack_ok nack →
  let datagram := RtcpCompound_serialize [PktReceiverReport rr; PktNack nack] in
  RTCP_RECV_BUF < blen datagram →
  RtcpCompound_parse (recv_into RTCP_RECV_BUF datagram) = Ok [PktReceiverReport rr].
Proof.
  intros Hr Hl Hn datagram Hbig.
  destruct (pkt_frame (PktReceiverReport rr) Hr) as (f & Hf & Ef & Df).
  destruct (pkt_frame (PktNack nack) Hn) as (g & Hg & Eg & _).
  assert (Ed : datagram = frame_bytes f ++ frame_bytes g).
  { subst datagram. unfold RtcpCompound_serialize. cbn [map concat]. by rewrite Ef, Eg, app_nil_r. }
  clearbody datagram. subst datagram. unfold recv_into, RTCP_RECV_BUF in *. rewrite blen_app in Hbig.
  assert (Hfl : blen (frame_bytes f) <= 32).
  { rewrite <- Ef. cbn [serialize_sub_packet]. rewrite rr_serialize_blen. lia. }
  unfold RtcpCompound_parse. rewrite take_app_ge by (unfold blen in Hfl; lia).
  pose proof (compound_loop_frame [] f
    (take (Z.to_nat 2048 - length (frame_bytes f)) (frame_bytes g)) 63 Hf) as E.
  cbn [app] in E. etransitivity; [exact E|]. rewrite Df. cbn [mbind exec_bind].
  rewrite compound_loop_truncated; [done..|]. unfold blen in *. lia.
Qed.

(** ** The receiver's leg *)

Lemma write_rtp_header_bytes ssrc seq ts payload :
  is_u32 ssrc → is_u16 seq → is_u32 ts → bytes_ok payload → bytes_ok (write_rtp_header ssrc seq ts ++ payload).
Proof.
  intros. rewrite write_rtp_header_eq. apply bytes_ok_app. split; [|done].
  by apply serialize_bytes_ok, new_ts_ok.
Qed.

Lemma deliver_all k items st p :
  Delivered (rd_data p) (rd_rtp_seq p) (rd_arrival p) ∈ items → p ∈ (deliver (λ _, true) k items st).1.
Proof.
  revert k st. induction items as [|it items IH]; intros k st Hp; [by apply not_elem_of_nil in Hp|].
  apply elem_of_cons in Hp as [<-|Hp]; cbn [deliver].
  - destruct (deliver _ (S k) items st) as [l st']. apply elem_of_cons. left. by destruct p.
  - destruct it as [d s a|]; [|by apply IH].
    specialize (IH (S k) st Hp). destruct (deliver _ (S k) items st) as [l st']. by apply elem_of_cons; right.
Qed.

Lemma drain_step_delivers r late g items p :
  drain_ready (rc_reorder r) late [] = Some (g, items) →
  Delivered (rd_data p) (rd_rtp_seq p) (rd_arrival p) ∈ items →
  ∃ r'' del, receiver_step r (EvDrain late (λ _, true)) = Ok (r'', [], del) ∧ p ∈ del.
Proof.
  intros Ed Hin. cbn [receiver_step]. rewrite Ed. pose proof (deliver_all 0 items (rc_stats r) p Hin) as Hd.
  destruct (deliver _ 0 items _) as [l st]. by eexists _, _.
Qed.

(** A retransmission that reaches a receiver holding the gap open: the gap is filled and no
    longer requested, and the payload is handed to the application once the cells before
    it and the packet itself are due. *)
Lemma retransmission_recovers r ssrc ts payload from arrived_at clock now base cells i t0 e :
  let q := wrapping_add16 base (Z.of_nat i) in
  is_u32 ssrc → is_u32 ts → bytes_ok payload → ssrc mod 2 = 1 →
  source_allowed from (rc_pinned_source_ip r) (rc_sender_rtp_addr r) (rc_rtp_peer_live r) arrived_at = true →
  wf (rc_reorder r) → abs (rc_reorder r) = Some (mkQueue base cells) → cells !! i = Some (SGap t0) →
  sched_wf (rc_nack_scheduler r) → nc_expected_seq (rc_nack_scheduler r) = Some e →
  as_i16 (wrapping_sub16 q e) < 0 →
  ∃ r', on_rtp r (write_rtp_header ssrc q ts ++ payload) from arrived_at clock [] now = Ok (r', []) ∧
    abs (rc_reorder r') = Some (mkQueue base (<[i := SFilled (rx_payload payload) now]> cells)) ∧
    tracked (rc_nack_scheduler r') q = None ∧
    st_packets_recovered (rc_stats r') = fetch_add (st_packets_recovered (rc_stats r)) 1 ∧
    st_retransmits_received (rc_stats r') = fetch_add (st_retransmits_received (rc_stats r)) 1 ∧
    ∀ late, now + ro_buffer_time (rc_reorder r) <= late →
      (∀ j c, (j < i)%nat → cells !! j = Some c → cell_ready (ro_buffer_time (rc_reorder r)) late c = true) →
      ∃ r'' del, receiver_step r' (EvDrain late (λ _, true)) = Ok (r'', [], del) ∧
        mkRistDelivered (rx_payload payload) now q ∈ del.
Proof.
  intros q Hs Ht Hp Hodd Hal Hwf Ha Hi Hok He Hlt.
  assert (Hq : is_u16 q) by (subst q; auto with rist).
  rewrite on_rtp_eq; [|by apply write_rtp_header_bytes|constructor]. rewrite Hal. cbn zeta. rewrite take_nil, drop_nil.
  destruct (parse_rtp_media ssrc q ts (rx_payload payload) (rc_epoch r) clock Hs Hq Ht) as (p & Ep & E1 & E2 & E3 & E4 & E5 & E6).
  assert (Epar : parsed from (rc_epoch r) (write_rtp_header ssrc q ts ++ payload, from, clock) = Some p)
    by (unfold parsed; by rewrite bool_decide_true, recv_media, Ep).
  cbn [omap list_omap]. rewrite Epar. set (r1 := observe (latch r from) (Some p)).
  assert (Er1 : rc_reorder r1 = rc_reorder r ∧ rc_nack_scheduler r1 = rc_nack_scheduler r ∧ rc_stats r1 = rc_stats r)
    by (subst r1; unfold observe, latch; by case_bool_decide).
  destruct Er1 as (Er1 & Er2 & Er3). unfold process_batch. cbn [insert_batch]. rewrite Er1, E1, E4.
  destruct (insert_fills_gap (rc_reorder r) base cells i t0 (rx_payload payload) now Hwf Ha Hi) as (Hw & Hab & Ho).
  fold q in Hw, Hab, Ho. pose proof (insert_shape (rc_reorder r) q (rx_payload payload) now) as [Esh _].
  destruct (insert (rc_reorder r) q (rx_payload payload) now) as [g o]. cbn [fst snd] in *. subst o.
  cbn [zip zip_with account_batch]. rewrite Er2, Er3, E1.
  pose proof (received_behind (rc_nack_scheduler r) e q now Hok He Hq Hlt) as Htr.
  eexists. split; [done|]. split_and!; [done|done|done| |].
  - cbn. by rewrite (proj2 E6).
  - intros late Hlate Hcells.
    destruct (drain_reaches g base (<[i := SFilled (rx_payload payload) now]> cells) i (SFilled (rx_payload payload) now) late Hw Hab)
      as (b' & items & Ed & Hin).
    + apply list_lookup_insert_eq. by eapply lookup_lt_Some.
    + intros j c Hj Hc. rewrite Esh. destruct (decide (j = i)) as [->|Hne].
      * rewrite list_lookup_insert_eq in Hc by (by eapply lookup_lt_Some). injection Hc as <-.
        cbn. unfold saturating_duration_since. apply Z.leb_le. lia.
      * rewrite list_lookup_insert_ne in Hc by done. apply (Hcells j c); [lia|done].
    + by eapply (drain_step_delivers _ late b' items (mkRistDelivered (rx_payload payload) now q)).
Qed.

Section arq.
  Context {St : Type} `{!RetransmitStore St} `{!RetransmitStoreLaws St}.

(** The first two legs: the receiver's request and the sender's answer. *)
Lemma arq_answer (r : Receiver) (s : Sender St) (log : list log_entry) (dest addr : SocketAddr)
    (now recv_at cap : Z) (clock : nat → Z) (net : nat → bool) (ns : NackScheduler) (pending : list Z)
    (sent : bool) :
  receiver_ok r → rc_sender_rtcp_addr r = Some dest →
  get_pending_nacks (rc_nack_scheduler r) now (srtt (rc_rtt_estimator r)) = (ns, pending) →
  pending ≠ [] → Z.of_nat (length pending) <= 501 →
  sender_inv s log → sn_nack_budget_template s = for_capacity cap →
  nack_targets_us (media_ssrc r) (sn_ssrc s) = true →
  peer_move_allowed addr (sn_remote_rtcp_addr s) (sn_rtcp_peer_live s) recv_at = true →
  ∃ d s' out, (on_pump r now sent).2 = [d] ∧ dg_to d = dest ∧ blen (dg_bytes d) <= RTCP_RECV_BUF ∧
    on_rtcp s (dg_bytes d) addr recv_at clock net = Ok (s', out) ∧
    ∀ q pkt, q ∈ pending → store_get (sn_retransmit_buf s) q = Some pkt →
      ∃ x ts payload, x ∈ out ∧ dg_sock x = RtpSock ∧ dg_to x = sn_remote_rtp_addr s ∧
        (q, ts, payload) ∈ log ∧ is_u32 ts ∧
        dg_bytes x = write_rtp_header (sn_ssrc s + 1) q ts ++ payload.
Proof using Type*.
  intros Hr Hd Hp Hne Hlen Hs Hb Ht Hm.
  destruct (pump_datagram r dest now sent ns pending Hr Hd Hp Hne) as (E1 & Hrr & Hrl1 & Hnk & Hsq).
  assert (Hfit : blen (RtcpCompound_serialize [PktReceiverReport (generate_rr (rc_rtcp_state r) now).2;
    PktNack (build_bitmask (mkNackListBuilder (rc_ssrc r) (media_ssrc r)) pending)]) <= RTCP_RECV_BUF).
  { rewrite report_nack_blen. cbn [nk_entries build_bitmask entries_count].
    destruct (build_bitmask_loop_ok (length pending) pending Hsq) as [_ Hbl]. unfold RTCP_RECV_BUF. lia. }
  eexists (mkDatagram _ _ _). unfold on_rtcp. rewrite E1. cbn [dg_bytes dg_to].
  rewrite recv_into_short, report_nack_parse, Hm by done. cbn [negb].
  set (nack := build_bitmask (mkNackListBuilder (rc_ssrc r) (media_ssrc r)) pending).
  set (s1 := set_peer s _ (Some recv_at)). cbn [handle_packets].
  change (sn_ssrc s1) with (sn_ssrc s). change (nk_media_ssrc nack) with (media_ssrc r). rewrite Ht.
  cbn [negb]. change (sn_remote_rtp_addr s1) with (sn_remote_rtp_addr s).
  change (sn_retransmit_buf s1) with (sn_retransmit_buf s).
  change (sn_nack_budget_template s1) with (sn_nack_budget_template s).
  pose proof (build_bitmask_loop_length (length pending) pending Hsq) as Hrl.
  destruct (for_capacity_bounds cap) as (Hb1 & Hb2 & _).
  pose proof (serve_complete net (sn_remote_rtp_addr s) (sn_retransmit_buf s)
    (requested_seqs (nk_entries nack)) (mkNackWork (sn_nack_budget_template s) 0 0 [])) as Hsv.
  cbn [nw_budget nw_out] in Hsv. rewrite Hb in *.
  assert (Hreq : (length (requested_seqs (nk_entries nack)) <= length pending)%nat) by exact Hrl.
  specialize (Hsv ltac:(lia) ltac:(lia)).
  destruct (serve_nack_entries _ _ _ _ _) as [spent w]. destruct Hsv as [-> Hout].
  eexists _, _. split_and!; [done..|].
  intros q pkt Hq Hg.
  destruct (si_stored _ _ Hs q pkt Hg) as (ts & payload & Hin & Hqu & Htu & ->).
  destruct (si_ssrc _ _ Hs) as [Hs1 Hs2].
  eexists (mkDatagram RtpSock (sn_remote_rtp_addr s) _), ts, payload. split_and!; [|done|done|done|done|].
  - rewrite Hout. cbn [app]. apply list_elem_of_omap. exists q. split.
    + by apply build_bitmask_loop_elem.
    + unfold retransmit_of. by rewrite Hg.
  - cbn [dg_bytes]. by rewrite flag_retransmit_eq by done.
Qed.

(** (C1) Loss recovery end to end.  When the receiver's pump finds between 1 and 501 numbers to
    request (beyond that see [oversized_nack_is_lost]), the single datagram it emits fits the
    sender's receive buffer, and a sender that admits its source and is named by the NACK
    resends every requested number it still holds, within its budget.  Each of these
    retransmissions carries a payload the application sent under that number; and when it
    reaches a receiver that admits its source and holds the gap open, the gap is filled,
    counted as recovered and no longer requested, and once the cells before it are due and
    the packet has been held for the buffer time, the delivery thread hands the payload, cut
    to the 2036 bytes the receive buffer has room for, to the application under its number. *)
Theorem loss_recovery_end_to_end (r : Receiver) (s : Sender St) (log : list log_entry) (dest addr : SocketAddr)
    (now recv_at cap : Z) (clock : nat → Z) (net : nat → bool) (ns : NackScheduler) (pending : list Z)
    (sent : bool) :
  receiver_ok r → rc_sender_rtcp_addr r = Some dest →
  get_pending_nacks (rc_nack_scheduler r) now (srtt (rc_rtt_estimator r)) = (ns, pending) →
  pending ≠ [] → Z.of_nat (length pending) <= 501 →
  sender_inv s log → sn_nack_budget_template s = for_capacity cap →
  (∀ seq ts payload, (seq, ts, payload) ∈ log → bytes_ok payload) →
  nack_targets_us (media_ssrc r) (sn_ssrc s) = true →
  peer_move_allowed addr (sn_remote_rtcp_addr s) (sn_rtcp_peer_live s) recv_at = true →
  ∃ d s' out, (on_pump r now sent).2 = [d] ∧ dg_to d = dest ∧ blen (dg_bytes d) <= RTCP_RECV_BUF ∧
    on_rtcp s (dg_bytes d) addr recv_at clock net = Ok (s', out) ∧
    ∀ q pkt, q ∈ pending → store_get (sn_retransmit_buf s) q = Some pkt →
      ∃ x ts payload, x ∈ out ∧ dg_sock x = RtpSock ∧ dg_to x = sn_remote_rtp_addr s ∧
        (q, ts, payload) ∈ log ∧ (blen payload <= 2036 → rx_payload payload = payload) ∧
        ∀ (r2 : Receiver) (from : SocketAddr) (arrived_at clk at_ base : Z) (cells : list SlotState)
          (i : nat) (t0 e : Z),
          source_allowed from (rc_pinned_source_ip r2) (rc_sender_rtp_addr r2) (rc_rtp_peer_live r2) arrived_at = true →
          wf (rc_reorder r2) → abs (rc_reorder r2) = Some (mkQueue base cells) →
          cells !! i = Some (SGap t0) → q = wrapping_add16 base (Z.of_nat i) →
          sched_wf (rc_nack_scheduler r2) → nc_expected_seq (rc_nack_scheduler r2) = Some e →
          as_i16 (wrapping_sub16 q e) < 0 →
          ∃ r3, on_rtp r2 (dg_bytes x) from arrived_at clk [] at_ = Ok (r3, []) ∧
            abs (rc_reorder r3) = Some (mkQueue base (<[i := SFilled (rx_payload payload) at_]> cells)) ∧
            tracked (rc_nack_scheduler r3) q = None ∧
            st_packets_recovered (rc_stats r3) = fetch_add (st_packets_recovered (rc_stats r2)) 1 ∧
            st_retransmits_received (rc_stats r3) = fetch_add (st_retransmits_received (rc_stats r2)) 1 ∧
            ∀ late, at_ + ro_buffer_time (rc_reorder r2) <= late →
              (∀ j c, (j < i)%nat → cells !! j = Some c → cell_ready (ro_buffer_time (rc_reorder r2)) late c = true) →
              ∃ r4 del, receiver_step r3 (EvDrain late (λ _, true)) = Ok (r4, [], del) ∧
                mkRistDelivered (rx_payload payload) at_ q ∈ del.
Proof using Type*.
  intros Hr Hd Hp Hne Hlen Hs Hb Hlog Ht Hm.
  destruct (arq_answer r s log dest addr now recv_at cap clock net ns pending sent Hr Hd Hp Hne Hlen Hs Hb Ht Hm)
    as (d & s' & out & H1 & H2 & H3 & H4 & H5).
  exists d, s', out. split_and!; [done..|]. intros q pkt Hq Hg.
  destruct (H5 q pkt Hq Hg) as (x & ts & payload & Hx & Hk & Hto & Hin & Hts & Ebytes).
  exists x, ts, payload. split_and!; [done..|apply rx_payload_short|].
  intros r2 from arrived_at clk at_ base cells i t0 e Hal Hwf Ha Hi -> Hok He Hlt.
  destruct (si_ssrc _ _ Hs) as [Hs1 Hs2]. rewrite Ebytes.
  apply (retransmission_recovers r2 (sn_ssrc s + 1) ts payload from arrived_at clk at_ base cells i t0 e);
    [clear -Hs1 Hs2; ulia|done|by eapply Hlog|clear -Hs2; ulia|done..].
Qed.
End arq.

(** ** A concrete round *)

(** The sender has sent 65535, 0 and 1; the receiver got 65535 and 1. *)
Definition arq_sender : Sender RetransmitBuffer :=
  (on_media (on_media (on_media demo_sender [10] 0 true).1 [11] 1 true).1 [12] 2 true).1.
Definition arq_log : list log_entry :=
  logged (on_media (on_media demo_sender [10] 0 true).1 [11] 1 true).1 (EvMedia [12] 2 true) ++
  logged (on_media demo_sender [10] 0 true).1 (EvMedia [11] 1 true) ++
  logged demo_sender (EvMedia [10] 0 true) ++ [].
Lemma arq_sender_inv : sender_inv arq_sender arq_log.
Proof.
  eapply (sender_step_inv _ _ (EvMedia [12] 2 true)); [|reflexivity].
  eapply (sender_step_inv _ _ (EvMedia [11] 1 true)); [|reflexivity].
  eapply (sender_step_inv _ _ (EvMedia [10] 0 true)); [exact demo_sender_inv|reflexivity].
Qed.

Definition arq_receiver : Receiver :=
  mkReceiver 4 (RtcpReceiverState_new 4 [] 100) demo_sched (RttEstimator_new 1000) (Some 287454020)
    (rc_reorder demo_recv) None (Some demo_source) (Some 2) (Some (rtcp_addr_for demo_source)) None 0 true
    RistConnStats_new.
Lemma arq_receiver_ok : receiver_ok arq_receiver.
Proof. split; [cbn; ulia|exact (sched_ok_wf _ demo_sched_ok)|unfold rx_ok; cbn; split_and!; ulia|cbn; ulia]. Qed.

(** The receiver while it waits: 65535 and 1 have arrived, 0 is missing. *)
Definition gap_buffer : ReorderBuffer := (insert (insert (ReorderBuffer_new 1000) 65535 [10] 3).1 1 [12] 4).1.
Lemma gap_buffer_wf :
  wf gap_buffer ∧ abs gap_buffer = Some (mkQueue 65535 [SFilled [10] 3; SGap 4; SFilled [12] 4]).
Proof.
  unfold gap_buffer.
  destruct (insert_refines (ReorderBuffer_new 1000) 65535 [10] 3) as (Hw & Ha & _);
    [by apply with_capacity_wf|ulia|done|].
  destruct (insert_refines (insert (ReorderBuffer_new 1000) 65535 [10] 3).1 1 [12] 4)
    as (Hw1 & Ha1 & _); [done|ulia|by vm_compute|].
  split; [done|]. rewrite Ha1, Ha. by vm_compute.
Qed.
Definition gap_receiver : Receiver :=
  mkReceiver 4 (RtcpReceiverState_new 4 [] 100) demo_sched (RttEstimator_new 1000) (Some 287454020)
    gap_buffer None (Some demo_source) (Some 2) (Some (rtcp_addr_for demo_source)) None 0 true
    RistConnStats_new.

Lemma loss_recovery_end_to_end_witness :
  ∃ d s' out x r3 r4 del, (on_pump arq_receiver 7 true).2 = [d] ∧
    on_rtcp arq_sender (dg_bytes d) demo_receiver 9 (λ _, 9) (λ _, true) = Ok (s', out) ∧ x ∈ out ∧
    on_rtp gap_receiver (dg_bytes x) demo_source 20 20 [] 21 = Ok (r3, []) ∧
    receiver_step r3 (EvDrain 2000 (λ _, true)) = Ok (r4, [], del) ∧
    ∃ payload, mkRistDelivered payload 21 0 ∈ del.
Proof.
  assert (Hp : get_pending_nacks (rc_nack_scheduler arq_receiver) 7 (srtt (rc_rtt_estimator arq_receiver)) =
    ((get_pending_nacks demo_sched 7 None).1, [0; 65535])) by (vm_compute; reflexivity).
  assert (Hlog : ∀ seq ts payload, (seq, ts, payload) ∈ arq_log → bytes_ok payload).
  { intros seq ts payload Hin. unfold arq_log, logged in Hin. cbn [app] in Hin.
    do 3 (apply elem_of_cons in Hin as [[= _ _ ->]|Hin]; [repeat constructor; ulia|]).
    destruct (not_elem_of_nil _ Hin). }
  destruct (loss_recovery_end_to_end arq_receiver arq_sender arq_log (rtcp_addr_for demo_source) demo_receiver 7 9 64
    (λ _, 9) (λ _, true) _ _ true arq_receiver_ok eq_refl Hp ltac:(discriminate) ltac:(cbn; lia)
    arq_sender_inv ltac:(vm_compute; reflexivity) Hlog ltac:(vm_compute; reflexivity) ltac:(vm_compute; reflexivity))
    as (d & s' & out & H1 & _ & _ & H3 & H4).
  destruct (store_get (sn_retransmit_buf arq_sender) 0) as [pkt|] eqn:Eg; [|vm_compute in Eg; discriminate Eg].
  destruct (H4 0 pkt) as (x & ts & payload & Hx & _ & _ & _ & _ & Hrec); [apply elem_of_cons; left; reflexivity|exact Eg|].
  destruct gap_buffer_wf as [Hwf Ha].
  assert (He : ∃ e, nc_expected_seq demo_sched = Some e ∧ as_i16 (wrapping_sub16 0 e) < 0).
  { eexists. split; vm_compute; reflexivity. }
  destruct He as (e & He & Hlt).
  destruct (Hrec gap_receiver demo_source 20 20 21 65535 _ 1%nat 4 e ltac:(vm_compute; reflexivity) Hwf Ha eq_refl
    ltac:(vm_compute; reflexivity) (sched_ok_wf _ demo_sched_ok) He Hlt)
    as (r3 & G1 & _ & _ & _ & _ & G2).
  destruct (G2 2000) as (r4 & del & G3 & G4).
  - vm_compute. discriminate.
  - intros [|j] c Hj Hc; [|lia]. injection Hc as <-. vm_compute. reflexivity.
  - exists d, s', out, x, r3, r4, del. split; [exact H1|]. split; [exact H3|]. split; [exact Hx|].
    split; [exact G1|]. split; [exact G3|]. exists (rx_payload payload). exact G4.
Defined.

(** ** The limit of the receive buffer *)

Section oversized.
  Context {St : Type} `{!RetransmitStore St}.

(** (C36) A NACK that does not fit the sender's receive buffer is lost as a whole: when the
    datagram of the receiver's pump is longer than the 2048 bytes the sender reads, the
    sender finds only the receiver report in it and sends nothing, so none of the requested
    numbers is retransmitted, and the same set is packed the same way in the next retry.
    A few hundred losses that share no bitmasks are enough (512 in the witness). *)
Theorem oversized_nack_is_lost (r : Receiver) (s : Sender St) (dest addr : SocketAddr)
    (now recv_at : Z) (clock : nat → Z) (net : nat → bool) (ns : NackScheduler) (pending : list Z)
    (sent : bool) :
  receiver_ok r → rc_sender_rtcp_addr r = Some dest →
  get_pending_nacks (rc_nack_scheduler r) now (srtt (rc_rtt_estimator r)) = (ns, pending) →
  pending ≠ [] →
  ∃ d, (on_pump r now sent).2 = [d] ∧
    (RTCP_RECV_BUF < blen (dg_bytes d) →
     ∃ s', on_rtcp s (dg_bytes d) addr recv_at clock net = Ok (s', [])).
Proof.
  intros Hr Hd Hp Hne.
  destruct (pump_datagram r dest now sent ns pending Hr Hd Hp Hne) as (E1 & Hrr & Hrl & Hnk & _).
  eexists. split; [exact E1|]. cbn [dg_bytes]. intros Hbig.
  unfold on_rtcp. rewrite report_nack_truncated by done.
  destruct (peer_move_allowed _ _ _ _); cbn [negb handle_packets]; eauto.
Qed.
End oversized.

(** A scheduler with 512 losses spread over four turns of its ring, none within 16 of the
    next: slot [j] holds [4096 * c + j] where [c = j mod 32 < 4]. *)
Definition scattered_slot (j : Z) : NackSlot := mkNackSlot (4096 * (j mod 32) + j) (j mod 32 <? 4) 5 0.
Definition scattered_sched : NackScheduler :=
  mkNackScheduler (map scattered_slot (seqZ 0 4096)) 4096 10 20 (Some 16400) 0 512.

Lemma scattered_sched_ok : sched_ok scattered_sched.
Proof.
  split; [done|vm_compute; reflexivity|cbn; ulia| |vm_compute; discriminate].
  intros i s Hs Ha. unfold scattered_sched in Hs. cbn [nc_slots] in Hs.
  apply list_lookup_fmap_Some in Hs as (j & -> & Hj). apply lookup_seqZ in Hj as [-> Hj].
  cbn [scattered_slot ns_active ns_seq ns_nack_count] in *. apply Z.ltb_lt in Ha.
  split; [ulia|]. split; [|cbn; lia].
  rewrite (ring_idx_mod 4096) by exact cap_4096. ulia.
Qed.

Definition scattered_receiver : Receiver :=
  mkReceiver 4 (RtcpReceiverState_new 4 [] 100) scattered_sched (RttEstimator_new 1000) (Some 287454020)
    (rc_reorder demo_recv) None (Some demo_source) (Some 2) (Some (rtcp_addr_for demo_source)) None 0 true
    RistConnStats_new.

Lemma oversized_nack_is_lost_witness :
  ∃ d, (on_pump scattered_receiver 7 true).2 = [d] ∧ RTCP_RECV_BUF < blen (dg_bytes d) ∧
    ∃ s', on_rtcp arq_sender (dg_bytes d) demo_receiver 9 (λ _, 9) (λ _, true)
      = Ok (s', []).
Proof.
  destruct (get_pending_nacks scattered_sched 7 None) as [ns pending] eqn:Hp.
  assert (Hlen : length (get_pending_nacks scattered_sched 7 None).2 = 512%nat) by (vm_compute; reflexivity).
  rewrite Hp in Hlen.
  destruct (oversized_nack_is_lost scattered_receiver arq_sender (rtcp_addr_for demo_source) demo_receiver
    7 9 (λ _, 9) (λ _, true) ns pending true) as (d & H1 & H2).
  - split; [cbn; ulia|exact (sched_ok_wf _ scattered_sched_ok)|unfold rx_ok; cbn; split_and!; ulia|cbn; ulia].
  - reflexivity.
  - exact Hp.
  - intros ->. discriminate Hlen.
  - exists d. split; [exact H1|].
    assert (Hbig : match (on_pump scattered_receiver 7 true).2 with
                   | [x] => RTCP_RECV_BUF <? blen (dg_bytes x) | _ => true end = true)
      by (vm_compute; reflexivity).
    rewrite H1 in Hbig. apply Z.ltb_lt in Hbig. split; [exact Hbig|exact (H2 Hbig)].
Defined.
