(* ===== verification/Rounds.v ===== *)
(** * Recovery over several rounds

    A request or its answer may be lost again.  A round is whatever the receiver handles while a
    number stays missing, followed by a turn of the NACK pump once the number is due; in every
    round up to the retry limit the number is asked for, and a sender that gets any of these
    requests answers it. *)

From S2P Require Import Prelude Float64 Rtp RtcpCodec RtcpReports Sdes RtcpNack RtcpApp Rtcp Retransmit Ring Reorder ReorderSpec ReorderProps NackSched Rtt RtcpState Guard Sender SenderProps Receiver ReceiverProps ReceiverRun System.

(** ** Rounds *)

(** [rounds q r l r']: from [r] to [r']; [l] lists the states and times of the pumps.  Between two
    pumps anything may arrive, in any number, as long as [q] keeps its entry in the scheduler:
    it is not received, and not displaced from its slot of the ring.  The pending counter is
    not 0 at a pump; with [q] tracked it can only be 0 after its over-count (see
    [nack_pending_overcounts]) has wrapped around 2^32, and then the pump skips its scan. *)
Inductive rounds (q : Z) : Receiver → list (Receiver * Z * bool) → Receiver → Prop :=
  | rounds_nil r : rounds q r [] r
  | rounds_cons r evs r1 out del now sent l r' :
      Forall event_ok evs → receiver_run r evs = Ok (r1, out, del) →
      rc_sender_rtcp_addr r1 ≠ None →
      tracked (rc_nack_scheduler r1) q = tracked (rc_nack_scheduler r) q →
      (∀ due c, tracked (rc_nack_scheduler r1) q = Some (due, c) → due <= now) →
      nc_active_count (rc_nack_scheduler r1) ≠ 0 →
      rounds q (on_pump r1 now sent).1 l r' →
      rounds q r ((r1, now, sent) :: l) r'.

(** ** The retry limit is a constant *)

Lemma account_batch_retries now batch : ∀ rs ns st,
  nc_max_retries (account_batch rs ns st batch now).1.2 = nc_max_retries ns.
Proof.
  induction batch as [|[p o] batch IH]; intros rs ns st; cbn [account_batch]; [done|].
  rewrite IH. unfold NackSched.on_packet_received, deactivate. by repeat case_match.
Qed.

Lemma pending_retries ns now rtt : nc_max_retries (get_pending_nacks ns now rtt).1 = nc_max_retries ns.
Proof. unfold get_pending_nacks. destruct (_ =? 0); [done|]. by destruct (scan_slots _ _ _ _ _) as [[? ?] ?]. Qed.

Lemma controls_retries clock from now ps : ∀ i self out,
  nc_max_retries (rc_nack_scheduler (handle_controls clock from now i ps self out).1) =
  nc_max_retries (rc_nack_scheduler self).
Proof.
  induction ps as [|p ps IH]; intros i self out; cbn [handle_controls]; [done|].
  destruct (handle_control clock from now i p self) as [self' ds] eqn:E.
  transitivity (nc_max_retries (rc_nack_scheduler self')); [apply IH|]. revert E. unfold handle_control.
  destruct p as [sr|rr|sdes|nack|[req|resp|nack|st data]|pt data]; try by intros [= <- _].
  destruct (srtt _); by intros [= <- _].
Qed.

Lemma pump_retries r now sent : nc_max_retries (rc_nack_scheduler (on_pump r now sent).1) = nc_max_retries (rc_nack_scheduler r).
Proof.
  unfold on_pump. destruct (rc_sender_rtcp_addr r); [|done].
  pose proof (pending_retries (rc_nack_scheduler r) now (srtt (rc_rtt_estimator r))) as Hp.
  destruct (get_pending_nacks _ _ _) as [ns [|q l]]; [done|]. by destruct (generate_rr _ _).
Qed.

Lemma step_retries r ev r' out del :
  receiver_step r ev = Ok (r', out, del) → nc_max_retries (rc_nack_scheduler r') = nc_max_retries (rc_nack_scheduler r).
Proof.
  destruct ev as [buf from arrived_at clock queue now|buf from now clock|now sent|now|now room]; cbn [receiver_step].
  - unfold on_rtp. destruct (negb _); [by intros [= <- _ _]|]. fold (latch r from).
    assert (El : rc_nack_scheduler (latch r from) = rc_nack_scheduler r) by (unfold latch; by case_bool_decide).
    assert (Hb : ∀ self batch, rc_nack_scheduler self = rc_nack_scheduler r →
      nc_max_retries (rc_nack_scheduler (process_batch self batch now)) = nc_max_retries (rc_nack_scheduler r)).
    { intros self batch <-. unfold process_batch. destruct (insert_batch _ _ _) as [g os].
      pose proof (account_batch_retries now (zip batch os) (rc_rtcp_state self) (rc_nack_scheduler self) (rc_stats self)) as H.
      by destruct (account_batch _ _ _ _ _) as [[rs ns] st]. }
    destruct (parse_rtp _ _ _) as [[p|]|e|]; cbn [mbind exec_bind]; try done;
      (destruct (read_burst _ _ _ _ _) as [[batch rest]|e|]; cbn [mbind exec_bind]; try done);
      destruct batch; intros [= <- _ _]; cbn [set_addrs rc_nack_scheduler]; rewrite ?El; try done; by apply Hb.
  - unfold on_control. destruct (negb _); [by intros [= <- _ _]|].
    destruct (RtcpCompound_parse _) as [[|p ps]|e|]; [by intros [= <- _ _]| |by intros [= <- _ _]|done].
    match goal with |- mbind _ (Ok (handle_controls ?c ?f ?n ?i ?l ?s ?o)) = _ → _ =>
      pose proof (controls_retries c f n l i s o) as H; destruct (handle_controls c f n i l s o) as [r1 o1] end.
    cbn [mbind exec_bind]. by intros [= <- _ _].
  - pose proof (pump_retries r now sent) as H. destruct (on_pump r now sent). by intros [= <- _ _].
  - unfold on_report. destruct (rc_sender_rtcp_addr r); [|by intros [= <- _ _]]. destruct (generate_rr _ _) as [rs rr].
    destruct (_ && _); [destruct (generate_request (rc_rtt_estimator r) now) as [rtt [msw lsw]]|]; by intros [= <- _ _].
  - destruct (drain_ready _ _ _) as [[g items]|]; [|done]. destruct (deliver _ _ _ _). by intros [= <- _ _].
Qed.

Lemma run_retries evs : ∀ r r' out del,
  receiver_run r evs = Ok (r', out, del) → nc_max_retries (rc_nack_scheduler r') = nc_max_retries (rc_nack_scheduler r).
Proof.
  induction evs as [|ev evs IH]; intros r r' out del E; cbn [receiver_run] in E; [by injection E as <- _ _|].
  destruct (receiver_step r ev) as [[[r1 o1] d1]|x|] eqn:E1; [|done..]. cbn [mbind exec_bind] in E.
  destruct (receiver_run r1 evs) as [[[r2 o2] d2]|x|] eqn:E2; [|done..]. injection E as <- _ _.
  etransitivity; [by eapply IH|by eapply step_retries].
Qed.

(** ** What a round does *)

Lemma pump_round r now sent pin q due c :
  receiver_inv pin r → rc_sender_rtcp_addr r ≠ None → nc_active_count (rc_nack_scheduler r) ≠ 0 → is_u16 q →
  tracked (rc_nack_scheduler r) q = Some (due, c) → due <= now → c < nc_max_retries (rc_nack_scheduler r) →
  q ∈ (get_pending_nacks (rc_nack_scheduler r) now (srtt (rc_rtt_estimator r))).2 ∧
  ∃ due', tracked (rc_nack_scheduler (on_pump r now sent).1) q = Some (due', c + 1).
Proof.
  intros Hi Hd Hcnt Hq Ht Hdue Hc. pose proof (ro_sched _ (ri_ok _ _ Hi)) as Hok.
  destruct (pending_spec _ now (srtt (rc_rtt_estimator r)) Hok) as (_ & _ & _ & _ & _ & _ & Hel & Hnext).
  destruct (pending_wf (rc_nack_scheduler r) now (srtt (rc_rtt_estimator r))) as [[? _]|[c' E]]; [done|].
  rewrite E in Hel, Hnext. cbn [fst snd] in Hel, Hnext.
  change (tracked (full_count (rc_nack_scheduler r))) with (tracked (rc_nack_scheduler r)) in Hel, Hnext.
  change (nc_max_retries (full_count (rc_nack_scheduler r))) with (nc_max_retries (rc_nack_scheduler r)) in Hel, Hnext.
  assert (Hin : q ∈ (get_pending_nacks (rc_nack_scheduler r) now (srtt (rc_rtt_estimator r))).2)
    by (apply Hel; by rewrite Ht). split; [done|].
  specialize (Hnext q). rewrite Ht in Hnext. cbn [next_state] in Hnext.
  rewrite (proj2 (Z.ltb_ge now due)), (proj2 (Z.ltb_lt c _)) in Hnext by lia.
  unfold on_pump. destruct (rc_sender_rtcp_addr r) as [dest|]; [|done].
  destruct (get_pending_nacks _ _ _) as [ns [|x l]]; [destruct (not_elem_of_nil _ Hin)|].
  destruct (generate_rr _ _) as [rs rr]. eexists. exact Hnext.
Qed.

(** A datagram that asks for [q]. *)
Definition asks (q : Z) (d : datagram) : Prop :=
  ∃ rr nack, RtcpCompound_parse (dg_bytes d) = Ok [PktReceiverReport rr; PktNack nack] ∧ q ∈ requested_seqs (nk_entries nack).

Section answer.
  Context {St : Type} `{!RetransmitStore St} `{!RetransmitStoreLaws St}.

(** What a pump's turn for [q] is worth: it asks for [q], and, when at most 501 numbers are
    pending, a sender that gets the datagram while it holds [q] resends it. *)
Definition answered (q : Z) (x : Receiver * Z * bool) : Prop :=
  let '(r1, now, sent) := x in
  ∃ d, (on_pump r1 now sent).2 = [d] ∧ asks q d ∧
    ∀ (s : Sender St) (log : list log_entry) (addr : SocketAddr) (recv_at cap : Z) (clock : nat → Z) (net : nat → bool)
      (pkt : bytes),
      Z.of_nat (length (get_pending_nacks (rc_nack_scheduler r1) now (srtt (rc_rtt_estimator r1))).2) <= 501 →
      sender_inv s log → sn_nack_budget_template s = for_capacity cap →
      nack_targets_us (media_ssrc r1) (sn_ssrc s) = true →
      peer_move_allowed addr (sn_remote_rtcp_addr s) (sn_rtcp_peer_live s) recv_at = true →
      store_get (sn_retransmit_buf s) q = Some pkt →
      ∃ s' out y ts payload, on_rtcp s (dg_bytes d) addr recv_at clock net = Ok (s', out) ∧ y ∈ out ∧
        dg_to y = sn_remote_rtp_addr s ∧ (q, ts, payload) ∈ log ∧
        dg_bytes y = write_rtp_header (sn_ssrc s + 1) q ts ++ payload.

Lemma pump_answered r now sent pin q :
  receiver_inv pin r → rc_sender_rtcp_addr r ≠ None →
  q ∈ (get_pending_nacks (rc_nack_scheduler r) now (srtt (rc_rtt_estimator r))).2 → answered q (r, now, sent).
Proof using Type*.
  intros Hi Hd Hin. pose proof (ri_ok _ _ Hi) as Hr. destruct (rc_sender_rtcp_addr r) as [dest|] eqn:Ed; [|done].
  destruct (get_pending_nacks _ _ _) as [ns pending] eqn:Ep. cbn [snd] in Hin.
  assert (Hne : pending ≠ []) by (intros ->; destruct (not_elem_of_nil _ Hin)).
  destruct (pump_datagram r dest now sent ns pending Hr Ed Ep Hne) as (E1 & Hrr & _ & Hnk & Hsq).
  eexists. split; [exact E1|]. split.
  - eexists _, _. split; [by apply report_nack_parse|]. by apply build_bitmask_loop_elem.
  - intros s log addr recv_at cap clock net pkt Hlen Hs Hb Ht Hm Hg. rewrite Ep in Hlen. cbn [snd] in Hlen.
    destruct (arq_answer r s log dest addr now recv_at cap clock net ns pending sent Hr Ed Ep Hne Hlen Hs Hb Ht Hm)
      as (d & s' & out & H1 & _ & _ & H4 & H5). rewrite E1 in H1. injection H1 as <-.
    destruct (H5 q pkt Hin Hg) as (y & ts & payload & Hy & _ & Hto & Hl & _ & Hb').
    by exists s', out, y, ts, payload.
Qed.

(** (C4) A lost packet is asked for in every round.  While a number stays tracked as missing, each
    turn of the NACK pump that finds it due (and the 32-bit pending counter not wrapped to 0)
    sends one datagram that asks for it, until the retry limit is used up, whatever else the
    receiver handles in between (media, control datagrams, reports, drains, earlier pumps).
    Each such datagram is answered: when it names at most 501 numbers, a sender that gets it,
    admits its source, is the one the NACK names and still holds the packet resends the
    payload the application sent under the number.  (A request for more numbers may exceed
    the sender's buffer and is then lost as a whole, see [oversized_nack_is_lost].) *)
Theorem nack_rounds_persist (pin : option IpAddr) (q due c : Z) (r r' : Receiver)
    (l : list (Receiver * Z * bool)) :
  receiver_inv pin r → is_u16 q →
  tracked (rc_nack_scheduler r) q = Some (due, c) →
  c + Z.of_nat (length l) <= nc_max_retries (rc_nack_scheduler r) →
  rounds q r l r' →
  Forall (answered q) l ∧ ∃ due', tracked (rc_nack_scheduler r') q = Some (due', c + Z.of_nat (length l)).
Proof using Type*.
  intros Hi Hq Ht Hc Hr. revert due c Hi Ht Hc.
  induction Hr as [r|r evs r1 out del now sent l r' Hev E Hd Hs Hdue Hcnt _ IH]; intros due c Hi Ht Hc.
  { split; [constructor|]. exists due. rewrite Ht. do 2 f_equal. cbn. lia. }
  destruct (receiver_run_inv pin evs r Hi Hev) as (r2 & out2 & del2 & E2 & Hi1 & _).
  rewrite E in E2. injection E2 as <- _ _. rewrite Ht in Hs. cbn [length] in Hc.
  pose proof (run_retries _ _ _ _ _ E) as Hmax.
  destruct (pump_round r1 now sent pin q due c Hi1 Hd Hcnt Hq Hs (Hdue _ _ Hs) ltac:(lia)) as [Hin [due1 Ht1]].
  destruct (on_pump_inv pin r1 now sent Hi1) as (Hi2 & _).
  destruct (IH due1 (c + 1) Hi2 Ht1) as [H1 [due' H2]].
  { rewrite pump_retries, Hmax. lia. }
  split; [constructor; [by eapply pump_answered|done]|]. exists due'. rewrite H2. do 2 f_equal. cbn [length]. lia.
Qed.
End answer.

(** 6 is missing.  The first request goes out and is lost; 8 arrives and a report is sent; the
    second request goes out. *)
Definition after_events (r : Receiver) (evs : list receiver_event) : Receiver :=
  match receiver_run r evs with Ok (r', _, _) => r' | _ => r end.
Definition missing_six : Receiver :=
  after_events demo_pinned [EvRtpIn (demo_media 5) demo_source 10 10 [(demo_media 7, demo_source, 12)] 13].
Definition between_rounds : list receiver_event :=
  [EvRtpIn (demo_media 8) demo_source 25000000 25000000 [] 25000000; EvReport 40000000].
Definition second_round : Receiver := after_events (on_pump missing_six 20000013 true).1 between_rounds.

Lemma missing_six_inv : receiver_inv (Some (sa_ip demo_source)) missing_six.
Proof.
  pose proof (Receiver_new_inv 123456 [98] 100000000 10 1000000000 (Some demo_source) 0 0 true RistConnStats_new
    ltac:(ulia) ltac:(ulia) ltac:(repeat constructor; ulia) eq_refl ltac:(vm_compute; discriminate)) as Hi.
  destruct (receiver_run_inv _ [EvRtpIn (demo_media 5) demo_source 10 10 [(demo_media 7, demo_source, 12)] 13] _ Hi)
    as (r' & out & del & E & H & _).
  { apply Forall_singleton. split; [apply demo_media_ok; ulia|]. apply Forall_singleton, demo_media_ok. ulia. }
  unfold missing_six, after_events. fold demo_pinned in E. rewrite E. exact H.
Qed.

Lemma nack_rounds_persist_witness :
  ∃ r', rounds 6 missing_six [(missing_six, 20000013, true); (second_round, 50000000, false)] r' ∧
    tracked (rc_nack_scheduler missing_six) 6 = Some (20000013, 0) ∧
    Forall (answered (St:=RetransmitBuffer) 6) [(missing_six, 20000013, true); (second_round, 50000000, false)] ∧
    ∃ due, tracked (rc_nack_scheduler r') 6 = Some (due, 2).
Proof.
  assert (Ht : tracked (rc_nack_scheduler missing_six) 6 = Some (20000013, 0)) by (vm_compute; reflexivity).
  assert (Ht2 : tracked (rc_nack_scheduler second_round) 6 = Some (40000013, 1)) by (vm_compute; reflexivity).
  assert (Hr : rounds 6 missing_six [(missing_six, 20000013, true); (second_round, 50000000, false)]
    (on_pump second_round 50000000 false).1).
  { apply (rounds_cons 6 missing_six [] missing_six [] [] 20000013 true).
    - constructor.
    - reflexivity.
    - vm_compute. discriminate.
    - reflexivity.
    - intros due c H. rewrite Ht in H. injection H as <- _. lia.
    - vm_compute. discriminate.
    - destruct (receiver_run (on_pump missing_six 20000013 true).1 between_rounds) as [[[r1 o1] d1]|e|] eqn:E.
      + assert (E1 : second_round = r1) by (unfold second_round, after_events; rewrite E; reflexivity).
        apply (rounds_cons 6 _ between_rounds second_round o1 d1 50000000 false []); [|rewrite E1; exact E| | | | |constructor].
        * apply Forall_cons_2; [split; [apply demo_media_ok; ulia|constructor]|]. apply Forall_cons_2; [exact I|constructor].
        * vm_compute. discriminate.
        * vm_compute. reflexivity.
        * intros due c H. rewrite Ht2 in H. injection H as <- _. lia.
        * vm_compute. discriminate.
      + exfalso. assert (H : match receiver_run (on_pump missing_six 20000013 true).1 between_rounds with
          | Ok _ => true | _ => false end = true) by (vm_compute; reflexivity). rewrite E in H. discriminate H.
      + exfalso. assert (H : match receiver_run (on_pump missing_six 20000013 true).1 between_rounds with
          | Ok _ => true | _ => false end = true) by (vm_compute; reflexivity). rewrite E in H. discriminate H. }
  eexists. split; [exact Hr|]. split; [exact Ht|].
  assert (Hmax : nc_max_retries (rc_nack_scheduler missing_six) = 10) by (vm_compute; reflexivity).
  destruct (nack_rounds_persist (St:=RetransmitBuffer) (Some (sa_ip demo_source)) 6 20000013 0 missing_six
    (on_pump second_round 50000000 false).1 [(missing_six, 20000013, true); (second_round, 50000000, false)])
    as [H1 [due' H2]].
  - exact missing_six_inv.
  - ulia.
  - exact Ht.
  - rewrite Hmax. cbn [length]. lia.
  - exact Hr.
  - split; [exact H1|]. exists due'. rewrite H2. reflexivity.
Defined.
