(* ===== verification/Threads.v ===== *)
(** * The receive task and the delivery thread (rist-transport/src/receiver.rs)

    The two threads share the reorder buffer under a mutex, with a condition variable the
    receive task signals.  This file is their small-step semantics: a program counter per
    thread, one step per action another thread can observe (acquiring or releasing the
    mutex, reading the cancellation token, a critical section's work, waiting, notifying),
    and the environment (the clock, cancellation, arriving bursts, spurious wake-ups).
    [ThreadsProps] has the theorems. *)

From S2P Require Import Prelude Reorder Guard Receiver.

Inductive tid : Type := DrainThread | RecvTask.

(** Where [run_drain_thread] is.  It holds the mutex from [DCheck] to [DTimed], in [DDrop]
    and in [DUnlock]. *)
Inductive drain_pc : Type :=
  | DLock                              (** top of the loop: [shared.reorder.lock()] *)
  | DCheck                             (** [cancel.is_cancelled()] *)
  | DDrain                             (** [Instant::now()] and [drain_ready] *)
  | DNext                              (** nothing ready: [next_drain_time] *)
  | DTimed (deadline : Z)              (** compare the deadline with [Instant::now()] *)
  | DWait (until : option Z)           (** in [wait] or [wait_timeout], the mutex released *)
  | DRelock                            (** woken: the wait re-acquires the mutex *)
  | DDrop                              (** the guard is dropped, back to the top *)
  | DUnlock (scratch : list DrainItem) (** [drop(guard)] before delivering *)
  | DDeliver (scratch : list DrainItem)
  | DExit.

(** Where the receive task is, as far as the shared state goes; [RSelect] stands for every
    point of the loop outside the insertion of a batch.  It holds the mutex in [RInsert]. *)
Inductive recv_pc : Type :=
  | RSelect
  | RLock (batch : list ParsedRtp) (now : Z)
  | RInsert (batch : list ParsedRtp) (now : Z)
  | RNotify                            (** [signal.notify_one()] after the batch *)
  | RNotifyAll                         (** the loop was left: [signal.notify_all()] *)
  | RJoin                              (** [drain_handle.join()] *)
  | RDone.

(** The last five fields are observations: the arrivals inserted so far, everything drained so
    far, the packets the channel took, the packets reported as flushed by insertions, and the
    counters. *)
Record threads := mkThreads {
  th_clock : Z;
  th_cancel : bool;
  th_lock : option tid;
  th_reorder : ReorderBuffer;
  th_drain : drain_pc;
  th_recv : recv_pc;
  th_arrived : list (Z * bytes * Z);
  th_drained : list DrainItem;
  th_sent : list RistDelivered;
  th_flushed : Z;
  th_stats : RistConnStats
}.

Definition threads_init (buffer_size clock : Z) (stats : RistConnStats) : threads :=
  mkThreads clock false None (ReorderBuffer_new buffer_size) DLock RSelect [] [] [] 0 stats.

Definition set_drain (s : threads) (lock : option tid) (pc : drain_pc) : threads :=
  mkThreads (th_clock s) (th_cancel s) lock (th_reorder s) pc (th_recv s) (th_arrived s)
    (th_drained s) (th_sent s) (th_flushed s) (th_stats s).
Definition set_recv (s : threads) (lock : option tid) (pc : recv_pc) : threads :=
  mkThreads (th_clock s) (th_cancel s) lock (th_reorder s) (th_drain s) pc (th_arrived s)
    (th_drained s) (th_sent s) (th_flushed s) (th_stats s).

(** A step of the delivery thread; [None] when it is blocked or has returned.  [room] is the
    outcome of the [try_send], if the step makes one. *)
Definition drain_thread_step (room : bool) (s : threads) : option threads :=
  match th_drain s with
  | DLock =>
      match th_lock s with None => Some (set_drain s (Some DrainThread) DCheck) | Some _ => None end
  | DCheck =>
      if th_cancel s then Some (set_drain s None DExit) else Some (set_drain s (th_lock s) DDrain)
  | DDrain =>
      '(g, scratch) ← drain_ready (th_reorder s) (th_clock s) [];
      Some (mkThreads (th_clock s) (th_cancel s) (th_lock s) g
              (match scratch with [] => DNext | _ :: _ => DUnlock scratch end) (th_recv s)
              (th_arrived s) (th_drained s ++ scratch) (th_sent s) (th_flushed s) (th_stats s))
  | DNext =>
      match next_drain_time (th_reorder s) (th_clock s) with
      | None => Some (set_drain s None (DWait None))
      | Some deadline => Some (set_drain s (th_lock s) (DTimed deadline))
      end
  | DTimed deadline =>
      if th_clock s <? deadline then Some (set_drain s None (DWait (Some deadline)))
      else Some (set_drain s (th_lock s) DDrop)
  | DWait None => None
  | DWait (Some deadline) =>
      if deadline <=? th_clock s then Some (set_drain s (th_lock s) DRelock) else None
  | DRelock =>
      match th_lock s with None => Some (set_drain s (Some DrainThread) DDrop) | Some _ => None end
  | DDrop => Some (set_drain s None DLock)
  | DUnlock scratch => Some (set_drain s None (DDeliver scratch))
  | DDeliver [] => Some (set_drain s (th_lock s) DLock)
  | DDeliver (item :: rest) =>
      let '(sent, st) := deliver (λ _, room) 0 [item] (th_stats s) in
      Some (mkThreads (th_clock s) (th_cancel s) (th_lock s) (th_reorder s) (DDeliver rest)
              (th_recv s) (th_arrived s) (th_drained s) (th_sent s ++ sent) (th_flushed s) st)
  | DExit => None
  end.

(** [notify_one] and [notify_all]: the delivery thread is the only one that waits. *)
Definition notify (pc : drain_pc) : drain_pc := match pc with DWait _ => DRelock | _ => pc end.

Definition flushed_by (outcomes : list InsertOutcome) : Z :=
  foldr (λ o acc, io_overflow_flushed o + acc) 0 outcomes.

(** A step of the receive task; [None] when it is blocked, idle or has returned. *)
Definition recv_task_step (s : threads) : option threads :=
  match th_recv s with
  | RSelect => if th_cancel s then Some (set_recv s (th_lock s) RNotifyAll) else None
  | RLock batch now =>
      match th_lock s with None => Some (set_recv s (Some RecvTask) (RInsert batch now)) | Some _ => None end
  | RInsert batch now =>
      let '(g, outcomes) := insert_batch (th_reorder s) batch now in
      Some (mkThreads (th_clock s) (th_cancel s) None g (th_drain s) RNotify
              (th_arrived s ++ map (λ p, (pr_seq p, pr_payload p, now)) batch)
              (th_drained s) (th_sent s) (th_flushed s + flushed_by outcomes) (th_stats s))
  | RNotify => Some (set_recv (set_drain s (th_lock s) (notify (th_drain s))) (th_lock s) RSelect)
  | RNotifyAll => Some (set_recv (set_drain s (th_lock s) (notify (th_drain s))) (th_lock s) RJoin)
  | RJoin => match th_drain s with DExit => Some (set_recv s (th_lock s) RDone) | _ => None end
  | RDone => None
  end.

Inductive label : Type := LDrain | LRecv | LTick | LCancel | LArrival | LSpurious.
#[export] Instance label_eq_dec : EqDecision label.
Proof. solve_decision. Defined.

(** The interleavings.  A batch is what the receive task parsed from one burst ([on_rtp]): it
    is not empty and its sequence numbers are 16 bits wide; [now] is read before locking. *)
Inductive th_step : label → threads → threads → Prop :=
  | th_step_drain room s s' : drain_thread_step room s = Some s' → th_step LDrain s s'
  | th_step_recv s s' : recv_task_step s = Some s' → th_step LRecv s s'
  | th_step_tick s t :
      th_clock s <= t →
      th_step LTick s (mkThreads t (th_cancel s) (th_lock s) (th_reorder s) (th_drain s) (th_recv s)
        (th_arrived s) (th_drained s) (th_sent s) (th_flushed s) (th_stats s))
  | th_step_cancel s :
      th_step LCancel s (mkThreads (th_clock s) true (th_lock s) (th_reorder s) (th_drain s) (th_recv s)
        (th_arrived s) (th_drained s) (th_sent s) (th_flushed s) (th_stats s))
  | th_step_arrival s batch :
      th_recv s = RSelect → batch ≠ [] → Forall (λ p, is_u16 (pr_seq p)) batch →
      th_step LArrival s (set_recv s (th_lock s) (RLock batch (th_clock s)))
  | th_step_spurious s until :
      th_drain s = DWait until → th_step LSpurious s (set_drain s (th_lock s) DRelock).

(** Runs all of whose states before a step satisfy [ok]. *)
Inductive th_run (ok : threads → Prop) : list label → threads → threads → Prop :=
  | th_run_nil s : th_run ok [] s s
  | th_run_cons l ls s s' s'' :
      ok s → th_step l s s' → th_run ok ls s' s'' → th_run ok (l :: ls) s s''.
