(* ===== verification/ThreadsProps.v ===== *)
(** * Properties of the two receiver threads

    Mutual exclusion and the absence of lost data wake-ups, and the shutdown that can hang.
    [ThreadsOrder] has the order of delivery, [ThreadsLive] the progress of a due packet. *)

From stdpp Require Import relations.
From Stdlib Require Import Sorted.
From S2P Require Import Prelude Rtp Ring Reorder ReorderSpec ReorderProps Guard Receiver Threads.

(** ** What the waits rely on *)

Lemma insert_batch_shape batch now : ∀ b, same_shape b (insert_batch b batch now).1.
Proof.
  induction batch as [|p batch IH]; intros b; cbn [insert_batch]; [done|].
  pose proof (insert_shape b (pr_seq p) (pr_payload p) now) as [H1 H2].
  destruct (insert b _ _ now) as [b1 o]. specialize (IH b1). unfold same_shape in *.
  destruct (insert_batch b1 batch now) as [b2 os]. cbn in *. destruct IH. split; congruence.
Qed.

(** No deadline: nothing to drain, at any time. *)
Lemma no_deadline_idle b clock now :
  next_drain_time b clock = None → drain_ready b now [] = Some (b, []).
Proof.
  unfold drain_ready, next_drain_time. destruct drain_fuel_S as [f ->]. cbn [drain_loop].
  destruct (ro_base_seq b) as [base|]; [|done]. cbn [mbind option_bind].
  destruct (ro_highest_seq b) as [h|]; [|done].
  destruct (sl_seq _ =? base); cbn [negb]; [|done].
  destruct (sl_state _); [|done..]. by destruct (0 <? _).
Qed.

(** A deadline that lies in the future: nothing to drain before it. *)
Lemma before_deadline_idle b clock deadline now :
  0 < ro_buffer_time b → next_drain_time b clock = Some deadline → clock < deadline → now < deadline →
  drain_ready b now [] = Some (b, []).
Proof.
  intros Hbt. unfold drain_ready, next_drain_time. destruct drain_fuel_S as [f ->]. cbn [drain_loop].
  destruct (ro_base_seq b) as [base|]; [|done]. cbn [mbind option_bind].
  destruct (ro_highest_seq b) as [h|]; [|done].
  destruct (0 <? _); [done|]. destruct (sl_seq _ =? base); cbn [negb]; [|intros [= ->]; lia].
  unfold saturating_duration_since.
  destruct (sl_state _) as [|t|d t]; [done|..]; intros [= <-] ? ?; by rewrite (proj2 (Z.leb_gt _ _)) by lia.
Qed.

(** ** The invariant of every interleaving *)

Definition drain_holds (pc : drain_pc) : bool :=
  match pc with DCheck | DDrain | DNext | DTimed _ | DDrop | DUnlock _ => true | _ => false end.
Definition recv_holds (pc : recv_pc) : bool := match pc with RInsert _ _ => true | _ => false end.

(** Nothing leaves the buffer before [until]. *)
Definition idle_until (b : ReorderBuffer) (until : option Z) : Prop :=
  ∀ now, (∀ d, until = Some d → now < d) → drain_ready b now [] = Some (b, []).

Definition wait_ok (s : threads) : Prop :=
  match th_drain s with
  | DTimed d => th_clock s < d → idle_until (th_reorder s) (Some d)
  | DWait until => th_recv s = RNotify ∨ idle_until (th_reorder s) until
  | DExit => th_cancel s = true
  | _ => True
  end.

(** The owner of the mutex, as the program counters tell. *)
Definition owner (d : drain_pc) (r : recv_pc) : option tid :=
  if drain_holds d then Some DrainThread else if recv_holds r then Some RecvTask else None.

Record th_inv (s : threads) : Prop := {
  inv_hold : 0 < ro_buffer_time (th_reorder s);
  inv_lock : th_lock s = owner (th_drain s) (th_recv s);
  inv_mutex : drain_holds (th_drain s) && recv_holds (th_recv s) = false;
  inv_wait : wait_ok s
}.

(** The wait condition only looks at the buffer, at the two program counters and at whether
    cancellation was requested. *)
Lemma wait_ok_recv d r r' clk can lk g arr drd snt fl st lk' arr' drd' snt' fl' st' :
  r ≠ RNotify →
  wait_ok (mkThreads clk can lk g d r arr drd snt fl st) →
  wait_ok (mkThreads clk can lk' g d r' arr' drd' snt' fl' st').
Proof. unfold wait_ok; cbn. destruct d; try done. intros ? [?|?]; [done|by right]. Qed.

Lemma drain_thread_step_inv room s s' :
  th_inv s → drain_thread_step room s = Some s' → th_inv s'.
Proof.
  intros [Hb Hl Hm Hw]. destruct s as [clk can lk g dpc rpc arr drd snt fl st].
  unfold drain_thread_step, wait_ok, owner in *. cbn in *. subst lk.
  destruct dpc as [| | | |d|[d|]| | |scr|[|it scr]|]; cbn in *.
  - destruct (recv_holds rpc) eqn:E; [done|]. intros [= <-]. by split.
  - destruct can; intros [= <-]; split; cbn; unfold owner; cbn; by rewrite ?Hm.
  - destruct (drain_ready g clk []) as [[g' scr]|] eqn:Ed; [|done]. intros [= <-].
    apply drain_shape in Ed as [Ed _]. destruct scr; split; cbn; by rewrite ?Ed.
  - destruct (next_drain_time g clk) as [d|] eqn:En; intros [= <-]; split; cbn; try done.
    + intros ? now Hn. eapply before_deadline_idle; eauto.
    + unfold owner; cbn. by rewrite Hm.
    + right. intros now _. by eapply no_deadline_idle.
  - destruct (Z.ltb_spec clk d); intros [= <-]; split; cbn; try done; unfold owner; cbn; [by rewrite Hm|].
    right. by apply Hw.
  - destruct (d <=? clk); [|done]. intros [= <-]. by split.
  - done.
  - destruct (recv_holds rpc) eqn:E; [done|]. intros [= <-]. by split.
  - intros [= <-]. split; cbn; unfold owner; cbn; by rewrite ?Hm.
  - intros [= <-]. split; cbn; unfold owner; cbn; by rewrite ?Hm.
  - intros [= <-]. by split.
  - destruct (deliver (λ _, room) 0 [it] st) as [sn st'] eqn:E. cbn in E. rewrite E. intros [= <-]. by split.
  - done.
Qed.

Lemma recv_task_step_inv s s' : th_inv s → recv_task_step s = Some s' → th_inv s'.
Proof.
  intros [Hb Hl Hm Hw]. destruct s as [clk can lk g dpc rpc arr drd snt fl st].
  unfold recv_task_step, set_recv, set_drain. cbn in *.
  destruct rpc as [|bt now|bt now| | | |]; cbn in *.
  - destruct can; [|done]. intros [= <-]. split; cbn; try done. by eapply wait_ok_recv; [|exact Hw].
  - destruct lk; [done|]. intros [= <-]. unfold owner in Hl. destruct (drain_holds dpc) eqn:E; [done|].
    split; cbn; unfold owner; rewrite ?E; try done. by eapply wait_ok_recv; [|exact Hw].
  - pose proof (insert_batch_shape bt now g) as [Eg _].
    destruct (insert_batch g bt now) as [g' os]. intros [= <-]. rewrite andb_true_r in Hm.
    split; cbn in *; [by rewrite Eg|by unfold owner; rewrite Hm|by rewrite Hm|].
    unfold wait_ok. cbn. destruct dpc; try done. by left.
  - intros [= <-]. split; cbn; try done; destruct dpc; try done.
  - intros [= <-]. split; cbn; try done; destruct dpc; try done.
  - destruct dpc; [done..|]. intros [= <-]. by split.
  - done.
Qed.

Lemma th_step_inv l s s' : th_inv s → th_step l s s' → th_inv s'.
Proof.
  intros Hi Hs. destruct Hs as [room s s' E|s s' E|s t Ht|s|s batch Hr Hne Hb|s until Hd].
  - by eapply drain_thread_step_inv.
  - by eapply recv_task_step_inv.
  - destruct Hi as [Hb Hl Hm Hw]. split; try done. unfold wait_ok in *. cbn.
    destruct (th_drain s); try done. intros ?. apply Hw. lia.
  - destruct Hi as [Hb Hl Hm Hw]. split; try done. unfold wait_ok in *. cbn. by destruct (th_drain s).
  - destruct Hi as [Hh Hl Hm Hw]. rewrite Hr in *. split; cbn; try done.
    destruct s; cbn in *. subst. by eapply wait_ok_recv; [|exact Hw].
  - destruct Hi as [Hb Hl Hm Hw]. rewrite Hd in *. by split.
Qed.

Lemma th_run_inv ok ls s s' : th_inv s → th_run ok ls s s' → th_inv s'.
Proof. intros Hi Hr. induction Hr; [done|]. apply IHHr. by eapply th_step_inv. Qed.

Lemma threads_init_inv bt clock st : 0 < bt → th_inv (threads_init bt clock st).
Proof. by split. Qed.

(** (C8) Mutual exclusion and no lost data wake-up, in every interleaving of the two threads,
    of the clock, of cancellation and of spurious wake-ups (with a positive hold time): the
    mutex is held by the thread whose program counter says so and never by both; and while
    the delivery thread waits, with or without a time-out, either the receive task is about
    to notify it, or nothing in the buffer is due, or its time-out has expired so that it can
    run. *)
Theorem no_lost_wakeup (bt clock : Z) (st : RistConnStats) (ls : list label) (s : threads) :
  0 < bt → th_run (λ _, True) ls (threads_init bt clock st) s →
  th_lock s = owner (th_drain s) (th_recv s) ∧
  ~ (drain_holds (th_drain s) = true ∧ recv_holds (th_recv s) = true) ∧
  ∀ until, th_drain s = DWait until →
    th_recv s = RNotify ∨
    drain_ready (th_reorder s) (th_clock s) [] = Some (th_reorder s, []) ∨
    is_Some (drain_thread_step true s).
Proof.
  intros Hbt Hrun. destruct (th_run_inv _ _ _ _ (threads_init_inv bt clock st Hbt) Hrun) as [_ Hl Hm Hw].
  split; [done|]. split; [intros [H1 H2]; by rewrite H1, H2 in Hm|].
  intros w Hd. unfold wait_ok, drain_thread_step in *. rewrite Hd in *.
  destruct Hw as [?|Hi]; [by left|right]. destruct w as [d|]; [|by left; apply Hi].
  destruct (Z.leb_spec d (th_clock s)); [right; by eexists|left]. apply Hi. by intros ? [= <-].
Qed.

(** Evaluates a run given by its labels, all of whose states satisfy [okb]: the outcome of every
    [try_send] is success, the clock ticks by [dt], and arriving batches are taken from a
    list. *)
Definition th_eval (dt : Z) (l : label) (batches : list (list ParsedRtp)) (s : threads)
    : option (threads * list (list ParsedRtp)) :=
  match l with
  | LDrain => s' ← drain_thread_step true s; Some (s', batches)
  | LRecv => s' ← recv_task_step s; Some (s', batches)
  | LTick =>
      Some (mkThreads (th_clock s + dt) (th_cancel s) (th_lock s) (th_reorder s) (th_drain s) (th_recv s)
        (th_arrived s) (th_drained s) (th_sent s) (th_flushed s) (th_stats s), batches)
  | LCancel =>
      Some (mkThreads (th_clock s) true (th_lock s) (th_reorder s) (th_drain s) (th_recv s)
        (th_arrived s) (th_drained s) (th_sent s) (th_flushed s) (th_stats s), batches)
  | LArrival =>
      match th_recv s, batches with
      | RSelect, (p :: ps) :: batches =>
          if forallb (λ p, (0 <=? pr_seq p) && (pr_seq p <? 65536)) (p :: ps)
          then Some (set_recv s (th_lock s) (RLock (p :: ps) (th_clock s)), batches)
          else None
      | _, _ => None
      end
  | LSpurious =>
      match th_drain s with DWait _ => Some (set_drain s (th_lock s) DRelock, batches) | _ => None end
  end.

Fixpoint th_exec (okb : threads → bool) (dt : Z) (ls : list label) (batches : list (list ParsedRtp))
    (s : threads) : option threads :=
  match ls with
  | [] => Some s
  | l :: ls =>
      if okb s then '(s', batches') ← th_eval dt l batches s; th_exec okb dt ls batches' s' else None
  end.

Lemma th_eval_step dt l batches s s' batches' :
  0 <= dt → th_eval dt l batches s = Some (s', batches') → th_step l s s'.
Proof.
  intros Hdt. destruct l; cbn [th_eval].
  - destruct (drain_thread_step true s) as [s1|] eqn:E; [|done]. intros [= -> _]. by econstructor.
  - destruct (recv_task_step s) as [s1|] eqn:E; [|done]. intros [= -> _]. by econstructor.
  - intros [= <- _]. apply (th_step_tick s (th_clock s + dt)). lia.
  - intros [= <- _]. apply th_step_cancel.
  - destruct (th_recv s) eqn:Er; try done. destruct batches as [|[|p ps] batches]; try done.
    destruct (forallb _ (p :: ps)) eqn:Ef; [|done]. intros [= <- _].
    apply th_step_arrival; [done..|]. apply Forall_forall. intros q Hq.
    apply list_elem_of_In, (proj1 (forallb_forall _ (p :: ps)) Ef) in Hq.
    apply andb_true_iff in Hq as [?%Z.leb_le ?%Z.ltb_lt]. by split.
  - destruct (th_drain s) eqn:Ed; try done. intros [= <- _]. by eapply th_step_spurious.
Qed.

Lemma th_exec_run (ok : threads → Prop) okb dt ls :
  0 <= dt → (∀ s, okb s = true → ok s) →
  ∀ batches s s', th_exec okb dt ls batches s = Some s' → th_run ok ls s s'.
Proof.
  intros Hdt Hok. induction ls as [|l ls IH]; intros batches s s' H; cbn [th_exec] in H.
  - injection H as <-. constructor.
  - destruct (okb s) eqn:Eo; [|done]. destruct (th_eval dt l batches s) as [[s1 b1]|] eqn:E; [|done].
    econstructor; [by apply Hok|by eapply th_eval_step|by eapply IH].
Qed.

(** A packet arrives while the delivery thread is parked on the empty buffer, is inserted, and
    its notification wakes the thread, which then waits for the packet's deadline. *)
Definition demo_packet (seq : Z) (payload : bytes) : ParsedRtp :=
  mkParsedRtp seq 123456 0 payload 0 (blen payload) false.
Definition wake_labels : list label :=
  [LDrain; LDrain; LDrain; LDrain; LArrival; LRecv; LRecv; LRecv; LDrain; LDrain;
   LDrain; LDrain; LDrain; LDrain; LDrain; LTick].
Lemma no_lost_wakeup_witness :
  ∃ s, th_run (λ _, True) wake_labels (threads_init 1000 0 RistConnStats_new) s ∧
    th_drain s = DWait (Some 1000) ∧
    (th_recv s = RNotify ∨ drain_ready (th_reorder s) (th_clock s) [] = Some (th_reorder s, []) ∨
     is_Some (drain_thread_step true s)).
Proof.
  destruct (th_exec (λ _, true) 500 wake_labels [[demo_packet 7 [1]]]
    (threads_init 1000 0 RistConnStats_new)) as [s|] eqn:E; [|vm_compute in E; discriminate E].
  assert (Hd : th_drain s = DWait (Some 1000)).
  { transitivity (from_option th_drain DExit (Some s)); [reflexivity|]. rewrite <- E. vm_compute. reflexivity. }
  assert (Hr : th_run (λ _, True) wake_labels (threads_init 1000 0 RistConnStats_new) s)
    by (apply (th_exec_run _ (λ _, true) 500 wake_labels ltac:(lia) (λ _ _, I) _ _ _ E)).
  exists s. split; [exact Hr|]. split; [exact Hd|].
  exact (proj2 (proj2 (no_lost_wakeup 1000 0 RistConnStats_new wake_labels s ltac:(lia) Hr)) _ Hd).
Defined.

(** ** Shutdown *)

(** The steps the delivery thread makes in a run. *)
Definition drain_turns (ls : list label) : nat := length (filter (λ l, l = LDrain) ls).

Lemma drain_turns_cons l ls : drain_turns (l :: ls) = (drain_turns [l] + drain_turns ls)%nat.
Proof. unfold drain_turns. change (l :: ls) with ([l] ++ ls). by rewrite filter_app, length_app. Qed.

(** Between the check of the token and the wait. *)
Definition past_check (pc : drain_pc) : bool :=
  match pc with DDrain | DNext | DTimed _ => true | _ => false end.

(** Steps to the end of the thread when it neither waits nor is past the check. *)
Definition exit_steps (pc : drain_pc) : nat :=
  match pc with
  | DExit => 0
  | DCheck => 1
  | DLock => 2
  | DDrop => 3
  | DRelock => 4
  | DDeliver scr => 3 + length scr
  | DUnlock scr => 4 + length scr
  | DDrain | DNext | DTimed _ | DWait _ => 0
  end.

(** The socket is cancelled, the receive task has notified, and the delivery thread will read
    the token before it can wait. *)
Record leaving (s : threads) : Prop := {
  lv_inv : th_inv s;
  lv_cancel : th_cancel s = true;
  lv_recv : th_recv s = RJoin ∨ th_recv s = RDone;
  lv_drain : past_check (th_drain s) = false ∧ ∀ until, th_drain s ≠ DWait until
}.

Lemma leaving_step l s s' :
  leaving s → th_step l s s' →
  leaving s' ∧ (exit_steps (th_drain s') + drain_turns [l] <= exit_steps (th_drain s))%nat.
Proof.
  intros [Hi Hc Hr [Hp Hw]] Hs. pose proof (th_step_inv _ _ _ Hi Hs) as Hi'.
  destruct Hs as [room s s' E|s s' E|s t Ht|s|s batch Hrs Hne Hb|s until Hd];
    try (split; [by split|change (drain_turns _) with 0%nat; cbn; lia]).
  - revert E. unfold drain_thread_step.
    destruct (th_drain s) as [| | | |x|w| | |scr|[|it scr]|] eqn:Ed; try done; try (by destruct (Hw w)); rewrite ?Hc;
      change (drain_turns [LDrain]) with 1%nat; repeat case_match; intros [= <-]; (split; [by split|]); cbn; lia.
  - revert E. unfold recv_task_step. destruct Hr as [Hr|Hr]; rewrite Hr; [|done].
    destruct (th_drain s) eqn:Ed; try done. intros [= <-]. split; [|cbn [th_drain set_recv]; by rewrite Ed].
    split; cbn; [done|done|by right|by rewrite Ed].
  - exfalso. rewrite Hrs in Hr. by destruct Hr.
  - by destruct (Hw until).
Qed.

Lemma leaving_run ls s s' :
  leaving s → th_run (λ _, True) ls s s' →
  leaving s' ∧ (exit_steps (th_drain s') + drain_turns ls <= exit_steps (th_drain s))%nat.
Proof.
  intros Hl Hr. induction Hr as [s|l ls s s1 s2 _ Hs _ IH]; [split; [done|cbn; lia]|].
  destruct (leaving_step _ _ _ Hl Hs) as [H1 H2]. destruct (IH H1) as [H3 H4]. split; [done|].
  rewrite drain_turns_cons. lia.
Qed.

(** Such a thread is never blocked. *)
Lemma leaving_runs s : leaving s → th_drain s = DExit ∨ is_Some (drain_thread_step true s).
Proof.
  intros [[_ Hl _ _] _ Hr [Hp Hw]]. unfold drain_thread_step, owner in *.
  destruct (th_drain s) as [| | | |x|w| | |scr|[|it scr]|] eqn:Ed; try done; try by left.
  - right. destruct Hr as [Hr|Hr]; rewrite Hr in Hl; cbn in Hl; rewrite Hl; by eexists.
  - right. destruct (th_cancel s); by eexists.
  - by destruct (Hw w).
  - right. destruct Hr as [Hr|Hr]; rewrite Hr in Hl; cbn in Hl; rewrite Hl; by eexists.
  - right. by eexists.
  - right. by eexists.
  - right. by eexists.
  - right. destruct (deliver _ _ _ _). by eexists.
Qed.

Lemma leaving_exits ls s s' :
  leaving s → th_run (λ _, True) ls s s' → (exit_steps (th_drain s) <= drain_turns ls)%nat →
  th_drain s' = DExit ∧ (th_recv s' = RDone ∨ th_recv <$> recv_task_step s' = Some RDone).
Proof.
  intros Hl Hrun Hn. destruct (leaving_run _ _ _ Hl Hrun) as [[_ _ Hr [Hp Hw]] Hk].
  assert (Hd : th_drain s' = DExit).
  { destruct (th_drain s') as [| | | |x|w| | |scr|scr|] eqn:Ed; cbn in Hk; try done; try lia. by destruct (Hw w). }
  split; [done|]. destruct Hr as [Er|Er]; [right|by left]. unfold recv_task_step. by rewrite Er, Hd.
Qed.

(** What the final notification leads to, unless the thread is past its check. *)
Lemma notified_leaves s s' :
  th_inv s → th_cancel s = true → th_recv s = RNotifyAll → past_check (th_drain s) = false →
  recv_task_step s = Some s' → leaving s' ∧ th_recv s' = RJoin.
Proof.
  intros Hi Hc Hr Hp E. pose proof (recv_task_step_inv _ _ Hi E) as Hi'. revert E. unfold recv_task_step. rewrite Hr.
  intros [= <-]. split; [|done]. split; cbn; [done|done|by left|]. by destruct (th_drain s).
Qed.

Lemma parked_stays ls s s' :
  th_run (λ _, True) ls s s' → LSpurious ∉ ls → th_recv s = RJoin → th_drain s = DWait None →
  th_recv s' = RJoin ∧ th_drain s' = DWait None.
Proof.
  induction 1 as [s|l ls s s1 s2 _ Hs _ IH]; intros Hn Hr Hd; [done|].
  apply not_elem_of_cons in Hn as [Hl Hn].
  destruct Hs as [room s s' E|s s' E|s t Ht|s|s batch Hr' Hne Hb|s w Hw]; try by apply IH.
  - unfold drain_thread_step in E. by rewrite Hd in E.
  - unfold recv_task_step in E. by rewrite Hr, Hd in E.
  - by rewrite Hr in Hr'.
Qed.

(** The delivery thread checks the token and finds nothing to drain; the socket is closed, the
    receive task leaves its loop and notifies; only then does the delivery thread wait. *)
Definition shutdown_race : list label := [LDrain; LDrain; LDrain; LCancel; LRecv; LRecv; LDrain].

(** (C35) The wake-up at shutdown can be lost: from every initial state there is an interleaving,
    without spurious wake-ups, after which cancellation has been requested and yet in every
    continuation without spurious wake-ups the delivery thread stays parked on the condition
    variable and the receive task stays blocked in the join, so the task never ends.  The
    receive task notifies without holding the mutex, between the delivery thread's check
    of the token and its wait; the code's comments say that the notification makes the
    thread observe cancellation and exit.  That window is the only problem: when the final
    notification finds the delivery thread anywhere else, the thread can always run from
    then on, and after at most four of its own steps plus one per packet it is handing over
    it has exited and the join returns. *)
Theorem shutdown_wakeup_lost (bt clock : Z) (st : RistConnStats) :
  (∃ ls s, (LSpurious ∉ ls) ∧ th_run (λ _, True) ls (threads_init bt clock st) s ∧ th_cancel s = true ∧
    ∀ ls' s', LSpurious ∉ ls' → th_run (λ _, True) ls' s s' →
      th_recv s' = RJoin ∧ th_drain s' = DWait None) ∧
  (0 < bt → ∀ ls s s1 ls' s', th_run (λ _, True) ls (threads_init bt clock st) s →
    th_cancel s = true → th_recv s = RNotifyAll → past_check (th_drain s) = false →
    recv_task_step s = Some s1 → th_run (λ _, True) ls' s1 s' →
    (th_drain s' = DExit ∨ is_Some (drain_thread_step true s')) ∧
    ((exit_steps (th_drain s1) <= drain_turns ls')%nat →
     th_drain s' = DExit ∧ (th_recv s' = RDone ∨ th_recv <$> recv_task_step s' = Some RDone))).
Proof.
  split.
  - destruct (th_exec (λ _, true) 0 shutdown_race [] (threads_init bt clock st)) as [s|] eqn:E;
      [|vm_compute in E; discriminate E].
    assert (Hs : th_cancel s = true ∧ th_recv s = RJoin ∧ th_drain s = DWait None).
    { vm_compute in E. injection E as <-. done. }
    exists shutdown_race, s. destruct Hs as (Hc & Hr & Hd). split_and!.
    + by apply (bool_decide_unpack _).
    + by apply (th_exec_run _ (λ _, true) 0 shutdown_race ltac:(lia) (λ _ _, I) _ _ _ E).
    + done.
    + intros ls' s' Hn Hrun. by eapply parked_stays.
  - intros Hbt ls s s1 ls' s' Hrun0 Hc Hr Hp E Hrun.
    destruct (notified_leaves s s1) as [Hl _]; [|done..|].
    { exact (th_run_inv _ _ _ _ (threads_init_inv bt clock st Hbt) Hrun0). }
    split; [by eapply leaving_runs, leaving_run|]. by eapply leaving_exits.
Qed.
