(* ===== verification/ThreadsOrder.v ===== *)
(** * Order of delivery under concurrency

    Every interleaving of the receive task and the delivery thread is a run of the reorder
    buffer ([trace_step]), with the indices its ghost state gives to arrivals. *)

From stdpp Require Import relations.
From Stdlib Require Import Sorted.
From S2P Require Import Prelude Rtp Ring Reorder ReorderSpec ReorderProps Guard Receiver Threads ThreadsProps.

(** ** Every interleaving is a run of the reorder buffer *)

(** The insertions of a batch, none of which is the jump of [jump_after_drain_loses_packet]. *)
Fixpoint no_jump_batch (g : ReorderBuffer) (batch : list ParsedRtp) (now : Z) : bool :=
  match batch with
  | [] => true
  | p :: rest =>
      negb (jump_after_drain g (pr_seq p)) &&
      no_jump_batch (insert g (pr_seq p) (pr_payload p) now).1 rest now
  end.

Definition calmb (s : threads) : bool :=
  match th_recv s with RInsert batch now => no_jump_batch (th_reorder s) batch now | _ => true end.
Definition calm (s : threads) : Prop := calmb s = true.

Definition delivered_of (it : DrainItem) : option RistDelivered :=
  match it with Delivered d seq t => Some (mkRistDelivered d t seq) | Lost => None end.

(** Drained, but not yet offered to the channel. *)
Definition pending_items (pc : drain_pc) : list DrainItem :=
  match pc with DUnlock scr | DDeliver scr => scr | _ => [] end.

Definition recv_batch (pc : recv_pc) : list ParsedRtp :=
  match pc with RLock b _ | RInsert b _ => b | _ => [] end.

Record refines (bt : Z) (s : threads) (tr : trace) : Prop := {
  rf_reach : rtc trace_step (trace_init bt DEFAULT_CAPACITY) tr;
  rf_buf : t_buf tr = th_reorder s;
  rf_out : map snd (t_out tr) = th_drained s;
  rf_log : ∀ n d t, (n, d, t) ∈ t_log tr → (as_u16 n, d, t) ∈ th_arrived s;
  rf_batch : Forall (λ p, is_u16 (pr_seq p)) (recv_batch (th_recv s));
  rf_sent : ∃ offered, th_drained s = offered ++ pending_items (th_drain s) ∧
              sublist (th_sent s) (omap delivered_of offered)
}.

Lemma arrival_index_seq tr seq :
  trace_ok tr → is_u16 seq → as_u16 (arrival_index (t_buf tr) (t_base tr) seq) = seq.
Proof.
  intros Hok Hs. unfold arrival_index. destruct (ro_base_seq (t_buf tr)) as [base|] eqn:E.
  - pose proof (tr_base _ Hok base E) as ->. clear -Hs. ulia.
  - by apply as_u16_id.
Qed.

(** The runs of the buffer that the critical sections make. *)
Definition trace_insert (tr : trace) (p : ParsedRtp) (now : Z) : trace :=
  let b' := (insert (t_buf tr) (pr_seq p) (pr_payload p) now).1 in
  mkTrace b' (moved_base (t_buf tr) b' (t_base tr) (pr_seq p))
    ((arrival_index (t_buf tr) (t_base tr) (pr_seq p), pr_payload p, now) :: t_log tr) (t_out tr).
Definition trace_batch (tr : trace) (batch : list ParsedRtp) (now : Z) : trace :=
  foldl (λ tr p, trace_insert tr p now) tr batch.

(** One past the highest index in the buffer. *)
Definition trace_top (tr : trace) : option Z :=
  (λ q, t_base tr + Z.of_nat (length (q_cells q))) <$> abs (t_buf tr).

Lemma batch_refines bt now batch : ∀ tr,
  rtc trace_step (trace_init bt DEFAULT_CAPACITY) tr → Forall (λ p, is_u16 (pr_seq p)) batch →
  no_jump_batch (t_buf tr) batch now = true →
  let tr' := trace_batch tr batch now in
  rtc trace_step tr tr' ∧ t_buf tr' = (insert_batch (t_buf tr) batch now).1 ∧ t_out tr' = t_out tr ∧
  ∀ n d t, (n, d, t) ∈ t_log tr' → (n, d, t) ∈ t_log tr ∨
    (as_u16 n, d, t) ∈ map (λ p, (pr_seq p, pr_payload p, now)) batch.
Proof.
  induction batch as [|p batch IH]; intros tr Htr Hb Hj; cbn [insert_batch no_jump_batch] in *.
  { cbn. split_and!; try done. naive_solver. }
  apply Forall_cons in Hb as [Hp Hb]. apply andb_true_iff in Hj as [Hj1%negb_true_iff Hj2].
  assert (Hok : trace_ok tr) by (eapply trace_reachable; [|exact Htr]; unfold DEFAULT_CAPACITY; lia).
  pose proof (arrival_index_seq tr (pr_seq p) Hok Hp) as Hidx.
  assert (Hst : trace_step tr (trace_insert tr p now)) by (destruct tr; by apply step_insert).
  destruct (IH (trace_insert tr p now) (rtc_r _ _ _ Htr Hst) Hb Hj2) as (H1 & H2 & H3 & H4).
  change (trace_batch tr (p :: batch) now) with (trace_batch (trace_insert tr p now) batch now).
  cbn zeta. rewrite H2, H3. cbn [trace_insert t_buf t_log t_out] in *. destruct (insert (t_buf tr) _ _ now) as [b1 o].
  cbn [fst] in *. destruct (insert_batch b1 batch now) as [b2 os]. cbn [fst].
  split_and!; [by eapply rtc_l|done..|]. intros n d t [Hn|Hn]%H4.
  - apply elem_of_cons in Hn as [[= -> -> ->]|Hn]; [right|by left]. cbn [map]. apply elem_of_cons. left. by rewrite Hidx.
  - right. cbn [map]. by apply elem_of_cons; right.
Qed.

(** Draining moves the base and keeps the top. *)
Lemma drain_top tr now b' items :
  trace_ok tr → drain_ready (t_buf tr) now [] = Some (b', items) →
  trace_top (mkTrace b' (t_base tr + Z.of_nat (length items)) (t_log tr)
    (t_out tr ++ imap (λ i it, (t_base tr + Z.of_nat i, it)) items)) = trace_top tr.
Proof.
  intros Hok E. unfold trace_top. cbn [t_buf t_base]. pose proof (tr_wf _ Hok) as Hwf.
  destruct (abs (t_buf tr)) as [[base cells]|] eqn:Ea.
  - destruct (drain_ready_prefix _ base cells now [] Hwf Ea) as (b1 & n & E1 & Hn & _ & Ha & _).
    rewrite E in E1. injection E1 as <- ->. rewrite Ha. cbn. rewrite length_imap, length_take, length_drop. f_equal. lia.
  - unfold abs in Ea. unfold drain_ready in E. destruct drain_fuel_S as [f Ef]. rewrite Ef in E. cbn [drain_loop] in E.
    destruct (ro_base_seq (t_buf tr)) as [base|] eqn:E1; [destruct (ro_highest_seq (t_buf tr)) eqn:E2; [done|]|];
      injection E as <- <-; unfold abs; by rewrite E1, ?E2.
Qed.

(** What a step does to the run: the insertions of a batch, or nothing an index depends on. *)
Definition trace_effect (l : label) (s : threads) (tr tr' : trace) : Prop :=
  match l, th_recv s with
  | LRecv, RInsert batch now => tr' = trace_batch tr batch now
  | _, _ => t_log tr' = t_log tr ∧ trace_top tr' = trace_top tr
  end.

Lemma imap_snd {A} (f : nat → Z) (l : list A) : map snd (imap (λ i it, (f i, it)) l) = l.
Proof.
  revert f. induction l as [|x l IH]; intros f; [done|]. rewrite imap_cons. cbn [map snd]. f_equal. apply (IH (f ∘ S)).
Qed.

(** A step that leaves the buffer and the history alone. *)
Lemma refines_idle bt s s' tr :
  refines bt s tr → th_reorder s' = th_reorder s → th_drained s' = th_drained s →
  th_arrived s' = th_arrived s → th_sent s' = th_sent s →
  pending_items (th_drain s') = pending_items (th_drain s) →
  Forall (λ p, is_u16 (pr_seq p)) (recv_batch (th_recv s')) →
  refines bt s' tr.
Proof. intros [] E1 E2 E3 E4 E5 Hb. split; by rewrite ?E1, ?E2, ?E3, ?E4, ?E5. Qed.

Lemma deliver_one room it st :
  (deliver (λ _, room) 0 [it] st).1 =
    if room then match delivered_of it with Some p => [p] | None => [] end else [].
Proof. by destruct it, room. Qed.

Lemma drain_thread_step_refines bt room s s' tr :
  refines bt s tr → drain_thread_step room s = Some s' →
  ∃ tr', refines bt s' tr' ∧ t_log tr' = t_log tr ∧ trace_top tr' = trace_top tr.
Proof.
  intros Hr. pose proof Hr as [Hre Hbuf Hout Hlog Hbat (off & Hoff & Hsub)].
  unfold drain_thread_step. destruct (th_drain s) as [| | | |d|[d|]| | |scr|[|it scr]|] eqn:Ed;
    cbn [pending_items] in Hoff.
  3:{ destruct (drain_ready (th_reorder s) (th_clock s) []) as [[g scr]|] eqn:E; [|done]. intros [= <-].
      assert (Hok : trace_ok tr) by (eapply trace_reachable; [|exact Hre]; unfold DEFAULT_CAPACITY; lia).
      rewrite <- Hbuf in E. pose proof (drain_top tr _ _ _ Hok E) as Htop.
      destruct tr as [b B log out]. cbn [t_buf t_base t_out t_log] in *. subst b.
      eexists. split; [|split; [|exact Htop]; done]. split; cbn [t_buf t_out t_log th_reorder th_drained th_arrived th_sent th_drain th_recv];
        [eapply rtc_r; [exact Hre|]; by eapply step_drain|done|..|done|done|].
      - cbn [t_out]. rewrite map_app, Hout. f_equal. by rewrite (imap_snd (λ i, B + Z.of_nat i)).
      - exists off. rewrite Hoff, app_nil_r. split; [|done]. by destruct scr. }
  11:{ destruct (deliver (λ _, room) 0 [it] (th_stats s)) as [sn st'] eqn:E. intros [= <-].
       exists tr. split; [|done]. split; cbn; try done. exists (off ++ [it]). rewrite <- (app_assoc off). split; [done|].
       rewrite omap_app. apply sublist_app; [done|].
       pose proof (deliver_one room it (th_stats s)) as Hd. rewrite E in Hd. cbn in Hd. subst sn.
       cbn. destruct room, (delivered_of it); by repeat constructor. }
  1-10: try done; repeat (case_match; try done); intros [= <-]; exists tr; (split; [|done]);
    (apply (refines_idle bt s); [done..|by rewrite Ed|done]).
  done.
Qed.

Lemma recv_task_step_refines bt s s' tr :
  refines bt s tr → calm s → recv_task_step s = Some s' →
  ∃ tr', refines bt s' tr' ∧ trace_effect LRecv s tr tr'.
Proof.
  intros Hr Hc. pose proof Hr as [Hre Hbuf Hout Hlog Hbat Hsent].
  unfold recv_task_step, trace_effect. unfold calm, calmb in Hc. destruct (th_recv s) as [|bat now|bat now| | | |] eqn:Er;
    cbn [recv_batch] in Hbat.
  3:{ rewrite <- Hbuf in *. destruct (batch_refines bt now bat tr Hre Hbat Hc) as (H1 & H2 & H3 & H4).
      destruct (insert_batch (t_buf tr) bat now) as [g os]. cbn [fst] in H2. intros [= <-].
      eexists. split; [|done]. split; cbn -[trace_batch]; [by etransitivity|done|congruence|..|done|done].
      intros n d t [Hn|Hn]%H4; apply elem_of_app; [left; by apply Hlog|by right]. }
  1-2: repeat (case_match; try done); intros [= <-]; exists tr; split; [by apply (refines_idle bt s)|done].
  1-2: intros [= <-]; exists tr; split; [|done]; apply (refines_idle bt s); [done..| |done]; cbn; by destruct (th_drain s).
  - destruct (th_drain s) eqn:Ed; try done. intros [= <-]; exists tr. split; [by apply (refines_idle bt s)|done].
  - done.
Qed.

Lemma th_step_refines bt l s s' tr :
  refines bt s tr → calm s → th_step l s s' → ∃ tr', refines bt s' tr' ∧ trace_effect l s tr tr'.
Proof.
  intros Hr Hc Hs. pose proof (rf_batch _ _ _ Hr) as Hb.
  destruct Hs as [room s s' E|s s' E|s t Ht|s|s batch Hr' Hne Hb'|s w Hw];
    [by eapply drain_thread_step_refines|by eapply recv_task_step_refines|..];
    exists tr; (split; [apply (refines_idle bt s); try done; by rewrite ?Hw|done]).
Qed.

Lemma threads_init_refines bt clock st :
  refines bt (threads_init bt clock st) (trace_init bt DEFAULT_CAPACITY).
Proof.
  split; [apply rtc_refl|done|done| |constructor|by exists []].
  intros ? ? ? H. by apply not_elem_of_nil in H.
Qed.

Lemma th_run_refines bt clock st ls s :
  th_run calm ls (threads_init bt clock st) s → ∃ tr, refines bt s tr.
Proof.
  pose proof (threads_init_refines bt clock st) as H0.
  revert H0. generalize (trace_init bt DEFAULT_CAPACITY). generalize (threads_init bt clock st).
  intros s0 tr Hr Hrun. revert tr Hr. induction Hrun as [s0|l ls s0 s1 s2 Hc Hs _ IH]; intros tr Hr; [by exists tr|].
  destruct (th_step_refines bt l s0 s1 tr Hr Hc Hs) as (tr1 & Hr1 & _). by eapply IH.
Qed.

(** What the application sees, against the drained items with their indices. *)
Lemma sublist_indexed (out : list (Z * DrainItem)) offered sent pend :
  StronglySorted Z.lt (map fst out) → map snd out = offered ++ pend →
  sublist sent (omap delivered_of offered) →
  ∃ idx, StronglySorted Z.lt idx ∧
    Forall2 (λ n p, (n, Delivered (rd_data p) (rd_rtp_seq p) (rd_arrival p)) ∈ out) idx sent.
Proof.
  revert offered sent. induction out as [|[n it] out IH]; intros offered sent Hs He Hsub; cbn in *.
  { destruct offered; [|done]. apply sublist_nil_r in Hsub as ->. exists []. split; constructor. }
  apply StronglySorted_inv in Hs as [Hs Hall].
  destruct offered as [|it' offered]; cbn in *; [apply sublist_nil_r in Hsub as ->; exists []; split; constructor|].
  injection He as <- He.
  assert (Hw : ∀ idx l, Forall2 (λ n p, (n, Delivered (rd_data p) (rd_rtp_seq p) (rd_arrival p)) ∈ out) idx l →
    Forall2 (λ n' p, (n', Delivered (rd_data p) (rd_rtp_seq p) (rd_arrival p)) ∈ (n, it) :: out) idx l).
  { intros idx l H. eapply Forall2_impl; [exact H|]. intros. by apply elem_of_cons; right. }
  destruct it as [d seq t|]; cbn in Hsub.
  - apply sublist_cons_r in Hsub as [Hsub|(sent' & -> & Hsub)].
    + destruct (IH _ _ Hs He Hsub) as (idx & H1 & H2). exists idx. auto.
    + destruct (IH _ _ Hs He Hsub) as (idx & H1 & H2). exists (n :: idx). split.
      * constructor; [done|]. apply Forall_forall. intros m Hm.
        apply list_elem_of_lookup in Hm as [i Hi]. destruct (Forall2_lookup_l _ _ _ _ _ H2 Hi) as (p & _ & Hp).
        rewrite Forall_forall in Hall. apply Hall. apply (list_elem_of_fmap_2 fst _ _ Hp).
      * constructor; [by apply elem_of_cons; left|auto].
  - destruct (IH _ _ Hs He Hsub) as (idx & H1 & H2). exists idx. auto.
Qed.


(** Two bursts around a gap, delivered after the hold time. *)
Definition order_labels : list label :=
  [LArrival; LRecv; LRecv; LRecv; LArrival; LDrain; LDrain; LDrain; LDrain; LDrain; LRecv; LRecv; LTick;
   LRecv; LDrain; LDrain; LDrain; LDrain; LDrain; LDrain; LDrain; LDrain; LDrain].
