(* ===== verification/ThreadsLive.v ===== *)
(** * Progress of a due packet

    Once the head of the queue has been held long enough, the delivery thread hands it over
    after a bounded number of its own steps, whatever the other thread does. *)

From stdpp Require Import relations.
From Stdlib Require Import Sorted.
From S2P Require Import Prelude Rtp Ring Reorder ReorderSpec ReorderProps Guard Receiver Threads ThreadsProps ThreadsOrder.

(** ** Progress of a due packet *)

Lemma flush_oldest_mono mask base n : ∀ i slots f, f <= (flush_oldest mask base i n slots f).2.
Proof.
  induction n as [|n IH]; intros i slots f; cbn [flush_oldest]; [cbn; lia|].
  etransitivity; [|apply IH]. destruct (_ && _); lia.
Qed.

Lemma insert_flushed_nonneg b seq data now : 0 <= io_overflow_flushed (insert b seq data now).2.
Proof.
  unfold insert. destruct (ro_base_seq b) as [base|], (ro_highest_seq b); try done.
  destruct (_ <? 0); [done|]. unfold insert_tail.
  destruct (_ <? as_u16 _); [destruct (_ || _); [cbn; lia|]|].
  - match goal with |- context [flush_oldest ?m ?b ?i ?n ?s ?f] =>
      pose proof (flush_oldest_mono m b n i s f) as Hf; destruct (flush_oldest m b i n s f) as [sl fl] end.
    cbn [snd] in Hf. destruct (_ && _); [done|]. destruct (0 <? _); [|done].
    by destruct (mark_gaps _ _ _ _ _ _ _ _).
  - destruct (_ && _); [done|]. destruct (0 <? _); [|done]. by destruct (mark_gaps _ _ _ _ _ _ _ _).
Qed.

Lemma batch_flushed_nonneg batch now : ∀ b, 0 <= flushed_by (insert_batch b batch now).2.
Proof.
  induction batch as [|p batch IH]; intros b; cbn [insert_batch]; [done|].
  pose proof (insert_flushed_nonneg b (pr_seq p) (pr_payload p) now) as H.
  destruct (insert b _ _ now) as [b1 o]. specialize (IH b1).
  destruct (insert_batch b1 batch now) as [b2 os]. cbn in *. lia.
Qed.

Lemma count_filled_cons_pos d t cells : 0 < count_filled (SFilled d t :: cells).
Proof. unfold count_filled. cbn. lia. Qed.

(** The packet at the head of the queue stays there, unless the insertion reports a flush. *)
Lemma insert_keeps_head b seq data now base d t cells :
  wf b → is_u16 seq → jump_after_drain b seq = false →
  abs b = Some (mkQueue base (SFilled d t :: cells)) →
  let r := insert b seq data now in
  wf r.1 ∧ ((∃ cells', abs r.1 = Some (mkQueue base (SFilled d t :: cells'))) ∨ 0 < io_overflow_flushed r.2).
Proof.
  intros Hwf Hs Hj Ha. cbn zeta. destruct (insert_refines b seq data now Hwf Hs Hj) as (Hw & Hq & Ho).
  split; [done|]. rewrite Hq, Ho, Ha. unfold q_insert.
  destruct Hwf as [[_ Hcr _ _] _].
  assert (Hplace : ∀ off, 0 <= off → ∃ cells',
    (q_place base (SFilled d t :: cells) off data now 0).1 = mkQueue base (SFilled d t :: cells')).
  { intros off Hoff. unfold q_place. destruct (Z.to_nat off) as [|k]; cbn [lookup list_lookup]; [by eexists|].
    destruct (cells !! k) as [[]|]; by eexists. }
  destruct (Z.ltb_spec (as_i16 (wrapping_sub16 seq base)) 0); [left; by eexists|].
  destruct (Z.ltb_spec (as_i16 (wrapping_sub16 seq base)) (ro_capacity b)).
  { left. destruct (Hplace _ H) as [cells' E]. exists cells'. by rewrite E. }
  right. destruct (_ <=? _); [apply count_filled_cons_pos|].
  set (adv := as_i16 (wrapping_sub16 seq base) - (ro_capacity b - 1)) in *.
  assert (Ef : ∀ q cs fl, io_overflow_flushed (q_place q cs (ro_capacity b - 1) data now fl).2 = fl).
  { intros. unfold q_place. by destruct (cs !! _) as [[]|]. }
  rewrite Ef. destruct (Z.to_nat adv) as [|k] eqn:Ek; [lia|]. apply count_filled_cons_pos.
Qed.

Lemma batch_keeps_head now batch base d t : ∀ b cells,
  wf b → Forall (λ p, is_u16 (pr_seq p)) batch → no_jump_batch b batch now = true →
  abs b = Some (mkQueue base (SFilled d t :: cells)) →
  let r := insert_batch b batch now in
  0 < flushed_by r.2 ∨ ∃ cells', abs r.1 = Some (mkQueue base (SFilled d t :: cells')).
Proof.
  induction batch as [|p batch IH]; intros b cells Hwf Hb Hj Ha; cbn [insert_batch no_jump_batch] in *.
  { right. by eexists. }
  apply Forall_cons in Hb as [Hp Hb]. apply andb_true_iff in Hj as [Hj1%negb_true_iff Hj2].
  destruct (insert_keeps_head b (pr_seq p) (pr_payload p) now base d t cells Hwf Hp Hj1 Ha) as [Hw Hh].
  pose proof (insert_flushed_nonneg b (pr_seq p) (pr_payload p) now) as H0.
  destruct (insert b _ _ now) as [b1 o]. cbn [fst snd] in *.
  pose proof (batch_flushed_nonneg batch now b1) as H1. cbn zeta.
  assert (IH1 := λ cells', IH b1 cells' Hw Hb Hj2).
  destruct (insert_batch b1 batch now) as [b2 os]. cbn [fst snd] in *. unfold flushed_by in *. cbn [foldr].
  destruct Hh as [[cells' Ha']|?]; [|left; lia].
  destruct (IH1 cells' Ha') as [?|?]; [left; lia|by right].
Qed.

(** How many steps of the delivery thread remain, at most, before it drains the buffer, when
    something is due. *)
Definition steps_left (pc : drain_pc) : nat :=
  match pc with
  | DDrain => 1
  | DCheck => 2
  | DLock => 3
  | DDrop => 4
  | DRelock | DTimed _ => 5
  | DWait _ | DNext => 6
  | DDeliver scr => 4 + length scr
  | DUnlock scr => 5 + length scr
  | DExit => 0
  end.

(** Cancellation is final, and the histories only grow. *)
Definition th_grows (s s' : threads) : Prop :=
  (th_cancel s = true → th_cancel s' = true) ∧ th_flushed s <= th_flushed s' ∧
  ∃ more, th_drained s' = th_drained s ++ more.

Lemma th_grows_same s s' :
  (th_cancel s = true → th_cancel s' = true) → th_flushed s' = th_flushed s →
  th_drained s' = th_drained s → th_grows s s'.
Proof. intros H1 H2 H3. split_and!; [done|lia|]. exists []. by rewrite app_nil_r. Qed.

Lemma th_step_grows l s s' : th_step l s s' → th_grows s s'.
Proof.
  intros Hs. destruct Hs as [room s s' E|s s' E|s x Hx|s|s batch Hr' Hne Hb'|s w Hw]; try by apply th_grows_same.
  - unfold drain_thread_step in E. destruct (th_drain s) as [| | | |x|[x|]| | |scr|[|it scr]|].
    3:{ destruct (drain_ready _ _ _) as [[g scr]|]; [|done]. injection E as <-.
        split_and!; [done|cbn; lia|by exists scr]. }
    all: repeat (case_match; try done); simplify_eq; by apply th_grows_same.
  - unfold recv_task_step in E. destruct (th_recv s) as [|bat now|bat now| | | |].
    3:{ pose proof (batch_flushed_nonneg bat now (th_reorder s)).
        destruct (insert_batch _ bat now) as [g os]. injection E as <-. cbn [snd] in *.
        split_and!; [done|cbn [th_flushed]; lia|exists []; by rewrite app_nil_r]. }
    all: repeat (case_match; try done); simplify_eq; by apply th_grows_same.
Qed.

Lemma th_run_grows ok ls s s' : th_run ok ls s s' → th_grows s s'.
Proof.
  induction 1 as [s|l ls s s1 s2 _ Hs _ (H1 & H2 & more & H3)]; [by apply th_grows_same|].
  apply th_step_grows in Hs as (G1 & G2 & more' & G3).
  split_and!; [auto|lia|]. exists (more' ++ more). by rewrite H3, G3, app_assoc.
Qed.

Section progress.
Context (base : Z) (d : bytes) (t : Z).

(** The packet is at the head of the queue and has been held long enough. *)
Record due (s : threads) : Prop := {
  due_wf : wf (th_reorder s);
  due_head : ∃ cells, abs (th_reorder s) = Some (mkQueue base (SFilled d t :: cells));
  due_time : t + ro_buffer_time (th_reorder s) <= th_clock s
}.

(** The ways the wait can end. *)
Definition handled_since (s s' : threads) : Prop :=
  th_cancel s' = true ∨ th_flushed s < th_flushed s' ∨
  ∃ more, th_drained s' = th_drained s ++ Delivered d base t :: more.

Lemma due_drains s :
  due s → ∃ g more, drain_ready (th_reorder s) (th_clock s) [] = Some (g, Delivered d base t :: more).
Proof.
  intros [Hwf [cells Ha] Ht].
  destruct (drain_ready_prefix _ _ _ (th_clock s) [] Hwf Ha) as (g & n & E & _ & _ & _ & _ & Hn).
  destruct n as [|n].
  - specialize (Hn _ eq_refl). cbn in Hn. unfold saturating_duration_since in Hn. apply Z.leb_gt in Hn. lia.
  - rewrite E. cbn [take]. rewrite imap_cons. cbn [app cell_item].
    pose proof (wf_abs _ Hwf) as Hq. rewrite Ha in Hq. destruct Hq as (_ & Hb & _). cbn in Hb.
    replace (wrapping_add16 base (Z.of_nat 0)) with base by (clear -Hb; ulia). by eexists _, _.
Qed.

Lemma due_not_idle s w : due s → idle_until (th_reorder s) w → ∃ x, w = Some x ∧ x <= th_clock s.
Proof.
  intros Hd Hi. destruct (due_drains s Hd) as (g & more & E).
  destruct w as [x|]; [|by rewrite Hi in E by done].
  exists x. split; [done|]. apply Z.nlt_ge. intros ?. by rewrite Hi in E by (by intros ? [= <-]).
Qed.

(** The deadline of a due packet has passed. *)
Lemma due_deadline s : due s → ∃ x, next_drain_time (th_reorder s) (th_clock s) = Some x ∧ x <= th_clock s.
Proof.
  intros [Hwf [cells Ha] Ht]. destruct (next_drain_time_head _ _ _ _ (th_clock s) Hwf Ha) as [E _].
  eexists. by split.
Qed.

(** A due packet keeps the delivery thread going, or is handled; every step of the thread
    brings it closer. *)
Lemma drain_thread_step_due room s s' :
  th_inv s → due s → drain_thread_step room s = Some s' →
  handled_since s s' ∨
  due s' ∧ (steps_left (th_drain s') < steps_left (th_drain s))%nat ∧
    th_drained s' = th_drained s ∧ th_flushed s' = th_flushed s.
Proof.
  intros Hi Hd. assert (Hsame : ∀ lk pc, due (set_drain s lk pc)) by (intros; by destruct Hd; split).
  unfold drain_thread_step. destruct (th_drain s) as [| | | |x|[x|]| | |scr|[|it scr]|] eqn:Ed; cbn [steps_left].
  - destruct (th_lock s); [done|]. intros [= <-]. right. split_and!; done || cbn; lia.
  - destruct (th_cancel s) eqn:Ec; intros [= <-]; [by left; left|]. right. split_and!; done || cbn; lia.
  - destruct (due_drains s Hd) as (g & more & ->). intros [= <-]. left. right. right. by eexists.
  - destruct (due_deadline s Hd) as (x & -> & _). intros [= <-]. right. split_and!; done || cbn; lia.
  - pose proof (inv_wait _ Hi) as Hw. unfold wait_ok in Hw. rewrite Ed in Hw.
    destruct (Z.ltb_spec (th_clock s) x) as [Hlt|Hge]; intros [= <-].
    + destruct (due_not_idle s _ Hd (Hw Hlt)) as (? & [= <-] & ?). lia.
    + right. split_and!; done || cbn; lia.
  - destruct (x <=? th_clock s); [|done]. intros [= <-]. right. split_and!; done || cbn; lia.
  - done.
  - destruct (th_lock s); [done|]. intros [= <-]. right. split_and!; done || cbn; lia.
  - intros [= <-]. right. split_and!; done || cbn; lia.
  - intros [= <-]. right. split_and!; done || cbn; lia.
  - intros [= <-]. right. split_and!; done || cbn; lia.
  - destruct (deliver _ 0 [it] _) as [sn st']. intros [= <-]. right.
    split_and!; [by destruct Hd; split|cbn; lia|done..].
  - done.
Qed.

Lemma other_step_due l s s' tr bt :
  refines bt s tr → calm s → due s → th_step l s s' → l ≠ LDrain →
  handled_since s s' ∨
  due s' ∧ (steps_left (th_drain s') <= steps_left (th_drain s))%nat ∧
    th_drained s' = th_drained s ∧ th_flushed s <= th_flushed s'.
Proof.
  intros Hr Hc Hd Hs Hl. pose proof (rf_batch _ _ _ Hr) as Hb.
  destruct Hs as [room s s' E|s s' E|s x Hx|s|s batch Hr' Hne Hb'|s w Hw]; [done|..].
  - unfold recv_task_step in E. unfold calm, calmb in Hc.
    destruct (th_recv s) as [|bat now|bat now| | | |] eqn:Er; cbn [recv_batch] in Hb.
    + destruct (th_cancel s) eqn:Ec; [|done]. injection E as <-. left. by left.
    + destruct (th_lock s); [done|]. injection E as <-. right. split_and!; [by destruct Hd; split|done|done|cbn; lia].
    + destruct Hd as [Hwf [cells Ha] Ht].
      pose proof (batch_keeps_head now bat base d t _ cells Hwf Hb Hc Ha) as Hk.
      pose proof (batch_flushed_nonneg bat now (th_reorder s)) as H0.
      pose proof (insert_batch_shape bat now (th_reorder s)) as [Esh _].
      destruct (th_step_refines bt LRecv s s' tr Hr) as (tr' & Hr1 & _);
        [unfold calm, calmb; by rewrite Er|econstructor; unfold recv_task_step; rewrite Er; exact E|].
      assert (Hok : trace_ok tr') by (eapply trace_reachable; [|exact (rf_reach _ _ _ Hr1)]; unfold DEFAULT_CAPACITY; lia).
      pose proof (tr_wf _ Hok) as Hwf'. rewrite (rf_buf _ _ _ Hr1) in Hwf'.
      destruct (insert_batch (th_reorder s) bat now) as [g os]. cbn [fst snd] in *. injection E as <-.
      destruct Hk as [Hk|[cells' Ha']]; [left; right; left; cbn; lia|right].
      split_and!; [|done|done|cbn; lia]. split; cbn in *; [done|by eexists|by rewrite Esh].
    + injection E as <-. right. split_and!; [by destruct Hd; split| |done|cbn; lia]. cbn. destruct (th_drain s); cbn; lia.
    + injection E as <-. right. split_and!; [by destruct Hd; split| |done|cbn; lia]. cbn. destruct (th_drain s); cbn; lia.
    + destruct (th_drain s) eqn:Ed; try done. injection E as <-. right.
      split_and!; [by destruct Hd; split|cbn; rewrite Ed; cbn; lia|done|cbn; lia].
    + done.
  - right. split_and!; [|done|done|cbn; lia]. destruct Hd. split; cbn; try done. lia.
  - left. by left.
  - right. split_and!; [by destruct Hd; split|done|done|cbn; lia].
  - right. split_and!; [by destruct Hd; split| |done|cbn; lia]. rewrite Hw. cbn. lia.
Qed.

Lemma handled_grows s s1 s2 : handled_since s s1 → th_grows s1 s2 → handled_since s s2.
Proof.
  intros H (G1 & G2 & more & G3). destruct H as [?|[?|[more' ?]]]; [by left; auto|right; left; lia|right; right].
  exists (more' ++ more). rewrite G3, H. by rewrite <- app_assoc.
Qed.

Lemma due_run bt ls s s' : ∀ tr,
  th_inv s → refines bt s tr → due s → th_run calm ls s s' →
  handled_since s s' ∨ (steps_left (th_drain s') + drain_turns ls <= steps_left (th_drain s))%nat ∧ due s' ∧ th_inv s'.
Proof.
  intros tr Hi Hr Hd Hrun. revert tr Hi Hr Hd.
  induction Hrun as [s|l ls s s1 s2 Hc Hs Hrun IH]; intros tr Hi Hr Hd; [right; split_and!; [cbn; lia|done..]|].
  assert (Hgr := th_run_grows _ _ _ _ Hrun).
  pose proof (th_step_inv _ _ _ Hi Hs) as Hi1. destruct (th_step_refines bt l s s1 tr Hr Hc Hs) as (tr1 & Hr1 & _).
  assert (Hst : handled_since s s1 ∨
    due s1 ∧ (steps_left (th_drain s1) + drain_turns [l] <= steps_left (th_drain s))%nat ∧
    th_drained s1 = th_drained s ∧ th_flushed s <= th_flushed s1).
  { unfold drain_turns. destruct (decide (l = LDrain)) as [->|Hl].
    - inversion Hs as [room ? ? E| | | | |]; subst.
      destruct (drain_thread_step_due room s s1 Hi Hd E) as [?|(? & ? & ? & ?)]; [by left|right].
      rewrite filter_cons_True, filter_nil by done. split_and!; [done|cbn; lia|done|lia].
    - rewrite filter_cons_False, filter_nil by done.
      destruct (other_step_due l s s1 tr bt Hr Hc Hd Hs Hl) as [?|(? & ? & ? & ?)]; [by left|right].
      split_and!; [done|cbn; lia|done|lia]. }
  destruct Hst as [Hh|(Hd1 & Hk & Hdr & Hfl)]; [left; by eapply handled_grows|].
  destruct (IH tr1 Hi1 Hr1 Hd1) as [Hh|(Hk2 & Hd2 & Hi2)].
  - left. destruct Hh as [?|[?|[more ?]]]; [by left|right; left; lia|right; right; exists more; congruence].
  - right. split_and!; [|done..]. rewrite drain_turns_cons. lia.
Qed.
End progress.

(** (C9) A due packet is handed over: in every interleaving without an insertion of
    [jump_after_drain_loses_packet] ([calm]), once a packet at the head of the
    queue has been held for the buffer time, the delivery thread is able to run, or the
    receive task is about to release the mutex or to notify it and is itself able to run, or
    the socket was cancelled; and however the threads go on, as soon as the delivery thread
    has made as many steps as [steps_left] tells (at most six plus the packets it is handing
    over), the packet has been drained next in line, or an insertion reported a flush, or
    the socket was cancelled. *)
Theorem due_packet_progress (bt clock : Z) (st : RistConnStats) (ls0 ls : list label) (s s' : threads)
    (base : Z) (d : bytes) (t : Z) (cells : list SlotState) :
  0 < bt → th_run calm ls0 (threads_init bt clock st) s →
  abs (th_reorder s) = Some (mkQueue base (SFilled d t :: cells)) →
  t + ro_buffer_time (th_reorder s) <= th_clock s → th_run calm ls s s' →
  (is_Some (drain_thread_step true s) ∨
   is_Some (recv_task_step s) ∧ (th_lock s = Some RecvTask ∨ th_recv s = RNotify) ∨
   th_cancel s = true) ∧
  ((steps_left (th_drain s) <= drain_turns ls)%nat →
   th_cancel s' = true ∨ th_flushed s < th_flushed s' ∨
   ∃ more, th_drained s' = th_drained s ++ Delivered d base t :: more).
Proof.
  intros Hbt Hrun0 Ha Ht Hrun. pose proof (th_run_inv _ _ _ _ (threads_init_inv bt clock st Hbt) Hrun0) as Hi.
  destruct (th_run_refines bt clock st ls0 s Hrun0) as [tr Hr].
  assert (Hok : trace_ok tr) by (eapply trace_reachable; [|exact (rf_reach _ _ _ Hr)]; unfold DEFAULT_CAPACITY; lia).
  pose proof (tr_wf _ Hok) as Hwf. rewrite (rf_buf _ _ _ Hr) in Hwf.
  assert (Hd : due base d t s) by (split; [done|by eexists|done]).
  split.
  - pose proof Hi as [_ Hl Hm Hw]. unfold wait_ok, owner in *. unfold drain_thread_step, recv_task_step.
    destruct (due_drains base d t s Hd) as (g & more & Ed).
    destruct (th_drain s) as [| | | |x|[x|]| | |scr|[|it scr]|] eqn:Edr; cbn in Hl;
      try (left; repeat case_match; by eexists).
    + destruct (th_recv s); cbn in Hl; rewrite Hl; try (left; by eexists).
      right; left. split; [|by left]. destruct (insert_batch _ _ _). by eexists.
    + left. rewrite Ed. by eexists.
    + destruct Hw as [->|Hid]; [right; left; split; [by eexists|by right]|].
      destruct (due_not_idle base d t s _ Hd Hid) as (? & [= <-] & Hle). left. rewrite (proj2 (Z.leb_le _ _)) by done. by eexists.
    + destruct Hw as [->|Hid]; [right; left; split; [by eexists|by right]|].
      by destruct (due_not_idle base d t s _ Hd Hid) as (? & ? & _).
    + destruct (th_recv s); cbn in Hl; rewrite Hl; try (left; by eexists).
      right; left. split; [|by left]. destruct (insert_batch _ _ _). by eexists.
    + by right; right.
  - intros Hk. destruct (due_run base d t bt ls s s' tr Hi Hr Hd Hrun) as [?|(Hk2 & Hd2 & Hi2)]; [done|].
    assert (E0 : th_drain s' = DExit) by (destruct (th_drain s'); cbn in Hk2; done || lia).
    left. pose proof (inv_wait _ Hi2) as Hw. unfold wait_ok in Hw. by rewrite E0 in Hw.
Qed.

Lemma due_packet_progress_witness :
  ∃ s s', th_run calm [LArrival; LRecv; LRecv; LRecv; LTick] (threads_init 1000 0 RistConnStats_new) s ∧
    th_run calm [LDrain; LArrival; LDrain; LDrain] s s' ∧ th_cancel s' = false ∧
    (th_cancel s' = true ∨ th_flushed s < th_flushed s' ∨
     ∃ more, th_drained s' = th_drained s ++ Delivered [1] 7 0 :: more).
Proof.
  destruct (th_exec calmb 1000 [LArrival; LRecv; LRecv; LRecv; LTick] [[demo_packet 7 [1]]]
    (threads_init 1000 0 RistConnStats_new)) as [s|] eqn:E; [|vm_compute in E; discriminate E].
  destruct (th_exec calmb 1000 [LDrain; LArrival; LDrain; LDrain] [[demo_packet 8 [2]]] s) as [s'|] eqn:E';
    [|vm_compute in E; injection E as <-; vm_compute in E'; discriminate E'].
  assert (Hr0 : th_run calm [LArrival; LRecv; LRecv; LRecv; LTick] (threads_init 1000 0 RistConnStats_new) s)
    by (apply (th_exec_run _ calmb 1000 _ ltac:(lia) (λ _ H, H) _ _ _ E)).
  assert (Hr : th_run calm [LDrain; LArrival; LDrain; LDrain] s s')
    by (apply (th_exec_run _ calmb 1000 _ ltac:(lia) (λ _ H, H) _ _ _ E')).
  assert (Hs : (abs (th_reorder s), th_drain s, ro_buffer_time (th_reorder s), th_clock s, th_cancel s') =
    (Some (mkQueue 7 [SFilled [1] 0]), DLock, 1000, 1000, false)).
  { vm_compute in E. injection E as <-. vm_compute in E'. injection E' as <-. vm_compute. reflexivity. }
  injection Hs as Ha Hd Hb Hc Hx.
  exists s, s'. split; [exact Hr0|]. split; [exact Hr|]. split; [exact Hx|].
  apply (proj2 (due_packet_progress 1000 0 RistConnStats_new _ _ s s' 7 [1] 0 [] ltac:(lia) Hr0 Ha
    ltac:(rewrite Hb, Hc; lia) Hr)).
  rewrite Hd. vm_compute. lia.
Defined.
