(* ===== verification/Balance.v ===== *)
(** * The books of the receiver

    Where every packet that reaches the reorder buffer goes, and what the statistics say of
    it: packets received are delivered, still buffered, or counted as duplicates, drops or
    losses; sequence numbers marked as missing are recovered, given up, still missing, or
    were dropped by an overflow. *)

From S2P Require Import Prelude Float64 Rtp RtcpCodec RtcpReports RtcpNack RtcpApp Rtcp Reorder ReorderSpec ReorderProps NackSched Rtt RtcpState Guard Sender Receiver ReceiverProps ReceiverRun ThreadsProps ThreadsOrder.

(** ** The buffer *)

Definition gap_cell (c : SlotState) : bool := match c with SGap _ => true | _ => false end.
Definition count_gaps (cs : list SlotState) : Z := Z.of_nat (length (List.filter gap_cell cs)).

Definition q_list (q : option queue) : list SlotState := match q with Some q => q_cells q | None => [] end.
(** Packets waiting in the buffer, and numbers it waits for. *)
Definition buffered (b : ReorderBuffer) : Z := count_filled (q_list (abs b)).
Definition missing (b : ReorderBuffer) : Z := count_gaps (q_list (abs b)).

(** The cells an overflowing insertion drops. *)
Definition dropped_cells (b : ReorderBuffer) (seq : Z) : list SlotState :=
  match abs b with
  | Some (mkQueue base cells) =>
      let off := as_i16 (wrapping_sub16 seq base) in
      if off <? ro_capacity b then [] else take (Z.to_nat (off - (ro_capacity b - 1))) cells
  | None => []
  end.

Lemma count_gaps_app l l' : count_gaps (l ++ l') = count_gaps l + count_gaps l'.
Proof. unfold count_gaps. rewrite List.filter_app, length_app. lia. Qed.

Lemma count_gaps_replicate n t : count_gaps (replicate n (SGap t)) = Z.of_nat n.
Proof. unfold count_gaps. induction n; cbn [replicate List.filter gap_cell length]; lia. Qed.
Lemma count_filled_replicate n t : count_filled (replicate n (SGap t)) = 0.
Proof. unfold count_filled. by induction n. Qed.

Lemma counts_insert cells i c d t :
  cells !! i = Some c → filled_cell c = false →
  count_filled (<[i := SFilled d t]> cells) = count_filled cells + 1 ∧
  count_gaps (<[i := SFilled d t]> cells) = count_gaps cells - (if gap_cell c then 1 else 0).
Proof.
  intros Hl Hf. rewrite insert_take_drop by (by eapply lookup_lt_Some).
  assert (E1 : count_filled cells = count_filled (take i cells) + count_filled (c :: drop (S i) cells))
    by (by rewrite <- count_filled_app, take_drop_middle).
  assert (E2 : count_gaps cells = count_gaps (take i cells) + count_gaps (c :: drop (S i) cells))
    by (by rewrite <- count_gaps_app, take_drop_middle).
  rewrite count_filled_app, count_gaps_app, E1, E2. unfold count_filled, count_gaps.
  destruct c; [..|done]; cbn [List.filter filled_cell gap_cell length]; lia.
Qed.

Abbreviation one b := (if b : bool then 1 else 0).

Ltac open_outcome :=
  cbn [fst snd q_cells io_stale io_duplicate io_recovered io_new_gaps io_overflow_flushed].

(** What a placement does to the counts. *)
Lemma q_place_counts base cells off data now fl :
  0 <= off →
  let r := q_place base cells off data now fl in
  count_filled (q_cells r.1) + one (io_stale r.2) + one (io_duplicate r.2) = count_filled cells + 1 ∧
  count_gaps (q_cells r.1) + one (io_recovered r.2) = count_gaps cells + io_new_gaps r.2 ∧
  io_overflow_flushed r.2 = fl.
Proof.
  intros Ho. unfold q_place. destruct (cells !! Z.to_nat off) as [c|] eqn:E.
  - destruct c as [|t|d t]; open_outcome;
      [| |lia]; destruct (counts_insert cells _ _ data now E eq_refl) as [-> ->]; cbn [gap_cell]; lia.
  - apply lookup_ge_None in E. open_outcome.
    rewrite !count_filled_app, !count_gaps_app, count_gaps_replicate, count_filled_replicate.
    change (count_filled [SFilled data now]) with 1. change (count_gaps [SFilled data now]) with 0. lia.
Qed.

Lemma insert_counts b seq data now :
  wf b → is_u16 seq → jump_after_drain b seq = false →
  let r := insert b seq data now in
  wf r.1 ∧
  buffered r.1 + io_overflow_flushed r.2 + one (io_stale r.2) + one (io_duplicate r.2) = buffered b + 1 ∧
  missing r.1 + one (io_recovered r.2) + count_gaps (dropped_cells b seq) = missing b + io_new_gaps r.2 ∧
  io_overflow_flushed r.2 = count_filled (dropped_cells b seq).
Proof.
  intros Hwf Hs Hj. pose proof (wf_abs _ Hwf) as Hq. destruct Hwf as [[? Hcr ? ?] Hw].
  destruct (insert_refines b seq data now) as (Hwf' & Ha & Ho); [by split|done..|].
  cbn zeta. split; [done|]. unfold buffered, missing, dropped_cells. rewrite Ha, Ho.
  destruct (abs b) as [[base cells]|]; [|by cbn]. cbn [q_list q_cells q_insert].
  assert (Hoff : as_i16 (wrapping_sub16 seq base) < 32768) by ulia. set (off := as_i16 _) in *.
  assert (Ef : count_filled [] = 0) by done. assert (Eg : count_gaps [] = 0) by done.
  destruct (Z.ltb_spec off 0).
  { rewrite (proj2 (Z.ltb_lt off _)) by lia. open_outcome. lia. }
  destruct (Z.ltb_spec off (ro_capacity b)).
  { destruct (q_place_counts base cells off data now 0 ltac:(lia)) as (Hn1 & Hn2 & Hn3). lia. }
  destruct (Z.leb_spec (Z.of_nat (length cells)) (off - (ro_capacity b - 1))).
  { rewrite take_ge by lia. open_outcome. change (count_filled [SFilled data now]) with 1.
    change (count_gaps [SFilled data now]) with 0. lia. }
  set (adv := Z.to_nat _). destruct (q_place_counts (wrapping_add16 base (off - (ro_capacity b - 1))) (drop adv cells)
    (ro_capacity b - 1) data now (count_filled (take adv cells)) ltac:(lia)) as (Hn1 & Hn2 & Hn3).
  assert (E1 : count_filled cells = count_filled (take adv cells) + count_filled (drop adv cells))
    by (by rewrite <- count_filled_app, take_drop).
  assert (E2 : count_gaps cells = count_gaps (take adv cells) + count_gaps (drop adv cells))
    by (by rewrite <- count_gaps_app, take_drop). lia.
Qed.

(** What a drain does to the counts. *)
Definition count_delivered (items : list DrainItem) : Z :=
  foldr (λ it n, match it with Delivered _ _ _ => 1 + n | Lost => n end) 0 items.
Definition count_lost (items : list DrainItem) : Z :=
  foldr (λ it n, match it with Delivered _ _ _ => n | Lost => 1 + n end) 0 items.

Lemma imap_counts cells : ∀ f : nat → Z,
  (∀ c, c ∈ cells → c ≠ SEmpty) →
  count_delivered (imap (λ i c, cell_item (f i) c) cells) = count_filled cells ∧
  count_lost (imap (λ i c, cell_item (f i) c) cells) = count_gaps cells.
Proof.
  unfold count_filled, count_gaps, count_delivered, count_lost.
  induction cells as [|c cells IH]; intros f Hc; [done|]. cbn [imap].
  destruct (IH (f ∘ S) (λ x Hx, Hc x (list_elem_of_further _ _ _ Hx))) as [E1 E2]. unfold compose in *.
  pose proof (Hc c (list_elem_of_here _ _)) as Hne.
  destruct c; [done|..]; cbn [cell_item List.filter filled_cell gap_cell length foldr]; lia.
Qed.

Lemma cells_not_empty b base cells c : wf b → abs b = Some (mkQueue base cells) → c ∈ cells → c ≠ SEmpty.
Proof.
  intros [_ Hw] Ha Hc. unfold abs in Ha. destruct (ro_base_seq b) as [bs|], (ro_highest_seq b) as [h|]; try done.
  injection Ha as -> <-. unfold win_cells in Hc. apply list_elem_of_In, List.in_map_iff in Hc as (i & <- & Hi).
  apply list_elem_of_In, elem_of_seqZ in Hi. apply (win_in _ _ _ _ Hw). lia.
Qed.

Lemma drain_counts b now b' items :
  wf b → drain_ready b now [] = Some (b', items) →
  wf b' ∧ buffered b = buffered b' + count_delivered items ∧ missing b = missing b' + count_lost items.
Proof.
  intros Hwf E. pose proof (wf_abs _ Hwf) as Hq. unfold buffered, missing. destruct (abs b) as [[base cells]|] eqn:Ea.
  - destruct (drain_ready_prefix b base cells now [] Hwf Ea) as (b1 & n & Ed & Hn & Hwf' & Ha' & _).
    rewrite E in Ed. apply Some_inj, pair_equal_spec in Ed as [-> ->]. split; [done|]. rewrite Ha'. cbn [q_list q_cells app].
    assert (Hne : ∀ c, c ∈ take n cells → c ≠ SEmpty).
    { intros c Hc. apply (cells_not_empty b base cells c Hwf Ea). rewrite <- (take_drop n cells). apply elem_of_app. by left. }
    destruct (imap_counts (take n cells) (λ i, wrapping_add16 base (Z.of_nat i)) Hne) as [-> ->].
    assert (E1 : count_filled cells = count_filled (take n cells) + count_filled (drop n cells))
      by (by rewrite <- count_filled_app, take_drop).
    assert (E2 : count_gaps cells = count_gaps (take n cells) + count_gaps (drop n cells))
      by (by rewrite <- count_gaps_app, take_drop). lia.
  - unfold drain_ready in E. destruct drain_fuel_S as [f Ef]. rewrite Ef in E. cbn [drain_loop] in E.
    rewrite Hq in E. injection E as <- <-. by rewrite Ea.
Qed.

(** ** The receiver *)

(** The ghost books of a run: numbers marked as missing, missing numbers an overflow dropped,
    and missing numbers given up by a drain. *)
Record tally := mkTally { ta_marked : Z; ta_dropped : Z; ta_given_up : Z }.
Definition tally_add (a b : tally) : tally :=
  mkTally (ta_marked a + ta_marked b) (ta_dropped a + ta_dropped b) (ta_given_up a + ta_given_up b).
Definition no_tally : tally := mkTally 0 0 0.

Fixpoint batch_tally (g : ReorderBuffer) (batch : list ParsedRtp) (now : Z) : tally :=
  match batch with
  | [] => no_tally
  | p :: rest =>
      let '(g', o) := insert g (pr_seq p) (pr_payload p) now in
      tally_add (mkTally (io_new_gaps o) (count_gaps (dropped_cells g (pr_seq p))) 0) (batch_tally g' rest now)
  end.

(** The packets an event inserts ([rtp_burst_exact]). *)
Definition event_batch (r : Receiver) (ev : receiver_event) : list ParsedRtp * Z :=
  match ev with
  | EvRtpIn buf from arrived_at clock queue now =>
      if source_allowed from (rc_pinned_source_ip r) (rc_sender_rtp_addr r) (rc_rtp_peer_live r) arrived_at
      then (omap (parsed from (rc_epoch r)) ((buf, from, clock) :: take 31 queue), now) else ([], now)
  | _ => ([], 0)
  end.

Definition event_tally (r : Receiver) (ev : receiver_event) : tally :=
  let '(batch, now) := event_batch r ev in
  let t := batch_tally (rc_reorder r) batch now in
  match ev with
  | EvDrain now _ =>
      match drain_ready (rc_reorder r) now [] with Some (_, items) => mkTally 0 0 (count_lost items) | None => no_tally end
  | _ => t
  end.

Fixpoint run_tally (r : Receiver) (evs : list receiver_event) : tally :=
  match evs with
  | [] => no_tally
  | ev :: rest =>
      match receiver_step r ev with
      | Ok (r', _, _) => tally_add (event_tally r ev) (run_tally r' rest)
      | _ => no_tally
      end
  end.

(** No insertion of the run is the jump of [jump_after_drain_loses_packet]. *)
Fixpoint calm_run (r : Receiver) (evs : list receiver_event) : bool :=
  match evs with
  | [] => true
  | ev :: rest =>
      no_jump_batch (rc_reorder r) (event_batch r ev).1 (event_batch r ev).2 &&
      match receiver_step r ev with Ok (r', _, _) => calm_run r' rest | _ => true end
  end.

(** Equality of 64-bit counters, and the tactic that sums such equalities. *)
Definition eq64 (a b : Z) : Prop := ∃ k, a = b + k * 18446744073709551616.

Lemma eq64_as_u64 a b : eq64 a b → as_u64 a = as_u64 b.
Proof. intros [k ->]. unfold as_u64. apply Z.mod_add. lia. Qed.
Lemma fetch_add_eq64 c n : ∃ k, fetch_add c n = c + n + k * 18446744073709551616.
Proof. exists (- ((c + n) / 18446744073709551616)). unfold fetch_add, as_u64. rewrite Z.mod_eq by lia. lia. Qed.

Ltac sum64 :=
  repeat match goal with
  | |- context [fetch_add ?c ?n] =>
      let k := fresh "k" in let E := fresh "E" in destruct (fetch_add_eq64 c n) as [k E]; rewrite E; clear E
  end;
  unfold eq64 in *;
  repeat match goal with H : ∃ _, _ |- _ => destruct H end;
  match goal with |- ∃ k, ?a = ?b + k * ?m => exists ((a - b) / m) end;
  Z.to_euclidean_division_equations; lia.

(** The change of the books from [(b, st)] to [(b', st')], when [del] packets went to the
    application and [t] is the tally. *)
Record balanced (b : ReorderBuffer) (st : RistConnStats) (b' : ReorderBuffer) (st' : RistConnStats) (del : Z) (t : tally)
    : Prop := {
  bl_packets : eq64 (st_packets_received st' + st_duplicates st + st_reorder_drops st + st_packets_lost st + buffered b
      + ta_given_up t)
    (st_packets_received st + st_duplicates st' + st_reorder_drops st' + st_packets_lost st' + buffered b' + del);
  bl_gaps : eq64 (missing b + ta_marked t + st_packets_recovered st)
    (missing b' + ta_dropped t + ta_given_up t + st_packets_recovered st')
}.

Lemma balanced_trans b1 st1 b2 st2 b3 st3 d1 d2 t1 t2 :
  balanced b1 st1 b2 st2 d1 t1 → balanced b2 st2 b3 st3 d2 t2 → balanced b1 st1 b3 st3 (d1 + d2) (tally_add t1 t2).
Proof.
  intros [P1 G1] [P2 G2]. split; cbn [tally_add ta_marked ta_dropped ta_given_up]; [clear G1 G2|clear P1 P2]; sum64.
Qed.

(** The counters the books use. *)
Definition books (st : RistConnStats) : Z * Z * Z * Z * Z :=
  (st_packets_received st, st_duplicates st, st_reorder_drops st, st_packets_lost st, st_packets_recovered st).

Lemma balanced_same b st st' : books st' = books st → balanced b st b st' 0 no_tally.
Proof.
  intros H. injection H as E1 E2 E3 E4 E5. split; cbn [no_tally ta_marked ta_dropped ta_given_up]; rewrite ?E1, ?E2, ?E3, ?E4, ?E5;
    exists 0; lia.
Qed.

Lemma received_balanced g st p now :
  wf g → is_u16 (pr_seq p) → jump_after_drain g (pr_seq p) = false →
  let r := insert g (pr_seq p) (pr_payload p) now in
  wf r.1 ∧ balanced g st r.1 (stats_received st p r.2) 0
    (mkTally (io_new_gaps r.2) (count_gaps (dropped_cells g (pr_seq p))) 0).
Proof.
  intros Hwf Hp Hj. destruct (insert_counts g (pr_seq p) (pr_payload p) now Hwf Hp Hj) as (Hwf' & H1 & H2 & H3).
  cbn zeta in *. split; [done|]. destruct (insert g _ _ now) as [g' [stale dup rec gaps fl]]. revert H1 H2 H3. open_outcome. intros.
  assert (Hf : 0 <= fl) by (rewrite H3; unfold count_filled; lia).
  split; unfold stats_received;
    cbn [st_packets_received st_duplicates st_reorder_drops st_packets_lost st_packets_recovered ta_marked ta_dropped ta_given_up
      io_stale io_duplicate io_recovered io_new_gaps io_overflow_flushed]; clear H3 Hwf Hwf'.
  - clear H2. destruct (Z.ltb_spec 0 fl), dup, stale; sum64.
  - clear H1. destruct rec; sum64.
Qed.

Lemma batch_balanced now batch : ∀ g rs ns st,
  wf g → Forall (λ p, is_u16 (pr_seq p)) batch → no_jump_batch g batch now = true →
  let r := insert_batch g batch now in
  wf r.1 ∧ balanced g st r.1 (account_batch rs ns st (zip batch r.2) now).2 0 (batch_tally g batch now).
Proof.
  induction batch as [|p batch IH]; intros g rs ns st Hwf Hb Hj.
  { split; [done|]. by apply balanced_same. }
  apply Forall_cons in Hb as [Hp Hb]. cbn [no_jump_batch] in Hj. apply andb_true_iff in Hj as [Hj1%negb_true_iff Hj2].
  destruct (received_balanced g st p now Hwf Hp Hj1) as [Hwf1 H1]. cbn zeta in *. cbn [insert_batch batch_tally].
  destruct (insert g (pr_seq p) (pr_payload p) now) as [g1 o]. cbn [fst snd] in *.
  destruct (IH g1 (rr_on_packet_received rs (pr_seq p) (pr_rtp_ts p) (pr_arrival_us p) (io_duplicate o))
    (NackSched.on_packet_received ns (pr_seq p) now).1 (stats_received st p o) Hwf1 Hb Hj2) as [Hwf2 H2].
  destruct (insert_batch g1 batch now) as [g2 os]. cbn [fst snd zip zip_with account_batch] in *. split; [done|].
  exact (balanced_trans _ _ _ _ _ _ 0 0 _ _ H1 H2).
Qed.

Lemma deliver_books room items : ∀ k st,
  let r := deliver room k items st in
  eq64 (st_reorder_drops r.2 + Z.of_nat (length r.1)) (st_reorder_drops st + count_delivered items) ∧
  eq64 (st_packets_lost r.2) (st_packets_lost st + count_lost items) ∧
  st_packets_received r.2 = st_packets_received st ∧ st_duplicates r.2 = st_duplicates st ∧
  st_packets_recovered r.2 = st_packets_recovered st.
Proof.
  unfold count_delivered, count_lost.
  induction items as [|[d s a|] items IH]; intros k st; cbn [deliver foldr].
  - cbn. split_and!; [exists 0; lia..|done|done|done].
  - destruct (room k).
    + specialize (IH (S k) st). destruct (deliver room (S k) items st) as [l st']. cbn [fst snd length] in *.
      destruct IH as (H1 & H2 & H3). split_and!; [clear H2; sum64|done|apply H3..].
    + specialize (IH (S k) (stats_drained st 0 1)). destruct (deliver room (S k) items _) as [l st'].
      cbn [fst snd stats_drained st_reorder_drops st_packets_lost st_packets_received st_duplicates st_packets_recovered] in *.
      destruct IH as (H1 & H2 & H3). destruct (fetch_add_eq64 (st_reorder_drops st) 1) as [k1 E1].
      destruct (fetch_add_eq64 (st_packets_lost st) 0) as [k2 E2]. rewrite E1 in H1. rewrite E2 in H2.
      split_and!; [clear H2 E2; sum64|clear H1 E1; sum64|apply H3..].
  - specialize (IH k (stats_drained st 1 0)). destruct (deliver room k items _) as [l st'].
    cbn [fst snd stats_drained st_reorder_drops st_packets_lost st_packets_received st_duplicates st_packets_recovered] in *.
    destruct IH as (H1 & H2 & H3). destruct (fetch_add_eq64 (st_reorder_drops st) 0) as [k1 E1].
    destruct (fetch_add_eq64 (st_packets_lost st) 1) as [k2 E2]. rewrite E1 in H1. rewrite E2 in H2.
    split_and!; [clear H2 E2; sum64|clear H1 E1; sum64|apply H3..].
Qed.

Lemma controls_books clock from now ps : ∀ i self out,
  let r := (handle_controls clock from now i ps self out).1 in
  rc_reorder r = rc_reorder self ∧ books (rc_stats r) = books (rc_stats self).
Proof.
  induction ps as [|p ps IH]; intros i self out; cbn [handle_controls]; [done|].
  destruct (handle_control clock from now i p self) as [self' ds] eqn:E. cbn zeta.
  assert (H : rc_reorder self' = rc_reorder self ∧ books (rc_stats self') = books (rc_stats self)).
  { revert E. unfold handle_control. destruct p as [sr|rr|sdes|nack|[req|resp|nack|st data]|pt data]; try by intros [= <- _].
    destruct (srtt _); by intros [= <- _]. }
  destruct H as [<- <-]. apply IH.
Qed.

(** The events that insert and drain nothing. *)
Lemma other_books r ev r' out del :
  match ev with EvControlIn _ _ _ _ | EvPump _ _ | EvReport _ => True | _ => False end →
  receiver_step r ev = Ok (r', out, del) →
  del = [] ∧ rc_reorder r' = rc_reorder r ∧ books (rc_stats r') = books (rc_stats r).
Proof.
  intros Hev. destruct ev as [| buf from now clock|now sent|now|]; try done; cbn [receiver_step].
  - unfold on_control. destruct (negb _); [by intros [= <- _ <-]|].
    destruct (RtcpCompound_parse _) as [[|p ps]|e|]; [by intros [= <- _ <-]| |by intros [= <- _ <-]|done].
    match goal with |- mbind _ (Ok (handle_controls ?c ?f ?n ?i ?l ?s ?o)) = _ → _ =>
      pose proof (controls_books c f n l i s o) as H; destruct (handle_controls c f n i l s o) as [r1 o1] end.
    cbn [mbind exec_bind]. intros [= <- _ <-]. by destruct H.
  - unfold on_pump. destruct (rc_sender_rtcp_addr r); [|by intros [= <- _ <-]].
    destruct (get_pending_nacks _ _ _) as [ns [|q l]]; [by intros [= <- _ <-]|].
    destruct (generate_rr _ _) as [rs rr]. intros [= <- _ <-]. by destruct sent.
  - unfold on_report. destruct (rc_sender_rtcp_addr r); [|by intros [= <- _ <-]]. destruct (generate_rr _ _) as [rs rr].
    destruct (_ && _); [destruct (generate_request (rc_rtt_estimator r) now) as [rtt [msw lsw]]|]; by intros [= <- _ <-].
Qed.

Lemma rtp_books r buf from arrived_at clock queue now r' out del :
  let ev := EvRtpIn buf from arrived_at clock queue now in
  wf (rc_reorder r) → event_ok ev → no_jump_batch (rc_reorder r) (event_batch r ev).1 (event_batch r ev).2 = true →
  receiver_step r ev = Ok (r', out, del) →
  del = [] ∧ wf (rc_reorder r') ∧ balanced (rc_reorder r) (rc_stats r) (rc_reorder r') (rc_stats r') 0 (event_tally r ev).
Proof.
  intros ev Hwf [Hb Hq] Hj E. subst ev. unfold event_tally, event_batch in *. cbn [receiver_step] in *.
  rewrite on_rtp_eq in E by done.
  destruct (source_allowed _ _ _ _ _); cbn [mbind exec_bind fst snd] in *.
  2:{ injection E as <- _ <-. split; [done|]. split; [done|]. by apply balanced_same. }
  assert (Hall : Forall (λ q, bytes_ok q.1.1) ((buf, from, clock) :: take 31 queue))
    by (constructor; [done|by apply Forall_take]).
  set (batch := omap _ _) in *. set (r1 := observe _ _) in *.
  assert (Hr1 : rc_reorder r1 = rc_reorder r ∧ rc_stats r1 = rc_stats r).
  { subst r1. unfold observe, latch. destruct (parsed _ _ _); by case_bool_decide. }
  destruct Hr1 as [Eg Es].
  assert (Hbt : Forall (λ p, is_u16 (pr_seq p)) batch).
  { apply Forall_forall. intros p (q & Hin & Hp)%list_elem_of_omap.
    eapply parsed_range_rtp; [|exact Hp]. by eapply (Forall_forall _ _) in Hall. }
  injection E as <- _ <-. split; [done|]. clearbody batch r1. rewrite <- Eg, <- Es in *.
  destruct batch as [|p0 batch0]; [split; [done|]; by apply balanced_same|]. set (batch := p0 :: batch0) in *. unfold process_batch.
  destruct (batch_balanced now batch (rc_reorder r1) (rc_rtcp_state r1) (rc_nack_scheduler r1) (rc_stats r1) Hwf Hbt Hj) as [H1 H2].
  destruct (insert_batch _ _ _) as [g os]. cbn [fst snd] in *.
  destruct (account_batch _ _ _ _ _) as [[rs ns] st]. cbn [rc_reorder rc_stats fst snd] in *. split; [done|].
  destruct H2 as [P G]. by split.
Qed.

Lemma step_balanced r ev r' out del :
  wf (rc_reorder r) → event_ok ev → no_jump_batch (rc_reorder r) (event_batch r ev).1 (event_batch r ev).2 = true →
  receiver_step r ev = Ok (r', out, del) →
  wf (rc_reorder r') ∧
  balanced (rc_reorder r) (rc_stats r) (rc_reorder r') (rc_stats r') (Z.of_nat (length del)) (event_tally r ev).
Proof.
  intros Hwf Hev Hj E. assert (Hother : match ev with EvControlIn _ _ _ _ | EvPump _ _ | EvReport _ => True | _ => False end →
    wf (rc_reorder r') ∧ balanced (rc_reorder r) (rc_stats r) (rc_reorder r') (rc_stats r') (Z.of_nat (length del)) no_tally).
  { intros H. destruct (other_books r ev r' out del H E) as (-> & -> & Hb). split; [done|]. by apply balanced_same. }
  destruct ev as [buf from arrived_at clock queue now|buf from now clock|now sent|now|now room]; try exact (Hother I).
  - destruct (rtp_books r buf from arrived_at clock queue now r' out del Hwf Hev Hj E) as (-> & H1 & H2). done.
  - cbn [receiver_step event_tally event_batch] in *.
    destruct (drain_ready (rc_reorder r) now []) as [[g items]|] eqn:Ed; [|done].
    destruct (drain_counts _ _ _ _ Hwf Ed) as (Hwf' & H1 & H2).
    destruct (deliver_books room items 0 (rc_stats r)) as (H3 & H4 & H5 & H6 & H7).
    destruct (deliver room 0 items (rc_stats r)) as [l st]. cbn [fst snd] in *. injection E as <- _ <-.
    split; [done|]. split; cbn [set_reorder rc_reorder rc_stats ta_marked ta_dropped ta_given_up]; rewrite ?H5, ?H6, ?H7.
    + clear H2 H5 H6 H7. sum64.
    + exists 0. lia.
Qed.

Lemma run_balanced evs : ∀ r r' out del,
  wf (rc_reorder r) → Forall event_ok evs → calm_run r evs = true → receiver_run r evs = Ok (r', out, del) →
  balanced (rc_reorder r) (rc_stats r) (rc_reorder r') (rc_stats r') (Z.of_nat (length del)) (run_tally r evs).
Proof.
  induction evs as [|ev evs IH]; intros r r' out del Hwf Hev Hc E; cbn [receiver_run run_tally calm_run] in *.
  { injection E as <- _ <-. by apply balanced_same. }
  apply Forall_cons in Hev as [He Hev]. apply andb_true_iff in Hc as [Hj Hc].
  destruct (receiver_step r ev) as [[[r1 out1] del1]|x|] eqn:E1; [|done..]. cbn [mbind exec_bind] in E.
  destruct (receiver_run r1 evs) as [[[r2 out2] del2]|x|] eqn:E2; [|done..]. cbn [mbind exec_bind] in E. injection E as <- _ <-.
  destruct (step_balanced r ev r1 out1 del1 Hwf He Hj E1) as [Hwf1 H1].
  rewrite length_app, Nat2Z.inj_add. eapply balanced_trans; [exact H1|]. by eapply IH.
Qed.

(** (C18) The receiver's statistics balance.  Over every run of a fresh receiver (bursts, control
    datagrams, timers, drains) in which no insertion is the jump of
    [jump_after_drain_loses_packet] (which overwrites a received packet that no counter shows),
    modulo 2^64: the packets received are those handed to the
    application, those still buffered, the duplicates, the drops (stale arrivals and a full
    channel) and the losses that were packets, which is all of [packets_lost] but the missing
    numbers given up; and the numbers marked as missing are those recovered, those given up,
    those still missing, and those an overflow dropped, which no counter shows. *)
Theorem statistics_balance (rssrc : Z) (cname : bytes) (interval retries hold : Z) (remote : option SocketAddr)
    (clock epoch : Z) (echo : bool) (evs : list receiver_event) (r' : Receiver) (out : list datagram)
    (del : list RistDelivered) :
  let r := Receiver_new rssrc cname interval retries hold remote clock epoch echo RistConnStats_new in
  Forall event_ok evs → calm_run r evs = true → receiver_run r evs = Ok (r', out, del) →
  let st := rc_stats r' in let t := run_tally r evs in
  as_u64 (st_packets_received st + ta_given_up t) =
    as_u64 (Z.of_nat (length del) + buffered (rc_reorder r') + st_duplicates st + st_reorder_drops st + st_packets_lost st) ∧
  as_u64 (ta_marked t) =
    as_u64 (st_packets_recovered st + ta_given_up t + missing (rc_reorder r') + ta_dropped t).
Proof.
  cbn zeta. set (r := Receiver_new _ _ _ _ _ _ _ _ _ _). intros Hev Hc E.
  assert (Hwf : wf (rc_reorder r)) by (apply with_capacity_wf; unfold DEFAULT_CAPACITY; lia).
  destruct (run_balanced evs r r' out del Hwf Hev Hc E) as [P G].
  assert (Hb : buffered (rc_reorder r) = 0) by (subst r; by vm_compute).
  assert (Hm : missing (rc_reorder r) = 0) by (subst r; by vm_compute).
  rewrite Hb in P. rewrite Hm in G.
  change (rc_stats r) with RistConnStats_new in *. cbn [RistConnStats_new st_packets_received st_duplicates st_reorder_drops
    st_packets_lost st_packets_recovered] in P, G.
  split; apply eq64_as_u64; [clear G|clear P]; sum64.
Qed.

Definition books_media (seq : Z) : bytes := write_rtp_header 287454020 seq 0 ++ [71].
Lemma books_media_ok seq : is_u16 seq → bytes_ok (books_media seq).
Proof. intros Hs. unfold books_media, bytes_ok. cbn. repeat constructor; unfold is_u8 in *; ulia. Qed.

(** 5 and 7 arrive, then 8300, far beyond the ring, which drops both and the missing 6; then a
    copy of 8300, the stale 8299, and 8302; the drain finds room for one packet only. *)
Definition books_events : list receiver_event :=
  [EvRtpIn (books_media 5) demo_source 10 10 [(books_media 7, demo_source, 12)] 13;
   EvRtpIn (books_media 8300) demo_source 20 20
     [(books_media 8300, demo_source, 21); (books_media 8299, demo_source, 22); (books_media 8302, demo_source, 23)] 24;
   EvPump 30000000 true; EvReport 40000000; EvDrain 2000000013 (λ k, Nat.eqb k 0)].
Definition books_receiver : Receiver :=
  Receiver_new 123456 [98] 100000000 10 1000000000 (Some demo_source) 0 0 true RistConnStats_new.

Lemma books_events_ok : Forall event_ok books_events.
Proof.
  assert (H : ∀ seq from clock, is_u16 seq → bytes_ok ((books_media seq, from : SocketAddr, clock : Z).1.1))
    by (intros; by apply books_media_ok).
  apply Forall_cons_2; [split; [apply books_media_ok; ulia|apply Forall_cons_2; [apply H; ulia|apply Forall_nil_2]]|].
  apply Forall_cons_2.
  { split; [apply books_media_ok; ulia|]. do 3 (apply Forall_cons_2; [apply H; ulia|]). apply Forall_nil_2. }
  do 3 (apply Forall_cons_2; [exact I|]). apply Forall_nil_2.
Qed.

Lemma statistics_balance_witness :
  ∃ r' out del, receiver_run books_receiver books_events = Ok (r', out, del) ∧
    map rd_rtp_seq del = [8300] ∧ books (rc_stats r') = (6, 1, 2, 3, 0) ∧
    run_tally books_receiver books_events = mkTally 2 1 1 ∧
    as_u64 (6 + 1) = as_u64 (1 + buffered (rc_reorder r') + 1 + 2 + 3).
Proof.
  assert (Hc : match receiver_run books_receiver books_events with
               | Ok (r, o, l) => (map rd_rtp_seq l, books (rc_stats r)) | _ => ([], (0, 0, 0, 0, 0)) end =
               ([8300], (6, 1, 2, 3, 0))) by (vm_compute; reflexivity).
  assert (Ht : run_tally books_receiver books_events = mkTally 2 1 1) by (vm_compute; reflexivity).
  assert (Hj : calm_run books_receiver books_events = true) by (vm_compute; reflexivity).
  destruct (receiver_run books_receiver books_events) as [[[r' o'] d']|e|] eqn:E; [|discriminate Hc..].
  apply pair_equal_spec in Hc as [Hd Hb]. exists r', o', d'. split; [reflexivity|]. split; [exact Hd|]. split; [exact Hb|].
  split; [exact Ht|].
  destruct (statistics_balance 123456 [98] 100000000 10 1000000000 (Some demo_source) 0 0 true books_events r' o' d') as [H _].
  - exact books_events_ok.
  - exact Hj.
  - exact E.
  - fold books_receiver in H. rewrite Ht in H. injection Hb as E1 E2 E3 E4 _. cbn zeta in H. rewrite E1, E2, E3, E4 in H.
    assert (Hl : length d' = 1%nat) by (rewrite <- (length_map rd_rtp_seq), Hd; reflexivity). rewrite Hl in H. exact H.
Defined.
