(* ===== verification/EndToEnd.v ===== *)
(** * From application to application over a lossy network

    The sender task, a network, and the receive task with its delivery thread, composed.  The
    network is the bag of datagrams the sender ever put on its RTP socket: a receive step
    takes any of them, so datagrams may be lost, repeated, reordered and delayed, and a burst
    may contain datagrams of other hosts.  The composition implements a lossy FIFO: what
    the receiving application gets is a subsequence of what the sending one sent, each payload
    cut to the 2036 bytes the receive buffer has room for behind the RTP header. *)

From stdpp Require Import relations.
From Stdlib Require Import Sorted.
From S2P Require Import Prelude Float64 Rtp RtcpCodec RtcpReports Sdes RtcpNack RtcpApp Rtcp Ring Reorder ReorderSpec ReorderProps Retransmit Rtt RtcpState Guard Sender SenderProps Receiver ReceiverProps Threads ThreadsProps ThreadsOrder.

(** ** Generic facts *)

Lemma sublist_lookup {A} (l : list A) : ∀ (idx : list nat) (l' : list A),
  StronglySorted lt idx → Forall2 (λ i x, l !! i = Some x) idx l' → l' `sublist_of` l.
Proof.
  induction l as [|a l IH]; intros idx l' Hs Hf.
  { destruct Hf as [|i x idx l' H _]; [constructor|done]. }
  assert (Hshift : ∀ js l', Forall (λ i, i ≠ 0)%nat js → StronglySorted lt js →
    Forall2 (λ i x, (a :: l) !! i = Some x) js l' → l' `sublist_of` l).
  { intros js l1 Hnz Hjs Hl1. apply (IH (map pred js)).
    - clear Hl1. induction Hjs as [|j js Hjs IHj Hall]; cbn; constructor.
      + apply IHj. by apply Forall_inv_tail in Hnz.
      + apply Forall_inv in Hnz as Hj. apply Forall_inv_tail in Hnz.
        apply List.Forall_map. rewrite Forall_forall in *. intros k Hk.
        specialize (Hall k Hk). specialize (Hnz k Hk). lia.
    - clear Hjs. induction Hl1 as [|j x js l1 Hx _ IHl]; cbn; constructor.
      + apply Forall_inv in Hnz. destruct j; [done|]. exact Hx.
      + apply IHl. by apply Forall_inv_tail in Hnz. }
  destruct Hf as [|i x idx l' Hx Hf]; [constructor; apply sublist_nil_l|].
  apply StronglySorted_inv in Hs as [Hs Hall]. destruct i as [|i].
  - injection Hx as <-. apply sublist_skip, (Hshift idx); [|done..].
    eapply Forall_impl; [exact Hall|]. intros j Hj. cbn in Hj. lia.
  - apply sublist_cons, (Hshift (S i :: idx)); [|by constructor|by constructor].
    constructor; [done|]. eapply Forall_impl; [exact Hall|]. intros j Hj. cbn in Hj. lia.
Qed.

(** ** Indices of the sender's packets *)

(** Packets are numbered from 0 in the order the sender takes them; [rev log] lists them. *)
Definition carried (log : list log_entry) (k seq ts : Z) (payload : bytes) : Prop :=
  0 <= k ∧ rev log !! Z.to_nat k = Some (seq, ts, payload).

Lemma carried_mono log extra k seq ts payload :
  carried log k seq ts payload → carried (extra ++ log) k seq ts payload.
Proof.
  intros [Hk Hl]. split; [done|]. rewrite rev_app_distr. apply lookup_app_l_Some, Hl.
Qed.

(** What of packet [k] reaches the receiver: its payload as cut by the receive buffer. *)
Definition arrived (log : list log_entry) (k seq ts : Z) (data : bytes) : Prop :=
  ∃ payload, carried log k seq ts payload ∧ data = rx_payload payload.

Lemma arrived_mono log extra k seq ts data :
  arrived log k seq ts data → arrived (extra ++ log) k seq ts data.
Proof. intros (payload & Hc & ->). exists payload. split; [by apply carried_mono|done]. Qed.

(** The sequence number in the header of a packet. *)
Definition seq_of (b : bytes) : Z :=
  match b with _ :: _ :: hi :: lo :: _ => hi * 256 + lo | _ => 0 end.

Lemma seq_of_header ssrc seq ts payload :
  is_u16 seq → seq_of (write_rtp_header ssrc seq ts ++ payload) = seq.
Proof. intros Hs. unfold write_rtp_header, put_u8, put_u16. cbn [app seq_of]. clear -Hs. ulia. Qed.

Section system.
  Context {St : Type} `{!RetransmitStore St} `{!RetransmitStoreLaws St}.

(** The index of the latest packet with a given sequence number, when [sn_seq] is the next one. *)
Definition latest (self : Sender St) (log : list log_entry) (seq : Z) : Z :=
  Z.of_nat (length log) - 1 - wrapping_sub16 (sn_seq self - 1) seq.

(** The RTP datagrams of a step, each with the index of the packet it carries. *)
Definition on_wire (self : Sender St) (log : list log_entry) (out : list datagram) : list (Z * bytes) :=
  omap (λ d, match dg_sock d with
             | RtpSock => Some (latest self log (seq_of (dg_bytes d)), dg_bytes d)
             | RtcpSock => None
             end) out.

(** A packet of the log as bytes, flagged or not. *)
Definition packet_bytes (log : list log_entry) (k : Z) (b : bytes) : Prop :=
  ∃ ssrc seq ts payload, is_u32 ssrc ∧ is_u16 seq ∧ is_u32 ts ∧ carried log k seq ts payload ∧
    b = write_rtp_header ssrc seq ts ++ payload.

Lemma packet_bytes_mono log extra k b : packet_bytes log k b → packet_bytes (extra ++ log) k b.
Proof.
  intros (ssrc & seq & ts & pl & ? & ? & ? & Hc & ?). exists ssrc, seq, ts, pl.
  split_and!; [done..|by apply carried_mono|done].
Qed.

Record send_ok (first : Z) (self : Sender St) (log : list log_entry) (wire : list (Z * bytes)) : Prop := {
  so_inv : sender_inv self log;
  so_seq : sn_seq self = as_u16 (first + Z.of_nat (length log));
  so_numbered : ∀ k seq ts payload, carried log k seq ts payload → seq = as_u16 (first + k);
  so_stored : ∀ seq pkt, store_get (sn_retransmit_buf self) seq = Some pkt →
    is_u16 seq ∧ ∃ ts payload, is_u32 ts ∧ carried log (latest self log seq) seq ts payload ∧
      pkt = write_rtp_header (sn_ssrc self) seq ts ++ payload;
  so_wire : ∀ k b, (k, b) ∈ wire → packet_bytes log k b
}.

Lemma carried_new log seq ts payload :
  carried ((seq, ts, payload) :: log) (Z.of_nat (length log)) seq ts payload.
Proof.
  split; [lia|]. cbn [rev]. rewrite Nat2Z.id. by apply list_lookup_middle; rewrite length_rev.
Qed.

Lemma send_media first self log wire payload now sent self' out :
  send_ok first self log wire → sender_step self (EvMedia payload now sent) = Ok (self', out) →
  let log' := logged self (EvMedia payload now sent) ++ log in
  send_ok first self' log' (wire ++ on_wire self' log' out).
Proof using Type*.
  intros [Hi Hs Hn Hst Hw] Hstep. pose proof (sender_step_inv _ _ _ _ _ Hi Hstep) as Hi'.
  pose proof (si_seq _ _ Hi) as Hu. cbn zeta. cbn [logged app] in *.
  set (ts := ntp_to_rtp90k _ _ _) in *. set (pkt := write_rtp_header (sn_ssrc self) (sn_seq self) ts ++ payload).
  assert (E : sn_seq self' = wrapping_add16 (sn_seq self) 1 ∧ sn_ssrc self' = sn_ssrc self ∧
    sn_retransmit_buf self' = store_insert (sn_retransmit_buf self) (sn_seq self) pkt ∧
    out = [mkDatagram RtpSock (sn_remote_rtp_addr self) pkt]).
  { cbn [sender_step] in Hstep. unfold on_media in Hstep. by injection Hstep as <- <-. }
  destruct E as (E1 & E2 & E3 & ->). clear Hstep.
  assert (Hts : is_u32 ts) by apply ntp_to_rtp90k_range.
  match goal with |- send_ok _ _ ?l _ => set (log' := l) in * end.
  assert (Hl : latest self' log' (sn_seq self) = Z.of_nat (length log)).
  { unfold latest. rewrite E1. cbn [log' length]. clear -Hu. ulia. }
  split; [done|..].
  - rewrite E1, Hs. cbn [log' length]. clear. ulia.
  - intros k seq ts' pl [Hk Hlk]. cbn [log' rev] in Hlk. apply lookup_app_Some in Hlk as [Hlk|[Hge Hlk]].
    { by apply (Hn k seq ts' pl). }
    rewrite length_rev in *. destruct (Z.to_nat k - length log)%nat eqn:Ek; [|done].
    injection Hlk as <- _ _. rewrite Hs. f_equal. lia.
  - intros seq p. rewrite E2, E3. intros Hg. destruct (decide (seq = sn_seq self)) as [->|Hne].
    + rewrite store_get_insert in Hg by apply Hi. injection Hg as <-. split; [done|]. exists ts, payload.
      rewrite Hl. split_and!; [done|apply carried_new|done].
    + apply store_get_old in Hg; [|apply Hi|done]. destruct (Hst seq p Hg) as (Hsu & ts' & pl & ? & Hc & ?).
      split; [done|]. exists ts', pl. split_and!; [done| |done].
      apply (carried_mono log [(sn_seq self, ts, payload)]) in Hc.
      replace (latest self' _ seq) with (latest self log seq); [done|].
      unfold latest. rewrite E1. cbn [log' length]. clear -Hne Hu Hsu. ulia.
  - intros k b [Hb|Hb]%elem_of_app; [by apply (packet_bytes_mono log [_]), Hw|].
    unfold on_wire in Hb. cbn [omap list_omap dg_sock dg_bytes] in Hb.
    apply list_elem_of_singleton, pair_equal_spec in Hb as [-> ->].
    replace (seq_of pkt) with (sn_seq self) by (symmetry; by apply seq_of_header). rewrite Hl. exists (sn_ssrc self), (sn_seq self), ts, payload.
    split_and!; [apply Hi|done..|apply carried_new|done].
Qed.

Lemma send_other first self log wire ev self' out :
  (∀ payload now sent, ev ≠ EvMedia payload now sent) →
  send_ok first self log wire → sender_step self ev = Ok (self', out) →
  send_ok first self' log (wire ++ on_wire self' log out).
Proof using Type*.
  intros Hne [Hi Hs Hn Hst Hw] Hstep. pose proof (sender_step_inv _ _ _ _ _ Hi Hstep) as Hi'.
  assert (H : logged self ev = [] ∧ sn_seq self' = sn_seq self ∧ sn_ssrc self' = sn_ssrc self ∧
    sn_retransmit_buf self' = sn_retransmit_buf self ∧
    Forall (λ d, dg_sock d = RtpSock → ∃ seq pkt, store_get (sn_retransmit_buf self) seq = Some pkt ∧
      dg_bytes d = flag_retransmit pkt) out).
  { destruct ev as [payload now sent|buf from recv_at clock net|now clock]; [by destruct (Hne payload now sent)|..];
      cbn [sender_step] in Hstep.
    - apply on_rtcp_spec with (log := log) in Hstep as (Hc & Hd & _); [|done].
      injection Hc as -> -> _ _ _ -> _ _ _. split_and!; [done..|]. eapply Forall_impl; [exact Hd|].
      intros d [(_ & _ & H)|[Es _]]; [done|]. by rewrite Es.
    - unfold on_rtcp_tick in Hstep. destruct (generate_sr _ _ _) as [rs sr].
      destruct (_ && _); [destruct (generate_request (sn_rtt_estimator self) now) as [rtt [msw lsw]]|];
        injection Hstep as <- <-; split_and!; try done; by repeat constructor. }
  destruct H as (E0 & E1 & E2 & E3 & Ho). rewrite E0 in Hi'. clear Hstep.
  assert (El : ∀ seq, latest self' log seq = latest self log seq) by (intros; unfold latest; by rewrite E1).
  split; [done|by rewrite E1|done|intros seq pkt; rewrite E2, E3, El; apply Hst|].
  intros k b [Hb|Hb]%elem_of_app; [by apply Hw|].
  apply list_elem_of_omap in Hb as (d & Hd & Hb). rewrite Forall_forall in Ho. specialize (Ho d Hd).
  destruct (dg_sock d); [|done]. destruct (Ho eq_refl) as (seq & pkt & Hg & Hf).
  apply Some_inj, pair_equal_spec in Hb as [<- <-].
  destruct (Hst seq pkt Hg) as (Hu & ts & payload & Hts & Hc & ->). destruct (si_ssrc _ _ Hi) as [Hs1 Hs2].
  rewrite Hf, flag_retransmit_eq, seq_of_header, El by done. exists (sn_ssrc self + 1), seq, ts, payload.
  split_and!; try done. clear -Hs1 Hs2. ulia.
Qed.

Lemma send_step first self log wire ev self' out :
  send_ok first self log wire → sender_step self ev = Ok (self', out) →
  send_ok first self' (logged self ev ++ log) (wire ++ on_wire self' (logged self ev ++ log) out).
Proof using Type*.
  intros Hok Hst. destruct ev as [payload now sent|buf from recv_at clock net|now clock]; [by apply send_media|..];
    by refine (send_other first self log wire _ self' out _ Hok Hst).
Qed.

(** ** The receiving side *)

(** One past the highest index received, and the packets the network may deliver next: less
    than a ring ahead of it, and at most half of the sequence space behind. *)
Definition advance (high : option Z) (k : Z) : option Z :=
  Some (match high with Some r => Z.max r (k + 1) | None => k + 1 end).
Definition in_window (high : option Z) (k : Z) : Prop :=
  match high with Some r => r - 32768 <= k < r + DEFAULT_CAPACITY | None => True end.
Fixpoint window_ok (high : option Z) (ks : list Z) : Prop :=
  match ks with [] => True | k :: ks => in_window high k ∧ window_ok (advance high k) ks end.

(** The run of the reorder buffer numbers the packets as the sender does, up to the constant
    [c]. *)
Record received (first : Z) (log : list log_entry) (tr : trace) (high : option Z) (c : Z) : Prop := {
  rv_top : trace_top tr = (λ r, r - c) <$> high;
  rv_log : ∀ n d t, (n, d, t) ∈ t_log tr → ∃ ts, arrived log (n + c) (as_u16 n) ts d;
  rv_phase : high ≠ None → as_u16 (first + c) = 0;
  rv_fresh : high = None → t_log tr = []
}.

Lemma q_place_length base cells off data now fl :
  0 <= off → Z.of_nat (length (q_cells (q_place base cells off data now fl).1)) = Z.max (Z.of_nat (length cells)) (off + 1).
Proof.
  intros Ho. unfold q_place. destruct (cells !! Z.to_nat off) as [c|] eqn:E.
  - apply lookup_lt_Some in E. destruct c; cbn; rewrite ?length_insert; lia.
  - apply lookup_ge_None in E. cbn. rewrite !length_app, length_replicate. cbn. lia.
Qed.

(** The top of the queue after an insertion, counted from the old base. *)
Lemma q_insert_top cap base cells seq data now :
  64 <= cap <= 16384 → is_u16 base → is_u16 seq → Z.of_nat (length cells) <= cap →
  let off := as_i16 (wrapping_sub16 seq base) in
  let q := (q_insert cap (Some (mkQueue base cells)) seq data now).1 in
  wrapping_sub16 (q_base q) base + Z.of_nat (length (q_cells q)) = Z.max (Z.of_nat (length cells)) (off + 1).
Proof.
  intros Hcap Hb Hs Hlen. unfold q_insert. assert (Hbb : wrapping_sub16 base base = 0) by ulia.
  assert (Hsi : 0 <= as_i16 (wrapping_sub16 seq base) → wrapping_sub16 seq base = as_i16 (wrapping_sub16 seq base)) by ulia.
  set (off := as_i16 (wrapping_sub16 seq base)) in *. assert (Hoff : off < 32768) by (subst off; ulia). cbn zeta.
  destruct (Z.ltb_spec off 0); [cbn; rewrite Hbb; lia|].
  destruct (Z.ltb_spec off cap); [rewrite q_place_base, q_place_length, Hbb; lia|].
  destruct (Z.leb_spec (Z.of_nat (length cells)) (off - (cap - 1))); [cbn; rewrite Hsi by done; lia|].
  rewrite q_place_base, q_place_length, length_drop by lia. set (adv := off - (cap - 1)) in *.
  assert (Hadv : 0 <= adv < 32768) by lia.
  assert (Ea : wrapping_sub16 (wrapping_add16 base adv) base = adv) by (clear -Hadv; clearbody adv; ulia). lia.
Qed.

Lemma insert_top tr p now :
  trace_ok tr → is_u16 (pr_seq p) → jump_after_drain (t_buf tr) (pr_seq p) = false →
  trace_top (trace_insert tr p now) = advance (trace_top tr) (arrival_index (t_buf tr) (t_base tr) (pr_seq p)).
Proof.
  intros Hok Hs Hj. pose proof (tr_wf _ Hok) as Hwf.
  destruct (insert_refines (t_buf tr) (pr_seq p) (pr_payload p) now Hwf Hs Hj) as (Hwf' & Ha' & _).
  unfold trace_top, trace_insert, arrival_index, moved_base, advance. cbn [t_buf t_base]. rewrite Ha'.
  pose proof (wf_abs _ Hwf) as Hq. pose proof (wf_abs _ Hwf') as Hq'. rewrite Ha' in Hq'. destruct Hq' as (Eb' & _ & _).
  rewrite Eb'. destruct (abs (t_buf tr)) as [[base cells]|].
  - destruct Hq as (-> & Hbu & Hlen). cbn [q_base q_cells] in *. destruct Hwf as [[_ Hcr _ _] _].
    pose proof (q_insert_top _ base cells (pr_seq p) (pr_payload p) now Hcr Hbu Hs Hlen) as Ht. cbn zeta in Ht.
    cbn [fmap option_fmap option_map q_cells]. f_equal. lia.
  - by rewrite Hq.
Qed.

Lemma trace_capacity bt tr : rtc trace_step (trace_init bt DEFAULT_CAPACITY) tr → ro_capacity (t_buf tr) = DEFAULT_CAPACITY.
Proof.
  intros Hr. remember (trace_init bt DEFAULT_CAPACITY) as tr0 eqn:E.
  assert (H0 : ro_capacity (t_buf tr0) = DEFAULT_CAPACITY) by (subst; by vm_compute). clear E.
  induction Hr as [|x y z Hxy _ IH]; [done|]. apply IH. destruct Hxy as [b B log out seq data now|b B log out now b' items E]; cbn in *.
  - by rewrite (proj2 (insert_shape b seq data now)).
  - by rewrite (proj2 (drain_shape _ _ _ _ _ _ E)).
Qed.

Definition next_const (high : option Z) (c k seq : Z) : Z := match high with Some _ => c | None => k - seq end.

(** A packet inside the window gets the sender's index, and is no jump over a ring. *)
Lemma received_index first log bt tr high c p k :
  rtc trace_step (trace_init bt DEFAULT_CAPACITY) tr → received first log tr high c →
  as_u16 (first + k) = pr_seq p → in_window high k →
  jump_after_drain (t_buf tr) (pr_seq p) = false ∧
  arrival_index (t_buf tr) (t_base tr) (pr_seq p) = k - next_const high c k (pr_seq p).
Proof.
  intros Htr [Htop _ Hph _] Hseq Hwin. pose proof (trace_capacity bt tr Htr) as Hcap.
  assert (Hok : trace_ok tr) by (eapply trace_reachable; [|exact Htr]; unfold DEFAULT_CAPACITY; lia).
  pose proof (wf_abs _ (tr_wf _ Hok)) as Hq. pose proof (tr_base _ Hok) as Hbase.
  unfold trace_top in Htop. unfold jump_after_drain, arrival_index, next_const.
  destruct high as [r|]; cbn in Htop, Hwin.
  - destruct (abs (t_buf tr)) as [[base cells]|] eqn:Ea; [|done]. destruct Hq as (Eb & Hbu & Hlen). cbn in Htop, Eb, Hlen.
    rewrite Eb in *. specialize (Hbase base eq_refl). injection Htop as Htop. rewrite Hcap in *.
    specialize (Hph ltac:(done)).
    assert (Hoff : as_i16 (wrapping_sub16 (pr_seq p) base) = k - c - t_base tr).
    { assert (Hr : -32768 <= k - c - t_base tr < 32768) by (unfold DEFAULT_CAPACITY in *; lia).
      rewrite Hbase, <- Hseq. clear -Hph Hr. ulia. }
    rewrite Hoff. split; [|lia]. unfold abs in Ea. rewrite Eb in Ea. destruct (ro_highest_seq (t_buf tr)) as [h|]; [|done].
    injection Ea as Ea. destruct (Z.eqb_spec (win_len base h) 0) as [E0|]; [|done]. cbn [andb].
    assert (length cells = 0%nat) by (by rewrite <- Ea, win_cells_length, E0).
    rewrite (proj2 (Z.leb_gt _ _)); [done|]. lia.
  - destruct (abs (t_buf tr)) eqn:Ea; [done|]. rewrite Hq. split; [done|]. lia.
Qed.

Lemma received_insert first log bt tr high c p k ts now :
  rtc trace_step (trace_init bt DEFAULT_CAPACITY) tr → received first log tr high c →
  is_u16 (pr_seq p) → as_u16 (first + k) = pr_seq p → in_window high k →
  arrived log k (pr_seq p) ts (pr_payload p) →
  received first log (trace_insert tr p now) (advance high k) (next_const high c k (pr_seq p)).
Proof.
  intros Htr Hrv Hu Hseq Hwin Hc. destruct (received_index first log bt tr high c p k Htr Hrv Hseq Hwin) as [Hj Hidx].
  assert (Hok : trace_ok tr) by (eapply trace_reachable; [|exact Htr]; unfold DEFAULT_CAPACITY; lia).
  pose proof (arrival_index_seq tr (pr_seq p) Hok Hu) as Hmod. destruct Hrv as [Htop Hlog Hph Hfr].
  split.
  - rewrite insert_top by done. rewrite Htop, Hidx. unfold advance, next_const.
    destruct high as [r|]; cbn; f_equal; lia.
  - intros n d t. cbn [trace_insert t_log]. intros [[= -> -> ->]|Hn]%elem_of_cons.
    + exists ts. rewrite Hmod. replace (_ + next_const _ _ _ _) with k by lia. done.
    + destruct high as [r|]; [by apply (Hlog n d t)|]. rewrite Hfr in Hn by done. by apply not_elem_of_nil in Hn.
  - intros _. unfold next_const. destruct high as [r|]; [by apply Hph|]. rewrite <- Hseq. clear. ulia.
  - done.
Qed.

(** What the receive task holds: packets of the log, with their indices. *)
Definition labelled (log : list log_entry) (p : ParsedRtp) (k : Z) : Prop :=
  is_u16 (pr_seq p) ∧ ∃ ts, arrived log k (pr_seq p) ts (pr_payload p).

Lemma received_batch first log bt now batch : ∀ ks tr high c,
  (∀ k seq ts payload, carried log k seq ts payload → seq = as_u16 (first + k)) →
  rtc trace_step (trace_init bt DEFAULT_CAPACITY) tr → received first log tr high c →
  Forall2 (labelled log) batch ks → window_ok high ks →
  no_jump_batch (t_buf tr) batch now = true ∧
  ∃ c', received first log (trace_batch tr batch now) (foldl advance high ks) c'.
Proof.
  induction batch as [|p batch IH]; intros ks tr high c Hnum Htr Hrv Hf Hw.
  { apply Forall2_nil_inv_l in Hf as ->. split; [done|]. by exists c. }
  apply Forall2_cons_inv_l in Hf as (k & ks' & [Hu [ts Hc]] & Hf & ->). destruct Hw as [Hw1 Hw2].
  assert (Hseq : as_u16 (first + k) = pr_seq p) by (destruct Hc as (payload & Hc & _); symmetry; by eapply Hnum).
  destruct (received_index first log bt tr high c p k Htr Hrv Hseq Hw1) as [Hj _].
  pose proof (received_insert first log bt tr high c p k ts now Htr Hrv Hu Hseq Hw1 Hc) as Hrv'.
  assert (Hst : trace_step tr (trace_insert tr p now)) by (destruct tr; by apply step_insert).
  destruct (IH ks' (trace_insert tr p now) _ _ Hnum (rtc_r _ _ _ Htr Hst) Hrv' Hf Hw2) as [H1 H2].
  split; [cbn [no_jump_batch]; rewrite Hj; exact H1|exact H2].
Qed.

(** ** The system *)

(** [sy_wire] are the RTP datagrams sent so far, with the indices of their packets; [sy_high] is
    one past the highest index received; [sy_batch] are the indices of the batch at hand. *)
Record system := mkSystem {
  sy_sender : Sender St;
  sy_log : list log_entry;
  sy_wire : list (Z * bytes);
  sy_threads : threads;
  sy_high : option Z;
  sy_batch : list Z
}.

(** The receive task inserts its batch. *)
Definition inserts (l : label) (t : threads) : bool :=
  match l, th_recv t with LRecv, RInsert _ _ => true | _, _ => false end.

(** The indices of a burst's datagrams that come from the sender. *)
Definition own_indices (from : SocketAddr) (items : list (Z * queued)) : list Z :=
  omap (λ '(k, (_, src, _)), if bool_decide (src = from) then Some k else None) items.

(** The sender handles an event; a thread of the receiver makes a step; the network hands over a
    burst, of which the receive task keeps the packets of its source ([on_rtp_eq]). *)
Inductive sys_step (from : SocketAddr) (epoch : Z) : system → system → Prop :=
  | sys_sender s log w t h b ev s' out :
      sender_step s ev = Ok (s', out) →
      sys_step from epoch (mkSystem s log w t h b)
        (mkSystem s' (logged s ev ++ log) (w ++ on_wire s' (logged s ev ++ log) out) t h b)
  | sys_thread s log w t h b l t' :
      l ≠ LArrival → th_step l t t' →
      sys_step from epoch (mkSystem s log w t h b)
        (if inserts l t then mkSystem s log w t' (foldl advance h b) [] else mkSystem s log w t' h b)
  | sys_arrival s log w t h b items :
      th_recv t = RSelect →
      Forall (λ '(k, (buf, src, _)), src = from → (k, buf) ∈ w) items →
      omap (λ x, parsed from epoch x.2) items ≠ [] →
      sys_step from epoch (mkSystem s log w t h b)
        (mkSystem s log w
           (set_recv t (th_lock t) (RLock (omap (λ x, parsed from epoch x.2) items) (th_clock t)))
           h (own_indices from items)).

(** A step after which the batch at hand is in the window: its packets are less than 8192 ahead of
    the newest one inserted, and at most 32768 behind it. *)
Definition windowed (from : SocketAddr) (epoch : Z) (sy sy' : system) : Prop :=
  sys_step from epoch sy sy' ∧ window_ok (sy_high sy') (sy_batch sy').

Record sys_ok (first bt : Z) (sy : system) : Prop := {
  sy_send : send_ok first (sy_sender sy) (sy_log sy) (sy_wire sy);
  sy_recv : ∃ tr c, refines bt (sy_threads sy) tr ∧ received first (sy_log sy) tr (sy_high sy) c;
  sy_held : Forall2 (labelled (sy_log sy)) (recv_batch (th_recv (sy_threads sy))) (sy_batch sy);
  sy_next : window_ok (sy_high sy) (sy_batch sy)
}.

Lemma labelled_mono log extra p k : labelled log p k → labelled (extra ++ log) p k.
Proof. intros [Hu [ts Hc]]. split; [done|]. exists ts. by apply arrived_mono. Qed.

Lemma received_mono first log extra tr high c : received first log tr high c → received first (extra ++ log) tr high c.
Proof.
  intros [Ht Hl Hp Hf]. split; try done. intros n d t Hn. destruct (Hl n d t Hn) as [ts Hc]. exists ts. by apply arrived_mono.
Qed.

(** The packets of the burst with their indices. *)
Lemma burst_labelled first self log w from epoch items :
  send_ok first self log w → Forall (λ '(k, (buf, src, _)), src = from → (k, buf) ∈ w) items →
  Forall2 (labelled log) (omap (λ x, parsed from epoch x.2) items) (own_indices from items).
Proof.
  intros Hso. unfold own_indices. induction 1 as [|[k [[buf src] clk]] items Hi _ IH]; [constructor|].
  cbn [omap list_omap snd parsed]. case_bool_decide as E; [|done]. subst src.
  destruct (so_wire _ _ _ _ Hso k buf (Hi eq_refl)) as (ssrc & seq & ts & payload & H1 & H2 & H3 & Hc & ->).
  rewrite recv_media.
  destruct (parse_rtp_media ssrc seq ts (rx_payload payload) epoch clk H1 H2 H3) as (p & -> & Es & _ & _ & Ep & _).
  constructor; [|done]. unfold labelled. rewrite Es, Ep. split; [done|]. exists ts. by exists payload.
Qed.

Lemma thread_batch l t t' :
  l ≠ LArrival → th_step l t t' →
  recv_batch (th_recv t') = if inserts l t then [] else recv_batch (th_recv t).
Proof.
  intros Hl Hs. destruct Hs as [room s s' E|s s' E|s u Hu|s|s batch Hr Hne Hb|s until Hd]; try done.
  - revert E. unfold drain_thread_step, inserts. repeat (case_match; try done); intros; simplify_eq; try done.
    all: repeat match goal with H : _ ≫= _ = Some _ |- _ => apply bind_Some in H as ([g sc] & _ & H) end; by simplify_eq.
  - revert E. unfold recv_task_step, inserts. destruct (th_recv s) eqn:Er; try done; repeat (case_match; try done);
      intros; simplify_eq; try done; cbn; by rewrite ?Er.
Qed.

Lemma sys_thread_ok first bt s log w t h b l t' :
  sys_ok first bt (mkSystem s log w t h b) → l ≠ LArrival → th_step l t t' →
  sys_ok first bt (if inserts l t then mkSystem s log w t' (foldl advance h b) [] else mkSystem s log w t' h b).
Proof.
  intros [Hsend (tr & c & Href & Hrv) Hheld Hnext] Hl Hst. cbn in *.
  pose proof (thread_batch l t t' Hl Hst) as Hb.
  assert (Hbatch : ∀ now, no_jump_batch (t_buf tr) (recv_batch (th_recv t)) now = true ∧
    ∃ c', received first log (trace_batch tr (recv_batch (th_recv t)) now) (foldl advance h b) c').
  { intros now. apply (received_batch first log bt now _ b tr h c); [apply (so_numbered _ _ _ _ Hsend)|apply Href|done..]. }
  assert (Hc : calm t).
  { unfold calm, calmb. destruct (th_recv t) as [| |batch now| | | |] eqn:Er; try done.
    rewrite <- (rf_buf _ _ _ Href). apply Hbatch. }
  destruct (th_step_refines bt l t t' tr Href Hc Hst) as (tr' & Href' & He). unfold trace_effect in He. unfold inserts in *.
  assert (Hsame : t_log tr' = t_log tr ∧ trace_top tr' = trace_top tr → received first log tr' h c).
  { intros [El Et]. destruct Hrv as [Ht Hlg Hp Hf]. split; rewrite ?El, ?Et; done. }
  destruct l; try (split; cbn; [done|exists tr', c; by auto|by rewrite Hb|done]).
  destruct (th_recv t) as [| |batch now| | | |] eqn:Er; try (split; cbn; [done|exists tr', c; by auto|by rewrite Hb|done]).
  split; cbn; [done| |by rewrite Hb|done]. subst tr'. destruct (proj2 (Hbatch now)) as [c' Hc']. by exists (trace_batch tr batch now), c'.
Qed.

Lemma sys_step_ok from epoch first bt sy sy' : sys_ok first bt sy → windowed from epoch sy sy' → sys_ok first bt sy'.
Proof using Type*.
  intros Hok [Hs Hw]. destruct Hs as [s log w t h b ev s' out E|s log w t h b l t' Hl Hst|s log w t h b items Hr Hi Hne].
  - destruct Hok as [Hsend (tr & c & Href & Hrv) Hheld Hnext]. cbn in *. split; cbn; [by apply send_step| | |done].
    + exists tr, c. split; [done|by apply received_mono].
    + eapply Forall2_impl; [exact Hheld|]. intros. by apply labelled_mono.
  - by eapply sys_thread_ok.
  - destruct Hok as [Hsend (tr & c & Href & Hrv) Hheld Hnext]. cbn in *.
    pose proof (burst_labelled first s log w from epoch items Hsend Hi) as Hf. split; cbn; [done| |done|done].
    exists tr, c. split; [|done]. apply (refines_idle bt t); try done. cbn.
    apply Forall_forall. intros p Hp. apply list_elem_of_lookup in Hp as [i Hp].
    destruct (Forall2_lookup_l _ _ _ _ _ Hf Hp) as (k & _ & [Hu _]). done.
Qed.

(** A fresh sender, an empty network and a fresh receiver. *)
Definition system_init (rssrc rseq : Z) (cname : bytes) (interval epoch_tx epoch_sys : Z) (store : St) (cap : Z)
    (remote : SocketAddr) (echo : bool) (bt clock : Z) (st st' : RistConnStats) : system :=
  mkSystem (Sender_new rssrc rseq cname interval epoch_tx epoch_sys store cap remote echo st) [] []
    (threads_init bt clock st') None [].

Lemma system_init_ok rssrc rseq cname interval epoch_tx epoch_sys store cap remote echo bt clock st st' :
  is_u32 rssrc → is_u16 rseq → store_ok store → (∀ seq, store_get store seq = None) →
  sys_ok rseq bt (system_init rssrc rseq cname interval epoch_tx epoch_sys store cap remote echo bt clock st st').
Proof using Type*.
  intros H1 H2 H3 H4. split; cbn -[Sender_new].
  - split.
    + apply (sender_run_inv remote _ [] []). by apply run_init.
    + cbn. clear -H2. ulia.
    + intros k seq ts pl [_ Hl]. cbn in Hl. by destruct (Z.to_nat k).
    + cbn. intros seq pkt. by rewrite H4.
    + intros k b Hb. destruct (not_elem_of_nil _ Hb).
  - exists (trace_init bt DEFAULT_CAPACITY), 0. split; [apply threads_init_refines|].
    split; [by vm_compute| |done|done]. intros n d t Hn. destruct (not_elem_of_nil _ Hn).
  - constructor.
  - done.
Qed.

(** Payloads that fit are not cut. *)
Lemma rx_payload_log (log : list log_entry) :
  Forall (λ '(_, _, payload), blen payload <= 2036) log →
  map (λ '(seq, _, payload), (seq, rx_payload payload)) (rev log) = map (λ '(seq, _, payload), (seq, payload)) (rev log).
Proof.
  intros H. apply map_ext_in. intros [[seq ts] payload] Hin. rewrite <- in_rev in Hin. apply list_elem_of_In in Hin.
  rewrite Forall_forall in H. specialize (H _ Hin). cbn in H. by rewrite rx_payload_short.
Qed.

(** What was delivered, against the log. *)
Lemma delivered_sublist first log bt t tr high c :
  refines bt t tr → received first log tr high c →
  map (λ p, (rd_rtp_seq p, rd_data p)) (th_sent t) `sublist_of`
  map (λ '(seq, _, payload), (seq, rx_payload payload)) (rev log).
Proof.
  intros [Hre _ Hout _ _ (off & Hoff & Hsub)] Hrv. rewrite Hoff in Hout.
  assert (Hok : trace_ok tr) by (eapply trace_reachable; [|exact Hre]; unfold DEFAULT_CAPACITY; lia).
  destruct (sublist_indexed _ off (th_sent t) _ (tr_sorted _ Hok) Hout Hsub) as (idx & Hso & Hf).
  assert (Hc : Forall2 (λ n p, ∃ ts, arrived log (n + c) (rd_rtp_seq p) ts (rd_data p)) idx (th_sent t)).
  { eapply Forall2_impl; [exact Hf|]. intros n p Hn. apply (tr_auth _ Hok) in Hn as [-> Hl]. by apply (rv_log _ _ _ _ _ Hrv) in Hl. }
  apply (sublist_lookup _ (map (λ n, Z.to_nat (n + c)) idx)).
  - clear -Hso Hc. revert Hc. generalize (th_sent t). induction Hso as [|n idx _ IH Hall]; intros l Hc; [constructor|].
    apply Forall2_cons_inv_l in Hc as (p & l' & (ts & payload & [Hn _] & _) & Hc & ->). cbn. constructor; [by eapply IH|].
    apply List.Forall_map. rewrite Forall_forall in *. intros m Hm. specialize (Hall m Hm). lia.
  - clear -Hc. induction Hc as [|n p idx l (ts & payload & [_ Hn] & Hp) _ IH]; [constructor|].
    cbn [map]. constructor; [|exact IH]. rewrite list_lookup_fmap, Hp.
    exact (f_equal (fmap (λ '(seq, _, payload), (seq, rx_payload payload))) Hn).
Qed.

End system.
Arguments system St : clear implicits.

(** ** Runs by evaluation *)

(** What may happen next: an event of the sender, a step of a thread of the receiver, time
    passing, or a burst of datagrams, each by its position on the wire or from a stranger. *)
Inductive sys_action : Type :=
  | ASender (ev : sender_event)
  | ADrain
  | ARecv
  | ATick (dt : Z)
  | ABurst (from_stranger : SocketAddr) (items : list (nat + bytes)).

Definition in_windowb (high : option Z) (k : Z) : bool :=
  match high with Some r => (r - 32768 <=? k) && (k <? r + DEFAULT_CAPACITY) | None => true end.
Fixpoint window_okb (high : option Z) (ks : list Z) : bool :=
  match ks with [] => true | k :: ks => in_windowb high k && window_okb (advance high k) ks end.

Lemma window_okb_ok ks : ∀ high, window_okb high ks = true → window_ok high ks.
Proof.
  induction ks as [|k ks IH]; intros high H; [done|]. cbn [window_okb window_ok] in *.
  apply andb_true_iff in H as [H1 H2]. split; [|by apply IH]. destruct high as [r|]; [|done].
  cbn [in_windowb in_window] in *. lia.
Qed.

Section eval.
  Context {St : Type} `{!RetransmitStore St} `{!RetransmitStoreLaws St}.

Definition burst_items (from stranger : SocketAddr) (w : list (Z * bytes)) (clock : Z)
    (items : list (nat + bytes)) : list (Z * queued) :=
  omap (λ x, match x with
             | inl i => (λ kb, (kb.1, (kb.2, from, clock))) <$> w !! i
             | inr b => Some (0, (b, stranger, clock))
             end) items.

Lemma burst_items_ok from stranger w clock items :
  stranger ≠ from →
  Forall (λ '(k, (buf, src, _)), src = from → (k, buf) ∈ w) (burst_items from stranger w clock items).
Proof.
  intros Hne. apply Forall_forall. intros [k [[buf src] clk]] Hx. apply list_elem_of_omap in Hx as ([i|d] & _ & Hx).
  - apply fmap_Some in Hx as ([k' b'] & Hw & [= -> -> -> ->]). intros _. by apply list_elem_of_lookup_2 in Hw.
  - injection Hx as <- <- <- <-. by intros ->.
Qed.

Definition sys_eval (from : SocketAddr) (epoch : Z) (a : sys_action) (sy : system St) : option (system St) :=
  let '(mkSystem s log w t h b) := sy in
  match a with
  | ASender ev =>
      match sender_step s ev with
      | Ok (s', out) => Some (mkSystem s' (logged s ev ++ log) (w ++ on_wire s' (logged s ev ++ log) out) t h b)
      | _ => None
      end
  | ADrain => t' ← drain_thread_step true t; Some (mkSystem s log w t' h b)
  | ARecv =>
      t' ← recv_task_step t;
      Some (if inserts LRecv t then mkSystem s log w t' (foldl advance h b) [] else mkSystem s log w t' h b)
  | ATick dt =>
      if 0 <=? dt then
        Some (mkSystem s log w (mkThreads (th_clock t + dt) (th_cancel t) (th_lock t) (th_reorder t) (th_drain t)
          (th_recv t) (th_arrived t) (th_drained t) (th_sent t) (th_flushed t) (th_stats t)) h b)
      else None
  | ABurst stranger xs =>
      let items := burst_items from stranger w (th_clock t) xs in
      match th_recv t, omap (λ x, parsed from epoch x.2) items with
      | RSelect, (_ :: _) as batch =>
          if bool_decide (stranger ≠ from) then
            Some (mkSystem s log w (set_recv t (th_lock t) (RLock batch (th_clock t))) h (own_indices from items))
          else None
      | _, _ => None
      end
  end.

Lemma sys_eval_step from epoch a sy sy' : sys_eval from epoch a sy = Some sy' → sys_step from epoch sy sy'.
Proof.
  destruct sy as [s log w t h b]. destruct a as [ev| | |dt|stranger xs]; cbn [sys_eval].
  - destruct (sender_step s ev) as [[s' out]| |] eqn:E; try done. intros [= <-]. by constructor.
  - intros H. apply bind_Some in H as (t' & E & [= <-]).
    apply (sys_thread from epoch s log w t h b LDrain t'); [done|by econstructor].
  - intros H. apply bind_Some in H as (t' & E & [= <-]).
    apply (sys_thread from epoch s log w t h b LRecv t'); [done|by econstructor].
  - destruct (Z.leb_spec 0 dt); [|done]. intros [= <-].
    apply (sys_thread from epoch s log w t h b LTick); [done|]. apply th_step_tick. lia.
  - destruct (th_recv t) eqn:Er; try done. destruct (omap _ _) as [|p ps] eqn:Ep; [done|].
    destruct (bool_decide_reflect (stranger ≠ from)) as [Hne|]; [|done]. intros [= <-]. rewrite <- Ep.
    apply sys_arrival; [done| |by rewrite Ep].
    by apply burst_items_ok.
Qed.

Fixpoint sys_exec (from : SocketAddr) (epoch : Z) (acts : list sys_action) (sy : system St) : option (system St) :=
  match acts with
  | [] => Some sy
  | a :: acts =>
      sy' ← sys_eval from epoch a sy;
      if window_okb (sy_high sy') (sy_batch sy') then sys_exec from epoch acts sy' else None
  end.

Lemma sys_exec_run from epoch acts : ∀ sy sy',
  sys_exec from epoch acts sy = Some sy' → rtc (windowed from epoch) sy sy'.
Proof.
  induction acts as [|a acts IH]; intros sy sy' H; [by injection H as <-|].
  cbn [sys_exec] in H. apply bind_Some in H as (sy1 & E & H).
  destruct (window_okb _ _) eqn:Ew; [|done].
  eapply rtc_l; [split; [by eapply sys_eval_step|by apply window_okb_ok]|by apply IH].
Qed.
End eval.

(** Four packets, numbered 65535, 0, 1 and 2.  The second and third are lost, a NACK arrives,
    and of the retransmissions the network delivers the third packet and a second copy of
    the first; a stranger's datagram comes in between. *)
Definition demo_acts : list sys_action :=
  [ASender (EvMedia [10] 0 true); ASender (EvMedia [11] 1 true); ASender (EvMedia [12] 2 true);
   ASender (EvMedia [13] 3 true); ADrain; ADrain; ADrain; ADrain;
   ABurst demo_stranger [inl 0%nat; inr [128; 33; 0; 7; 0; 0; 0; 0; 0; 0; 0; 0; 99]; inl 3%nat];
   ARecv; ARecv; ARecv;
   ASender (EvRtcp demo_nack demo_receiver 5 (λ _, 6) (λ _, true));
   ATick 500; ABurst demo_stranger [inl 6%nat; inl 4%nat]; ARecv; ARecv; ARecv; ATick 5000] ++
  replicate 14 ADrain.

