(* ===== verification/Examples.v ===== *)
(** * The example programs (rist-transport/examples)

    Each program reads its arguments, creates sockets and enters a loop; the set-up is one
    definition and the body of the loop another.  The UDP sockets of the interop programs
    are tokio's: [udp_bind] and [udp_connect] are arguments, and so is what a [recv_from]
    yields and whether a [send] succeeds.  The state of the operating system is passed along;
    an error ends the program, and with it everything it opened.  A turn that waits is
    [Pending]. *)

From Stdlib Require Import String.
From S2P Require Import Prelude Float64 Rtp RtcpCodec Retransmit Rtt RtcpState Guard Channel Config Net Sender SenderProps Receiver Socket.
Local Open Scope Z_scope.

(** What ends a program early ([anyhow::Error]). *)
Inductive app_error : Type :=
  | AddrParse
  | UdpIo
  | ChannelFailed (e : ChannelError)
  | SendFailed (data : bytes).

(** [s.parse()?] *)
Definition parse_addr (s : bytes) : SocketAddr + app_error :=
  match SocketAddr_from_str s with Some a => inl a | None => inr AddrParse end.

(** [strip_prefix] *)
Fixpoint strip_prefix (prefix s : bytes) : option bytes :=
  match prefix, s with
  | [], s => Some s
  | c :: prefix, d :: s => if c =? d then strip_prefix prefix s else None
  | _ :: _, [] => None
  end.

(** [args.iter().position(|a| a == flag).and_then(|i| args.get(i + 1))] *)
Definition arg_after (flag : bytes) (args : list bytes) : option bytes :=
  '(i, _) ← list_find (λ a, a = flag) args; args !! S i.

(** [RistSocketConfig { local_addr, ..Default::default() }] *)
Definition config_at (local_addr : SocketAddr) : RistSocketConfig :=
  let d := RistSocketConfig_default in
  mkRistSocketConfig local_addr (cf_remote_addr d) (cf_buffer_size d) (cf_max_nack_retries d)
    (cf_rtcp_interval d) (cf_cname d) (cf_retransmit_buffer_capacity d) (cf_rtt_echo_enabled d).

(** [count.is_multiple_of(every)] guards a line of output. *)
Definition report (every count len : Z) : option (Z * Z) :=
  if count mod every =? 0 then Some (count, len) else None.

Section programs.
  Context {Sock Os : Type} (os : udp_os Sock Os).
  Context {ChS ChR : Type} `{!Mpsc ChS bytes} `{!Mpsc ChR RistDelivered}.
  Context {Udp : Type} (udp_bind : SocketAddr → Os → option Udp * Os)
    (udp_connect : Udp → SocketAddr → Os → option Udp * Os).

(** What the tasks read when they start: random draws, clocks and their local address as text;
    [sr_epoch] is the receiver's second clock reading. *)
Record start := mkStart {
  sr_random_ssrc : Z; sr_random_seq : Z; sr_now : Z; sr_now_system : Z; sr_epoch : Z; sr_local_name : bytes
}.

Definition new_sender (local remote : SocketAddr) (st : start) (w : shared) (o : Os)
    : ((RistSocket ChS ChR * spawned (Sender RetransmitBuffer) * shared) + app_error) * Os :=
  match RistSocket_sender os (config_at local) remote (sr_random_ssrc st) (sr_random_seq st) (sr_now st)
          (sr_now_system st) (sr_local_name st) w o with
  | (inl x, o) => (inl x, o)
  | (inr e, o) => (inr (ChannelFailed e), o)
  end.

Definition new_receiver (local : SocketAddr) (st : start) (w : shared) (o : Os)
    : ((RistSocket ChS ChR * spawned Receiver * shared) + app_error) * Os :=
  match RistSocket_receiver os (config_at local) (sr_random_ssrc st) (sr_now st) (sr_epoch st) (sr_local_name st) w o with
  | (inl x, o) => (inl x, o)
  | (inr e, o) => (inr (ChannelFailed e), o)
  end.

(** ** sender.rs *)

Definition sender_setup (args : list bytes) (st : start) (w : shared) (o : Os)
    : ((RistSocket ChS ChR * spawned (Sender RetransmitBuffer) * shared) + app_error) * Os :=
  match parse_addr (default (str "127.0.0.1:5000") (args !! 1%nat)) with
  | inr e => (inr e, o)
  | inl remote =>
      match parse_addr (str "0.0.0.0:6000") with
      | inr e => (inr e, o)
      | inl local => new_sender local remote st w o
      end
  end.

(** [vec![0x47u8; 1316]] with the counter in bytes 1 and 2. *)
Definition test_payload (counter : Z) : bytes :=
  <[2%nat := as_u8 counter]> (<[1%nat := as_u8 (Z.shiftr counter 8)]> (replicate 1316 71)).

(** The loop: the socket and the u32 counter, which wraps in the release profile. *)
Definition sender_turn (s : RistSocket ChS ChR * Z) : poll ((RistSocket ChS ChR * Z) + app_error) :=
  let '(socket, counter) := s in
  match RistSocket_send socket (test_payload counter) with
  | Pending => Pending
  | Ready (inr data) => Ready (inr (SendFailed data))
  | Ready (inl socket) => Ready (inl (socket, as_u32 (counter + 1)))
  end.

(** ** receiver.rs *)

Definition receiver_setup (args : list bytes) (st : start) (w : shared) (o : Os)
    : ((RistSocket ChS ChR * spawned Receiver * shared) + app_error) * Os :=
  match parse_addr (default (str "0.0.0.0:5000") (args !! 1%nat)) with
  | inr e => (inr e, o)
  | inl bind => new_receiver bind st w o
  end.

(** [None]: the loop ends and the program returns [Ok].  The last component is the line printed. *)
Definition receiver_turn (s : RistSocket ChS ChR * Z) : poll (option (RistSocket ChS ChR * Z * option (Z * Z))) :=
  let '(socket, count) := s in
  match RistSocket_recv socket with
  | Pending => Pending
  | Ready (_, None) => Ready None
  | Ready (socket, Some data) =>
      let count := as_u64 (count + 1) in Ready (Some (socket, count, report 1000 count (blen data)))
  end.

(** ** interop_sender.rs *)

Definition interop_sender_setup (args : list bytes) (st : start) (w : shared) (o : Os)
    : ((Udp * (RistSocket ChS ChR * spawned (Sender RetransmitBuffer) * shared)) + app_error) * Os :=
  match parse_addr (default (str "0.0.0.0:5000") (arg_after (str "--input") args ≫= strip_prefix (str "udp://"))) with
  | inr e => (inr e, o)
  | inl udp_input =>
      match parse_addr (default (str "127.0.0.1:6000") (arg_after (str "--output") args)) with
      | inr e => (inr e, o)
      | inl rist_output =>
          match udp_bind udp_input o with
          | (None, o) => (inr UdpIo, o)
          | (Some udp_rx, o) =>
              match parse_addr (str "0.0.0.0:6010") with
              | inr e => (inr e, o)
              | inl rist_local =>
                  match new_sender rist_local rist_output st w o with
                  | (inr e, o) => (inr e, o)
                  | (inl x, o) => (inl (udp_rx, x), o)
                  end
              end
          end
      end
  end.

(** The buffer of [recv_from]: a longer datagram is cut. *)
Definition INTEROP_BUF : nat := 2048.

(** What [recv_from] gives: a datagram, or an error.  The last component is the line printed. *)
Definition interop_sender_turn (s : RistSocket ChS ChR * Z) (received : option bytes)
    : poll ((RistSocket ChS ChR * Z * option Z) + app_error) :=
  let '(rist, packets) := s in
  match received with
  | None => Ready (inr UdpIo)
  | Some datagram =>
      let data := take INTEROP_BUF datagram in
      match RistSocket_send rist data with
      | Pending => Pending
      | Ready (inr d) => Ready (inr (SendFailed d))
      | Ready (inl rist) =>
          let packets := as_u64 (packets + 1) in
          Ready (inl (rist, packets, fst <$> report 5000 packets 0))
      end
  end.

(** ** interop_receiver.rs *)

Definition interop_receiver_setup (args : list bytes) (st : start) (w : shared) (o : Os)
    : ((Udp * (RistSocket ChS ChR * spawned Receiver * shared)) + app_error) * Os :=
  match parse_addr (default (str "0.0.0.0:6000") (arg_after (str "--bind") args)) with
  | inr e => (inr e, o)
  | inl rist_bind =>
      match parse_addr (default (str "127.0.0.1:7000") (arg_after (str "--output") args ≫= strip_prefix (str "udp://"))) with
      | inr e => (inr e, o)
      | inl udp_output =>
          match new_receiver rist_bind st w o with
          | (inr e, o) => (inr e, o)
          | (inl x, o) =>
              match udp_bind (SocketAddr_new (V4 0) 0) o with
              | (None, o) => (inr UdpIo, o)
              | (Some udp_tx, o) =>
                  match udp_connect udp_tx udp_output o with
                  | (None, o) => (inr UdpIo, o)
                  | (Some udp_tx, o) => (inl (udp_tx, x), o)
                  end
              end
          end
      end
  end.

(** [sent] is the outcome of the UDP [send], which is ignored; the third component is what went
    out, the last one the line printed. *)
Definition interop_receiver_turn (s : RistSocket ChS ChR * Z) (sent : bool)
    : poll (option (RistSocket ChS ChR * Z * option bytes * option (Z * Z))) :=
  let '(rist, packets) := s in
  match RistSocket_recv rist with
  | Pending => Pending
  | Ready (_, None) => Ready None
  | Ready (rist, Some data) =>
      let packets := as_u64 (packets + 1) in
      Ready (Some (rist, packets, if sent then Some data else None, report 5000 packets (blen data)))
  end.
End programs.
