(* ===== verification/ExamplesProps.v ===== *)
(** * Properties of the example programs

    The test pattern of sender.rs, the arguments of the interop programs, and the chain
    UDP, interop_sender, network, interop_receiver, UDP as one system. *)

From stdpp Require Import relations.
From Stdlib Require Import String.
From S2P Require Import Prelude Float64 Rtp RtcpCodec Reorder ReorderSpec ReorderProps Retransmit Rtt RtcpState Guard Channel Config Net Sender SenderProps Receiver ReceiverProps Threads ThreadsProps ThreadsOrder Socket SocketProps EndToEnd Examples.
Local Open Scope Z_scope.

(** ** What a channel operation that returns has done *)

Section chan.
  Context {Ch A : Type} `{!Mpsc Ch A} `{!MpscLaws Ch A}.

Lemma mp_send_inv c (a : A) c' : mp_send c a = Ready (inl c') → mp_queue c' = mp_queue c ++ [a].
Proof using Type*.
  destruct (mp_rx_open c) eqn:Er; [|by rewrite mp_send_closed]. intros E.
  destruct (decide (length (mp_queue c) < mp_capacity c)%nat) as [Hlt|Hge].
  - destruct (mp_send_room c a Er Hlt) as (c1 & E1 & Hq & _). rewrite E1 in E. by injection E as <-.
  - by rewrite mp_send_full in E by (done || lia).
Qed.

Lemma mp_recv_inv c c' (a : A) : mp_recv c = Ready (c', Some a) → mp_queue c = a :: mp_queue c'.
Proof using Type*.
  intros E. destruct (mp_queue c) as [|b q] eqn:Eq.
  - destruct (mp_tx_open c) eqn:Et; [by rewrite mp_recv_wait in E|by rewrite mp_recv_end in E].
  - destruct (mp_recv_some c b q Eq) as (c1 & E1 & Hq & _). rewrite E1 in E. injection E as -> ->. by rewrite Hq.
Qed.
End chan.

(** ** The test pattern of sender.rs *)

Section pattern.
  Context {ChS ChR : Type} `{!Mpsc ChS bytes} `{!MpscLaws ChS bytes}.

(** The program makes a turn; the task takes a payload. *)
Inductive pattern_step : RistSocket ChS ChR * Z * list bytes → RistSocket ChS ChR * Z * list bytes → Prop :=
  | pattern_turn s taken s' : sender_turn s = Ready (inl s') → pattern_step (s, taken) (s', taken)
  | pattern_take sk n taken c c' payload :
      sk_sender sk = Some c → mp_recv c = Ready (c', Some payload) →
      pattern_step (sk, n, taken) (with_sender sk c', n, taken ++ [payload]).

Definition test_stream (k : nat) : list bytes := map (λ i, test_payload (as_u32 (Z.of_nat i))) (seq 0 k).

Lemma test_stream_S k : test_stream (S k) = test_stream k ++ [test_payload (as_u32 (Z.of_nat k))].
Proof. unfold test_stream. by rewrite seq_S, map_app. Qed.

(** A payload is seven transport packets long, starts with the sync byte, and carries the low
    16 bits of the counter. *)
Lemma test_payload_spec n :
  is_u32 n → length (test_payload n) = (7 * 188)%nat ∧
  ∃ b1 b2 rest, test_payload n = 71 :: b1 :: b2 :: rest ∧ rest = replicate 1313 71 ∧
    256 * b1 + b2 = n mod 65536.
Proof.
  intros Hn. split; [unfold test_payload; by rewrite !length_insert, length_replicate|].
  exists (as_u8 (Z.shiftr n 8)), (as_u8 n), (replicate 1313 71). split; [done|]. split; [done|].
  rewrite Z.shiftr_div_pow2 by lia. unfold as_u8. clear -Hn. ulia.
Qed.

(** The example sender sends its test pattern in order: after any interleaving of its loop
    with the task that empties the channel, the payloads taken so far and those still queued
    are the first [k] payloads of the pattern, where the 32-bit counter stands at [k]
    modulo 2^32; each is seven transport packets long, starts with the sync byte 0x47 and
    carries the counter modulo 2^16 in its next two bytes. *)
Theorem test_pattern_in_order (sk : RistSocket ChS ChR) (c : ChS) (s : RistSocket ChS ChR * Z * list bytes) :
  sk_sender sk = Some c → mp_queue c = [] → rtc pattern_step (sk, 0, []) s →
  ∃ c' k, sk_sender s.1.1 = Some c' ∧ s.1.2 = as_u32 (Z.of_nat k) ∧ s.2 ++ mp_queue c' = test_stream k ∧
    ∀ i p, (s.2 ++ mp_queue c') !! i = Some p →
      ∃ b1 b2, p = 71 :: b1 :: b2 :: replicate 1313 71 ∧ 256 * b1 + b2 = Z.of_nat i mod 65536.
Proof using MpscLaws0.
  intros Hc Hq Hrun.
  assert (Hok : ∃ c' k, sk_sender s.1.1 = Some c' ∧ s.1.2 = as_u32 (Z.of_nat k) ∧ s.2 ++ mp_queue c' = test_stream k).
  { assert (H0 : ∃ c' k, sk_sender (sk, 0, @nil bytes).1.1 = Some c' ∧ (sk, 0, @nil bytes).1.2 = as_u32 (Z.of_nat k) ∧
      (sk, 0, @nil bytes).2 ++ mp_queue c' = test_stream k) by (exists c, 0%nat; by rewrite Hq).
    revert H0. induction Hrun as [|x y z Hxy _ IH]; [done|]. intros (c1 & k & H1 & H2 & H3). apply IH. clear IH.
    destruct Hxy as [[sk1 n1] taken [sk2 n2] E|sk1 n1 taken c2 c3 payload E1 E2]; cbn [fst snd] in *.
    - unfold sender_turn, RistSocket_send in E. rewrite H1 in E. destruct (mp_send c1 _) as [[c2|]|] eqn:Em; try done.
      injection E as <- <-. exists c2, (S k). split; [done|]. rewrite (mp_send_inv _ _ _ Em), app_assoc, H3, test_stream_S, H2.
      split; [|done]. unfold as_u32. clear. ulia.
    - exists c3, k. split; [done|]. split; [done|]. rewrite E1 in H1. injection H1 as ->.
      rewrite (mp_recv_inv _ _ _ E2) in H3. by rewrite <- app_assoc. }
  destruct Hok as (c' & k & H1 & H2 & H3). exists c', k. split_and!; [done..|]. rewrite H3. intros i p Hp.
  apply list_lookup_fmap_Some in Hp as (j & -> & Hj). apply lookup_seq in Hj as [-> _].
  destruct (test_payload_spec (as_u32 (Z.of_nat (0 + i)))) as (_ & b1 & b2 & rest & -> & -> & Hb); [unfold as_u32; ulia|].
  exists b1, b2. split; [done|]. rewrite Hb. unfold as_u32. cbn [Nat.add]. clear. ulia.
Qed.
End pattern.

(** Two turns of the program, the task takes the first payload. *)
Lemma test_pattern_in_order_witness :
  ∃ s : RistSocket (list_chan bytes) (list_chan RistDelivered) * Z * list bytes,
    rtc pattern_step (demo_sk, 0, []) s ∧ s.1.2 = 2 ∧ s.2 = [test_payload 0] ∧
    ∃ c, sk_sender s.1.1 = Some c ∧ s.2 ++ mp_queue c = test_stream 2.
Proof.
  set (two := sent_socket (sent_socket demo_sk (test_payload 0)) (test_payload 1)).
  assert (HP : rtc pattern_step (demo_sk, 0, []) (with_sender two (demo_chan [test_payload 1]), 2, [test_payload 0])).
  { eapply rtc_l; [apply (pattern_turn (demo_sk, 0) [] (sent_socket demo_sk (test_payload 0), 1)); vm_compute; reflexivity|].
    eapply rtc_l; [apply (pattern_turn (_, 1) [] (two, 2)); vm_compute; reflexivity|].
    eapply rtc_l; [|apply rtc_refl].
    apply (pattern_take two 2 [] (demo_chan [test_payload 0; test_payload 1]) _ (test_payload 0));
      vm_compute; reflexivity. }
  destruct (test_pattern_in_order demo_sk (demo_chan []) _ ltac:(vm_compute; reflexivity) ltac:(reflexivity) HP) as (c & k & H1 & H2 & H3 & _).
  eexists. split; [exact HP|]. split; [reflexivity|]. split; [reflexivity|]. exists c. split; [exact H1|].
  injection H1 as <-. vm_compute. reflexivity.
Defined.

Lemma sublist_map {A B} (f : A → B) l k : l `sublist_of` k → map f l `sublist_of` map f k.
Proof. induction 1; cbn; by constructor. Qed.

Section chain.
  Context {Sock Os : Type} (os : udp_os Sock Os).
  Context {ChS ChR : Type} `{!Mpsc ChS bytes} `{!Mpsc ChR RistDelivered}.
  Context `{!MpscLaws ChS bytes} `{!MpscLaws ChR RistDelivered}.
  Context {Udp : Type} (udp_bind : SocketAddr → Os → option Udp * Os)
    (udp_connect : Udp → SocketAddr → Os → option Udp * Os).

(** The two programs with their counters; between them the sender task, the network and the
    threads of the receiver.  [cn_in] are the datagrams interop_sender read, [cn_out] those
    interop_receiver sent on. *)
Record chain := mkChain {
  cn_tx : RistSocket ChS ChR * Z;
  cn_sys : system RetransmitBuffer;
  cn_rx : RistSocket ChS ChR * Z;
  cn_in : list bytes;
  cn_out : list bytes
}.

(** The packet the delivery thread is about to offer to the channel, and the [try_send]. *)
Definition offered (t : threads) : option RistDelivered :=
  match th_drain t with
  | DDeliver (Delivered data seq arrival :: _) => Some (mkRistDelivered data arrival seq)
  | _ => None
  end.
Definition try_send (c : ChR) (p : RistDelivered) : ChR * bool :=
  match mp_send c p with Ready (inl c') => (c', true) | _ => (c, false) end.

(** A program makes a turn of its loop; the sender task takes a payload or handles another
    event; the delivery thread makes a step, offering a packet to the channel if it is there; the
    receive task, the clock, cancellation or a spurious wake-up; a burst of datagrams. *)
Inductive chain_step (from : SocketAddr) (epoch : Z) : chain → chain → Prop :=
  | chain_read tx sy rx inp out d sk n line :
      interop_sender_turn tx (Some d) = Ready (inl (sk, n, line)) →
      chain_step from epoch (mkChain tx sy rx inp out) (mkChain (sk, n) sy rx (inp ++ [d]) out)
  | chain_media sk n s log w t h b rx inp out c c' payload now sent s' dgs :
      sk_sender sk = Some c → mp_recv c = Ready (c', Some payload) →
      sender_step s (EvMedia payload now sent) = Ok (s', dgs) →
      let log' := logged s (EvMedia payload now sent) ++ log in
      chain_step from epoch (mkChain (sk, n) (mkSystem s log w t h b) rx inp out)
        (mkChain (with_sender sk c', n) (mkSystem s' log' (w ++ on_wire s' log' dgs) t h b) rx inp out)
  | chain_control tx s log w t h b rx inp out ev s' dgs :
      media_event ev = false → sender_step s ev = Ok (s', dgs) →
      chain_step from epoch (mkChain tx (mkSystem s log w t h b) rx inp out)
        (mkChain tx (mkSystem s' log (w ++ on_wire s' log dgs) t h b) rx inp out)
  | chain_drain tx s log w t h b sk n inp out c t' c' room :
      sk_receiver sk = Some c →
      (c', room) = from_option (try_send c) (c, false) (offered t) →
      drain_thread_step room t = Some t' →
      chain_step from epoch (mkChain tx (mkSystem s log w t h b) (sk, n) inp out)
        (mkChain tx (mkSystem s log w t' h b) (with_receiver sk c', n) inp out)
  | chain_thread tx s log w t h b rx inp out l t' :
      l ≠ LArrival → l ≠ LDrain → th_step l t t' →
      chain_step from epoch (mkChain tx (mkSystem s log w t h b) rx inp out)
        (mkChain tx (if inserts l t then mkSystem s log w t' (foldl advance h b) [] else mkSystem s log w t' h b) rx inp out)
  | chain_burst tx s log w t h b rx inp out items :
      th_recv t = RSelect →
      Forall (λ '(k, (buf, src, _)), src = from → (k, buf) ∈ w) items →
      omap (λ x, parsed from epoch x.2) items ≠ [] →
      chain_step from epoch (mkChain tx (mkSystem s log w t h b) rx inp out)
        (mkChain tx (mkSystem s log w
           (set_recv t (th_lock t) (RLock (omap (λ x, parsed from epoch x.2) items) (th_clock t)))
           h (own_indices from items)) rx inp out)
  | chain_write tx sy rx inp out sent sk n o line :
      interop_receiver_turn rx sent = Ready (Some (sk, n, o, line)) →
      chain_step from epoch (mkChain tx sy rx inp out) (mkChain tx sy (sk, n) inp (out ++ option_list o)).

(** A step after which the batch at hand is in the window of [windowed]. *)
Definition chain_windowed (from : SocketAddr) (epoch : Z) (cn cn' : chain) : Prop :=
  chain_step from epoch cn cn' ∧ window_ok (sy_high (cn_sys cn')) (sy_batch (cn_sys cn')).

(** The threads of a receiver that starts. *)
Definition threads_of (r : Receiver) (clock : Z) : threads :=
  mkThreads clock false None (rc_reorder r) DLock RSelect [] [] [] 0 (rc_stats r).
Definition chain_init (sk : RistSocket ChS ChR) (task : spawned (Sender RetransmitBuffer))
    (sk' : RistSocket ChS ChR) (task' : spawned Receiver) (clock : Z) : chain :=
  mkChain (sk, 0) (mkSystem (sw_task task) [] [] (threads_of (sw_task task') clock) None []) (sk', 0) [] [].

Definition payloads (log : list log_entry) : list bytes := map (λ '(_, _, payload), payload) (rev log).

(** Nothing is lost or reordered between a program and the task it talks to. *)
Record chain_ok (first bt : Z) (cn : chain) : Prop := {
  co_sys : sys_ok first bt (cn_sys cn);
  co_tx : ∃ c, sk_sender (cn_tx cn).1 = Some c ∧
    map (take INTEROP_BUF) (cn_in cn) = payloads (sy_log (cn_sys cn)) ++ mp_queue c;
  co_rx : ∃ c taken, sk_receiver (cn_rx cn).1 = Some c ∧
    th_sent (sy_threads (cn_sys cn)) = taken ++ mp_queue c ∧ cn_out cn `sublist_of` map rd_data taken
}.

Lemma drain_sent room t t' :
  drain_thread_step room t = Some t' →
  th_sent t' = th_sent t ++ (if room then option_list (offered t) else []).
Proof.
  unfold drain_thread_step, offered. intros E. destruct (th_drain t) as [| | | | |[u|]| | | |[|[data seq arr|] rest]|];
    try (apply bind_Some in E as ([g sc] & _ & E)); destruct room; repeat (case_match; try done); simplify_eq; cbn in *;
    simplify_eq; by rewrite ?app_nil_r.
Qed.

Lemma thread_sent l t t' : l ≠ LDrain → th_step l t t' → th_sent t' = th_sent t.
Proof.
  intros Hl Hs. destruct Hs as [room s s' E|s s' E|s u Hu|s|s batch Hr Hne Hb|s until Hd]; try done.
  revert E. unfold recv_task_step. repeat (case_match; try done); intros; by simplify_eq.
Qed.

Lemma logged_media (s : Sender RetransmitBuffer) payload now sent log :
  payloads (logged s (EvMedia payload now sent) ++ log) = payloads log ++ [payload].
Proof. unfold payloads, logged. cbn [app rev]. by rewrite map_app. Qed.

Lemma chain_step_ok from epoch first bt cn cn' :
  chain_ok first bt cn → chain_windowed from epoch cn cn' → chain_ok first bt cn'.
Proof using Type*.
  intros [Hsys (ct & Hct & Hin) (cr & taken & Hcr & Hsent & Hout)] [Hs Hw].
  destruct Hs as [tx sy rx inp out d sk n line E|sk n s log w t h b rx inp out c c' payload now sent s' dgs E1 E2 E3
    |tx s log w t h b rx inp out ev s' dgs Hev E|tx s log w t h b sk n inp out c t' c' room E1 E2 E3
    |tx s log w t h b rx inp out l t' Hl Hl' Hst|tx s log w t h b rx inp out items Hr Hi Hne
    |tx sy rx inp out sent sk n o line E]; cbn [cn_tx cn_sys cn_rx cn_in cn_out] in *.
  - destruct tx as [sk0 n0]. cbn [interop_sender_turn fst] in *. unfold RistSocket_send in E. rewrite Hct in E.
    destruct (mp_send ct _) as [[c1|]|] eqn:Em; try done. injection E as <- _ _.
    split; cbn; [done| |by eauto]. exists c1. split; [done|]. rewrite (mp_send_inv _ _ _ Em), map_app, Hin.
    by rewrite app_assoc.
  - split; cbn [cn_tx cn_sys cn_rx cn_in cn_out fst]; [| |by eauto].
    + eapply (sys_step_ok from epoch); [exact Hsys|split; [|exact Hw]].
      exact (sys_sender from epoch s log w t h b (EvMedia payload now sent) s' dgs E3).
    + exists c'. split; [done|]. cbn in Hct. rewrite E1 in Hct. injection Hct as <-.
      cbn [sy_log] in *. rewrite Hin. subst log'.
      rewrite logged_media, (mp_recv_inv _ _ _ E2). by rewrite <- app_assoc.
  - assert (Hl : logged s ev = []) by (by destruct ev). split; cbn; [|by eauto..].
    eapply (sys_step_ok from epoch); [exact Hsys|split; [|exact Hw]]. pose proof (sys_sender from epoch s log w t h b ev s' dgs E) as H.
    by rewrite Hl in H.
  - cbn in Hcr. rewrite E1 in Hcr. injection Hcr as <-. split; cbn; [|by eauto|].
    + eapply (sys_step_ok from epoch); [exact Hsys|split; [|exact Hw]].
      apply (sys_thread from epoch s log w t h b LDrain t'); [done|by econstructor].
    + exists c', taken. split; [done|]. split; [|done]. cbn in Hsent. rewrite (drain_sent _ _ _ E3), Hsent, <- app_assoc. f_equal.
      destruct (offered t) as [p|]; cbn in E2; [|by injection E2 as -> ->; rewrite app_nil_r].
      unfold try_send in E2. destruct (mp_send c p) as [[c1|]|] eqn:Em; injection E2 as -> ->; [|by rewrite app_nil_r..].
      by rewrite (mp_send_inv _ _ _ Em).
  - split; cbn; [|destruct (inserts l t); by eauto|].
    + eapply (sys_step_ok from epoch); [exact Hsys|split; [|exact Hw]]. by apply sys_thread.
    + exists cr, taken. split; [done|]. split; [|done]. rewrite <- Hsent. cbn.
      destruct (inserts l t); cbn; by apply (thread_sent l).
  - split; cbn; [|by eauto..]. eapply (sys_step_ok from epoch); [exact Hsys|split; [|exact Hw]]. by apply sys_arrival.
  - destruct rx as [sk0 n0]. cbn [interop_receiver_turn fst] in *. unfold RistSocket_recv, recv_delivered in E.
    rewrite Hcr in E. destruct (mp_recv cr) as [[c1 [p|]]|] eqn:Em; try done. cbn in E. injection E as <- _ <- _.
    split; cbn; [done|by eauto|]. exists c1, (taken ++ [p]). split; [done|].
    rewrite Hsent, (mp_recv_inv _ _ _ Em), <- app_assoc. split; [done|]. rewrite map_app.
    apply sublist_app; [done|]. destruct sent; cbn; [done|apply sublist_nil_l].
Qed.

Lemma new_sender_spec local remote st w o sk task w1 o' :
  new_sender (ChS:=ChS) (ChR:=ChR) os local remote st w o = (inl (sk, task, w1), o') →
  sk_sender sk = Some (mp_channel 256) ∧
  sw_task task = Sender_new (sr_random_ssrc st) (sr_random_seq st) (sr_local_name st) (from_millis 100) (sr_now st)
    (sr_now_system st) (RetransmitBuffer_new 2048) (RetransmitBuffer_capacity (RetransmitBuffer_new 2048)) remote true
    RistConnStats_new.
Proof.
  unfold new_sender, RistSocket_sender. destruct (RistChannel_bind os _ _) as [[ch|] o1]; [|done].
  unfold token_alloc, stats_alloc, spawn_sender. intros [= <- <- <- _]. split; [done|].
  unfold stats_load. cbn [sh_stats sw_task]. by rewrite list_lookup_middle.
Qed.

Lemma new_receiver_spec local st w o sk task w1 o' :
  new_receiver (ChS:=ChS) (ChR:=ChR) os local st w o = (inl (sk, task, w1), o') →
  sk_receiver sk = Some (mp_channel 1024) ∧ rc_reorder (sw_task task) = ReorderBuffer_new (from_millis 1000).
Proof.
  unfold new_receiver, RistSocket_receiver. destruct (RistChannel_bind os _ _) as [[ch|] o1]; [|done].
  unfold token_alloc, stats_alloc, spawn_receiver. by intros [= <- <- <- _].
Qed.

Lemma interop_sender_started args st w o udp x o' :
  interop_sender_setup os udp_bind args st w o = (inl (udp, x), o') →
  ∃ local remote o1 o2, new_sender (ChS:=ChS) (ChR:=ChR) os local remote st w o1 = (inl x, o2).
Proof.
  unfold interop_sender_setup. destruct (parse_addr _); [|done]. destruct (parse_addr _) as [remote|]; [|done].
  destruct (udp_bind _ _) as [[u|] o1]; [|done]. destruct (parse_addr _) as [local|]; [|done].
  destruct (new_sender os local remote st w o1) as [[y|] o2] eqn:E; [|done]. intros [= _ <- _].
  by exists local, remote, o1, o2.
Qed.

Lemma interop_receiver_started args st w o udp x o' :
  interop_receiver_setup os udp_bind udp_connect args st w o = (inl (udp, x), o') →
  ∃ local o1 o2, new_receiver (ChS:=ChS) (ChR:=ChR) os local st w o1 = (inl x, o2).
Proof.
  unfold interop_receiver_setup. destruct (parse_addr _) as [local|]; [|done]. destruct (parse_addr _); [|done].
  destruct (new_receiver os local st w o) as [[y|] o2] eqn:E; [|done].
  destruct (udp_bind _ _) as [[u|] o3]; [|done]. destruct (udp_connect _ _ _) as [[u'|] o4]; [|done].
  intros [= _ <- _]. by exists local, o, o2.
Qed.

Lemma chain_init_ok args args' st st' w w' o1 o2 o3 o4 udp udp' sk task w1 sk' task' w2 clock :
  is_u32 (sr_random_ssrc st) → is_u16 (sr_random_seq st) →
  interop_sender_setup os udp_bind args st w o1 = (inl (udp, (sk, task, w1)), o2) →
  interop_receiver_setup os udp_bind udp_connect args' st' w' o3 = (inl (udp', (sk', task', w2)), o4) →
  chain_ok (sr_random_seq st) (from_millis 1000) (chain_init sk task sk' task' clock).
Proof using MpscLaws0 MpscLaws1.
  intros Hr1 Hr2 (local & remote & oa & ob & Hs)%interop_sender_started (local' & oc & od & Hr)%interop_receiver_started.
  apply new_sender_spec in Hs as [Hs Et]. apply new_receiver_spec in Hr as [Hr Er].
  destruct (mp_channel_new (Ch:=ChS) (A:=bytes) 256) as [Eq1 _].
  destruct (mp_channel_new (Ch:=ChR) (A:=RistDelivered) 1024) as [Eq2 _].
  split; cbn [chain_init cn_sys cn_tx cn_rx cn_in cn_out fst].
  - unfold threads_of. rewrite Et, Er. apply system_init_ok; [done..|by apply rt_new_ok|]. intros. apply rt_get_new.
  - eexists. split; [exact Hs|]. by rewrite Eq1.
  - eexists _, []. split; [exact Hr|]. by rewrite Eq2.
Qed.

Lemma chain_ok_sublist first bt cn : chain_ok first bt cn → cn_out cn `sublist_of` map (take 2036) (cn_in cn).
Proof.
  intros [Hsys (ct & _ & Hin) (cr & taken & _ & Hsent & Hout)].
  destruct (sy_recv _ _ _ Hsys) as (tr & c & Href & Hrv).
  pose proof (delivered_sublist _ _ _ _ _ _ _ Href Hrv) as Hd. apply (sublist_map snd) in Hd. rewrite !map_map in Hd.
  assert (Ecut : map (take 2036) (cn_in cn) = map rx_payload (payloads (sy_log (cn_sys cn))) ++ map rx_payload (mp_queue ct)).
  { rewrite <- map_app, <- Hin, map_map. apply map_ext. intros d.
    etransitivity; [|symmetry; apply rx_payload_take]. by rewrite take_take. }
  etrans; [exact Hout|]. rewrite Ecut. apply sublist_inserts_r.
  etrans; [apply (sublist_inserts_r (map rd_data (mp_queue cr))); reflexivity|].
  rewrite <- map_app, <- Hsent. etrans; [exact Hd|]. unfold payloads.
  rewrite map_map. erewrite map_ext; [done|]. by intros [[? ?] ?].
Qed.


(** ** Runs by evaluation *)

Inductive chain_action : Type :=
  | CRead (datagram : bytes)
  | CMedia (now : Z)
  | CWrite
  | CSys (a : sys_action).

Definition chain_eval (from : SocketAddr) (epoch : Z) (a : chain_action) (cn : chain) : option chain :=
  let '(mkChain tx sy rx inp out) := cn in
  let '(mkSystem s log w t h b) := sy in
  match a with
  | CRead d =>
      match interop_sender_turn tx (Some d) with
      | Ready (inl (sk, n, _)) => Some (mkChain (sk, n) sy rx (inp ++ [d]) out)
      | _ => None
      end
  | CMedia now =>
      c ← sk_sender tx.1;
      match mp_recv c with
      | Ready (c', Some payload) =>
          match sender_step s (EvMedia payload now true) with
          | Ok (s', dgs) =>
              let log' := logged s (EvMedia payload now true) ++ log in
              Some (mkChain (with_sender tx.1 c', tx.2) (mkSystem s' log' (w ++ on_wire s' log' dgs) t h b) rx inp out)
          | _ => None
          end
      | _ => None
      end
  | CWrite =>
      match interop_receiver_turn rx true with
      | Ready (Some (sk, n, o, _)) => Some (mkChain tx sy (sk, n) inp (out ++ option_list o))
      | _ => None
      end
  | CSys (ASender ev) =>
      if media_event ev then None else
      match sender_step s ev with
      | Ok (s', dgs) => Some (mkChain tx (mkSystem s' log (w ++ on_wire s' log dgs) t h b) rx inp out)
      | _ => None
      end
  | CSys ADrain =>
      c ← sk_receiver rx.1;
      let '(c', room) := from_option (try_send c) (c, false) (offered t) in
      t' ← drain_thread_step room t;
      Some (mkChain tx (mkSystem s log w t' h b) (with_receiver rx.1 c', rx.2) inp out)
  | CSys a => sy' ← sys_eval from epoch a sy; Some (mkChain tx sy' rx inp out)
  end.

Lemma chain_eval_step from epoch a cn cn' : chain_eval from epoch a cn = Some cn' → chain_step from epoch cn cn'.
Proof.
  destruct cn as [[sk n] [s log w t h b] [sk' n'] inp out].
  destruct a as [d|now| |[ev| | |dt|stranger xs]]; cbn [chain_eval fst snd]; intros H.
  - destruct (interop_sender_turn _ _) as [[[[sk1 n1] l]|]|] eqn:E; try done. injection H as <-. by econstructor.
  - apply bind_Some in H as (c & Ec & H). destruct (mp_recv c) as [[c' [payload|]]|] eqn:Er; try done.
    destruct (sender_step s _) as [[s' dgs]| |] eqn:Es; try done. injection H as <-. by eapply chain_media.
  - destruct (interop_receiver_turn _ _) as [[[[[sk1 n1] o] l]|]|] eqn:E; try done. injection H as <-. by eapply chain_write.
  - destruct (media_event ev) eqn:Em; [done|]. destruct (sender_step s ev) as [[s' dgs]| |] eqn:Es; try done.
    injection H as <-. by apply (chain_control _ _ _ _ _ _ _ _ _ _ _ _ ev).
  - apply bind_Some in H as (c & Ec & H). destruct (from_option _ _ _) as [c' room] eqn:Eo.
    apply bind_Some in H as (t' & Et & [= <-]). by eapply chain_drain.
  - cbn [sys_eval] in H. apply bind_Some in H as (sy' & H & [= <-]). apply bind_Some in H as (t' & E & [= <-]).
    apply (chain_thread from epoch _ s log w t h b _ _ _ LRecv t'); [done..|by econstructor].
  - cbn [sys_eval] in H. apply bind_Some in H as (sy' & H & [= <-]). destruct (Z.leb_spec 0 dt); [|done]. injection H as <-.
    apply (chain_thread from epoch _ s log w t h b _ _ _ LTick); [done..|]. apply th_step_tick. lia.
  - apply bind_Some in H as (sy' & H & [= <-]). cbn [sys_eval] in H.
    destruct (th_recv t) eqn:Er; try done. destruct (omap _ _) as [|p ps] eqn:Ep; [done|].
    destruct (bool_decide_reflect (stranger ≠ from)) as [Hne|]; [|done]. injection H as <-. rewrite <- Ep.
    apply chain_burst; [done|by apply burst_items_ok|by rewrite Ep].
Qed.

Fixpoint chain_exec (from : SocketAddr) (epoch : Z) (acts : list chain_action) (cn : chain) : option chain :=
  match acts with
  | [] => Some cn
  | a :: acts =>
      cn' ← chain_eval from epoch a cn;
      if window_okb (sy_high (cn_sys cn')) (sy_batch (cn_sys cn')) then chain_exec from epoch acts cn' else None
  end.

Lemma chain_exec_run from epoch acts : ∀ cn cn',
  chain_exec from epoch acts cn = Some cn' → rtc (chain_windowed from epoch) cn cn'.
Proof.
  induction acts as [|a acts IH]; intros cn cn' H; [by injection H as <-|].
  cbn [chain_exec] in H. apply bind_Some in H as (cn1 & E & H).
  destruct (window_okb _ _) eqn:Ew; [|done].
  eapply rtc_l; [split; [by eapply chain_eval_step|by apply window_okb_ok]|by apply IH].
Qed.
End chain.

(** The chain with four datagrams, the last one too long for both buffers: the second is
    lost, the third lost and retransmitted. *)
Definition demo_tx_args : list bytes :=
  [str "interop_sender"; str "--output"; str "192.168.0.1:5000"; str "--input"; str "udp://0.0.0.0:5004"].
Definition demo_rx_args : list bytes := [str "interop_receiver"; str "--bind"; str "[::1]:5000"].
Definition demo_start : start := mkStart 287454020 65535 0 1700000000000000000 0 [97].
Definition demo_tx := interop_sender_setup (ChS:=list_chan bytes) (ChR:=list_chan RistDelivered) demo_os (λ a o, (Some a, o))
  demo_tx_args demo_start demo_shared [].
Definition demo_rx := interop_receiver_setup (ChS:=list_chan bytes) (ChR:=list_chan RistDelivered) demo_os (λ a o, (Some a, o))
  (λ udp _ o, (Some udp, o)) demo_rx_args demo_start demo_shared [].
Definition chain_acts : list chain_action :=
  [CRead [10]; CRead [11]; CMedia 0; CRead [12]; CMedia 1; CMedia 2; CRead (replicate 2050 13); CMedia 3] ++
  map CSys [ADrain; ADrain; ADrain; ADrain; ABurst demo_stranger [inl 0%nat; inl 3%nat]; ARecv; ARecv; ARecv;
    ASender (EvRtcp demo_nack demo_receiver 5 (λ _, 6) (λ _, true));
    ATick 500; ABurst demo_stranger [inl 6%nat; inl 4%nat]; ARecv; ARecv; ARecv; ATick (from_secs 2)] ++
  replicate 10 (CSys ADrain) ++ [CWrite] ++ replicate 4 (CSys ADrain) ++ [CWrite; CWrite].

