(* ===== verification/TestsPacket.v ===== *)
(** * The unit tests of the packet modules (rist-protocol/src/packet)

    Each [#[test]] function, translated: an assertion or an [unwrap] that fails panics, so a
    test passes when its translation is [Ok tt].  They tie the definitions to the behaviour
    the source's own tests pin down; [TestsProtocol] runs them. *)

From Stdlib Require Import Ascii String.
From S2P Require Import Prelude Seq Rtp RtcpCodec RtcpReports Sdes RtcpNack RtcpApp Rtcp Net.
Local Open Scope Z_scope.

(** ** Assertions *)

Definition unit_test : Type := exec ().

Definition assert (b : bool) : unit_test := if b then Ok tt else Panic.
Definition assert_eq {A} `{EqDecision A} (a b : A) : unit_test := assert (bool_decide (a = b)).
Definition unwrap {A} (m : exec A) : exec A :=
  match m with Ok a => Ok a | Err _ | Panic => Panic end.
Definition unwrap_option {A} (m : option A) : exec A :=
  match m with Some a => Ok a | None => Panic end.
(** [v[i]] on a vector. *)
Definition nth_item {A} (l : list A) (i : nat) : exec A := unwrap_option (l !! i).
(** The body of a test that walks a list of inputs. *)
Definition for_each {A} (l : list A) (f : A → unit_test) : unit_test :=
  foldr (λ a rest, f a ;; rest) (Ok tt) l.

#[export] Instance SenderReport_eq_dec : EqDecision SenderReport.
Proof. solve_decision. Defined.
#[export] Instance ReportBlock_eq_dec : EqDecision ReportBlock.
Proof. solve_decision. Defined.
#[export] Instance ReceiverReport_eq_dec : EqDecision ReceiverReport.
Proof. solve_decision. Defined.
#[export] Instance Sdes_eq_dec : EqDecision Sdes.
Proof. solve_decision. Defined.
#[export] Instance BitmaskNack_eq_dec : EqDecision BitmaskNack.
Proof. solve_decision. Defined.
#[export] Instance RangeNack_eq_dec : EqDecision RangeNack.
Proof. solve_decision. Defined.
#[export] Instance NackEntries_eq_dec : EqDecision NackEntries.
Proof. solve_decision. Defined.
#[export] Instance NackPacket_eq_dec : EqDecision NackPacket.
Proof. solve_decision. Defined.
#[export] Instance RttEchoRequest_eq_dec : EqDecision RttEchoRequest.
Proof. solve_decision. Defined.
#[export] Instance RttEchoResponse_eq_dec : EqDecision RttEchoResponse.
Proof. solve_decision. Defined.
#[export] Instance AppRangeNack_eq_dec : EqDecision AppRangeNack.
Proof. solve_decision. Defined.
#[export] Instance RistApp_eq_dec : EqDecision RistApp.
Proof. solve_decision. Defined.

(** ** seq.rs *)

Definition test_basic_ordering : unit_test :=
  assert (precedes (mkSeqNo 0) (mkSeqNo 1)) ;;
  assert (precedes (mkSeqNo 100) (mkSeqNo 200)) ;;
  assert (negb (precedes (mkSeqNo 200) (mkSeqNo 100))).

Definition test_wraparound : unit_test :=
  assert (precedes (mkSeqNo 65535) (mkSeqNo 0)) ;;
  assert (precedes (mkSeqNo 65534) (mkSeqNo 0)) ;;
  assert (negb (precedes (mkSeqNo 0) (mkSeqNo 65535))).

Definition test_diff : unit_test :=
  assert_eq (diff (mkSeqNo 0) (mkSeqNo 1)) 1 ;;
  assert_eq (diff (mkSeqNo 1) (mkSeqNo 0)) (-1) ;;
  assert_eq (diff (mkSeqNo 65535) (mkSeqNo 0)) 1 ;;
  assert_eq (diff (mkSeqNo 0) (mkSeqNo 65535)) (-1).

Definition test_next : unit_test :=
  assert_eq (next (mkSeqNo 0)) (mkSeqNo 1) ;;
  assert_eq (next (mkSeqNo 65535)) (mkSeqNo 0).

Definition test_add : unit_test :=
  assert_eq (seq_add (mkSeqNo 65530) 10) (mkSeqNo 4).

Definition test_half_space_boundary : unit_test :=
  assert_eq (diff (mkSeqNo 0) (mkSeqNo 32768)) (-32768) ;;
  assert_eq (diff (mkSeqNo 0) (mkSeqNo 32767)) 32767.

(** ** rtp.rs *)

Definition test_rtp_header_roundtrip : unit_test :=
  let header := new_ts 0x12345678 42 1000 in
  let bytes := RtpHeader_serialize header in
  '(parsed, size) ← unwrap (RtpHeader_parse bytes);
  assert_eq size RTP_HEADER_SIZE ;;
  assert_eq parsed header.

Definition test_rtp_packet_roundtrip : unit_test :=
  let pkt := mkRtpPacket (new_ts 0xAABBCCDD 100 90000) [0x47; 0x00; 0x00; 0x10] in
  let bytes := RtpPacket_serialize pkt in
  parsed ← unwrap (RtpPacket_parse bytes);
  assert_eq (rp_header parsed) (rp_header pkt) ;;
  assert_eq (rp_payload parsed) (rp_payload pkt).

Definition test_invalid_version : unit_test :=
  let buf := <[0%nat := 0xC0]> (repeat 0 12) in
  assert (match RtpHeader_parse buf with Err (InvalidRtpVersion v) => v =? 3 | _ => false end).

Definition test_too_short : unit_test :=
  let buf := repeat 0 4 in
  assert (match RtpHeader_parse buf with Err (PacketTooShort _ _) => true | _ => false end).

Definition test_marker_and_payload_type : unit_test :=
  let header := mkRtpHeader 2 false false 0 true 96 0 0 0 in
  let bytes := RtpHeader_serialize header in
  '(parsed, _) ← unwrap (RtpHeader_parse bytes);
  assert (rh_marker parsed) ;;
  assert_eq (rh_payload_type parsed) 96.

(** ** rtcp_sr.rs, rtcp_rr.rs, rtcp_sdes.rs *)

(** [SenderReport::SIZE]. *)
Definition SenderReport_SIZE : Z := 28.

Definition test_sr_roundtrip : unit_test :=
  let sr := mkSenderReport 0x12345678 3800000000 0x80000000 90000 1000 1316000 in
  let bytes := SenderReport_serialize sr in
  assert_eq (blen bytes) SenderReport_SIZE ;;
  body ← slice_from bytes 4;
  parsed ← unwrap (SenderReport_parse body);
  assert_eq parsed sr.

Definition test_compact_ntp : unit_test :=
  let sr := mkSenderReport 0 0x0000ABCD 0xEF120000 0 0 0 in
  assert_eq (compact_ntp sr) 0xABCDEF12.

(** The length field of a serialized sub-packet. *)
Definition length_field (bytes : list Z) : exec Z :=
  b2 ← index bytes 2; b3 ← index bytes 3; Ok (b2 * 256 + b3).

Definition test_rr_with_report_roundtrip : unit_test :=
  let rr := mkReceiverReport 0xAABBCCDD [mkReportBlock 0x12345678 25 100 50000 300 0xABCDEF12 65536] in
  let bytes := ReceiverReport_serialize rr in
  len ← length_field bytes;
  assert_eq len 7 ;;
  b0 ← index bytes 0;
  let rc := Z.land b0 0x1F in
  body ← slice_from bytes 4;
  parsed ← unwrap (ReceiverReport_parse body rc);
  assert_eq parsed rr.

Definition test_empty_rr : unit_test :=
  let rr := ReceiverReport_empty 0xDEADBEEF in
  let bytes := ReceiverReport_serialize rr in
  len ← length_field bytes;
  assert_eq len 1 ;;
  assert_eq (blen bytes) 8.

Definition test_negative_cumulative_lost : unit_test :=
  let block := mkReportBlock 1 0 (-5) 100 0 0 0 in
  let buf := ReportBlock_serialize block in
  parsed ← unwrap (ReportBlock_parse buf);
  assert_eq (rb_cumulative_lost parsed) (-5).

Definition test_sdes_roundtrip : unit_test :=
  let sdes := mkSdes 0x12345678 (str "192.168.1.100") in
  let bytes := Sdes_serialize sdes in
  assert_eq (blen bytes mod 4) 0 ;;
  body ← slice_from bytes 4;
  parsed ← unwrap (Sdes_parse body);
  assert_eq parsed sdes.

Definition test_sdes_short_cname : unit_test :=
  let sdes := mkSdes 1 (str "a") in
  let bytes := Sdes_serialize sdes in
  assert_eq (blen bytes mod 4) 0 ;;
  body ← slice_from bytes 4;
  parsed ← unwrap (Sdes_parse body);
  assert_eq parsed sdes.

Definition test_sdes_alignment : unit_test :=
  for_each (seq 0 20) (λ len,
    let cname := concat (repeat (str "x") len) in
    let bytes := Sdes_serialize (mkSdes 1 cname) in
    assert_eq (blen bytes mod 4) 0).

(** ** rtcp_app.rs *)

Definition test_rtt_echo_request_roundtrip : unit_test :=
  let req := AppRttEchoRequest (mkRttEchoRequest 0x12345678 1000 2000) in
  let bytes := RistApp_serialize req in
  assert_eq (blen bytes) 20 ;;
  b0 ← index bytes 0;
  let subtype := Z.land b0 0x1F in
  body ← slice_from bytes 4;
  parsed ← unwrap (RistApp_parse body subtype);
  assert_eq parsed req.

Definition range_nack_entry_array_is_capped : unit_test :=
  let over := MAX_RANGE_NACK_ENTRIES + 250 in
  let body := put_u32 0 ++ str "RIST" ++ concat (repeat [0x00; 0x00; 0xFF; 0xFF] (Z.to_nat over)) in
  parsed ← unwrap (RistApp_parse body RIST_APP_RANGE_NACK);
  match parsed with
  | AppRange n =>
      assert_eq (Z.of_nat (length (an_entries n))) MAX_RANGE_NACK_ENTRIES ;;
      e0 ← nth_item (an_entries n) 0;
      assert_eq e0 (0, 0xFFFF)
  | _ => Panic
  end.

Definition range_nack_keeps_every_entry_a_real_peer_can_send : unit_test :=
  for_each [200; 509] (λ count,
    let entries := map (λ i, (as_u16 i, as_u16 (i mod 7))) (seqZ 0 count) in
    let nack := AppRange (mkAppRangeNack 0x12345678 entries) in
    let bytes := RistApp_serialize nack in
    assert (blen bytes <=? 2048) ;;
    b0 ← index bytes 0;
    body ← slice_from bytes 4;
    parsed ← unwrap (RistApp_parse body (Z.land b0 0x1F));
    match parsed with
    | AppRange n => assert_eq (an_entries n) entries
    | _ => Panic
    end).

Definition test_rtt_echo_response_roundtrip : unit_test :=
  let resp := AppRttEchoResponse (mkRttEchoResponse 0xAABBCCDD 3000 4000 150) in
  let bytes := RistApp_serialize resp in
  assert_eq (blen bytes) 24 ;;
  b0 ← index bytes 0;
  let subtype := Z.land b0 0x1F in
  body ← slice_from bytes 4;
  parsed ← unwrap (RistApp_parse body subtype);
  assert_eq parsed resp.

(** ** rtcp_nack.rs *)

Definition test_bitmask_nack_roundtrip : unit_test :=
  let pkt := mkNackPacket 0xAAAA 0xBBBB (Bitmask [mkBitmaskNack 100 5; mkBitmaskNack 200 0]) in
  let bytes := NackPacket_serialize pkt in
  let payload_len := blen bytes - 4 in
  body ← slice_from bytes 4;
  parsed ← unwrap (NackPacket_parse body NACK_FMT_GENERIC payload_len);
  assert_eq parsed pkt.

Definition test_range_nack_roundtrip : unit_test :=
  let pkt := mkNackPacket 1 2 (Range [mkRangeNack 500 9; mkRangeNack 520 0]) in
  let bytes := NackPacket_serialize pkt in
  let payload_len := blen bytes - 4 in
  body ← slice_from bytes 4;
  parsed ← unwrap (NackPacket_parse body NACK_FMT_RANGE payload_len);
  assert_eq parsed pkt.

Definition test_bitmask_nack_lost_seqs : unit_test :=
  let nack := mkBitmaskNack 100 5 in
  assert_eq (BitmaskNack_lost_seqs nack) [100; 101; 103].

Definition test_range_nack_lost_seqs : unit_test :=
  let nack := mkRangeNack 500 4 in
  assert_eq (RangeNack_lost_seqs nack) [500; 501; 502; 503; 504].

Definition test_nack_builder_bitmask : unit_test :=
  let builder := mkNackListBuilder 1 2 in
  let pkt := build_bitmask builder [100; 101; 103; 200] in
  match nk_entries pkt with
  | Bitmask nacks =>
      assert_eq (length nacks) 2%nat ;;
      n0 ← nth_item nacks 0;
      assert_eq (bn_pid n0) 100 ;;
      assert_eq (bn_blp n0) 5 ;;
      n1 ← nth_item nacks 1;
      assert_eq (bn_pid n1) 200 ;;
      assert_eq (bn_blp n1) 0
  | Range _ => Panic
  end.

Definition test_nack_builder_range : unit_test :=
  let builder := mkNackListBuilder 1 2 in
  let pkt := build_range builder [100; 101; 102; 200; 201] in
  match nk_entries pkt with
  | Range nacks =>
      assert_eq (length nacks) 2%nat ;;
      n0 ← nth_item nacks 0;
      assert_eq n0 (mkRangeNack 100 2) ;;
      n1 ← nth_item nacks 1;
      assert_eq n1 (mkRangeNack 200 1)
  | Bitmask _ => Panic
  end.

(** ** rtcp.rs *)

Definition test_compound_sr_sdes : unit_test :=
  let compound :=
    [PktSenderReport (mkSenderReport 0x11111111 1000 2000 90000 500 658000);
     PktSdes (mkSdes 0x11111111 (str "10.0.0.1"))] in
  let bytes := RtcpCompound_serialize compound in
  parsed ← unwrap (RtcpCompound_parse bytes);
  assert_eq (length parsed) 2%nat ;;
  p0 ← nth_item parsed 0;
  match p0 with PktSenderReport sr => assert_eq (sr_ssrc sr) 0x11111111 | _ => Panic end ;;
  p1 ← nth_item parsed 1;
  match p1 with PktSdes sdes => assert_eq (sd_cname sdes) (str "10.0.0.1") | _ => Panic end.

Definition compound_sub_packet_count_is_bounded : unit_test :=
  let one := [0x80; RTCP_PT_APP; 0x00; 0x03] ++ put_u32 0 ++ str "RIST" ++ [0x00; 0x00; 0xFF; 0xFF] in
  assert_eq (blen one) 16 ;;
  let fill := fix fill fuel datagram :=
    match fuel with
    | O => datagram
    | S fuel' => if blen datagram + blen one <=? 2048 then fill fuel' (datagram ++ one) else datagram
    end in
  let datagram := fill 2048%nat [] in
  assert_eq (blen datagram / 16) 128 ;;
  parsed ← unwrap (RtcpCompound_parse datagram);
  assert_eq (Z.of_nat (length parsed)) MAX_RTCP_SUB_PACKETS.

Definition compound_bound_clears_a_real_receiver_compound : unit_test :=
  let compound :=
    [PktReceiverReport (ReceiverReport_empty 0x22222222);
     PktSdes (mkSdes 0x22222222 (str "10.0.0.2"));
     PktNack (mkNackPacket 0x22222222 0x11111111 (Bitmask [mkBitmaskNack 7 3]))] in
  let bytes := RtcpCompound_serialize compound in
  packets ← unwrap (RtcpCompound_parse bytes);
  let parsed := Z.of_nat (length packets) in
  assert_eq parsed 3 ;;
  assert (parsed * 8 <=? MAX_RTCP_SUB_PACKETS).

Definition test_compound_rr_sdes_nack : unit_test :=
  let compound :=
    [PktReceiverReport (mkReceiverReport 0x22222222 [mkReportBlock 0x11111111 10 5 1000 100 0 0]);
     PktSdes (mkSdes 0x22222222 (str "10.0.0.2"));
     PktNack (mkNackPacket 0x22222222 0x11111111 (Bitmask [mkBitmaskNack 990 0]))] in
  let bytes := RtcpCompound_serialize compound in
  parsed ← unwrap (RtcpCompound_parse bytes);
  assert_eq (length parsed) 3%nat.

(** Every test of the packet modules. *)
Definition packet_tests : list unit_test :=
  [test_basic_ordering; test_wraparound; test_diff; test_next; test_add; test_half_space_boundary;
   test_rtp_header_roundtrip; test_rtp_packet_roundtrip; test_invalid_version; test_too_short;
   test_marker_and_payload_type; test_sr_roundtrip; test_compact_ntp; test_rr_with_report_roundtrip;
   test_empty_rr; test_negative_cumulative_lost; test_sdes_roundtrip; test_sdes_short_cname;
   test_sdes_alignment; test_rtt_echo_request_roundtrip; range_nack_entry_array_is_capped;
   range_nack_keeps_every_entry_a_real_peer_can_send; test_rtt_echo_response_roundtrip;
   test_bitmask_nack_roundtrip; test_range_nack_roundtrip; test_bitmask_nack_lost_seqs;
   test_range_nack_lost_seqs; test_nack_builder_bitmask; test_nack_builder_range;
   test_compound_sr_sdes; compound_sub_packet_count_is_bounded;
   compound_bound_clears_a_real_receiver_compound; test_compound_rr_sdes_nack].
Lemma packet_tests_pass : Forall (λ t, t = Ok tt) packet_tests.
Proof. repeat constructor; vm_compute; reflexivity. Qed.
