(* ===== verification/TestsProtocol.v ===== *)
(** * The unit tests of the protocol modules and the guards (rist-protocol/src/protocol,
    rist-transport/src/guard.rs)

    Each [#[test]] function, translated as in [TestsPacket]; the readings of the clocks are
    arguments.  The last theorem runs every unit test of the two crates. *)

From Stdlib Require Import String.
From S2P Require Import Prelude Float64 RtcpReports Reorder Retransmit NackSched Bonding Rtt RtcpState Guard Net TestsPacket.
Local Open Scope Z_scope.

(** ** reorder.rs *)

(** [fn b(n: u8) -> Bytes] *)
Definition b (n : Z) : bytes := [n].

Definition collect (buf : ReorderBuffer) (now : Z) : exec (ReorderBuffer * list DrainItem) :=
  unwrap_option (drain_ready buf now []).

(** [data[0]] of the delivered packets. *)
Definition delivered_bytes (items : list DrainItem) : exec (list Z) :=
  foldr (λ i rest,
    match i with
    | Delivered data _ _ => d0 ← index data 0; l ← rest; Ok (d0 :: l)
    | Lost => rest
    end) (Ok []) items.

Definition assert_delivered (items : list DrainItem) (expected : list Z) : unit_test :=
  got ← delivered_bytes items;
  assert_eq got expected.

(** [buf.insert(..)] with its outcome ignored, and a loop of them. *)
Definition ins (buf : ReorderBuffer) (seq : Z) (data : bytes) (now : Z) : ReorderBuffer :=
  (insert buf seq data now).1.
Definition ins_all (buf : ReorderBuffer) (seqs : list Z) (now : Z) : ReorderBuffer :=
  foldl (λ buf s, ins buf s (b (Z.land s 0xff)) now) buf seqs.

Definition no_items (items : list DrainItem) : bool := match items with [] => true | _ => false end.

Definition in_order_delivery_after_hold (t0 : Z) : unit_test :=
  let buf := ReorderBuffer_new (from_millis 50) in
  let buf := ins buf 10 (b 1) t0 in
  let buf := ins buf 11 (b 2) t0 in
  '(buf, items) ← collect buf t0;
  assert (no_items items) ;;
  '(buf, items) ← collect buf (t0 + from_millis 50);
  assert_delivered items [1; 2].

Definition gap_filled_by_retransmit_before_timeout (t0 : Z) : unit_test :=
  let buf := ReorderBuffer_new (from_millis 100) in
  let buf := ins buf 10 (b 1) t0 in
  let buf := ins buf 12 (b 3) t0 in
  '(buf, items) ← collect buf (t0 + from_millis 40);
  assert (no_items items) ;;
  let '(buf, outcome) := insert buf 11 (b 2) (t0 + from_millis 60) in
  assert (io_recovered outcome) ;;
  '(buf, items) ← collect buf (t0 + from_millis 200);
  assert_delivered items [1; 2; 3].

Definition gap_times_out_when_retransmit_never_arrives (t0 : Z) : unit_test :=
  let buf := ReorderBuffer_new (from_millis 80) in
  let buf := ins buf 10 (b 1) t0 in
  let buf := ins buf 12 (b 3) t0 in
  '(buf, items) ← collect buf (t0 + from_millis 200);
  match items !! 0%nat with
  | Some (Delivered data _ _) => d0 ← index data 0; assert (d0 =? 1)
  | _ => Panic
  end ;;
  match items !! 1%nat with Some Lost => Ok tt | _ => Panic end ;;
  match items !! 2%nat with
  | Some (Delivered data _ _) => d0 ← index data 0; assert (d0 =? 3)
  | _ => Panic
  end.

Definition duplicate_arrivals_are_ignored (t0 : Z) : unit_test :=
  let buf := ReorderBuffer_new (from_millis 10) in
  let buf := ins buf 10 (b 1) t0 in
  let '(buf, dup) := insert buf 10 (b 99) t0 in
  assert (io_duplicate dup) ;;
  '(buf, items) ← collect buf (t0 + from_millis 20);
  assert_delivered items [1].

Definition stale_arrivals_are_rejected (t0 : Z) : unit_test :=
  let buf := ReorderBuffer_new (from_millis 20) in
  let buf := ins buf 10 (b 1) t0 in
  let buf := ins buf 11 (b 2) t0 in
  '(buf, drained) ← collect buf (t0 + from_millis 30);
  assert_delivered drained [1; 2] ;;
  let '(buf, late) := insert buf 10 (b 9) (t0 + from_millis 40) in
  assert (io_stale late).

Definition sequence_wraparound (t0 : Z) : unit_test :=
  let buf := ReorderBuffer_new (from_millis 5) in
  let buf := ins buf 65534 (b 1) t0 in
  let buf := ins buf 65535 (b 2) t0 in
  let buf := ins buf 0 (b 3) t0 in
  let buf := ins buf 1 (b 4) t0 in
  '(buf, items) ← collect buf (t0 + from_millis 10);
  assert_delivered items [1; 2; 3; 4].

(** [clock i] is the reading of the [i]-th call of [next_drain_time]. *)
Definition next_drain_time_matches_release_deadline_not_poll_cadence (t0 : Z) (clock : nat → Z) : unit_test :=
  let hold := from_millis 1000 in
  let buf := ReorderBuffer_new hold in
  let buf := ins buf 100 (b 1) t0 in
  let t1 := t0 + from_micros 2106 in
  let buf := ins buf 101 (b 2) t1 in
  deadline ← unwrap_option (next_drain_time buf (clock 0%nat));
  assert_eq deadline (t0 + hold) ;;
  '(buf, out) ← unwrap_option (drain_ready buf (deadline - from_micros 1) []);
  assert (no_items out) ;;
  '(buf, out) ← unwrap_option (drain_ready buf deadline out);
  assert_delivered out [1] ;;
  next ← unwrap_option (next_drain_time buf (clock 1%nat));
  assert_eq next (t1 + hold).

Definition next_drain_time_is_monotonic_with_arrivals (t0 : Z) (clock : nat → Z) : unit_test :=
  let buf := ReorderBuffer_new (from_millis 100) in
  assert_eq (next_drain_time buf (clock 0%nat)) None ;;
  let buf := ins buf 10 (b 1) t0 in
  assert_eq (next_drain_time buf (clock 1%nat)) (Some (t0 + from_millis 100)).

Definition overflow_flushes_oldest_not_freshest (t0 : Z) : unit_test :=
  let buf := with_capacity (from_millis 10) 64 in
  let buf := ins_all buf (seqZ 10 63) t0 in
  let '(buf, o) := insert buf 74 (b 74) t0 in
  assert (1 <=? io_overflow_flushed o) ;;
  '(buf, out) ← unwrap_option (drain_ready buf (t0 + from_millis 20) []);
  delivered ← delivered_bytes out;
  assert (bool_decide (74 ∈ delivered)) ;;
  assert (bool_decide (11 ∈ delivered)) ;;
  assert (bool_decide (10 ∉ delivered)).

Definition overflow_huge_jump_resets (t0 : Z) : unit_test :=
  let buf := with_capacity (from_millis 10) 64 in
  let buf := ins_all buf (seqZ 10 21) t0 in
  let '(buf, o) := insert buf 510 (b 99) t0 in
  assert (1 <=? io_overflow_flushed o) ;;
  '(buf, out) ← unwrap_option (drain_ready buf (t0 + from_millis 20) []);
  delivered ← delivered_bytes out;
  assert_eq delivered [99].

Definition reorder_tests (t0 : Z) : list unit_test :=
  [in_order_delivery_after_hold t0; gap_filled_by_retransmit_before_timeout t0;
   gap_times_out_when_retransmit_never_arrives t0; duplicate_arrivals_are_ignored t0;
   stale_arrivals_are_rejected t0; sequence_wraparound t0;
   next_drain_time_matches_release_deadline_not_poll_cadence t0 (λ _, t0);
   next_drain_time_is_monotonic_with_arrivals t0 (λ _, t0);
   overflow_flushes_oldest_not_freshest t0; overflow_huge_jump_resets t0].

(** ** nack_tracker.rs *)

(** [buf.get(seq).unwrap().as_ref()] *)
Definition got (buf : RetransmitBuffer) (seq : Z) : exec bytes := unwrap_option (RetransmitBuffer_get buf seq).
Definition fill (buf : RetransmitBuffer) (seqs : list Z) : RetransmitBuffer :=
  foldl (λ buf i, RetransmitBuffer_insert buf i [as_u8 i]) buf seqs.

Definition test_retransmit_buffer_o1 : unit_test :=
  let buf := RetransmitBuffer_new 8 in
  assert_eq (RetransmitBuffer_capacity buf) 8 ;;
  let buf := fill buf (seqZ 0 8) in
  g0 ← got buf 0;
  assert_eq g0 [0] ;;
  g7 ← got buf 7;
  assert_eq g7 [7] ;;
  let buf := RetransmitBuffer_insert buf 8 [8] in
  assert_eq (RetransmitBuffer_get buf 0) None ;;
  g8 ← got buf 8;
  assert_eq g8 [8].

Definition test_retransmit_buffer_stale : unit_test :=
  let buf := RetransmitBuffer_new 4 in
  let buf := RetransmitBuffer_insert buf 0 (str "a") in
  let buf := RetransmitBuffer_insert buf 4 (str "b") in
  assert_eq (RetransmitBuffer_get buf 0) None ;;
  g4 ← got buf 4;
  assert_eq g4 (str "b").

Definition test_nack_scheduler_gap_detection (clock now : Z) : unit_test :=
  let sched := NackScheduler_new 10 (from_millis 50) clock in
  let '(sched, gaps) := on_packet_received sched 0 now in
  assert_eq gaps [] ;;
  let '(sched, gaps) := on_packet_received sched 3 now in
  assert_eq gaps [1; 2] ;;
  assert_eq (pending_count sched) 2.

(** [on_packet_received] with its gaps ignored. *)
Definition recv (sched : NackScheduler) (seq now : Z) : NackScheduler := (on_packet_received sched seq now).1.

Definition test_nack_scheduler_recovery (clock now : Z) : unit_test :=
  let sched := NackScheduler_new 10 (from_millis 50) clock in
  let sched := recv sched 0 now in
  let sched := recv sched 3 now in
  let sched := on_packet_recovered sched 1 in
  assert_eq (pending_count sched) 1.

Definition test_nack_scheduler_timing (clock now : Z) : unit_test :=
  let sched := NackScheduler_new 2 (from_millis 50) clock in
  let sched := recv sched 0 now in
  let sched := recv sched 3 now in
  let '(sched, nacks) := get_pending_nacks sched now None in
  assert_eq nacks [] ;;
  let later := now + from_millis 60 in
  let '(sched, nacks) := get_pending_nacks sched later None in
  assert_eq nacks [1; 2] ;;
  let much_later := later + from_millis 60 in
  let '(sched, nacks) := get_pending_nacks sched much_later None in
  assert_eq nacks [1; 2] ;;
  let even_later := much_later + from_millis 60 in
  let '(sched, nacks) := get_pending_nacks sched even_later None in
  assert_eq nacks [] ;;
  assert_eq (pending_count sched) 0.

Definition huge_gap_resyncs_without_nack_flood (clock now : Z) : unit_test :=
  let sched := NackScheduler_new 5 (from_millis 20) clock in
  let sched := recv sched 100 now in
  let '(sched, gaps) := on_packet_received sched 5100 now in
  assert_eq gaps [] ;;
  assert_eq (pending_count sched) 0 ;;
  let '(sched, gaps) := on_packet_received sched 5103 now in
  assert_eq (length gaps) 2%nat.

Definition test_nack_scheduler_out_of_order (clock now : Z) : unit_test :=
  let sched := NackScheduler_new 10 (from_millis 50) clock in
  let sched := recv sched 0 now in
  let sched := recv sched 3 now in
  let sched := recv sched 1 now in
  assert_eq (pending_count sched) 1.

Definition test_retransmit_buffer_wraparound : unit_test :=
  let buf := RetransmitBuffer_new 2048 in
  let buf := fill buf (seqZ 65530 6) in
  let buf := fill buf (seqZ 0 5) in
  got buf 65535 ;; got buf 0 ;; got buf 4 ;; Ok tt.

Definition nack_tracker_tests (t0 : Z) : list unit_test :=
  [test_retransmit_buffer_o1; test_retransmit_buffer_stale; test_nack_scheduler_gap_detection t0 t0;
   test_nack_scheduler_recovery t0 t0; test_nack_scheduler_timing t0 t0;
   huge_gap_resyncs_without_nack_flood t0 t0; test_nack_scheduler_out_of_order t0 t0;
   test_retransmit_buffer_wraparound].

(** ** bonding.rs *)

(** A loop whose body may panic. *)
Definition for_loop {S A} (f : S → A → exec S) (l : list A) (s : S) : exec S :=
  foldl (λ m a, s ← m; f s a) (Ok s) l.

(** [merger.process(..)] with its result ignored, and with an assertion on it. *)
Definition feed (merger : BondingMerger) (seq : Z) (data : bytes) : BondingMerger :=
  (process merger seq data).1.
Definition assert_some (merger : BondingMerger) (seq : Z) (data : bytes) : exec BondingMerger :=
  let '(merger, r) := process merger seq data in
  assert (match r with Some _ => true | None => false end) ;; Ok merger.
Definition assert_none (merger : BondingMerger) (seq : Z) (data : bytes) : exec BondingMerger :=
  let '(merger, r) := process merger seq data in
  assert (match r with Some _ => false | None => true end) ;; Ok merger.

Definition test_first_packet : unit_test :=
  let merger := BondingMerger_new in
  merger ← assert_some merger 0 (str "a");
  assert_eq (bm_packets_emitted merger) 1.

Definition test_duplicate_dropped : unit_test :=
  let merger := BondingMerger_new in
  let merger := feed merger 0 (str "a") in
  merger ← assert_none merger 0 (str "a");
  assert_eq (bm_duplicates_dropped merger) 1.

Definition test_in_order : unit_test :=
  let merger := BondingMerger_new in
  merger ← for_loop (λ merger i, assert_some merger i [as_u8 i]) (seqZ 0 100) merger;
  assert_eq (bm_packets_emitted merger) 100 ;;
  assert_eq (bm_duplicates_dropped merger) 0.

Definition test_bonding_dedup : unit_test :=
  let merger := BondingMerger_new in
  merger ← for_loop (λ merger i,
    merger ← assert_some merger i [as_u8 i];
    assert_none merger i [as_u8 i]) (seqZ 0 50) merger;
  assert_eq (bm_packets_emitted merger) 50 ;;
  assert_eq (bm_duplicates_dropped merger) 50.

Definition test_gap_fill : unit_test :=
  let merger := BondingMerger_new in
  let merger := feed merger 0 (str "0") in
  let merger := feed merger 2 (str "2") in
  merger ← assert_some merger 1 (str "1");
  assert_eq (bm_packets_emitted merger) 3.

Definition test_late_packet_dropped : unit_test :=
  let merger := BondingMerger_new in
  let merger := feed merger 0 (str "0") in
  let merger := feed merger 2000 (str "2000") in
  merger ← assert_none merger 0 (str "0");
  assert_eq (bm_late_dropped merger) 1.

(** [bonding::tests::test_wraparound]. *)
Definition test_wraparound_bonding : unit_test :=
  let merger := BondingMerger_new in
  let merger := feed merger 65534 (str "a") in
  let merger := feed merger 65535 (str "b") in
  merger ← assert_some merger 0 (str "c");
  merger ← assert_some merger 1 (str "d");
  assert_eq (bm_packets_emitted merger) 4.

Definition bonding_tests : list unit_test :=
  [test_first_packet; test_duplicate_dropped; test_in_order; test_bonding_dedup; test_gap_fill;
   test_late_packet_dropped; test_wraparound_bonding].

(** ** rtt.rs *)

Definition test_rtt_first_measurement : unit_test :=
  let est := RttEstimator_new (from_secs 1) in
  let est := update_rtt est (from_millis 50) in
  assert_eq (srtt est) (Some (from_millis 50)).

Definition test_rtt_ewma : unit_test :=
  let est := RttEstimator_new (from_secs 1) in
  let est := update_rtt est (from_millis 100) in
  let est := update_rtt est (from_millis 60) in
  s ← unwrap_option (srtt est);
  assert (from_millis 60 <? s) ;;
  assert (s <? from_millis 100).

Definition test_nack_delay : unit_test :=
  let est := RttEstimator_new (from_secs 1) in
  assert_eq (nack_delay est) None ;;
  let est := update_rtt est (from_millis 80) in
  assert_eq (nack_delay est) (Some (from_millis 40)).

Definition rtt_tests : list unit_test := [test_rtt_first_measurement; test_rtt_ewma; test_nack_delay].

(** ** rtcp_state.rs *)

(** [epoch], [now] and [later] are readings of [Instant::now()]; [epoch_system] and [system]
    of [SystemTime::now()]. *)
Definition test_sender_state_sr_generation (epoch epoch_system now later system : Z) : unit_test :=
  let state := RtcpSenderState_new 0x1234 (str "test") (from_millis 100) epoch epoch_system in
  let state := on_packet_sent state 1316 90000 now in
  let state := on_packet_sent state 1316 (90000 + 3600) now in
  assert_eq (ss_packet_count state) 2 ;;
  assert_eq (ss_octet_count state) 2632 ;;
  let '(state, sr) := generate_sr state later system in
  assert_eq (sr_ssrc sr) 0x1234 ;;
  assert_eq (sr_sender_packet_count sr) 2 ;;
  assert_eq (sr_sender_octet_count sr) 2632 ;;
  assert (3786825600 <? sr_ntp_msw sr).

Definition test_system_time_to_ntp (system : Z) : unit_test :=
  let '(msw, lsw) := system_time_to_ntp system in
  assert (3786825600 <? msw).

(** [for i in ..] over one packet per 40 ms and 3600 ticks. *)
Definition receive_all (state : RtcpReceiverState) (seqs : list Z) : RtcpReceiverState :=
  foldl (λ state i, rr_on_packet_received state i (as_u32 (i * 3600)) (as_u64 (i * 40000)) false) state seqs.

Definition test_receiver_state_basic (now : Z) : unit_test :=
  let state := RtcpReceiverState_new 0x5678 (str "receiver") (from_millis 100) in
  let state := receive_all state (seqZ 0 100) in
  assert_eq (rr_packets_received state) 100 ;;
  assert_eq (rr_max_seq state) 99 ;;
  let '(state, rr) := generate_rr state now in
  assert_eq (length (rr_reports rr)) 1%nat ;;
  r0 ← nth_item (rr_reports rr) 0;
  assert_eq (rb_extended_highest_seq r0) 99.

Definition duplicates_do_not_inflate_received_or_jitter : unit_test :=
  let state := RtcpReceiverState_new 0x5678 (str "receiver") (from_millis 100) in
  let state := receive_all state (seqZ 0 50) in
  let jitter_before := rr_jitter state in
  let state := foldl (λ state i,
    rr_on_packet_received state i (as_u32 (i * 3600)) 9999999 true) state (seqZ 0 10) in
  assert_eq (rr_packets_received state) 50 ;;
  assert (negb (f64_ne (rr_jitter state) jitter_before)).

Definition test_receiver_state_with_loss (now : Z) : unit_test :=
  let state := RtcpReceiverState_new 0x5678 (str "receiver") (from_millis 100) in
  let state := receive_all state (filter (λ i, i ≠ 5) (seqZ 0 10)) in
  assert_eq (rr_packets_received state) 9 ;;
  let '(state, rr) := generate_rr state now in
  r0 ← nth_item (rr_reports rr) 0;
  assert (0 <? rb_cumulative_lost r0).

Definition test_should_send_rtcp (epoch epoch_system now : Z) : unit_test :=
  let state := RtcpSenderState_new 0x1234 (str "test") (from_millis 100) epoch epoch_system in
  assert (sender_should_send_rtcp state now).

Definition rtcp_state_tests (t0 system : Z) : list unit_test :=
  [test_sender_state_sr_generation t0 system t0 t0 system; test_system_time_to_ntp system;
   test_receiver_state_basic t0; duplicates_do_not_inflate_received_or_jitter;
   test_receiver_state_with_loss t0; test_should_send_rtcp t0 system t0].

(** ** guard.rs *)

(** [addr("o1.o2.o3.o4:port")]. *)
Definition addr (o1 o2 o3 o4 port : Z) : SocketAddr :=
  SocketAddr_new (V4 (((o1 * 256 + o2) * 256 + o3) * 256 + o4)) port.

Definition unlatched_slot_accepts_anyone (now : Z) : unit_test :=
  assert (source_allowed (addr 203 0 113 9 5000) None None None now).

Definition live_slot_does_not_move_to_a_different_ip (now : Z) : unit_test :=
  let peer := addr 198 51 100 4 5000 in
  let live := Some (now - from_secs 1) in
  assert (negb (source_allowed (addr 203 0 113 9 5000) None (Some peer) live now)) ;;
  assert (source_allowed (addr 198 51 100 4 5000) None (Some peer) live now).

Definition same_ip_port_change_is_always_allowed (now : Z) : unit_test :=
  let peer := addr 198 51 100 4 5000 in
  let live := Some now in
  assert (source_allowed (addr 198 51 100 4 41234) None (Some peer) live now).

Definition slot_releases_after_the_grace_window (now : Z) : unit_test :=
  let peer := addr 198 51 100 4 5000 in
  let stale := Some (now - PEER_TAKEOVER_GRACE - from_millis 1) in
  assert (negb (peer_is_protected stale now)) ;;
  assert (source_allowed (addr 203 0 113 9 5000) None (Some peer) stale now).

Definition a_slot_that_was_never_live_is_unprotected (now : Z) : unit_test :=
  assert (negb (peer_is_protected None now)).

Definition configured_pin_rejects_a_foreign_ip_even_when_unlatched (now : Z) : unit_test :=
  let pin := Some (sa_ip (addr 198 51 100 4 5000)) in
  assert (negb (source_allowed (addr 203 0 113 9 5000) pin None None now)) ;;
  assert (source_allowed (addr 198 51 100 4 41234) pin None None now).

Definition nack_ssrc_zero_is_accepted : unit_test :=
  assert (nack_targets_us 0 0xDEADBEEE).

Definition nack_ssrc_matches_ignoring_the_retransmit_flag : unit_test :=
  let ours := 0xDEADBEEE in
  assert (nack_targets_us ours ours) ;;
  assert (nack_targets_us (Z.lor ours 1) ours) ;;
  assert (negb (nack_targets_us (Z.lxor ours 0x01000000) ours)).

Definition budget_is_never_tighter_than_the_shipped_per_nack_cap : unit_test :=
  assert_eq (wb_retx (for_capacity 64)) MIN_RETX ;;
  assert_eq (wb_retx (for_capacity 2048)) 2048 ;;
  assert_eq (wb_retx (for_capacity 65536)) MAX_RETX.

Definition budget_drains_and_then_refuses : unit_test :=
  let b := for_capacity 512 in
  b ← for_loop (λ b (_ : Z), let '(b, ok) := charge_retx b in assert ok ;; Ok b) (seqZ 0 512) b;
  let '(b, ok) := charge_retx b in
  assert (negb ok) ;;
  assert_eq (wb_scan b) 2048.

Definition guard_tests (t0 : Z) : list unit_test :=
  [unlatched_slot_accepts_anyone t0; live_slot_does_not_move_to_a_different_ip t0;
   same_ip_port_change_is_always_allowed t0; slot_releases_after_the_grace_window t0;
   a_slot_that_was_never_live_is_unprotected t0;
   configured_pin_rejects_a_foreign_ip_even_when_unlatched t0; nack_ssrc_zero_is_accepted;
   nack_ssrc_matches_ignoring_the_retransmit_flag;
   budget_is_never_tighter_than_the_shipped_per_nack_cap; budget_drains_and_then_refuses].

(** ** Running them *)

Definition all_tests (t0 system : Z) : list unit_test :=
  packet_tests ++ reorder_tests t0 ++ nack_tracker_tests t0 ++ bonding_tests ++ rtt_tests ++
  rtcp_state_tests t0 system ++ guard_tests t0.

(** Every unit test of the two crates passes on the model: with the monotonic clock at
    1000 s and the system clock in 2023, no assertion of the 77 translated tests fails
    and none of their unwraps panics. *)
Theorem unit_tests_pass :
  length (all_tests (from_secs 1000) (from_secs 1700000000)) = 77%nat ∧
  Forall (λ t, t = Ok tt) (all_tests (from_secs 1000) (from_secs 1700000000)).
Proof.
  split; [reflexivity|]. apply Forall_app; split; [apply packet_tests_pass|].
  repeat constructor; vm_compute; reflexivity.
Qed.
